(* ===== verification/_CoqProject ===== *)
-Q . S2P
Prelude.v
byte_stream.v
wrapping_integers.v
stream_reassembler.v
stream_reassembler_proofs.v
buffer.v
parser.v
util.v
codec.v
tcp_segment.v
ethernet.v
ipv4.v
tcp_receiver.v
tcp_config.v
tcp_sender.v
tcp_sender_proofs.v
tcp_state.v
tcp_connection.v
tcp_connection_proofs.v
address.v
network_interface.v
network_interface_proofs.v
router.v
router_proofs.v
fd_adapter.v
fd_adapter_proofs.v
kernel.v
file_descriptor.v
socket.v
eventloop.v
sim_kernel.v
tcp_sponge_socket.v
tcp_connection_effects.v
tcp_sponge_socket_proofs.v
tcp_sponge_socket_contracts.v
tcp_sponge_socket_run.v
bidirectional_stream_copy.v
resolver.v
network_simulator.v
network_simulator_proofs.v
tcp_progress.v
tcp_benchmark.v
tcp_benchmark_liveness.v
format.v
udp_tcpdump.v
webget.v
cli.v
tcp_apps.v
test_map.v
doctests.v
random.v
network_delivery.v
network_simulation.v
