(* ===== verification/Prelude.v ===== *)
(** * Sponge: a verified model of the CS144 TCP/IP stack (libsponge)

    ** The program

    libsponge is a user-space TCP/IP stack.  A [ByteStream] is a bounded
    in-memory pipe.  A [StreamReassembler] turns out-of-order excerpts into
    one; [TCPReceiver] feeds it from TCP segments, [TCPSender] cuts another
    one into segments, and [TCPConnection] joins the two into an endpoint,
    whose state [TCPState] names.  Segments travel in IPv4 datagrams and
    Ethernet frames: the codecs parse and serialise [TCPSegment],
    [IPv4Datagram], [EthernetFrame] and [ARPMessage] on top of [Buffer],
    [NetParser] and [InternetChecksum].  [NetworkInterface] sends datagrams
    over Ethernet, resolving addresses with ARP; [Router] forwards between
    interfaces by longest prefix; the adapters connect a [TCPConnection] to a
    UDP socket, a TUN device or (through a [NetworkInterface]) a TAP device.
    [TCPSpongeSocket] runs a connection behind a socket: an [EventLoop] polls
    the owner's end of a socket pair and the adapter's device and calls four
    rules, over [FileDescriptor] and [Socket].  The programs under src/apps use
    the library: [bidirectional_stream_copy], for any socket, copies between it
    and the standard streams, and four programs call it with the sockets and
    options of their command lines; [webget] fetches a page; [udp_tcpdump] and
    [tun] show packets; [network_simulator] runs a router among six hosts and
    [tcp_benchmark] two connections.

    ** The files

    A file models the sources of the same name under src/libsponge (and its
    directories tcp_helpers and util); inside it, [Module X] models class X: a
    [Record t] for its fields, one definition per method under the method's
    name.  Proofs are in the [...Facts] module of the same file or of the
    file with the suffix _proofs.

    - Prelude.v: machine integers as [Z] with their wrap-around ([u8] to
      [u64], [i32]), exceptions and divergence ([outcome], with a bind
      notation), bytes and strings, the shared tactics and lemmas.
    - byte_stream.v, wrapping_integers.v, stream_reassembler(_proofs).v,
      tcp_receiver.v, tcp_config.v, tcp_sender(_proofs).v, tcp_state.v,
      tcp_connection(_proofs).v: the transport layer.
    - buffer.v, parser.v, util.v (the Internet checksum), codec.v (the
      interface of a header format, proved once for all packets),
      tcp_segment.v, ethernet.v (Ethernet and ARP), ipv4.v: the formats.
    - address.v, network_interface(_proofs).v, router(_proofs).v: the network
      layer.
    - fd_adapter(_proofs).v: tcp_over_ip, fd_adapter, tuntap_adapter and
      lossy_fd_adapter, as instances of the class [FdAdapter].
    - kernel.v: system calls as the operations of a class [Kernel], with the
      facts the code relies on as [KernelLaws]; file_descriptor.v, socket.v
      (with tun), eventloop.v: the wrappers; sim_kernel.v: an executable
      kernel that satisfies the laws.
    - tcp_sponge_socket.v: the socket for any adapter and device;
      tcp_connection_effects.v: what each call on a connection adds to its
      streams; tcp_sponge_socket_proofs.v and _contracts.v: the loop under the
      contracts of event loop, connection and adapter, and the contracts
      discharged for the four adapters; tcp_sponge_socket_run.v: a session.
    - resolver.v: names and numbers of addresses (util/address), over the C
      library's [getaddrinfo] and [getnameinfo].
    - bidirectional_stream_copy.v, network_simulator(_proofs).v,
      tcp_benchmark.v, udp_tcpdump.v, webget.v: the programs of the same names
      under src/apps; tcp_apps.v: tcp_ipv4, tcp_udp, tcp_ip_ethernet,
      tcp_native and tun, with the numbers of their command lines in cli.v.
    - network_delivery.v: a datagram on a link of the simulated network;
      network_simulation.v: every run of the simulator; tcp_progress.v: what
      one delivery between two connections achieves;
      tcp_benchmark_liveness.v: the benchmark ends.
    - format.v: what the headers' [to_string] and [summary], and [hexdump],
      print; random.v: the generator of util and its seeding.
    - test_map.v, doctests.v: the prototype under src/MyTests and the examples
      under src/doctests.

    ** Conventions

    A method that changes its object takes the object last and returns the
    new one; one that can throw returns an [outcome]: [Ret], [Raise] of an
    exception (undefined behaviour is one of them), or [Diverge] for a loop
    that does not end.  A queue the code exposes by reference is a field the
    caller replaces (the [with_...] functions).  Integers keep the width the
    code gives them, so every theorem about them covers overflow.  Loops that
    are not structural run on fuel: [unwrap] (two rounds of each loop),
    [fill_window] (the bytes buffered and three more segments), the checksum's
    folding (two rounds) and [route] (the length of each queue); out of fuel
    is [Diverge], and the theorems show that the fuel given is enough, or that
    no amount is.  The iteration order of a hash map is an argument, and
    theorems hold for every order.

    What is outside the repository is an argument or a class: random numbers,
    the result of an out-of-range shift, what a device delivers, the C
    library's address functions ([Address.NetDB], with laws that state their
    documented behaviour on IPv4 addresses and an instance that satisfies
    them).

    ** What is proved

    - Streams: [ByteStream] refines a queue of bytes; the reassembler delivers
      a prefix of the stream, within its capacity, and all of it once every
      byte has arrived.
    - TCP: [unwrap] finds the closest number; the receiver acknowledges
      exactly what it holds; the sender emits exactly its stream, within the
      window, and keeps what is not acknowledged; together they transfer a
      stream whole.  Two connections over a network that loses, reorders and
      duplicates keep each other's streams intact and never fail; they
      establish with three segments, give up, back off and linger as
      specified.
    - Formats: what is serialised is parsed back; checksums verify and detect
      corruption.
    - Network: interfaces stay consistent under any traffic and resolve each
      other; the router makes the longest-prefix decision for every iteration
      order and empties its queues; a segment crosses two Ethernet adapters,
      ARP included, as bytes.
    - System interface: [write] writes everything; the event loop ends each
      round without a busy wait when its rules keep their contract; a session
      of a socket gives its owner a prefix of the peer's stream and reports
      the end honestly; a stream copy loses nothing.  The fuel of the loops
      that wait for events counts rounds: these theorems hold for every
      number of rounds.
    - Programs: the network simulator passes its own acceptance test in every
      run in which the three interfaces on one link draw different Ethernet
      addresses (256 rounds are enough: a datagram needs at most six); the
      benchmark ends, within a number of rounds that the size of the data
      gives, with the data received and both connections closed; a segment
      that was sent in UDP is shown as it is,
      and a captured packet is read past its end only if it is truncated; a
      page is printed whole when it has no NUL; options are read back from the
      command line; the prototype of the reassembler agrees with it; the
      examples of the documentation pass.  The fuel of a program's loop counts
      its rounds: where they depend on the program's input alone the fuel
      given is shown to be enough (the benchmark, [fetch], the options, the
      extension headers), and elsewhere the theorems hold for every number.
    - Defects: several theorems state behaviour that a comment or the
      specification contradicts (counters that wrap at 2 GiB and make the
      receiver hang, datagrams lost while ARP is pending, routes that
      overwrite each other, ...).

    ** Not modelled

    The interleaving of a socket's two threads beyond what the kernel's state
    shows each of them; messages on cerr and usage messages; measuring time and
    throughput; libpcap, the C library's resolver and the kernel, which are
    arguments; the test programs and the build.
*)

From Stdlib Require Export ZArith Lia.
From Stdlib Require Import Strings.Byte.
From stdpp Require Export base tactics numbers list strings gmap.

#[export] Set Default Goal Selector "!".
Open Scope Z_scope.

(** ** Machine integers

    A C++ integer of width [w] is a [Z]; each conversion to the type is
    written out with the function of that type.  Unsigned types wrap modulo
    [2^w]; the conversion of an out-of-range value to [int] is the
    two's-complement one (what the compilers the project targets do). *)

Definition u8 (z : Z) : Z := z mod 2 ^ 8.
Definition u16 (z : Z) : Z := z mod 2 ^ 16.
Definition u32 (z : Z) : Z := z mod 2 ^ 32.
Definition u64 (z : Z) : Z := z mod 2 ^ 64.
Definition i32 (z : Z) : Z := (z + 2 ^ 31) mod 2 ^ 32 - 2 ^ 31.

(** The range of an unsigned type of [w] bits. *)
Definition in_bits (w z : Z) : Prop := 0 <= z < 2 ^ w.

Lemma u8_small z : 0 <= z < 2 ^ 8 -> u8 z = z.
Proof. apply Z.mod_small. Qed.
Lemma u16_small z : 0 <= z < 2 ^ 16 -> u16 z = z.
Proof. apply Z.mod_small. Qed.
Lemma u32_small z : 0 <= z < 2 ^ 32 -> u32 z = z.
Proof. apply Z.mod_small. Qed.
Lemma u64_small z : 0 <= z < 2 ^ 64 -> u64 z = z.
Proof. apply Z.mod_small. Qed.
Lemma i32_small z : - 2 ^ 31 <= z < 2 ^ 31 -> i32 z = z.
Proof. intros. unfold i32. rewrite Z.mod_small; lia. Qed.

Lemma u8_range z : 0 <= u8 z < 2 ^ 8.
Proof. apply Z.mod_pos_bound; lia. Qed.
Lemma u16_range z : 0 <= u16 z < 2 ^ 16.
Proof. apply Z.mod_pos_bound; lia. Qed.
Lemma u32_range z : 0 <= u32 z < 2 ^ 32.
Proof. apply Z.mod_pos_bound; lia. Qed.
Lemma u64_range z : 0 <= u64 z < 2 ^ 64.
Proof. apply Z.mod_pos_bound; lia. Qed.
(** Addition inside a signed wrap-around can be done before or after it. *)
Lemma i32_add_l a b : i32 (i32 a + b) = i32 (a + b).
Proof.
  unfold i32. f_equal.
  replace ((a + 2 ^ 31) mod 2 ^ 32 - 2 ^ 31 + b + 2 ^ 31)
    with ((a + 2 ^ 31) mod 2 ^ 32 + b) by lia.
  rewrite Zplus_mod_idemp_l. f_equal. lia.
Qed.

(** The low 32 bits of a 64-bit wrap-around. *)
Lemma u64_mod_u32 z : u64 z mod 2 ^ 32 = z mod 2 ^ 32.
Proof. apply Z.mod_mod_divide. exists (2 ^ 32). lia. Qed.

(** A [size_t] narrowed to [int]. *)
Lemma i32_u64 z : i32 (u64 z) = i32 z.
Proof.
  unfold i32. f_equal. rewrite <- Zplus_mod_idemp_l, u64_mod_u32.
  by rewrite Zplus_mod_idemp_l.
Qed.

(** [solve_u] removes the wrap-around of every in-range conversion it meets. *)
Ltac solve_u :=
  repeat first
    [ rewrite u64_small by lia | rewrite u32_small by lia
    | rewrite u16_small by lia | rewrite u8_small by lia
    | rewrite i32_small by lia ].

(** Case analysis on the next boolean comparison of integers. *)
Ltac case_cmp :=
  match goal with
  | |- context [?a <=? ?b] => destruct (Z.leb_spec a b)
  | |- context [?a <? ?b] => destruct (Z.ltb_spec a b)
  | |- context [?a =? ?b] => destruct (Z.eqb_spec a b)
  | |- context [?a >? ?b] => rewrite (Z.gtb_ltb a b)
  | |- context [?a >=? ?b] => rewrite (Z.geb_leb a b)
  end.

Ltac cmp_in H :=
  match type of H with
  | context [?a <=? ?b] => destruct (Z.leb_spec a b)
  | context [?a <? ?b] => destruct (Z.ltb_spec a b)
  | context [?a =? ?b] => destruct (Z.eqb_spec a b)
  | context [?a >? ?b] => rewrite (Z.gtb_ltb a b) in H
  | context [?a >=? ?b] => rewrite (Z.geb_leb a b) in H
  end.

(** ** Outcomes of C++ code

    A call returns, throws a standard exception, runs into undefined
    behaviour (kept apart, so that a theorem that a call returns also says
    that it is defined), or does not return. *)

Inductive exn :=
| out_of_range (what : string)
| runtime_error (what : string)
| invalid_argument (what : string)
| unix_error (attempt : string) (code : Z)
| gai_error (attempt : string) (code : Z)
| bad_optional_access
| undefined_behaviour (what : string).

Inductive outcome (A : Type) :=
| Ret (a : A)
| Raise (e : exn)
| Diverge.
Arguments Ret {A} a.
Arguments Raise {A} e.
Arguments Diverge {A}.

#[export] Instance outcome_ret : MRet outcome := @Ret.
#[export] Instance outcome_bind : MBind outcome := fun A B f m =>
  match m with
  | Ret a => f a
  | Raise e => Raise e
  | Diverge => Diverge
  end.

#[global] Instance Ret_inj {A} : Inj (=) (=) (@Ret A).
Proof. by intros x y [=]. Qed.

Lemma bind_Ret {A B} (f : A -> outcome B) m b :
  m ≫= f = Ret b <-> exists a, m = Ret a /\ f a = Ret b.
Proof.
  split.
  - destruct m; cbn; intros H; [eauto | discriminate | discriminate].
  - intros (a & -> & Ha). exact Ha.
Qed.

(** ** Bytes and strings

    A [char] or [uint8_t] of a string is a [byte]; a [std::string] is the
    list of its bytes. *)

Abbreviation byte := Corelib.Init.Byte.byte.
Abbreviation bytes := (list byte).

#[export] Instance byte_eq_decision : EqDecision byte := Byte.byte_eq_dec.

(** [uint8_t(c)] and the conversion of an integer to [uint8_t]. *)
Definition byte_val (b : byte) : Z := Z.of_N (Byte.to_N b).
Definition byte_of (z : Z) : byte :=
  match Byte.of_N (Z.to_N (u8 z)) with
  | Some b => b
  | None => Byte.x00
  end.

Lemma byte_val_range b : 0 <= byte_val b < 2 ^ 8.
Proof. unfold byte_val. pose proof (Byte.to_N_bounded b). lia. Qed.

Lemma byte_val_of z : byte_val (byte_of z) = u8 z.
Proof.
  unfold byte_val, byte_of. pose proof (u8_range z).
  destruct (Byte.of_N (Z.to_N (u8 z))) as [b|] eqn:E.
  - apply Byte.to_of_N in E. rewrite E, Z2N.id; lia.
  - apply Byte.of_N_None_iff in E. lia.
Qed.

Lemma byte_of_val b : byte_of (byte_val b) = b.
Proof.
  unfold byte_of. rewrite u8_small by apply byte_val_range.
  unfold byte_val. rewrite N2Z.id, Byte.of_to_N. reflexivity.
Qed.

#[export] Instance byte_val_inj : Inj (=) (=) byte_val.
Proof. intros x y H. rewrite <- (byte_of_val x), <- (byte_of_val y). congruence. Qed.

(** [s.size()]. *)
Definition Zlen {A} (l : list A) : Z := Z.of_nat (length l).

Lemma Zlen_nonneg {A} (l : list A) : 0 <= Zlen l.
Proof. unfold Zlen. lia. Qed.
Lemma Zlen_nil {A} : Zlen (@nil A) = 0.
Proof. reflexivity. Qed.
Lemma Zlen_cons {A} (x : A) l : Zlen (x :: l) = 1 + Zlen l.
Proof. unfold Zlen. cbn [length]. lia. Qed.
Lemma Zlen_app {A} (l k : list A) : Zlen (l ++ k) = Zlen l + Zlen k.
Proof. unfold Zlen. rewrite length_app. lia. Qed.
Lemma Zlen_take {A} n (l : list A) : Zlen (take n l) = Z.min (Z.of_nat n) (Zlen l).
Proof. unfold Zlen. rewrite length_take. lia. Qed.
Lemma Zlen_drop {A} n (l : list A) : Zlen (drop n l) = Z.max 0 (Zlen l - Z.of_nat n).
Proof. unfold Zlen. rewrite length_drop. lia. Qed.
Lemma Zlen_replicate {A} n (x : A) : Zlen (replicate n x) = Z.of_nat n.
Proof. unfold Zlen. rewrite length_replicate. lia. Qed.
Lemma Zlen_0_nil {A} (l : list A) : Zlen l = 0 -> l = [].
Proof. unfold Zlen. destruct l; cbn; [reflexivity | lia]. Qed.

Create Rewrite HintDb zlen.
#[export] Hint Rewrite @Zlen_nil @Zlen_cons @Zlen_app @Zlen_take @Zlen_drop
  @Zlen_replicate : zlen.
Ltac zlen := autorewrite with zlen in *.

(** [std::string::substr(pos, n)]. *)
Definition substr (s : bytes) (pos n : Z) : outcome bytes :=
  if pos >? Zlen s then Raise (out_of_range "basic_string::substr")
  else Ret (take (Z.to_nat (Z.min n (Zlen s))) (drop (Z.to_nat pos) s)).

Lemma substr_prefix s n : 0 <= n -> substr s 0 n = Ret (take (Z.to_nat n) s).
Proof.
  intros. unfold substr. case_cmp. case_cmp; [pose proof (Zlen_nonneg s); lia |].
  f_equal. change (Z.to_nat 0) with O. rewrite drop_0. unfold Zlen.
  destruct (Z.le_gt_cases n (Z.of_nat (length s))).
  - f_equal. lia.
  - rewrite !take_ge by lia. reflexivity.
Qed.

Lemma substr_suffix s pos n :
  0 <= pos <= Zlen s -> Zlen s <= n -> substr s pos n = Ret (drop (Z.to_nat pos) s).
Proof.
  intros. unfold substr. case_cmp. case_cmp; [lia |]. f_equal.
  unfold Zlen in *. rewrite take_ge; [reflexivity |]. rewrite length_drop. lia.
Qed.

(** [std::string::resize(n)]: truncates, or pads with NUL. *)
Definition resize (s : bytes) (n : Z) : bytes :=
  take (Z.to_nat n) s ++ replicate (Z.to_nat (n - Zlen s)) Byte.x00.

(** ** Agreement with a stream of bytes

    [agrees S i d]: the string [d], placed at index [i], is what the stream
    [S] holds there. *)

Definition agrees (S : Z -> byte) (i : Z) (d : bytes) : Prop :=
  forall k b, d !! k = Some b -> S (i + Z.of_nat k) = b.

Lemma agrees_nil S i : agrees S i [].
Proof. intros k b H. rewrite lookup_nil in H. discriminate. Qed.

Lemma agrees_app S i d1 d2 :
  agrees S i (d1 ++ d2) <-> agrees S i d1 /\ agrees S (i + Zlen d1) d2.
Proof.
  split.
  - intros H. split; intros k b Hk.
    + apply H. apply lookup_app_l_Some. exact Hk.
    + unfold Zlen. replace (i + Z.of_nat (length d1) + Z.of_nat k)
        with (i + Z.of_nat (length d1 + k)) by lia.
      apply H. rewrite lookup_app_r by lia. rewrite <- Hk. f_equal. lia.
  - intros [H1 H2] k b Hk. apply lookup_app_Some in Hk as [Hk | [Hle Hk]].
    + apply H1, Hk.
    + apply H2 in Hk. rewrite <- Hk. f_equal. unfold Zlen. lia.
Qed.

Lemma agrees_take S i n d : agrees S i d -> agrees S i (take n d).
Proof. intros H k b [Hk _]%lookup_take_Some. apply H, Hk. Qed.

Lemma agrees_drop S i n d :
  agrees S i d -> agrees S (i + Z.of_nat n) (drop n d).
Proof.
  intros H k b Hk. rewrite lookup_drop in Hk. apply H in Hk.
  rewrite <- Hk. f_equal. lia.
Qed.

Lemma agrees_drop_to S i j d :
  agrees S i d -> i <= j -> agrees S j (drop (Z.to_nat (j - i)) d).
Proof.
  intros H Hle. apply (agrees_drop S i (Z.to_nat (j - i))) in H.
  rewrite Z2Nat.id in H by lia. by replace (i + (j - i)) with j in H by lia.
Qed.

Lemma agrees_inj S i d1 d2 :
  agrees S i d1 -> agrees S i d2 -> length d1 = length d2 -> d1 = d2.
Proof.
  intros H1 H2 Hlen. apply list_eq_same_length with (length d1); [done | done |].
  intros k x y _ Hx Hy. apply H1 in Hx. apply H2 in Hy. congruence.
Qed.

Create HintDb agrees.
#[export] Hint Resolve agrees_nil agrees_take agrees_drop : agrees.
