(* ===== verification/byte_stream.v ===== *)
(** * libsponge/byte_stream.{hh,cc}: the flow-controlled in-memory byte stream

    [ByteStream] is the class as written: its counters are C [int]s, so they
    wrap at 2^31, while its accessors return [size_t].  [ByteStreamSpec] is
    the contract of the header's comments (an in-order byte stream with a
    bounded buffer), and [repr] the refinement relation between the two. *)

From S2P Require Import Prelude.

Module ByteStream.

Record t := mk {
  capacity : Z;       (* int *)
  end_ : bool;
  total_read : Z;     (* int *)
  written : Z;        (* int *)
  buffer : bytes;
  _error : bool;
}.

Definition make (cp : Z) : t := mk (i32 cp) false 0 0 [] false.

(** [capacity - buffer.size()]: the [int] is converted to [size_t]. *)
Definition remaining_capacity (s : t) : Z := u64 (capacity s - Zlen (buffer s)).

(** [written + count] is an addition of [int]s: overflow is undefined;
    [written + data.size()] is an addition of [size_t]s, converted back. *)
Definition int_add (a b : Z) : outcome Z :=
  if (- 2 ^ 31 <=? a + b) && (a + b <? 2 ^ 31) then Ret (a + b)
  else Raise (undefined_behaviour "signed integer overflow").

Definition write (data : bytes) (s : t) : outcome (Z * t) :=
  if Zlen data <=? remaining_capacity s then
    Ret (Zlen data,
         mk (capacity s) (end_ s) (total_read s) (i32 (written s + Zlen data))
            (buffer s ++ data) (_error s))
  else
    let count := i32 (remaining_capacity s) in
    sub ← substr data 0 (u64 count);
    written' ← int_add (written s) count;
    Ret (u64 count,
         mk (capacity s) (end_ s) (total_read s) written' (buffer s ++ sub) (_error s)).

Definition peek_output (len : Z) (s : t) : outcome bytes := substr (buffer s) 0 len.

Definition pop_output (len : Z) (s : t) : outcome t :=
  rest ← substr (buffer s) len (Zlen (buffer s));
  Ret (mk (capacity s) (end_ s) (i32 (total_read s + len)) (written s) rest (_error s)).

Definition read (len : Z) (s : t) : outcome (bytes * t) :=
  let l := if len >? Zlen (buffer s) then i32 (Zlen (buffer s)) else i32 len in
  res ← peek_output (u64 l) s;
  s' ← pop_output (u64 l) s;
  Ret (res, s').

Definition end_input (s : t) : t :=
  mk (capacity s) true (total_read s) (written s) (buffer s) (_error s).

Definition set_error (s : t) : t :=
  mk (capacity s) (end_ s) (total_read s) (written s) (buffer s) true.

Definition input_ended (s : t) : bool := end_ s.
Definition error (s : t) : bool := _error s.
Definition buffer_size (s : t) : Z := Zlen (buffer s).
Definition buffer_empty (s : t) : bool := if Zlen (buffer s) =? 0 then true else false.
Definition eof (s : t) : bool := input_ended s && (Zlen (buffer s) =? 0).

(** [int] converted to [size_t]. *)
Definition bytes_written (s : t) : Z := u64 (written s).
Definition bytes_read (s : t) : Z := u64 (total_read s).

End ByteStream.

(** ** The contract: every byte ever written, and how many were read *)

Module ByteStreamSpec.

Record t := mk {
  cap : nat;            (* room for unread bytes *)
  hist : bytes;         (* every byte accepted so far *)
  nread : nat;          (* how many of them were popped *)
  ended : bool;
  failed : bool;
}.

Definition unread (a : t) : bytes := drop (nread a) (hist a).
Definition room (a : t) : nat := cap a - length (unread a).

Definition write (data : bytes) (a : t) : nat * t :=
  let d := take (room a) data in
  (length d, mk (cap a) (hist a ++ d) (nread a) (ended a) (failed a)).

Definition read (len : nat) (a : t) : bytes * t :=
  let d := take len (unread a) in
  (d, mk (cap a) (hist a) (nread a + length d) (ended a) (failed a)).

Definition wf (a : t) : Prop :=
  (nread a <= length (hist a) <= nread a + cap a)%nat.

End ByteStreamSpec.

(** ** Refinement *)

Module ByteStreamFacts.
Import ByteStream.

(** The relation holds for streams of any length: the counters are the
    lengths modulo 2^32. *)
Record repr (s : t) (a : ByteStreamSpec.t) : Prop := {
  repr_wf : ByteStreamSpec.wf a;
  repr_cap : capacity s = Z.of_nat (ByteStreamSpec.cap a);
  repr_cap_int : Z.of_nat (ByteStreamSpec.cap a) < 2 ^ 31;
  repr_buffer : buffer s = ByteStreamSpec.unread a;
  repr_written : written s = i32 (Zlen (ByteStreamSpec.hist a));
  repr_read : total_read s = i32 (Z.of_nat (ByteStreamSpec.nread a));
  repr_ended : end_ s = ByteStreamSpec.ended a;
  repr_failed : _error s = ByteStreamSpec.failed a;
}.

Lemma repr_buffer_len s a :
  repr s a ->
  Zlen (buffer s) = Zlen (ByteStreamSpec.hist a) - Z.of_nat (ByteStreamSpec.nread a) /\
  0 <= Zlen (buffer s) <= capacity s /\ capacity s < 2 ^ 31.
Proof.
  intros [Hwf Hc Hci Hb _ _ _ _]. rewrite Hb, Hc. unfold ByteStreamSpec.unread.
  destruct Hwf. unfold Zlen. rewrite length_drop. lia.
Qed.

Lemma repr_make (cp : nat) :
  Z.of_nat cp < 2 ^ 31 ->
  repr (make (Z.of_nat cp)) (ByteStreamSpec.mk cp [] 0 false false).
Proof.
  intros. constructor; cbn; [unfold ByteStreamSpec.wf; cbn; lia | .. | done | done];
    unfold make, i32; cbn; try done; rewrite ?Z.mod_small; lia.
Qed.

Lemma repr_room s a :
  repr s a -> remaining_capacity s = Z.of_nat (ByteStreamSpec.room a).
Proof.
  intros H. pose proof (repr_buffer_len _ _ H). unfold remaining_capacity.
  rewrite u64_small by lia. unfold ByteStreamSpec.room.
  rewrite (repr_cap _ _ H), (repr_buffer _ _ H) in *. unfold Zlen in *. lia.
Qed.

Lemma repr_unread_snoc a d :
  ByteStreamSpec.wf a ->
  drop (ByteStreamSpec.nread a) (ByteStreamSpec.hist a ++ d) = ByteStreamSpec.unread a ++ d.
Proof. intros []. unfold ByteStreamSpec.unread. rewrite drop_app_le by lia. done. Qed.

(** Accessors agree with the history as long as it is below 2 GiB. *)
Lemma repr_bytes_written s a :
  repr s a -> Zlen (ByteStreamSpec.hist a) < 2 ^ 31 ->
  bytes_written s = Zlen (ByteStreamSpec.hist a).
Proof.
  intros H Hlt. unfold bytes_written. rewrite (repr_written _ _ H).
  pose proof (Zlen_nonneg (ByteStreamSpec.hist a)). solve_u. done.
Qed.

Lemma repr_bytes_read s a :
  repr s a -> Zlen (ByteStreamSpec.hist a) < 2 ^ 31 ->
  bytes_read s = Z.of_nat (ByteStreamSpec.nread a).
Proof.
  intros H Hlt. unfold bytes_read. rewrite (repr_read _ _ H).
  destruct (repr_wf _ _ H). unfold Zlen in Hlt. solve_u. done.
Qed.

Lemma write_refines s a data :
  repr s a -> Zlen (ByteStreamSpec.hist a) + Zlen data < 2 ^ 31 ->
  exists s', write data s = Ret (Z.of_nat (fst (ByteStreamSpec.write data a)), s') /\
             repr s' (snd (ByteStreamSpec.write data a)).
Proof.
  intros H Hlt. pose proof (repr_room _ _ H) as Hroom.
  pose proof (repr_buffer_len _ _ H) as (Hlen & Hcap & Hint).
  pose proof (repr_wf _ _ H) as Hwf. pose proof (repr_cap _ _ H) as Hc.
  pose proof (repr_buffer _ _ H) as Hb. pose proof (Zlen_nonneg data).
  pose proof (Zlen_nonneg (ByteStreamSpec.hist a)).
  assert (Hbl : Zlen (buffer s) + Z.of_nat (ByteStreamSpec.room a) = capacity s).
  { unfold ByteStreamSpec.room. rewrite Hb, Hc in *. unfold Zlen in *. lia. }
  assert (Hrepr : forall d, (length d <= ByteStreamSpec.room a)%nat ->
    Zlen d <= Zlen data ->
    repr (mk (capacity s) (end_ s) (total_read s) (i32 (Zlen (ByteStreamSpec.hist a) + Zlen d))
             (buffer s ++ d) (_error s))
         (ByteStreamSpec.mk (ByteStreamSpec.cap a) (ByteStreamSpec.hist a ++ d)
             (ByteStreamSpec.nread a) (ByteStreamSpec.ended a) (ByteStreamSpec.failed a))).
  { intros d Hd Hdl. destruct Hwf. constructor; cbn; try apply H.
    - unfold ByteStreamSpec.wf. cbn. rewrite length_app. unfold Zlen in *. lia.
    - unfold ByteStreamSpec.unread. cbn. rewrite repr_unread_snoc by done. congruence.
    - zlen. done. }
  unfold write, ByteStreamSpec.write. rewrite Hroom. cbn [fst snd].
  case_cmp.
  - assert (Htk : take (ByteStreamSpec.room a) data = data)
      by (apply take_ge; unfold Zlen in *; lia).
    rewrite Htk. eexists. split; [reflexivity |].
    rewrite (repr_written _ _ H), i32_add_l. apply Hrepr; unfold Zlen in *; lia.
  - rewrite i32_small by lia. rewrite u64_small by lia. rewrite substr_prefix by lia.
    rewrite Nat2Z.id. cbn.
    assert (Hl : length (take (ByteStreamSpec.room a) data) = ByteStreamSpec.room a)
      by (rewrite length_take; unfold Zlen in *; lia).
    rewrite Hl. unfold int_add. rewrite (repr_written _ _ H).
    rewrite i32_small by lia.
    replace (_ && _) with true by (symmetry; apply andb_true_iff; split;
      [apply Z.leb_le | apply Z.ltb_lt]; lia).
    cbn. eexists. split; [reflexivity |].
    specialize (Hrepr (take (ByteStreamSpec.room a) data)).
    unfold Zlen in Hrepr at 4. rewrite Hl in Hrepr.
    rewrite i32_small in Hrepr by lia. apply Hrepr; zlen; lia.
Qed.

Lemma peek_refines s a len :
  repr s a -> 0 <= len ->
  peek_output len s = Ret (take (Z.to_nat len) (ByteStreamSpec.unread a)).
Proof.
  intros H Hl. unfold peek_output. rewrite (repr_buffer _ _ H). by apply substr_prefix.
Qed.

Lemma pop_refines s a len :
  repr s a -> 0 <= len <= Zlen (buffer s) ->
  exists s', pop_output len s = Ret s' /\
             repr s' (snd (ByteStreamSpec.read (Z.to_nat len) a)).
Proof.
  intros H Hl. pose proof (repr_buffer_len _ _ H). unfold pop_output.
  rewrite substr_suffix by lia. cbn. eexists. split; [reflexivity |].
  pose proof (repr_buffer _ _ H) as Hb. destruct (repr_wf _ _ H).
  assert (Hd : length (take (Z.to_nat len) (ByteStreamSpec.unread a)) = Z.to_nat len).
  { rewrite length_take, <- Hb. unfold Zlen in *. lia. }
  constructor; cbn; try apply H; rewrite ?Hd.
  - unfold ByteStreamSpec.wf. cbn. unfold Zlen in *. lia.
  - rewrite Hb. unfold ByteStreamSpec.unread. cbn. by rewrite drop_drop.
  - rewrite (repr_read _ _ H), i32_add_l. f_equal. lia.
Qed.

(** Popping more than is buffered throws and changes nothing. *)
Lemma pop_output_too_long s len :
  Zlen (buffer s) < len ->
  pop_output len s = Raise (out_of_range "basic_string::substr").
Proof.
  intros. unfold pop_output, substr. case_cmp. case_cmp; [done | lia].
Qed.

Lemma read_refines s a len :
  repr s a -> 0 <= len < 2 ^ 64 ->
  exists s', read len s = Ret (fst (ByteStreamSpec.read (Z.to_nat len) a), s') /\
             repr s' (snd (ByteStreamSpec.read (Z.to_nat len) a)).
Proof.
  intros H Hl. pose proof (repr_buffer_len _ _ H) as Hlen.
  assert (Hmin : exists l, 0 <= l <= Zlen (buffer s) /\ l < 2 ^ 31 /\
    (if len >? Zlen (buffer s) then i32 (Zlen (buffer s)) else i32 len) = l /\
    ByteStreamSpec.read (Z.to_nat len) a = ByteStreamSpec.read (Z.to_nat l) a).
  { case_cmp. case_cmp.
    - exists (Zlen (buffer s)). solve_u. split_and!; try lia.
      unfold ByteStreamSpec.read. rewrite <- (repr_buffer _ _ H).
      rewrite !take_ge by (unfold Zlen in *; lia). done.
    - exists len. solve_u. split_and!; try lia; done. }
  destruct Hmin as (l & Hlb & Hl31 & Hif & Hsp). unfold read. cbv zeta. rewrite Hif, Hsp.
  rewrite u64_small by lia. rewrite (peek_refines s a) by (auto; lia). cbn.
  destruct (pop_refines s a l H Hlb) as (s' & -> & Hr). cbn. eauto.
Qed.

Lemma end_input_refines s a :
  repr s a ->
  repr (end_input s) (ByteStreamSpec.mk (ByteStreamSpec.cap a) (ByteStreamSpec.hist a)
                        (ByteStreamSpec.nread a) true (ByteStreamSpec.failed a)).
Proof. intros []. by constructor. Qed.

Lemma set_error_refines s a :
  repr s a ->
  repr (set_error s) (ByteStreamSpec.mk (ByteStreamSpec.cap a) (ByteStreamSpec.hist a)
                        (ByteStreamSpec.nread a) (ByteStreamSpec.ended a) true).
Proof. intros []. by constructor. Qed.

Lemma repr_eof s a :
  repr s a ->
  eof s = ByteStreamSpec.ended a &&
          bool_decide (ByteStreamSpec.nread a = length (ByteStreamSpec.hist a)).
Proof.
  intros H. pose proof (repr_buffer_len _ _ H) as (Hl & _). unfold eof, input_ended.
  rewrite (repr_ended _ _ H). f_equal. rewrite Hl. unfold Zlen in *.
  case_cmp; case_bool_decide; done || lia.
Qed.

(** ** Traces of operations *)

Inductive op :=
| Write (data : bytes)
| Read (len : Z)
| EndInput
| SetError.

(** What a caller sees: the number of bytes accepted, or the bytes read. *)
Inductive obs :=
| Accepted (n : Z)
| Bytes (d : bytes)
| Done.

Definition step (o : op) (s : t) : outcome (obs * t) :=
  match o with
  | Write data => '(n, s) ← write data s; Ret (Accepted n, s)
  | Read len => '(d, s) ← read len s; Ret (Bytes d, s)
  | EndInput => Ret (Done, end_input s)
  | SetError => Ret (Done, set_error s)
  end.

Definition spec_step (o : op) (a : ByteStreamSpec.t) : obs * ByteStreamSpec.t :=
  match o with
  | Write data => let '(n, a) := ByteStreamSpec.write data a in (Accepted (Z.of_nat n), a)
  | Read len => let '(d, a) := ByteStreamSpec.read (Z.to_nat len) a in (Bytes d, a)
  | EndInput => (Done, ByteStreamSpec.mk (ByteStreamSpec.cap a) (ByteStreamSpec.hist a)
                         (ByteStreamSpec.nread a) true (ByteStreamSpec.failed a))
  | SetError => (Done, ByteStreamSpec.mk (ByteStreamSpec.cap a) (ByteStreamSpec.hist a)
                         (ByteStreamSpec.nread a) (ByteStreamSpec.ended a) true)
  end.

Fixpoint run (os : list op) (s : t) : outcome (list obs * t) :=
  match os with
  | [] => Ret ([], s)
  | o :: os => '(x, s) ← step o s; '(xs, s) ← run os s; Ret (x :: xs, s)
  end.

Fixpoint spec_run (os : list op) (a : ByteStreamSpec.t) : list obs * ByteStreamSpec.t :=
  match os with
  | [] => ([], a)
  | o :: os => let '(x, a) := spec_step o a in
               let '(xs, a) := spec_run os a in (x :: xs, a)
  end.

(** Arguments of the calls are [size_t]s. *)
Definition op_ok (o : op) : Prop :=
  match o with Read len => in_bits 64 len | _ => True end.

Definition op_size (o : op) : Z := match o with Write data => Zlen data | _ => 0 end.
Fixpoint ops_size (os : list op) : Z :=
  match os with [] => 0 | o :: os => op_size o + ops_size os end.

Lemma ops_size_nonneg os : 0 <= ops_size os.
Proof.
  induction os as [|o os IH]; cbn; [lia |]. destruct o; cbn; try lia.
  pose proof (Zlen_nonneg data). lia.
Qed.

Lemma step_refines o s a :
  repr s a -> op_ok o -> Zlen (ByteStreamSpec.hist a) + op_size o < 2 ^ 31 ->
  exists s', step o s = Ret (fst (spec_step o a), s') /\ repr s' (snd (spec_step o a)) /\
    Zlen (ByteStreamSpec.hist (snd (spec_step o a))) <= Zlen (ByteStreamSpec.hist a) + op_size o.
Proof.
  intros H Hok Hlt. destruct o as [data|len| |]; cbn in *.
  - destruct (write_refines s a data H Hlt) as (s' & -> & Hr). cbn. eexists.
    split_and!; [reflexivity | exact Hr |]. zlen. lia.
  - destruct (read_refines s a len H Hok) as (s' & -> & Hr). cbn. eexists.
    split_and!; [reflexivity | exact Hr | lia].
  - eexists. split_and!; [reflexivity | by apply end_input_refines | lia].
  - eexists. split_and!; [reflexivity | by apply set_error_refines | lia].
Qed.

Lemma run_refines os : forall s a,
  repr s a -> Forall op_ok os -> Zlen (ByteStreamSpec.hist a) + ops_size os < 2 ^ 31 ->
  exists s', run os s = Ret (fst (spec_run os a), s') /\ repr s' (snd (spec_run os a)) /\
    Zlen (ByteStreamSpec.hist (snd (spec_run os a))) <= Zlen (ByteStreamSpec.hist a) + ops_size os.
Proof.
  induction os as [|o os IH]; intros s a H Hok Hlt; cbn in *.
  { eexists. split_and!; [reflexivity | done | lia]. }
  inversion Hok; subst. pose proof (ops_size_nonneg os).
  destruct (step_refines o s a H) as (s1 & -> & Hr1 & Hl1); [done | lia |]. cbn.
  destruct (spec_step o a) as [x a1]. cbn in *.
  destruct (IH s1 a1 Hr1) as (s2 & -> & Hr2 & Hl2); [done | lia |]. cbn.
  destruct (spec_run os a1) as [xs a2]. eexists. split_and!; [reflexivity | done |].
  cbn in *. lia.
Qed.


Definition sample_ops : list op :=
  [Write [Byte.x61; Byte.x62; Byte.x63]; Read 1; Write [Byte.x64; Byte.x65]; EndInput; Read 9].


(** The accounting wraps at 2 GiB: once [2^31] bytes were written, the
    [int] counter is negative and [bytes_written()] returns a number close to
    [2^64]. *)
Theorem bytes_written_wraps (s : t) (a : ByteStreamSpec.t) :
  repr s a -> 2 ^ 31 <= Zlen (ByteStreamSpec.hist a) < 2 ^ 32 ->
  bytes_written s = 2 ^ 64 - 2 ^ 32 + Zlen (ByteStreamSpec.hist a).
Proof.
  intros H Hl. unfold bytes_written. rewrite (repr_written _ _ H).
  unfold i32, u64. rewrite <- (Z.mod_add _ (-1) (2 ^ 32)) by lia.
  rewrite (Z.mod_small (_ + _ * _)) by lia.
  rewrite <- (Z.mod_add _ 1 (2 ^ 64)) by lia. rewrite Z.mod_small; lia.
Qed.

(** [n] bytes written and read through a stream with room for one byte. *)
Lemma repr_drained n :
  repr (mk 1 false (i32 (Z.of_nat n)) (i32 (Z.of_nat n)) [] false)
       (ByteStreamSpec.mk 1 (replicate n Byte.x00) n false false).
Proof.
  split; cbn [capacity end_ total_read written buffer _error ByteStreamSpec.cap
    ByteStreamSpec.hist ByteStreamSpec.nread ByteStreamSpec.ended ByteStreamSpec.failed];
    try reflexivity.
  - unfold ByteStreamSpec.wf. cbn. rewrite length_replicate. lia.
  - unfold ByteStreamSpec.unread. cbn. symmetry. apply drop_ge. rewrite length_replicate. lia.
  - by rewrite Zlen_replicate.
Qed.

Lemma bytes_written_wraps_witness :
  bytes_written (mk 1 false (i32 (2 ^ 31)) (i32 (2 ^ 31)) [] false) = 2 ^ 64 - 2 ^ 31.
Proof.
  assert (Hn : exists n, Z.of_nat n = 2 ^ 31) by (exists (Z.to_nat (2 ^ 31)); apply Z2Nat.id; lia).
  destruct Hn as [n Hn]. rewrite <- Hn at 1 2.
  rewrite (bytes_written_wraps _ _ (repr_drained n)); cbn [ByteStreamSpec.hist];
    rewrite Zlen_replicate; lia.
Defined.

End ByteStreamFacts.
