(* ===== verification/wrapping_integers.v ===== *)
(** * libsponge/wrapping_integers.{hh,cc}: 32-bit sequence numbers

    A [WrappingInt32] is its raw 32-bit value.  The two [while] loops of
    [unwrap] carry fuel; the second one does not always stop (its
    accumulator is a [uint64_t] that wraps around), which the model returns
    as [Diverge] and [unwrap_diverges] shows for every amount of fuel. *)

From S2P Require Import Prelude.

Module WrappingInt32.

Definition t := Z.
Definition of_u32 (raw : Z) : t := raw.
Definition raw_value (a : t) : Z := a.

(** [int32_t operator-(WrappingInt32, WrappingInt32)]. *)
Definition diff (a b : t) : Z := i32 (u32 (raw_value a - raw_value b)).
Definition eqb (a b : t) : bool := raw_value a =? raw_value b.
Definition neqb (a b : t) : bool := negb (eqb a b).
Definition add (a : t) (b : Z) : t := of_u32 (u32 (raw_value a + b)).
(** [WrappingInt32 operator-(WrappingInt32, uint32_t)]: [a + -b]. *)
Definition sub (a : t) (b : Z) : t := add a (u32 (- b)).

(** [1ll << 32]. *)
Definition BIG : Z := Z.shiftl 1 32.

Definition wrap (n : Z) (isn : t) : t :=
  let ISN := raw_value isn in
  let n := u64 (n + ISN) in
  let n := n mod BIG in
  of_u32 (u32 (Z.land n 0xFFFFFFFF)).

(** [while(N<ISN) N=N+BIG;] *)
Fixpoint raise_N (fuel : nat) (N ISN : Z) : outcome Z :=
  if N <? ISN then
    match fuel with
    | O => Diverge
    | S fuel => raise_N fuel (u64 (N + BIG)) ISN
    end
  else Ret N.

(** [while(checkpoint>=abs) abs=abs+BIG;] *)
Fixpoint raise_abs (fuel : nat) (checkpoint abs : Z) : outcome Z :=
  if checkpoint >=? abs then
    match fuel with
    | O => Diverge
    | S fuel => raise_abs fuel checkpoint (u64 (abs + BIG))
    end
  else Ret abs.

Definition unwrap_fuel (fuel : nat) (n isn : t) (checkpoint : Z) : outcome Z :=
  let ISN := raw_value isn in
  N ← raise_N fuel (raw_value n) ISN;
  let abs := u64 (N - ISN) in
  if abs >=? checkpoint then Ret abs
  else
    let m := u64 (checkpoint - abs) / BIG in
    let abs := u64 (abs + u64 (BIG * m)) in
    abs ← raise_abs fuel checkpoint abs;
    if abs <? BIG then Ret abs
    else if u64 (abs - checkpoint) >=? u64 (checkpoint - u64 (abs - BIG))
         then Ret (u64 (abs - BIG))
         else Ret abs.

(** Two iterations are enough for each loop whenever it stops at all
    ([unwrap_spec] and [unwrap_diverges]). *)
Definition unwrap (n isn : t) (checkpoint : Z) : outcome Z :=
  unwrap_fuel 2 n isn checkpoint.

End WrappingInt32.

Module WrappingFacts.
Import WrappingInt32.

Lemma BIG_eq : BIG = 2 ^ 32.
Proof. reflexivity. Qed.

(** [wrap] is addition modulo 2^32. *)
Lemma wrap_spec n isn : wrap n isn = (n + isn) mod 2 ^ 32.
Proof.
  unfold wrap, of_u32, raw_value, u32. rewrite BIG_eq.
  replace 0xFFFFFFFF with (Z.ones 32) by reflexivity.
  rewrite Z.land_ones by lia. rewrite !Zmod_mod. apply u64_mod_u32.
Qed.

Lemma wrap_range n isn : 0 <= wrap n isn < 2 ^ 32.
Proof. rewrite wrap_spec. apply Z.mod_pos_bound. lia. Qed.

(** The smallest absolute number that wraps to [n]. *)
Definition base (n isn : t) : Z := (n - isn) mod 2 ^ 32.

Lemma base_range n isn : 0 <= base n isn < 2 ^ 32.
Proof. apply Z.mod_pos_bound. lia. Qed.

Lemma raise_N_spec fuel n isn :
  in_bits 32 n -> in_bits 32 isn ->
  exists N, raise_N (S fuel) n isn = Ret N /\ u64 (N - isn) = base n isn.
Proof.
  unfold in_bits. intros. cbn [raise_N]. rewrite BIG_eq. unfold base. case_cmp.
  - rewrite u64_small by lia. exists (n + 2 ^ 32). split.
    + destruct fuel; cbn [raise_N]; case_cmp; done || lia.
    + rewrite u64_small by lia.
      rewrite <- (Z.mod_add (n - isn) 1) by lia. rewrite Z.mod_small; lia.
  - exists n. split; [done |]. rewrite u64_small by lia. rewrite Z.mod_small; lia.
Qed.

(** The accumulator after the [m] line: the last candidate not above the
    checkpoint. *)
Definition floor_cand (n isn : t) (cp : Z) : Z :=
  base n isn + 2 ^ 32 * ((cp - base n isn) / 2 ^ 32).

Lemma floor_cand_bounds n isn cp :
  base n isn <= cp ->
  base n isn <= floor_cand n isn cp <= cp /\ cp < floor_cand n isn cp + 2 ^ 32.
Proof.
  intros. unfold floor_cand.
  pose proof (Z.div_mod (cp - base n isn) (2 ^ 32)).
  pose proof (Z.mod_pos_bound (cp - base n isn) (2 ^ 32)).
  assert (0 <= (cp - base n isn) / 2 ^ 32) by (apply Z.div_pos; lia).
  lia.
Qed.

(** What [unwrap] computes, when the next candidate above the checkpoint is
    still a 64-bit number. *)
Definition unwrap_result (n isn : t) (cp : Z) : Z :=
  if base n isn >=? cp then base n isn
  else let f := floor_cand n isn cp in
       if f + 2 ^ 32 - cp >=? cp - f then f else f + 2 ^ 32.

Lemma unwrap_spec n isn cp :
  in_bits 32 n -> in_bits 32 isn -> in_bits 64 cp ->
  cp < 2 ^ 64 - 2 ^ 32 + base n isn ->
  unwrap n isn cp = Ret (unwrap_result n isn cp).
Proof.
  intros Hn Hi Hc Hlt. unfold unwrap, unwrap_fuel, unwrap_result, raw_value.
  destruct (raise_N_spec 1 n isn Hn Hi) as (N & -> & Hb). cbn -[raise_abs].
  rewrite Hb, BIG_eq. pose proof (base_range n isn). unfold in_bits in *.
  destruct (Z.geb_spec (base n isn) cp); [done |].
  pose proof (floor_cand_bounds n isn cp ltac:(lia)) as Hf.
  assert (Hm : u64 (base n isn + u64 (2 ^ 32 * (u64 (cp - base n isn) / 2 ^ 32)))
               = floor_cand n isn cp).
  { rewrite (u64_small (cp - base n isn)) by lia. unfold floor_cand in *.
    rewrite (u64_small (2 ^ 32 * _)) by lia. apply u64_small. lia. }
  rewrite Hm. set (f := floor_cand n isn cp) in *.
  assert (Hf' : f + 2 ^ 32 < 2 ^ 64).
  { unfold f, floor_cand.
    pose proof (Z.div_lt_upper_bound (cp - base n isn) (2 ^ 32) (2 ^ 32 - 1)). lia. }
  assert (Hloop : raise_abs 2 cp f = Ret (f + 2 ^ 32)).
  { cbn [raise_abs]. rewrite BIG_eq. rewrite u64_small by lia. case_cmp. case_cmp; [| lia].
    case_cmp. case_cmp; done || lia. }
  rewrite Hloop. cbn. rewrite (u64_small (_ - cp)), (u64_small (_ - 2 ^ 32)) by lia.
  rewrite u64_small by lia.
  replace (f + 2 ^ 32 - 2 ^ 32) with f by lia.
  case_cmp; [lia |]. case_cmp. case_cmp; done.
Qed.

(** Every candidate below or at a checkpoint this large: the loop cycles
    through the residues for ever. *)
Lemma raise_abs_stuck fuel cp abs r :
  0 <= r < 2 ^ 32 -> 2 ^ 64 - 2 ^ 32 + r <= cp ->
  in_bits 64 abs -> abs mod 2 ^ 32 = r ->
  raise_abs fuel cp abs = Diverge.
Proof.
  intros Hr Hcp. revert abs. induction fuel as [|fuel IH]; intros abs Ha Hm;
    cbn [raise_abs]; unfold in_bits in *;
    assert (abs <= cp) by (pose proof (Z.div_mod abs (2 ^ 32));
      pose proof (Z.div_lt_upper_bound abs (2 ^ 32) (2 ^ 32)); lia);
    case_cmp; case_cmp; try lia; [done |].
  apply IH; [apply u64_range |]. rewrite BIG_eq, u64_mod_u32, <- Hm.
  rewrite <- (Z.mod_add abs 1) by lia. f_equal.
Qed.

Lemma unwrap_diverges_fuel fuel n isn cp :
  in_bits 32 n -> in_bits 32 isn -> in_bits 64 cp ->
  2 ^ 64 - 2 ^ 32 + base n isn <= cp ->
  unwrap_fuel fuel n isn cp = Diverge.
Proof.
  intros Hn Hi Hc Hle. unfold unwrap_fuel, raw_value.
  assert (HN : raise_N fuel n isn = Diverge \/
               exists N, raise_N fuel n isn = Ret N /\ u64 (N - isn) = base n isn).
  { destruct fuel as [|fuel]; [| right; by apply raise_N_spec].
    cbn. unfold base, in_bits in *. case_cmp; [by left |]. right. exists n. split; [done |].
    rewrite u64_small by lia. rewrite Z.mod_small; lia. }
  destruct HN as [-> | (N & -> & Hb)]; [done |]. cbn -[raise_abs].
  rewrite Hb. pose proof (base_range n isn). unfold in_bits in *.
  destruct (Z.geb_spec (base n isn) cp); [lia |].
  rewrite (raise_abs_stuck _ _ _ (base n isn)); [done | done | done | apply u64_range |].
  rewrite u64_mod_u32, BIG_eq. rewrite <- Zplus_mod_idemp_r, u64_mod_u32, Zplus_mod_idemp_r.
  rewrite (Z.mul_comm (2 ^ 32)), Z.mod_add by lia. apply Z.mod_small. lia.
Qed.

(** Every absolute number that wraps to [n] is [base] plus a multiple of 2^32. *)
Lemma wrap_base n isn x :
  in_bits 32 n -> wrap x isn = n -> exists k, x = base n isn + 2 ^ 32 * k.
Proof.
  unfold in_bits. rewrite wrap_spec. unfold base. intros Hn <-.
  exists (x / 2 ^ 32).
  rewrite Zminus_mod_idemp_l. replace (x + isn - isn) with x by lia.
  pose proof (Z.div_mod x (2 ^ 32)). lia.
Qed.

Lemma wrap_cand n isn k :
  in_bits 32 n -> wrap (base n isn + 2 ^ 32 * k) isn = n.
Proof.
  unfold in_bits. intros. rewrite wrap_spec. unfold base.
  replace ((n - isn) mod 2 ^ 32 + 2 ^ 32 * k + isn)
    with ((n - isn) mod 2 ^ 32 + isn + k * 2 ^ 32) by lia.
  rewrite Z.mod_add by lia. rewrite Zplus_mod_idemp_l.
  replace (n - isn + isn) with n by lia. by apply Z.mod_small.
Qed.

Lemma unwrap_result_cand n isn cp :
  exists k, unwrap_result n isn cp = base n isn + 2 ^ 32 * k.
Proof.
  unfold unwrap_result, floor_cand. case_cmp. case_cmp; [exists 0; lia |]. cbv zeta.
  case_cmp. case_cmp; eexists; [reflexivity |].
  rewrite <- Z.add_assoc. f_equal.
  instantiate (1 := (cp - base n isn) / 2 ^ 32 + 1). lia.
Qed.

Lemma unwrap_result_range n isn cp :
  in_bits 64 cp -> cp < 2 ^ 64 - 2 ^ 32 + base n isn ->
  in_bits 64 (unwrap_result n isn cp).
Proof.
  unfold in_bits. intros. pose proof (base_range n isn).
  unfold unwrap_result. case_cmp. case_cmp; [lia |]. cbv zeta.
  pose proof (floor_cand_bounds n isn cp ltac:(lia)).
  assert (floor_cand n isn cp + 2 ^ 32 < 2 ^ 64).
  { unfold floor_cand.
    pose proof (Z.div_lt_upper_bound (cp - base n isn) (2 ^ 32) (2 ^ 32 - 1)). lia. }
  case_cmp. case_cmp; lia.
Qed.

(** The distance to the checkpoint is minimal among the candidates. *)
Lemma unwrap_result_closest n isn cp k :
  0 <= cp -> 0 <= base n isn + 2 ^ 32 * k ->
  Z.abs (unwrap_result n isn cp - cp) <= Z.abs (base n isn + 2 ^ 32 * k - cp).
Proof.
  intros Hcp Hk. pose proof (base_range n isn).
  unfold unwrap_result. case_cmp. case_cmp.
  - assert (0 <= k) by lia. lia.
  - cbv zeta. pose proof (floor_cand_bounds n isn cp ltac:(lia)).
    unfold floor_cand in *. set (q := (cp - base n isn) / 2 ^ 32) in *.
    destruct (Z.le_gt_cases k q); case_cmp; case_cmp; lia.
Qed.

(** Round trip: an absolute number within 2^31 of the checkpoint survives. *)
Lemma unwrap_result_wrap x isn cp :
  in_bits 32 isn -> 0 <= x -> 0 <= cp -> - 2 ^ 31 <= x - cp < 2 ^ 31 ->
  unwrap_result (wrap x isn) isn cp = x.
Proof.
  intros Hi Hx Hcp Hd.
  destruct (wrap_base (wrap x isn) isn x) as (k & Hk); [apply wrap_range | done |].
  pose proof (base_range (wrap x isn) isn). set (b := base (wrap x isn) isn) in *.
  unfold unwrap_result, floor_cand. fold b.
  case_cmp. case_cmp; [lia |]. cbv zeta.
  set (q := (cp - b) / 2 ^ 32).
  assert (Hq : 2 ^ 32 * q <= cp - b < 2 ^ 32 * (q + 1)).
  { unfold q. pose proof (Z.div_mod (cp - b) (2 ^ 32)).
    pose proof (Z.mod_pos_bound (cp - b) (2 ^ 32)). lia. }
  case_cmp. assert (k = q \/ k = q + 1) as [-> | ->] by lia; case_cmp; lia.
Qed.

Lemma unwrap_wrap_near x isn cp :
  in_bits 32 isn -> 0 <= x -> in_bits 64 cp -> cp < 2 ^ 64 - 2 ^ 32 ->
  - 2 ^ 31 <= x - cp < 2 ^ 31 ->
  unwrap (wrap x isn) isn cp = Ret x.
Proof.
  intros. unfold in_bits in *. pose proof (wrap_range x isn).
  pose proof (base_range (wrap x isn) isn).
  rewrite unwrap_spec by (unfold in_bits; lia).
  rewrite unwrap_result_wrap; [done | unfold in_bits; lia ..].
Qed.

(** C29: below the last 2^32 absolute numbers, [unwrap] returns a number that
    wraps to [n], and no number that wraps to [n] is closer to the
    checkpoint. *)
Theorem unwrap_closest (n isn : t) (cp : Z) :
  in_bits 32 n -> in_bits 32 isn -> 0 <= cp < 2 ^ 64 - 2 ^ 32 ->
  exists r, unwrap n isn cp = Ret r /\ in_bits 64 r /\ wrap r isn = n /\
    forall x, 0 <= x -> wrap x isn = n -> Z.abs (r - cp) <= Z.abs (x - cp).
Proof.
  intros Hn Hi Hc. pose proof (base_range n isn).
  exists (unwrap_result n isn cp). split_and!.
  - apply unwrap_spec; [done | done | unfold in_bits; lia | lia].
  - apply unwrap_result_range; [unfold in_bits; lia | lia].
  - destruct (unwrap_result_cand n isn cp) as (k & ->). by apply wrap_cand.
  - intros x Hx Hw. destruct (wrap_base n isn x Hn Hw) as (k & ->).
    apply unwrap_result_closest; lia.
Qed.

Lemma unwrap_closest_witness :
  exists r, unwrap 17 5 (3 * 2 ^ 32) = Ret r /\ wrap r 5 = 17 /\
            (forall x, 0 <= x -> wrap x 5 = 17 -> Z.abs (r - 3 * 2 ^ 32) <= Z.abs (x - 3 * 2 ^ 32)).
Proof.
  destruct (unwrap_closest 17 5 (3 * 2 ^ 32)) as (r & H1 & _ & H2 & H3);
    unfold in_bits; try lia. exists r. auto.
Defined.

(** [wrap] then [unwrap] is the identity for every absolute number within
    2^31 of the checkpoint. *)
Theorem unwrap_wrap_roundtrip (x : Z) (isn : t) (cp : Z) :
  in_bits 32 isn -> 0 <= x -> 0 <= cp < 2 ^ 64 - 2 ^ 32 -> - 2 ^ 31 <= x - cp < 2 ^ 31 ->
  unwrap (wrap x isn) isn cp = Ret x.
Proof. intros. apply unwrap_wrap_near; unfold in_bits in *; lia. Qed.

Lemma unwrap_wrap_roundtrip_witness :
  unwrap (wrap (2 ^ 40 + 7) (2 ^ 32 - 1)) (2 ^ 32 - 1) (2 ^ 40) = Ret (2 ^ 40 + 7).
Proof. apply unwrap_wrap_roundtrip; unfold in_bits; lia. Defined.

(** For a checkpoint in the last 2^32 absolute numbers, at or above every
    candidate, [unwrap] never returns, whatever the number of iterations
    allowed. *)
Theorem unwrap_diverges (fuel : nat) (n isn : t) (cp : Z) :
  in_bits 32 n -> in_bits 32 isn -> in_bits 64 cp ->
  2 ^ 64 - 2 ^ 32 + base n isn <= cp ->
  unwrap_fuel fuel n isn cp = Diverge.
Proof. apply unwrap_diverges_fuel. Qed.

Lemma unwrap_diverges_witness :
  unwrap_fuel 1000 8 5 (2 ^ 64 - 2 ^ 31) = Diverge.
Proof. apply unwrap_diverges; unfold in_bits, base; vm_compute; intuition congruence. Defined.

End WrappingFacts.
