(* ===== verification/stream_reassembler.v ===== *)
(** * libsponge/stream_reassembler.{hh,cc}: reassembling substrings

    [std::map<size_t,std::string> m] is the list of its entries in key
    order; an entry [(k, d)] stores the bytes of [d] with the last of them
    at index [k].  An iterator is a position in that list: [lower_bound]
    splits the list at it. *)

From S2P Require Import Prelude byte_stream.

Module StreamReassembler.

Abbreviation entry := (Z * bytes)%type.

Record t := mk {
  _output : ByteStream.t;
  _capacity : Z;
  unassembled : Z;
  m : list entry;
  endIdx : Z;
}.

Definition SIZE_MAX : Z := 2 ^ 64 - 1.

Definition make (capacity : Z) : t :=
  mk (ByteStream.make capacity) capacity 0 [] SIZE_MAX.

Definition stream_out (r : t) : ByteStream.t := _output r.
Definition unassembled_bytes (r : t) : Z := unassembled r.
Definition empty (r : t) : bool := unassembled r =? 0.

(** [it->first - it->second.size() + 1]. *)
Definition start (e : entry) : Z := u64 (fst e - Zlen (snd e) + 1).

(** [m.lower_bound(lb)]: the entries before the iterator, those from it on. *)
Fixpoint lower_bound (lb : Z) (l : list entry) : list entry * list entry :=
  match l with
  | [] => ([], [])
  | e :: l' =>
      if fst e <? lb then
        let '(before, after) := lower_bound lb l' in (e :: before, after)
      else ([], l)
  end.

(** [m[k] = v]. *)
Fixpoint map_set (k : Z) (v : bytes) (l : list entry) : list entry :=
  match l with
  | [] => [(k, v)]
  | e :: l' =>
      if k <? fst e then (k, v) :: l
      else if k =? fst e then (k, v) :: l'
      else e :: map_set k v l'
  end.

Definition combine (s1 s2 : bytes) (index1 index2 : Z) : outcome bytes :=
  let '(left_, right_, in1, in2) :=
    if index1 <? index2 then (s1, s2, index1, index2) else (s2, s1, index2, index1) in
  if u64 (in2 + Zlen right_) <=? u64 (in1 + Zlen left_) then Ret left_
  else
    tail ← substr right_ (u64 (in1 + Zlen left_ - in2)) (Zlen right_);
    Ret (left_ ++ tail).

(** The [size_t] difference is returned as an [int]. *)
Definition overflow (r : t) (rb : Z) : Z :=
  i32 (u64 (ByteStream.bytes_read (_output r) + _capacity r - 1 - rb)).

(** [while(it!=m.end() && start(it)<=rb) { ecount+=...; eit=it; it++; }] *)
Fixpoint overlap (rb : Z) (l : list entry) (ecount : Z) (eit : entry)
  : Z * entry * list entry :=
  match l with
  | [] => (ecount, eit, [])
  | e :: l' =>
      if start e <=? rb then overlap rb l' (u64 (ecount + Zlen (snd e))) e
      else (ecount, eit, l)
  end.

(** Storing the trimmed string [d], which covers [lb..rb], in the map:
    the new map and the new [unassembled]. *)
Definition store (d : bytes) (lb rb : Z) (l : list entry) (unassembled : Z)
  : outcome (list entry * Z) :=
  let '(before, after) := lower_bound lb l in
  match after with
  | [] => Ret (map_set rb d l, u64 (unassembled + u64 (rb - lb + 1)))
  | fit :: _ =>
      if start fit >? rb then
        Ret (map_set rb d l, u64 (unassembled + u64 (rb - lb + 1)))
      else
        let '(ecount, eit, rest) := overlap rb after 0 fit in
        let icount := u64 (Z.max rb (fst eit) - Z.min lb (start fit) + 1) in
        ins ← combine (snd fit) d (start fit) lb;
        ins ← combine (snd eit) ins (start eit) (Z.min lb (start fit));
        let right_ := fst eit in
        Ret (map_set (Z.max rb right_) ins (before ++ rest),
             u64 (unassembled + icount - ecount))
  end.

(** [while(be!=m.end() && _output.bytes_written()==start(be)) ...] *)
Fixpoint drain (l : list entry) (out : ByteStream.t) (unassembled : Z)
  : outcome (list entry * ByteStream.t * Z) :=
  match l with
  | [] => Ret ([], out, unassembled)
  | be :: l' =>
      if ByteStream.bytes_written out =? start be then
        '(_, out) ← ByteStream.write (snd be) out;
        drain l' out (u64 (unassembled - Zlen (snd be)))
      else Ret (l, out, unassembled)
  end.

(** The cut at the bytes already in the stream, [None] for the early return. *)
Definition trim_left (r : t) (data : bytes) (index rb : Z) : outcome (option (bytes * Z)) :=
  let bw := ByteStream.bytes_written (_output r) in
  if index <? bw then
    if rb <? bw then Ret None
    else d ← substr data (u64 (bw - index)) (Zlen data); Ret (Some (d, bw))
  else Ret (Some (data, index)).

(** The cut at the end of the window, [None] for the early return. *)
Definition trim_right (r : t) (d : bytes) (lb rb : Z) : outcome (option (bytes * Z)) :=
  if overflow r rb <? 0 then
    if overflow r lb <? 0 then Ret None
    else
      let rb := u64 (ByteStream.bytes_read (_output r) + _capacity r - 1) in
      d ← substr d 0 (u64 (rb - lb + 1)); Ret (Some (d, rb))
  else Ret (Some (d, rb)).

Definition AddTempCash (data : bytes) (index : Z) (r : t) : outcome t :=
  if Zlen data =? 0 then Ret r
  else
    let rb := u64 (index + Zlen data - 1) in
    cut ← trim_left r data index rb;
    match cut with
    | None => Ret r
    | Some (d, lb) =>
        cut ← trim_right r d lb rb;
        match cut with
        | None => Ret r
        | Some (d, rb) =>
            '(l, un) ← store d lb rb (m r) (unassembled r);
            '(l, out, un) ← drain l (_output r) un;
            Ret (mk out (_capacity r) un l (endIdx r))
        end
    end.

Definition push_substring (data : bytes) (index : Z) (eof : bool) (r : t) : outcome t :=
  let r := if eof then mk (_output r) (_capacity r) (unassembled r) (m r)
                          (u64 (index + Zlen data))
           else r in
  r ← AddTempCash data index r;
  Ret (if ByteStream.bytes_written (_output r) =? endIdx r then
         mk (ByteStream.end_input (_output r)) (_capacity r) (unassembled r) (m r) (endIdx r)
       else r).

(** The owner reads the output stream in place through [stream_out()]. *)
Definition with_output (out : ByteStream.t) (r : t) : t :=
  mk out (_capacity r) (unassembled r) (m r) (endIdx r).

End StreamReassembler.
