(* ===== verification/stream_reassembler_proofs.v ===== *)
(** * Correctness of the reassembler

    The stream being reassembled is a function [Str : Z -> byte].  [Inv] says
    that the output is a prefix of it, that the map holds disjoint non-empty
    excerpts of it inside the window, that none of them could be written
    yet, and that [unassembled] counts their bytes. *)

From S2P Require Import Prelude byte_stream stream_reassembler.

Module ReassemblerFacts.
Import StreamReassembler.

Section Stream.
Variable Str : Z -> byte.

(** Disjoint excerpts of [Str] in key order, between [lo] and [hi]. *)
Fixpoint chain (lo hi : Z) (l : list entry) : Prop :=
  match l with
  | [] => True
  | (k, d) :: l' =>
      0 < Zlen d /\ lo <= k - Zlen d + 1 /\ k <= hi /\
      agrees Str (k - Zlen d + 1) d /\ chain (k + 1) hi l'
  end.

Fixpoint total (l : list entry) : Z :=
  match l with
  | [] => 0
  | (_, d) :: l' => Zlen d + total l'
  end.

(** Byte [i] of the stream is stored in the map. *)
Definition stored (l : list entry) (i : Z) : Prop :=
  exists k d, (k, d) ∈ l /\ k - Zlen d < i <= k.

(** The first index after the entries of [l], from [lo]. *)
Fixpoint chain_end (lo : Z) (l : list entry) : Z :=
  match l with
  | [] => lo
  | (k, _) :: l' => chain_end (k + 1) l'
  end.

Lemma chain_app lo hi l1 l2 :
  chain lo hi (l1 ++ l2) <-> chain lo hi l1 /\ chain (chain_end lo l1) hi l2.
Proof.
  revert lo. induction l1 as [|[k d] l1 IH]; intros lo; cbn; [tauto |].
  rewrite IH. tauto.
Qed.

Lemma chain_mono lo lo' hi hi' l :
  lo' <= lo -> hi <= hi' -> chain lo hi l -> chain lo' hi' l.
Proof.
  intros Hlo Hhi. revert lo lo' Hlo. induction l as [|[k d] l IH]; intros lo lo' Hlo; cbn; [done |].
  intros (? & ? & ? & ? & H). split_and!; try lia; [done |]. by apply (IH (k + 1)).
Qed.

(** Raising the lower bound up to the first entry. *)
Lemma chain_raise lo lo' hi l :
  chain lo hi l -> (forall k d, head l = Some (k, d) -> lo' <= k - Zlen d + 1) ->
  chain lo' hi l.
Proof.
  destruct l as [|[k d] l]; cbn; [done |]. intros (H1 & H2 & H3 & H4 & H5) Hh.
  specialize (Hh k d eq_refl). tauto.
Qed.

Lemma chain_end_ge lo hi l : chain lo hi l -> lo <= chain_end lo l.
Proof.
  revert lo. induction l as [|[k d] l IH]; intros lo; cbn; [lia |].
  intros (? & ? & ? & ? & H). apply IH in H. lia.
Qed.

Lemma chain_total lo hi l :
  lo <= hi + 1 -> chain lo hi l -> 0 <= total l <= hi + 1 - lo.
Proof.
  revert lo. induction l as [|[k d] l IH]; intros lo Hlo; cbn; [lia |].
  intros (? & ? & ? & ? & H). apply IH in H; lia.
Qed.

Lemma total_app l1 l2 : total (l1 ++ l2) = total l1 + total l2.
Proof. induction l1 as [|[k d] l1 IH]; cbn; lia. Qed.

Lemma stored_app l1 l2 i : stored (l1 ++ l2) i <-> stored l1 i \/ stored l2 i.
Proof. unfold stored. setoid_rewrite elem_of_app. firstorder. Qed.

Lemma stored_cons k d l i :
  stored ((k, d) :: l) i <-> k - Zlen d < i <= k \/ stored l i.
Proof. 
  unfold stored. setoid_rewrite elem_of_cons. split.
  - intros (k' & d' & [[= -> ->] | Hin] & Hi); [by left | right; eauto].
  - intros [Hi | (k' & d' & Hin & Hi)]; eauto 8.
Qed.

Lemma stored_nil i : ~ stored [] i.
Proof. intros (k & d & H & _). by apply elem_of_nil in H. Qed.

Lemma chain_stored_ge lo hi l i : chain lo hi l -> stored l i -> lo <= i <= hi.
Proof.
  revert lo. induction l as [|[k d] l IH]; intros lo; cbn.
  - intros _ H. by apply stored_nil in H.
  - intros (? & ? & ? & ? & H) [Hi | Hi]%stored_cons; [lia |].
    apply (IH _ H) in Hi. lia.
Qed.

(** [chain] with its bounds below 2^63: no size_t arithmetic wraps. *)
Lemma start_eq lo hi k d l :
  0 <= lo -> hi < 2 ^ 63 -> chain lo hi ((k, d) :: l) -> start (k, d) = k - Zlen d + 1.
Proof. intros Hlo Hhi (? & ? & ? & _). unfold start. cbn. rewrite u64_small; lia. Qed.

Lemma lower_bound_spec lb l lo hi before after :
  chain lo hi l -> lo <= lb -> lower_bound lb l = (before, after) ->
  l = before ++ after /\ chain_end lo before <= lb /\
  (forall e, e ∈ before -> fst e < lb) /\
  (forall e, head after = Some e -> lb <= fst e).
Proof.
  revert lo before. induction l as [|[k d] l IH]; intros lo before; cbn [lower_bound fst].
  - intros _ Hlo [= <- <-]. split_and!; try done. intros e He. by apply elem_of_nil in He.
  - intros (? & ? & ? & ? & Hl) Hlo. destruct (Z.ltb_spec k lb).
    + destruct (lower_bound lb l) as [b a] eqn:E. intros [= <- <-].
      destruct (IH (k + 1) b Hl ltac:(lia) eq_refl) as (-> & He & Hb & Ha).
      split_and!; [done | done | | done].
      intros e [-> | Hin]%elem_of_cons; [done | by apply Hb].
    + intros [= <- <-]. split_and!; [done | cbn; lia | | intros e [= <-]; done].
      intros e He. by apply elem_of_nil in He.
Qed.

(** Inserting at a key between two parts of the map. *)
Lemma map_set_between k v l1 l2 :
  (forall e, e ∈ l1 -> fst e < k) -> (forall e, head l2 = Some e -> k < fst e) ->
  map_set k v (l1 ++ l2) = l1 ++ (k, v) :: l2.
Proof.
  intros H1 H2. induction l1 as [|e l1 IH]; cbn [app map_set].
  - destruct l2 as [|e l2]; cbn; [done |]. specialize (H2 e eq_refl).
    case_cmp; [done | lia].
  - specialize (H1 e ltac:(set_solver)) as He. case_cmp; [lia |]. case_cmp; [lia |].
    f_equal. apply IH. set_solver.
Qed.

(** [combine] of two excerpts that touch or overlap is the excerpt that
    covers both. *)
Lemma combine_spec s1 s2 i1 i2 :
  agrees Str i1 s1 -> agrees Str i2 s2 ->
  0 <= i1 -> 0 <= i2 -> i1 + Zlen s1 < 2 ^ 63 -> i2 + Zlen s2 < 2 ^ 63 ->
  i1 <= i2 + Zlen s2 -> i2 <= i1 + Zlen s1 ->
  exists ins, combine s1 s2 i1 i2 = Ret ins /\ agrees Str (Z.min i1 i2) ins /\
              Zlen ins = Z.max (i1 + Zlen s1) (i2 + Zlen s2) - Z.min i1 i2.
Proof.
  intros A1 A2 P1 P2 B1 B2 O1 O2. unfold combine.
  assert (Hgen : forall left_ right_ in1 in2,
    agrees Str in1 left_ -> agrees Str in2 right_ -> 0 <= in1 <= in2 ->
    in1 + Zlen left_ < 2 ^ 63 -> in2 + Zlen right_ < 2 ^ 63 -> in2 <= in1 + Zlen left_ ->
    exists ins,
      (if u64 (in2 + Zlen right_) <=? u64 (in1 + Zlen left_) then Ret left_
       else tail ← substr right_ (u64 (in1 + Zlen left_ - in2)) (Zlen right_);
            Ret (left_ ++ tail)) = Ret ins /\ agrees Str in1 ins /\
      Zlen ins = Z.max (in1 + Zlen left_) (in2 + Zlen right_) - in1).
  { clear. intros l r i1 i2 Al Ar Hi Bl Br Ht.
    pose proof (Zlen_nonneg l). pose proof (Zlen_nonneg r).
    rewrite !u64_small by lia. case_cmp.
    - exists l. split_and!; [done | done | lia].
    - rewrite substr_suffix by lia. cbn. eexists. split_and!; [reflexivity | |].
      + apply agrees_app. split; [done |].
        apply agrees_drop_to; [done | lia].
      + zlen. lia. }
  pose proof (Zlen_nonneg s1). pose proof (Zlen_nonneg s2).
  destruct (Z.ltb_spec i1 i2).
  - destruct (Hgen s1 s2 i1 i2) as (ins & -> & Ha & Hl); try done; try lia.
    exists ins. rewrite Z.min_l by lia. split_and!; [done | done | lia].
  - destruct (Hgen s2 s1 i2 i1) as (ins & -> & Ha & Hl); try done; try lia.
    exists ins. rewrite Z.min_r by lia. split_and!; [done | done | lia].
Qed.

(** The entries met by the overlap loop: [mid], whose last one is [eit]. *)
Lemma overlap_spec rb l : forall lo hi ecount eit0 ecount' eit rest,
  0 <= lo -> hi < 2 ^ 63 -> 0 <= ecount -> ecount + total l < 2 ^ 63 ->
  chain lo hi l -> overlap rb l ecount eit0 = (ecount', eit, rest) ->
  exists mid, l = mid ++ rest /\ ecount' = ecount + total mid /\
    eit = default eit0 (last mid) /\
    (forall k d, (k, d) ∈ mid -> k - Zlen d + 1 <= rb) /\
    (forall k d, head rest = Some (k, d) -> rb < k - Zlen d + 1).
Proof.
  induction l as [|[k d] l IH]; intros lo hi ec eit0 ec' eit rest Hlo Hhi Hec Htot Hch;
    cbn [overlap].
  - intros [= <- <- <-]. exists []. split_and!; try done; [cbn; lia |].
    intros k d He. by apply elem_of_nil in He.
  - rewrite (start_eq lo hi k d l) by done. pose proof Hch as (Hd & Hlk & Hkh & _ & Hl).
    assert (0 <= total l) by (apply (chain_total (k + 1) hi); [lia | done]).
    cbn [total] in Htot. case_cmp.
    + cbn [snd]. rewrite u64_small by lia. intros Hov.
      destruct (IH (k + 1) hi (ec + Zlen d) (k, d) ec' eit rest)
        as (mid & -> & -> & Hlast & Hmid & Hrest); try done; try lia.
      exists ((k, d) :: mid). split_and!; [done | cbn; lia | | | done].
      * rewrite Hlast, last_cons. by destruct (last mid).
      * intros k' d' [[= <- <-] | Hin]%elem_of_cons; [lia | by apply Hmid].
    + intros [= <- <- <-]. exists []. split_and!; try done; [cbn; lia | | ].
      * intros k' d' He. by apply elem_of_nil in He.
      * intros k' d' [= <- <-]. lia.
Qed.

(** Setting key [k] between two parts of the map. *)
Lemma splice_spec k x lo mid hi before rest :
  chain lo hi before -> chain mid hi rest ->
  chain_end lo before <= k - Zlen x + 1 -> 0 < Zlen x -> k <= hi ->
  agrees Str (k - Zlen x + 1) x ->
  (forall e, e ∈ before -> fst e < k) ->
  (forall k' d', head rest = Some (k', d') -> k < k' - Zlen d' + 1) ->
  map_set k x (before ++ rest) = before ++ (k, x) :: rest /\
  chain lo hi (before ++ (k, x) :: rest).
Proof.
  intros Hb Hr He Hx Hk Ha Hkb Hkr. split.
  - apply map_set_between; [done |]. intros [k' d'] Hh. cbn.
    specialize (Hkr k' d' Hh). destruct rest; [done |]. injection Hh as ->.
    destruct Hr as (? & _). lia.
  - apply chain_app. split; [done |]. cbn. split_and!; try done.
    eapply chain_raise; [exact Hr |]. intros k' d' Hh. specialize (Hkr k' d' Hh). lia.
Qed.

(** The bytes between the first and the last of the overlapping entries. *)
Lemma merged_stored lo hi fk fd ek ed mid lb rb i :
  chain lo hi ((fk, fd) :: mid) -> last ((fk, fd) :: mid) = Some (ek, ed) ->
  lb <= rb -> lb <= fk -> ek - Zlen ed + 1 <= rb ->
  Z.min lb (fk - Zlen fd + 1) <= i <= Z.max rb ek <->
  stored ((fk, fd) :: mid) i \/ lb <= i <= rb.
Proof.
  intros Hch Hlast Hlr Hf He.
  assert (Hin : (ek, ed) ∈ (fk, fd) :: mid) by by apply last_Some_elem_of.
  split.
  - intros Hi. destruct (Z.lt_ge_cases i lb).
    + left. apply stored_cons. left. lia.
    + destruct (Z.le_gt_cases i rb); [right; lia |].
      left. exists ek, ed. split; [done | lia].
  - intros [Hs | ?]; [| lia].
    pose proof (chain_stored_ge (fk - Zlen fd + 1) ek ((fk, fd) :: mid) i) as Hge.
    enough (chain (fk - Zlen fd + 1) ek ((fk, fd) :: mid)) by (specialize (Hge H Hs); lia).
    clear -Hch Hlast. eapply chain_raise; [| intros k d [= <- <-]; lia].
    clear -Hch Hlast. revert lo fk fd Hch Hlast.
    induction mid as [|[k d] mid IH]; intros lo fk fd (H1 & H2 & H3 & H4 & H5) Hlast.
    + injection Hlast as -> ->. cbn. split_and!; done || lia.
    + rewrite last_cons_cons in Hlast. specialize (IH (fk + 1) k d H5 Hlast) as Hm.
      pose proof Hm as (? & ? & ? & _).
      change (0 < Zlen fd /\ lo <= fk - Zlen fd + 1 /\ fk <= ek /\
              agrees Str (fk - Zlen fd + 1) fd /\ chain (fk + 1) ek ((k, d) :: mid)).
      split_and!; try done. lia.
Qed.

(** Storing where no entry overlaps. *)
Lemma store_disjoint d lb rb lo hi before after :
  0 <= lo -> hi < 2 ^ 62 -> lb <= rb -> rb <= hi ->
  Zlen d = rb - lb + 1 -> agrees Str lb d ->
  chain lo hi (before ++ after) -> chain_end lo before <= lb ->
  (forall e, e ∈ before -> fst e < lb) ->
  (forall k x, head after = Some (k, x) -> rb < k - Zlen x + 1) ->
  exists l', Ret (map_set rb d (before ++ after),
                  u64 (total (before ++ after) + u64 (rb - lb + 1))) = Ret (l', total l')
    /\ chain lo hi l' /\
    (forall i, stored l' i <-> stored (before ++ after) i \/ lb <= i <= rb).
Proof.
  intros Hlo Hhi Hlr Hrb Hd Ha Hch He Hbef Hgap.
  pose proof (chain_end_ge _ _ _ (proj1 (proj1 (chain_app _ _ _ _) Hch))).
  pose proof (chain_total lo hi _ ltac:(lia) Hch).
  apply chain_app in Hch as [Hcb Hca].
  destruct (splice_spec rb d lo (chain_end lo before) hi before after) as [-> Hc];
    try done; try lia.
  { by replace (rb - Zlen d + 1) with lb by lia. }
  { intros e Hin%Hbef. lia. }
  eexists. split_and!; [| exact Hc |].
  - do 2 f_equal. rewrite !total_app in *. cbn. rewrite (u64_small (rb - lb + 1)) by lia.
    rewrite u64_small; lia.
  - intros i. rewrite !stored_app, stored_cons.
    assert (rb - Zlen d < i <= rb <-> lb <= i <= rb) by lia. tauto.
Qed.

Lemma chain_elem lo hi l k d :
  chain lo hi l -> (k, d) ∈ l ->
  0 < Zlen d /\ lo <= k - Zlen d + 1 /\ k <= hi /\ agrees Str (k - Zlen d + 1) d.
Proof.
  revert lo. induction l as [|[k' d'] l IH]; intros lo Hch Hin; [by apply elem_of_nil in Hin |].
  destruct Hch as (H1 & H2 & H3 & H4 & H5).
  apply elem_of_cons in Hin as [[= -> ->] | Hin]; [tauto |].
  destruct (IH _ H5 Hin) as (? & ? & ? & ?). split_and!; done || lia.
Qed.

Lemma chain_end_last lo l k d : last l = Some (k, d) -> chain_end lo l = k + 1.
Proof.
  revert lo. induction l as [|[k' d'] l IH]; intros lo Hl; [done |].
  destruct l as [|e l]; [by injection Hl as -> -> |].
  rewrite last_cons_cons in Hl. by apply (IH (k' + 1)).
Qed.

(** The two [combine]s give the excerpt that covers [d], the first and the
    last overlapping entry; it takes the place of the erased range. *)
Lemma store_merge d lb rb lo hi before fk fd mid ek ed rest :
  0 <= lo -> hi < 2 ^ 62 -> lb <= rb -> rb <= hi ->
  Zlen d = rb - lb + 1 -> agrees Str lb d ->
  chain lo hi before -> chain (chain_end lo before) hi (((fk, fd) :: mid) ++ rest) ->
  lo <= chain_end lo before <= lb -> (forall e, e ∈ before -> fst e < lb) ->
  last ((fk, fd) :: mid) = Some (ek, ed) -> lb <= fk ->
  fk - Zlen fd + 1 <= rb -> ek - Zlen ed + 1 <= rb ->
  (forall k x, head rest = Some (k, x) -> rb < k - Zlen x + 1) ->
  let left_ := Z.min lb (fk - Zlen fd + 1) in
  exists ins1 ins,
    combine fd d (fk - Zlen fd + 1) lb = Ret ins1 /\
    combine ed ins1 (ek - Zlen ed + 1) left_ = Ret ins /\
    Zlen ins = Z.max rb ek - left_ + 1 /\
    map_set (Z.max rb ek) ins (before ++ rest) = before ++ (Z.max rb ek, ins) :: rest /\
    chain lo hi (before ++ (Z.max rb ek, ins) :: rest).
Proof.
  intros Hlo Hhi Hlr Hrb Hd Ha Hcb Hca He Hbef Hlast Hfk Hf Hek Hrest left_.
  apply chain_app in Hca as [Hcm Hcr]. rewrite (chain_end_last _ _ _ _ Hlast) in Hcr.
  pose proof (last_Some_elem_of _ _ Hlast) as Hin.
  destruct Hcm as (Hfd & Hfe & Hfh & Hfa & Hcm).
  assert (Hee : 0 < Zlen ed /\ fk - Zlen fd + 1 <= ek - Zlen ed + 1 /\ fk <= ek <= hi /\
                agrees Str (ek - Zlen ed + 1) ed).
  { apply elem_of_cons in Hin as [[= -> ->] | Hin]; [split_and!; done || lia |].
    destruct (chain_elem _ _ _ _ _ Hcm Hin) as (? & ? & ? & ?). split_and!; done || lia. }
  destruct Hee as (Hed & Hse & Hke & Hea).
  destruct (combine_spec fd d (fk - Zlen fd + 1) lb) as (ins1 & Hc1 & Ha1 & Hl1); try done; try lia.
  rewrite Z.min_comm in Ha1, Hl1. fold left_ in Ha1, Hl1.
  destruct (combine_spec ed ins1 (ek - Zlen ed + 1) left_) as (ins & Hc2 & Ha2 & Hl2); try done; try lia.
  rewrite Z.min_r in Ha2, Hl2 by lia.
  assert (Hli : Zlen ins = Z.max rb ek - left_ + 1) by lia.
  exists ins1, ins. do 3 (split; [done |]).
  apply (splice_spec _ _ _ (ek + 1)); try done; try lia.
  - by replace (Z.max rb ek - Zlen ins + 1) with left_ by lia.
  - intros e Hx%Hbef. lia.
  - intros k x Hh. specialize (Hrest k x Hh). destruct rest; [done |].
    injection Hh as ->. destruct Hcr as (? & ? & _). lia.
Qed.

(** What [store] leaves behind: the excerpts of the map and [d], merged. *)
Lemma store_spec d lb rb l lo hi :
  0 <= lo -> hi < 2 ^ 62 -> lo <= lb -> lb <= rb -> rb <= hi ->
  Zlen d = rb - lb + 1 -> agrees Str lb d -> chain lo hi l ->
  exists l', store d lb rb l (total l) = Ret (l', total l') /\ chain lo hi l' /\
    (forall i, stored l' i <-> stored l i \/ lb <= i <= rb).
Proof.
  intros Hlo Hhi Hlb Hlr Hrb Hd Ha Hch. unfold store.
  destruct (lower_bound lb l) as [before after] eqn:Elb.
  destruct (lower_bound_spec lb l lo hi before after Hch Hlb Elb) as (-> & Hend & Hbef & Haft).
  destruct after as [|[fk fd] after']; [by eapply store_disjoint |].
  destruct (proj1 (chain_app _ _ _ _) Hch) as [Hcb Hca].
  pose proof (chain_end_ge _ _ _ Hcb) as Hge.
  rewrite (start_eq (chain_end lo before) hi fk fd after') by (done || lia).
  case_cmp. case_cmp.
  { eapply store_disjoint; try done. intros k x [= <- <-]. lia. }
  specialize (Haft _ eq_refl). cbn [fst] in Haft.
  destruct (overlap rb ((fk, fd) :: after') 0 (fk, fd)) as [[ecount [ek ed]] rest] eqn:Eov.
  destruct (chain_total (chain_end lo before) hi _ ltac:(lia) Hca) as [? ?].
  destruct (overlap_spec rb ((fk, fd) :: after') (chain_end lo before) hi 0 (fk, fd)
    ecount (ek, ed) rest) as (mid & Hmr & -> & Hlast & Hmid & Hrest); try done; try lia.
  destruct mid as [|e0 mid].
  { cbn in Hmr. subst rest. specialize (Hrest fk fd eq_refl). lia. }
  injection Hmr as <- ->. 
  assert (Hl : last ((fk, fd) :: mid) = Some (ek, ed)).
  { destruct (last ((fk, fd) :: mid)) eqn:El; [by rewrite Hlast | by apply last_None in El]. }
  pose proof (last_Some_elem_of _ _ Hl) as Hin.
  pose proof (Hmid ek ed Hin) as Hek.
  destruct (proj1 (chain_app _ _ ((fk, fd) :: mid) rest) Hca) as [Hcm _].
  destruct (chain_elem _ _ _ _ _ Hcm Hin) as (Hed & Hes & Heh & _).
  destruct (store_merge d lb rb lo hi before fk fd mid ek ed rest)
    as (ins1 & ins & Hc1 & Hc2 & Hli & Hset & Hcn); try done.
  pose proof Hcm as (Hfd & Hfe & Hfh & _).
  assert (Hst : start (ek, ed) = ek - Zlen ed + 1)
    by (unfold start; cbn; rewrite u64_small; lia).
  rewrite Hst. cbn [fst snd]. rewrite Hc1. cbn. rewrite Hc2. cbn. rewrite Hset.
  eexists. split_and!; [| exact Hcn |].
  - do 2 f_equal.
    pose proof (chain_total lo hi _ ltac:(lia) Hch) as Ht.
    pose proof (chain_total lo hi _ ltac:(lia) Hcn) as Htn.
    rewrite !total_app in *. cbn [total] in *. rewrite !total_app in *.
    rewrite (u64_small (Z.max rb ek - _ + 1)) by lia. rewrite u64_small; lia.
  - intros i. rewrite !stored_app, stored_cons.
    pose proof (merged_stored _ hi fk fd ek ed mid lb rb i Hcm Hl Hlr Haft Hek).
    change ((fk, fd) :: mid ++ rest) with (((fk, fd) :: mid) ++ rest). rewrite stored_app.
    rewrite Hli.
    assert (Z.max rb ek - (Z.max rb ek - Z.min lb (fk - Zlen fd + 1) + 1) < i <= Z.max rb ek <->
            Z.min lb (fk - Zlen fd + 1) <= i <= Z.max rb ek) by lia.
    tauto.
Qed.

(** ** The invariant *)

Import ByteStreamSpec(hist, nread, cap, ended, failed).

Record Inv (r : t) (a : ByteStreamSpec.t) : Prop := {
  inv_repr : ByteStreamFacts.repr (_output r) a;
  inv_cap : _capacity r = Z.of_nat (cap a);
  inv_small : Z.of_nat (nread a) + _capacity r < 2 ^ 31;
  inv_prefix : agrees Str 0 (hist a);
  inv_chain : chain (Zlen (hist a) + 1) (Z.of_nat (nread a) + _capacity r - 1) (m r);
  inv_count : unassembled r = total (m r);
}.

(** The bytes the reassembler holds or has delivered. *)
Definition known (r : t) (a : ByteStreamSpec.t) (i : Z) : Prop :=
  0 <= i < Zlen (hist a) \/ stored (m r) i.

(** The end of the window: no byte from this index on is accepted. *)
Definition window_end (r : t) (a : ByteStreamSpec.t) : Z := Z.of_nat (nread a) + _capacity r.

(** Only the history of the stream grows. *)
Definition extends (a a' : ByteStreamSpec.t) : Prop :=
  cap a' = cap a /\ nread a' = nread a /\ ended a' = ended a /\ failed a' = failed a /\
  exists d, hist a' = hist a ++ d.

#[export] Instance extends_preorder : PreOrder extends.
Proof.
  split.
  - intros a. split_and!; try done. exists []. by rewrite app_nil_r.
  - intros a b c (? & ? & ? & ? & x & Hx) (? & ? & ? & ? & y & Hy).
    split_and!; try congruence. exists (x ++ y). by rewrite Hy, Hx, app_assoc.
Qed.

Lemma inv_written r a : Inv r a -> ByteStream.bytes_written (_output r) = Zlen (hist a).
Proof.
  intros I. apply ByteStreamFacts.repr_bytes_written; [apply I |].
  destruct (ByteStreamFacts.repr_wf _ _ (inv_repr _ _ I)). pose proof (inv_small _ _ I).
  pose proof (inv_cap _ _ I). unfold Zlen. lia.
Qed.

Lemma inv_bounds r a :
  Inv r a -> 0 <= Zlen (hist a) <= window_end r a /\ window_end r a < 2 ^ 31 /\
             0 <= Z.of_nat (nread a) <= Zlen (hist a).
Proof.
  intros I. destruct (ByteStreamFacts.repr_wf _ _ (inv_repr _ _ I)).
  pose proof (inv_small _ _ I). pose proof (inv_cap _ _ I). unfold window_end, Zlen. lia.
Qed.

Lemma inv_read r a : Inv r a -> ByteStream.bytes_read (_output r) = Z.of_nat (nread a).
Proof.
  intros I. apply ByteStreamFacts.repr_bytes_read; [apply I |].
  pose proof (inv_bounds _ _ I). lia.
Qed.

Lemma make_inv (cp : nat) :
  Z.of_nat cp < 2 ^ 31 ->
  Inv (make (Z.of_nat cp)) (ByteStreamSpec.mk cp [] 0 false false).
Proof.
  intros. constructor; cbn; try lia; try done.
  by apply ByteStreamFacts.repr_make.
Qed.

(** The comparison of [overflow] with zero is the window test, for bytes at
    most 2^31 past the window. *)
Lemma overflow_spec r a n :
  Inv r a -> 0 <= n < window_end r a + 2 ^ 31 ->
  (overflow r n <? 0) = (window_end r a <=? n).
Proof.
  intros I Hn. unfold overflow. rewrite i32_u64, (inv_read _ _ I).
  pose proof (inv_bounds _ _ I). unfold window_end in *. rewrite i32_small by lia.
  case_cmp; case_cmp; done || lia.
Qed.

(** ** The assembly loop *)

Lemma drain_spec l : forall out a hi,
  ByteStreamFacts.repr out a -> agrees Str 0 (hist a) -> Zlen (hist a) <= hi + 1 ->
  hi = Z.of_nat (nread a) + Z.of_nat (cap a) - 1 -> hi < 2 ^ 31 - 1 ->
  chain (Zlen (hist a)) hi l ->
  exists l' out' a', drain l out (total l) = Ret (l', out', total l') /\
    ByteStreamFacts.repr out' a' /\ agrees Str 0 (hist a') /\ extends a a' /\
    chain (Zlen (hist a') + 1) hi l' /\
    (forall i, 0 <= i < Zlen (hist a') \/ stored l' i <-> 0 <= i < Zlen (hist a) \/ stored l i).
Proof.
  induction l as [|[k d] l IH]; intros out a hi Hr Hp Hle Hhi Hsm Hch.
  { by exists [], out, a. }
  pose proof (Zlen_nonneg (hist a)).
  cbn [drain]. rewrite (start_eq (Zlen (hist a)) hi k d l) by (done || lia).
  rewrite (ByteStreamFacts.repr_bytes_written _ _ Hr) by lia.
  pose proof Hch as (Hd & Hlk & Hkh & Ha & Hl). case_cmp; cycle 1.
  { exists ((k, d) :: l), out, a. split_and!; try done.
    cbn. split_and!; done || lia. }
  destruct (ByteStreamFacts.write_refines out a d Hr) as (out1 & Hw & Hr1); [lia |].
  assert (Htk : take (ByteStreamSpec.room a) d = d).
  { apply take_ge. destruct (ByteStreamFacts.repr_wf _ _ Hr).
    unfold ByteStreamSpec.room, ByteStreamSpec.unread, Zlen in *. rewrite length_drop. lia. }
  unfold ByteStreamSpec.write in Hw, Hr1. rewrite Htk in Hw, Hr1. cbn [fst snd] in Hw, Hr1.
  cbn [snd]. rewrite Hw. cbn [mbind outcome_bind total].
  replace (u64 (Zlen d + total l - Zlen d)) with (total l).
  2: { assert (0 <= total l <= hi + 1 - (k + 1)) by (apply chain_total; [lia | done]).
       rewrite u64_small; lia. }
  edestruct (IH out1 _ hi Hr1) as (l' & out' & a' & Hdr & Hr' & Hp' & Hex & Hch' & Hk);
    cbn [hist nread cap]; try done; rewrite ?Zlen_app; try lia.
  { apply agrees_app. split; [done |]. by replace (0 + Zlen (hist a)) with (k - Zlen d + 1) by lia. }
  { by replace (Zlen (hist a) + Zlen d) with (k + 1) by lia. }
  exists l', out', a'. split_and!; try done.
  - etransitivity; [| exact Hex]. split_and!; try done. by exists d.
  - intros i. rewrite Hk. cbn [hist]. rewrite Zlen_app, stored_cons.
    assert (0 <= i < Zlen (hist a) + Zlen d <-> 0 <= i < Zlen (hist a) \/ k - Zlen d < i <= k) by lia.
    tauto.
Qed.

(** ** Trimming to the window *)

Lemma trim_left_spec r a data index :
  Inv r a -> 0 <= index -> 0 < Zlen data -> index + Zlen data < 2 ^ 33 ->
  agrees Str index data ->
  let rb := index + Zlen data - 1 in
  let lb := Z.max index (Zlen (hist a)) in
  trim_left r data index rb =
    Ret (if rb <? Zlen (hist a) then None
         else Some (drop (Z.to_nat (lb - index)) data, lb)) /\
  agrees Str lb (drop (Z.to_nat (lb - index)) data).
Proof.
  intros I Hi Hd Hb Ha rb lb. split; [| by apply agrees_drop_to; [| lia]].
  unfold trim_left. rewrite (inv_written _ _ I). pose proof (inv_bounds _ _ I).
  case_cmp.
  - case_cmp; [done |]. rewrite u64_small by lia. rewrite substr_suffix by lia.
    cbn. replace lb with (Zlen (hist a)) by lia. done.
  - case_cmp; [lia |]. replace lb with index by lia. by rewrite Z.sub_diag.
Qed.

Lemma trim_right_spec r a d lb rb :
  Inv r a -> 0 <= lb <= rb -> rb < window_end r a + 2 ^ 31 -> Zlen d = rb - lb + 1 ->
  agrees Str lb d ->
  let rb' := Z.min rb (window_end r a - 1) in
  trim_right r d lb rb =
    Ret (if window_end r a <=? lb then None
         else Some (take (Z.to_nat (rb' - lb + 1)) d, rb')) /\
  agrees Str lb (take (Z.to_nat (rb' - lb + 1)) d) /\
  (lb < window_end r a -> Zlen (take (Z.to_nat (rb' - lb + 1)) d) = rb' - lb + 1).
Proof.
  intros I Hb Hr Hd Ha rb'. split; [| split; [by apply agrees_take | intros; zlen; lia]].
  unfold trim_right. rewrite !(overflow_spec r a) by (done || lia).
  pose proof (inv_bounds _ _ I). rewrite (inv_read _ _ I).
  destruct (Z.leb_spec (window_end r a) rb).
  - case_cmp; [done |]. fold (window_end r a).
    rewrite (u64_small (window_end r a - 1)) by lia.
    rewrite u64_small by lia. rewrite substr_prefix by lia. cbn.
    unfold rb'. by rewrite Z.min_r by lia.
  - case_cmp; [lia |]. unfold rb'. rewrite Z.min_l by lia. rewrite take_ge; [done |].
    unfold Zlen in Hd. lia.
Qed.

(** ** Receiving a substring *)

Definition received (r : t) (a : ByteStreamSpec.t) (index : Z) (data : bytes) (i : Z) : Prop :=
  index <= i < index + Zlen data /\ i < window_end r a.

Lemma AddTempCash_spec r a data index :
  Inv r a -> 0 <= index -> index + Zlen data <= window_end r a + 2 ^ 31 ->
  agrees Str index data ->
  exists r' a', AddTempCash data index r = Ret r' /\ Inv r' a' /\ extends a a' /\
    endIdx r' = endIdx r /\ _capacity r' = _capacity r /\
    (forall i, 0 <= i -> known r' a' i <-> known r a i \/ received r a index data i).
Proof.
  intros I Hi Hb Ha. unfold AddTempCash, received.
  pose proof (inv_bounds _ _ I) as Hbd. pose proof (Zlen_nonneg data).
  case_cmp.
  { exists r, a. split_and!; try done. intros i ?. intuition lia. }
  rewrite (u64_small (index + Zlen data - 1)) by lia.
  destruct (trim_left_spec r a data index) as [-> Ha1]; try done; try lia.
  cbn [mbind outcome_bind].
  set (lb := Z.max index (Zlen (hist a))) in *. case_cmp.
  { exists r, a. split_and!; try done. intros i ?. unfold known.
    intuition lia. }
  set (d1 := drop (Z.to_nat (lb - index)) data) in *.
  destruct (trim_right_spec r a d1 lb (index + Zlen data - 1)) as (-> & Ha2 & Hl2);
    try done; try lia; [unfold d1; zlen; lia |].
  cbn [mbind outcome_bind]. case_cmp.
  { exists r, a. split_and!; try done. intros i ?. unfold known. intuition lia. }
  specialize (Hl2 ltac:(lia)).
  set (rb := Z.min (index + Zlen data - 1) (window_end r a - 1)) in *.
  set (d2 := take (Z.to_nat (rb - lb + 1)) d1) in *.
  pose proof (inv_chain _ _ I) as Hch. pose proof (inv_cap _ _ I) as Hcap.
  unfold window_end in *.
  destruct (store_spec d2 lb rb (m r) (Zlen (hist a)) (Z.of_nat (nread a) + _capacity r - 1))
    as (l1 & Hst & Hch1 & Hs1); try done; try lia.
  { eapply chain_mono; [| | exact Hch]; lia. }
  rewrite (inv_count _ _ I), Hst. cbn [mbind outcome_bind].
  destruct (drain_spec l1 (_output r) a (Z.of_nat (nread a) + _capacity r - 1))
    as (l2 & out & a' & -> & Hr' & Hp' & Hex & Hch2 & Hk2); try done; try lia.
  { apply I. } { apply I. }
  cbn [mbind outcome_bind]. eexists _, a'. split_and!; [reflexivity | | done | done | done |].
  - destruct Hex as (Hc & Hn & _). constructor; cbn; try done; rewrite ?Hc, ?Hn; try lia; done.
  - intros i Hi0. unfold known. cbn. rewrite Hk2, Hs1.
    destruct Hex as (_ & _ & _ & _ & x & Hx). 
    assert (lb <= i <= rb -> index <= i < index + Zlen data /\ i < Z.of_nat (nread a) + _capacity r) by lia.
    assert (index <= i < index + Zlen data /\ i < Z.of_nat (nread a) + _capacity r ->
            lb <= i <= rb \/ 0 <= i < Zlen (hist a)) by lia.
    tauto.
Qed.

(** The stream is ended exactly when everything up to the announced end is
    in it. *)
Lemma push_substring_spec r a data index eof :
  Inv r a -> 0 <= index -> index + Zlen data <= window_end r a + 2 ^ 31 ->
  agrees Str index data ->
  exists r' a', push_substring data index eof r = Ret r' /\ Inv r' a' /\
    nread a' = nread a /\ _capacity r' = _capacity r /\ failed a' = failed a /\
    (exists d, hist a' = hist a ++ d) /\
    endIdx r' = (if eof then index + Zlen data else endIdx r) /\
    ended a' = ended a || (Zlen (hist a') =? endIdx r') /\
    (forall i, 0 <= i -> known r' a' i <-> known r a i \/ received r a index data i).
Proof.
  intros I Hi Hb Ha. unfold push_substring. pose proof (inv_bounds _ _ I).
  pose proof (Zlen_nonneg data).
  set (r0 := if eof then _ else r).
  assert (I0 : Inv r0 a) by (unfold r0; destruct eof; destruct I; by constructor).
  assert (Hr0 : _capacity r0 = _capacity r /\ m r0 = m r /\
                endIdx r0 = (if eof then index + Zlen data else endIdx r)).
  { unfold r0. destruct eof; [| done]. cbn. rewrite u64_small by lia. done. }
  destruct Hr0 as (Hc0 & Hm0 & He0).
  assert (Hw0 : window_end r0 a = window_end r a) by (unfold window_end; congruence).
  destruct (AddTempCash_spec r0 a data index I0 Hi ltac:(lia) Ha)
    as (r1 & a1 & -> & I1 & Hex & He1 & Hc1 & Hk1). cbn [mbind outcome_bind].
  rewrite (inv_written _ _ I1). destruct Hex as (Hxc & Hxn & Hxe & Hxf & Hxh).
  assert (Hk : forall i, 0 <= i -> known r1 a1 i <-> known r a i \/ received r a index data i).
  { intros i Hi0. rewrite Hk1 by done. unfold known, received. by rewrite Hm0, Hw0. }
  destruct (Z.eqb_spec (Zlen (hist a1)) (endIdx r1)) as [Heq | Hne].
  - eexists _, (ByteStreamSpec.mk (cap a1) (hist a1) (nread a1) true (failed a1)).
    split_and!; [reflexivity | | done | cbn; congruence | done | done | cbn; congruence | | exact Hk].
    + destruct I1. constructor; cbn; try done. by apply ByteStreamFacts.end_input_refines.
    + cbn. rewrite Heq, Z.eqb_refl. by rewrite orb_true_r.
  - exists r1, a1. split_and!; try done; try congruence.
    rewrite (proj2 (Z.eqb_neq _ _) Hne), Hxe. by rewrite orb_false_r.
Qed.

(** ** What the invariant gives a client *)

(** Nothing that could be delivered is held back. *)
Lemma inv_maximal r a n :
  Inv r a -> 0 <= n -> (forall i, 0 <= i < n -> known r a i) -> n <= Zlen (hist a).
Proof.
  intros I Hn Hk. destruct (Z.le_gt_cases n (Zlen (hist a))) as [? | Hgt]; [done |].
  pose proof (Zlen_nonneg (hist a)).
  destruct (Hk (Zlen (hist a)) ltac:(lia)) as [? | Hs]; [lia |].
  apply (chain_stored_ge _ _ _ _ (inv_chain _ _ I)) in Hs. lia.
Qed.

Lemma inv_capacity r a :
  Inv r a ->
  ByteStream.buffer_size (_output r) + unassembled_bytes r <= _capacity r.
Proof.
  intros I. unfold ByteStream.buffer_size, unassembled_bytes. rewrite (inv_count _ _ I).
  pose proof (ByteStreamFacts.repr_buffer_len _ _ (inv_repr _ _ I)) as (Hb & _).
  pose proof (inv_bounds _ _ I). unfold window_end in *. pose proof (inv_cap _ _ I).
  destruct (Z.eq_dec (Zlen (hist a)) (Z.of_nat (nread a) + _capacity r)) as [He | Hne].
  - destruct (m r) as [|[k d] l] eqn:Em; cbn [total]; [lia |].
    pose proof (inv_chain _ _ I) as Hc. rewrite Em in Hc. destruct Hc as (? & ? & ? & _). lia.
  - pose proof (fun H => chain_total _ _ _ H (inv_chain _ _ I)) as Ht. lia.
Qed.

(** Reading the output moves the window. *)
Lemma read_inv r a len :
  Inv r a -> in_bits 64 len ->
  Z.of_nat (nread (snd (ByteStreamSpec.read (Z.to_nat len) a))) + _capacity r < 2 ^ 31 ->
  exists d out, ByteStream.read len (_output r) = Ret (d, out) /\
    Inv (with_output out r) (snd (ByteStreamSpec.read (Z.to_nat len) a)).
Proof.
  intros I Hl Hs. destruct (ByteStreamFacts.read_refines _ _ len (inv_repr _ _ I) Hl)
    as (out & Hr & Hrepr).
  eexists _, out. split; [exact Hr |]. destruct I. constructor; cbn in *; try done.
  eapply chain_mono; [| | eassumption]; lia.
Qed.

(** ** Reachable states, for a stream of [L] bytes *)

Section Finite.
Context (cp : nat) (L : Z).
Hypothesis L_small : 0 <= L /\ L + Z.of_nat cp < 2 ^ 31.

(** A segment of the stream; only its last one is flagged [eof]. *)
Definition genuine (data : bytes) (index : Z) (eof : bool) : Prop :=
  0 <= index /\ index + Zlen data <= L /\ agrees Str index data /\
  (eof = true -> index + Zlen data = L).

Inductive reachable : t -> Prop :=
| reach_make : reachable (make (Z.of_nat cp))
| reach_push r r' data index eof :
    reachable r -> genuine data index eof ->
    push_substring data index eof r = Ret r' -> reachable r'
| reach_read r len d out :
    reachable r -> in_bits 64 len -> ByteStream.read len (_output r) = Ret (d, out) ->
    reachable (with_output out r).

Record InvL (r : t) (a : ByteStreamSpec.t) : Prop := {
  invl_inv : Inv r a;
  invl_cap : _capacity r = Z.of_nat cp;
  invl_known : forall i, known r a i -> i < L;
  invl_end : endIdx r = SIZE_MAX \/ endIdx r = L;
  invl_ended : ended a = true <-> endIdx r = L /\ Zlen (hist a) = L;
}.

Lemma invl_hist r a : InvL r a -> Zlen (hist a) <= L.
Proof.
  intros I. destruct (Z.le_gt_cases (Zlen (hist a)) L) as [? | Hgt]; [done |].
  pose proof (invl_known _ _ I L) as HL. unfold known in HL. lia.
Qed.

Lemma invl_push r a data index eof :
  InvL r a -> genuine data index eof ->
  exists r' a', push_substring data index eof r = Ret r' /\ InvL r' a' /\
    nread a' = nread a /\
    endIdx r' = (if eof then L else endIdx r) /\
    (forall i, 0 <= i -> known r' a' i <-> known r a i \/ received r a index data i).
Proof.
  intros I (Hi & HL & Ha & He). pose proof (inv_bounds _ _ (invl_inv _ _ I)) as Hbd.
  pose proof (invl_hist _ _ I).
  destruct (push_substring_spec r a data index eof (invl_inv _ _ I) Hi ltac:(lia) Ha)
    as (r' & a' & Hp & I' & Hn & Hc & _ & [x Hx] & Hei & Hed & Hk).
  assert (HeiL : endIdx r' = if eof then L else endIdx r).
  { rewrite Hei. destruct eof; [by apply He | done]. }
  assert (Hkn : forall i, known r' a' i -> i < L).
  { intros i Hki. destruct (Z.lt_ge_cases i 0); [lia |].
    apply Hk in Hki as [Hki | Hr]; [by apply (invl_known _ _ I) | | done].
    unfold received in Hr. lia. }
  exists r', a'. split_and!; try done. constructor; try done.
  - rewrite Hc. apply I.
  - rewrite HeiL. destruct eof; [by right | apply I].
  - rewrite Hed. assert (Hh : Zlen (hist a') = Zlen (hist a) + Zlen x) by (rewrite Hx; by zlen).
    pose proof (Zlen_nonneg x).
    assert (Zlen (hist a') <= L).
    { destruct (Z.le_gt_cases (Zlen (hist a')) L) as [? | Hgt]; [done |].
      specialize (Hkn L). unfold known in Hkn. lia. }
    pose proof (invl_ended _ _ I) as Hend. pose proof (invl_end _ _ I) as Hse.
    rewrite orb_true_iff, Z.eqb_eq. unfold SIZE_MAX in *. split.
    + intros [Hold%Hend | Hnew]; [destruct eof; split; lia |].
      destruct eof; split; lia.
    + intros [? ?]. right. lia.
Qed.

(** An empty substring (an acknowledgement without data) changes nothing. *)
Lemma invl_push_empty r a index : InvL r a -> push_substring [] index false r = Ret r.
Proof.
  intros H. pose proof (invl_inv _ _ H) as I. pose proof (invl_hist _ _ H).
  unfold push_substring.
  change (AddTempCash [] index r) with (Ret r). cbn [mbind outcome_bind].
  rewrite (inv_written _ _ I). destruct (Z.eqb_spec (Zlen (hist a)) (endIdx r)) as [He |]; [| done].
  assert (Hended : ended a = true).
  { apply (invl_ended _ _ H). destruct (invl_end _ _ H) as [Hm |]; [unfold SIZE_MAX in Hm; lia | lia]. }
  pose proof (ByteStreamFacts.repr_ended _ _ (inv_repr _ _ I)) as Hr. rewrite Hended in Hr.
  destruct r as [[c e tr w b er] c' u l e']. cbn in *. by subst.
Qed.

Lemma invl_set_error r a :
  InvL r a -> InvL (with_output (ByteStream.set_error (_output r)) r)
    (ByteStreamSpec.mk (cap a) (hist a) (nread a) (ended a) true).
Proof.
  intros []. destruct invl_inv0. constructor; [constructor; try done; by apply ByteStreamFacts.set_error_refines | done ..].
Qed.

Lemma invl_read r a len :
  InvL r a -> in_bits 64 len ->
  exists d out a', ByteStream.read len (_output r) = Ret (d, out) /\
    InvL (with_output out r) a' /\ hist a' = hist a.
Proof.
  intros I Hl. pose proof (invl_hist _ _ I). pose proof (invl_cap _ _ I).
  destruct (read_inv r a len (invl_inv _ _ I) Hl) as (d & out & Hr & I').
  { destruct (ByteStreamFacts.repr_wf _ _ (inv_repr _ _ (invl_inv _ _ I))).
    cbn [ByteStreamSpec.read snd nread]. unfold ByteStreamSpec.unread, Zlen in *.
    rewrite length_take, length_drop. lia. }
  exists d, out, (snd (ByteStreamSpec.read (Z.to_nat len) a)). split_and!; [done | | done].
  destruct I as [? Hc Hk He Hd]. split; [exact I' | exact Hc | exact Hk | exact He | exact Hd].
Qed.

Lemma reachable_inv r : reachable r -> exists a, InvL r a.
Proof.
  induction 1 as [| r r' data index eof _ [a I] Hg Hp | r len d out _ [a I] Hl Hr].
  - eexists. constructor; [apply make_inv; lia | done | | by left |].
    + intros i [Hi | Hi]; [cbn [hist] in Hi; zlen; lia | by apply stored_nil in Hi].
    + cbn [ended hist endIdx make]. unfold SIZE_MAX. split; [done | lia].
  - destruct (invl_push r a data index eof I Hg) as (r1 & a1 & Hp1 & I1 & _).
    rewrite Hp in Hp1. injection Hp1 as ->. by exists a1.
  - destruct (invl_read r a len I Hl) as (d1 & out1 & a1 & Hr1 & I1 & _).
    rewrite Hr in Hr1. injection Hr1 as -> ->. by exists a1.
Qed.

(** Pushing segments one after the other, with no reads in between. *)
Definition seg := (bytes * Z * bool)%type.

Fixpoint push_all (segs : list seg) (r : t) : outcome t :=
  match segs with
  | [] => Ret r
  | (data, index, eof) :: segs => r ← push_substring data index eof r; push_all segs r
  end.

Definition covers (segs : list seg) (i : Z) : Prop :=
  exists data index eof, (data, index, eof) ∈ segs /\ index <= i < index + Zlen data.

Lemma push_all_inv segs : forall r a,
  InvL r a -> L <= window_end r a ->
  (forall data index eof, (data, index, eof) ∈ segs -> genuine data index eof) ->
  exists r' a', push_all segs r = Ret r' /\ InvL r' a' /\ nread a' = nread a /\
    (endIdx r = L \/ (exists data index, (data, index, true) ∈ segs) -> endIdx r' = L) /\
    (forall i, 0 <= i -> known r' a' i <-> known r a i \/ covers segs i).
Proof.
  induction segs as [|[[data index] eof] segs IH]; intros r a I Hw Hg; cbn [push_all].
  { exists r, a. split_and!; try done.
    - intros [? | (? & ? & Hin)]; [done | by apply elem_of_nil in Hin].
    - intros i _. split; [by left |]. intros [? | (? & ? & ? & Hin & _)]; [done |].
      by apply elem_of_nil in Hin. }
  destruct (invl_push r a data index eof I) as (r1 & a1 & -> & I1 & Hn1 & He1 & Hk1).
  { apply Hg. by left. }
  assert (Hw1 : window_end r1 a1 = window_end r a).
  { unfold window_end. rewrite Hn1, (invl_cap _ _ I1), (invl_cap _ _ I). done. }
  cbn [mbind outcome_bind].
  destruct (IH r1 a1 I1) as (r2 & a2 & -> & I2 & Hn2 & He2 & Hk2); [lia | |].
  { intros d i e Hin. apply Hg. by right. }
  exists r2, a2. split_and!; try done; [congruence | |].
  - intros Hc. apply He2. rewrite He1. destruct eof; [by left |].
    destruct Hc as [? | (d & i & Hin)]; [by left | right].
    apply elem_of_cons in Hin as [[=] | Hin]; eauto.
  - intros i Hi. rewrite Hk2, Hk1 by done.
    assert (Hc : covers ((data, index, eof) :: segs) i <->
                 index <= i < index + Zlen data \/ covers segs i).
    { unfold covers. setoid_rewrite elem_of_cons. split.
      - intros (d & j & e & [[= -> -> ->] | Hin] & Hr); [by left | right; eauto 8].
      - intros [Hr | (d & j & e & Hin & Hr)]; eauto 10. }
    rewrite Hc. unfold received. pose proof (Hg data index eof ltac:(by left)) as (? & ? & _).
    assert (index <= i < index + Zlen data -> i < window_end r a) by lia. tauto.
Qed.

End Finite.

(** C6: receiving an excerpt of the stream never fails, keeps the invariant,
    and makes known exactly the bytes of the excerpt that lie inside the
    window, besides those known before; the end is recorded when flagged and
    the output ends exactly when every byte before the end is in it. *)
Theorem push_substring_correct r a data index eof :
  Inv r a -> 0 <= index -> index + Zlen data <= window_end r a + 2 ^ 31 ->
  agrees Str index data ->
  exists r' a', push_substring data index eof r = Ret r' /\ Inv r' a' /\
    nread a' = nread a /\ _capacity r' = _capacity r /\ failed a' = failed a /\
    (exists d, hist a' = hist a ++ d) /\
    endIdx r' = (if eof then index + Zlen data else endIdx r) /\
    ended a' = ended a || (Zlen (hist a') =? endIdx r') /\
    (forall i, 0 <= i -> known r' a' i <-> known r a i \/ received r a index data i).
Proof. apply push_substring_spec. Qed.

(** C9: in every state reachable by pushing genuine segments of a stream of
    [L] bytes, in any order and with any overlap, and reading the output in
    between: what was delivered is a prefix of the stream, buffered and
    unassembled bytes together stay within the capacity, no deliverable byte
    is held back, the output has ended only if all [L] bytes are in it, and
    no further genuine push or read can fail. *)
Theorem reassembler_safe cp L r :
  0 <= L /\ L + Z.of_nat cp < 2 ^ 31 -> reachable cp L r ->
  exists W, agrees Str 0 W /\ Zlen W = ByteStream.bytes_written (_output r) /\
    ByteStream.buffer (_output r) = drop (Z.to_nat (ByteStream.bytes_read (_output r))) W /\
    ByteStream.buffer_size (_output r) + unassembled_bytes r <= _capacity r /\
    ~ stored (m r) (Zlen W) /\
    (ByteStream.input_ended (_output r) = true -> Zlen W = L) /\
    (forall data index eof, genuine L data index eof ->
       exists r', push_substring data index eof r = Ret r') /\
    (forall len, in_bits 64 len -> exists d out, ByteStream.read len (_output r) = Ret (d, out)).
Proof.
  intros HL Hr. destruct (reachable_inv cp L HL r Hr) as [a I].
  pose proof (invl_inv _ _ _ _ I) as I0. exists (hist a). split_and!.
  - apply I0.
  - symmetry. by apply inv_written.
  - rewrite (inv_read _ _ I0), Nat2Z.id. apply (ByteStreamFacts.repr_buffer _ _ (inv_repr _ _ I0)).
  - by eapply inv_capacity.
  - intros Hs%(chain_stored_ge _ _ _ _ (inv_chain _ _ I0)). lia.
  - unfold ByteStream.input_ended. rewrite (ByteStreamFacts.repr_ended _ _ (inv_repr _ _ I0)).
    intros He%(invl_ended _ _ _ _ I). apply He.
  - intros data index eof Hg. destruct (invl_push cp L HL r a data index eof I Hg) as (r' & ? & ? & _).
    by exists r'.
  - intros len Hl. destruct (invl_read cp L HL r a len I Hl) as (d & out & ? & ? & _). by exists d, out.
Qed.

(** C10: segments that together cover a stream no longer than the capacity
    deliver it whole, whatever their order, overlaps and duplicates, and end
    the output once one of them was flagged [eof]; nothing is left over. *)
Theorem reassembler_delivers cp L segs :
  0 <= L /\ L + Z.of_nat cp < 2 ^ 31 -> L <= Z.of_nat cp ->
  (forall data index eof, (data, index, eof) ∈ segs -> genuine L data index eof) ->
  (exists data index, (data, index, true) ∈ segs) ->
  (forall i, 0 <= i < L -> covers segs i) ->
  exists r, push_all segs (make (Z.of_nat cp)) = Ret r /\
    Zlen (ByteStream.buffer (_output r)) = L /\ agrees Str 0 (ByteStream.buffer (_output r)) /\
    ByteStream.input_ended (_output r) = true /\ empty r = true.
Proof.
  intros HL Hcp Hg He Hc.
  destruct (reachable_inv cp L HL _ (reach_make cp L)) as [a0 I0].
  pose proof (inv_read _ _ (invl_inv _ _ _ _ I0)) as Hr0. change (0 = Z.of_nat (nread a0)) in Hr0.
  destruct (push_all_inv cp L HL segs _ _ I0) as (r & a & -> & I & Hn & Hei & Hk); [| done |].
  { unfold window_end. cbn [_capacity make]. lia. }
  pose proof (invl_inv _ _ _ _ I) as I1.
  assert (Hfull : Zlen (hist a) = L).
  { pose proof (invl_hist _ _ HL _ _ I). enough (L <= Zlen (hist a)) by lia.
    apply (inv_maximal r a); [done | lia |]. intros i Hi. apply Hk; [lia |]. right. by apply Hc. }
  assert (Hbuf : ByteStream.buffer (_output r) = hist a).
  { rewrite (ByteStreamFacts.repr_buffer _ _ (inv_repr _ _ I1)). unfold ByteStreamSpec.unread.
    replace (nread a) with O by lia. by rewrite drop_0. }
  exists r. rewrite Hbuf. split_and!; [done | done | apply I1 | |].
  - unfold ByteStream.input_ended. rewrite (ByteStreamFacts.repr_ended _ _ (inv_repr _ _ I1)).
    apply (invl_ended _ _ _ _ I). split; [apply Hei; by right | done].
  - unfold empty. rewrite (inv_count _ _ I1). apply Z.eqb_eq.
    destruct (m r) as [|[k d] l] eqn:Em; [done |].
    assert (Hs : known r a k).
    { right. rewrite Em. apply stored_cons. left.
      pose proof (inv_chain _ _ I1) as Hch. rewrite Em in Hch. destruct Hch as (? & _). lia. }
    apply (invl_known _ _ _ _ I) in Hs.
    pose proof (inv_chain _ _ I1) as Hch. rewrite Em in Hch. destruct Hch as (? & ? & _). lia.
Qed.

(** The window test fails for bytes further than 2^31 past the window:
    [overflow] returns the [size_t] distance as an [int], so it is not
    negative there and the bytes are accepted. *)
Theorem overflow_misses_far_bytes r a n :
  Inv r a -> window_end r a + 2 ^ 31 <= n <= window_end r a - 1 + 2 ^ 32 ->
  0 <= overflow r n.
Proof.
  intros I Hn. unfold overflow. rewrite i32_u64, (inv_read _ _ I).
  unfold window_end in *. unfold i32.
  rewrite <- (Z.mod_add _ 1 (2 ^ 32)) by lia. rewrite Z.mod_small; lia.
Qed.

End Stream.

(** ** Concrete runs *)

Definition sample (i : Z) : byte := byte_of (97 + i).
Definition sample_segs : list seg :=
  [([Byte.x62; Byte.x63], 1, false); ([Byte.x65], 4, true);
   ([Byte.x63; Byte.x64; Byte.x65], 2, false); ([Byte.x61], 0, false)].

Ltac solve_agrees :=
  let k := fresh in let b := fresh in
  intros k b; do 6 (destruct k as [|k]; [intros [= <-]; vm_compute; reflexivity |]); done.

Lemma push_substring_correct_witness :
  exists r', push_substring [Byte.x62; Byte.x63] 1 false (make 8) = Ret r' /\
             _capacity r' = 8.
Proof.
  destruct (push_substring_correct sample (make (Z.of_nat 8)) _ [Byte.x62; Byte.x63] 1 false
    (make_inv sample 8 ltac:(lia))) as (r' & a' & H1 & _ & _ & H2 & _);
    [lia | vm_compute; congruence | by solve_agrees |].
  exists r'. split; [exact H1 | exact H2].
Defined.

Lemma reassembler_safe_witness :
  let r := mk (ByteStream.make 8) 8 2 [(2, [Byte.x62; Byte.x63])] SIZE_MAX in
  push_substring [Byte.x62; Byte.x63] 1 false (make 8) = Ret r /\
  exists W : bytes, Zlen W = 0 /\
    ByteStream.buffer_size (_output r) + unassembled_bytes r <= 8.
Proof.
  intros r. assert (Hp : push_substring [Byte.x62; Byte.x63] 1 false (make 8) = Ret r)
    by (vm_compute; reflexivity).
  split; [exact Hp |].
  destruct (reassembler_safe sample 8 5 r) as (W & _ & H1 & _ & H2 & _).
  - lia.
  - apply (reach_push sample 8 5 (make (Z.of_nat 8)) r [Byte.x62; Byte.x63] 1 false);
      [constructor | | exact Hp].
    split_and!; [lia | vm_compute; congruence | by solve_agrees | done].
  - exists W. split; [exact H1 | exact H2].
Defined.

Lemma reassembler_delivers_witness :
  exists r, push_all sample_segs (make 8) = Ret r /\
    Zlen (ByteStream.buffer (_output r)) = 5 /\ ByteStream.input_ended (_output r) = true.
Proof.
  destruct (reassembler_delivers sample 8 5 sample_segs) as (r & H1 & H2 & _ & H3 & _).
  - lia.
  - lia.
  - intros data index eof Hin. unfold sample_segs in Hin.
    repeat (apply elem_of_cons in Hin as [[= -> -> ->] | Hin];
      [split_and!; [lia | vm_compute; congruence | by solve_agrees | vm_compute; congruence] |]).
    by apply elem_of_nil in Hin.
  - exists [Byte.x65], 4. unfold sample_segs. set_solver.
  - intros i Hi. destruct (decide (i = 0)); [exists [Byte.x61], 0, false |
      destruct (decide (i < 3)); [exists [Byte.x62; Byte.x63], 1, false |
        exists [Byte.x63; Byte.x64; Byte.x65], 2, false]];
      (split; [unfold sample_segs; set_solver | unfold Zlen; cbn; lia]).
  - exists r. split_and!; [exact H1 | exact H2 | exact H3].
Defined.

Lemma overflow_misses_far_bytes_witness :
  0 <= overflow (make 8) (2 ^ 32 - 1) /\
  push_substring [Byte.x61] (2 ^ 32 - 1) false (make 8) =
    Ret (mk (ByteStream.make 8) 8 1 [(2 ^ 32 - 1, [Byte.x61])] SIZE_MAX).
Proof.
  split; [| vm_compute; reflexivity].
  apply (overflow_misses_far_bytes sample (make (Z.of_nat 8)) _ (2 ^ 32 - 1)
    (make_inv sample 8 ltac:(lia))). vm_compute. intuition congruence.
Defined.

End ReassemblerFacts.
