(* ===== verification/buffer.v ===== *)
(** * libsponge/util/buffer.{hh,cc}: reference-counted strings

    A [Buffer] is a shared string that can discard bytes from its front; the
    shared storage is never written, so the model keeps its contents.  Two
    buffers with the same visible bytes are equivalent ([≡]): the operations
    respect that equivalence, whatever the storage behind them.  A
    [BufferList] is the deque of its buffers, a [BufferViewList] the deque of
    its string views. *)

From S2P Require Import Prelude.

Module Buffer.

Record t := mk {
  _storage : option bytes;
  _starting_offset : Z;
}.

Definition empty : t := mk None 0.
Definition of_string (s : bytes) : t := mk (Some s) 0.

Definition str (b : t) : bytes :=
  match _storage b with
  | None => []
  | Some s => drop (Z.to_nat (_starting_offset b)) s
  end.

Definition at_ (n : Z) (b : t) : outcome Z :=
  match str b !! Z.to_nat n with
  | Some c => Ret (byte_val c)
  | None => Raise (out_of_range "basic_string_view::at")
  end.

Definition size (b : t) : Z := Zlen (str b).
Definition copy (b : t) : bytes := str b.

Definition remove_prefix (n : Z) (b : t) : outcome t :=
  if n >? Zlen (str b) then Raise (out_of_range "Buffer::remove_prefix")
  else
    let offset := u64 (_starting_offset b + n) in
    match _storage b with
    | Some s => Ret (mk (if offset =? Zlen s then None else Some s) offset)
    | None => Ret (mk None offset)
    end.

(** The offset stays inside the storage. *)
Definition wf (b : t) : Prop :=
  match _storage b with
  | Some s => 0 <= _starting_offset b <= Zlen s /\ Zlen s < 2 ^ 64
  | None => True
  end.

#[global] Instance buffer_equiv : Equiv t := fun b1 b2 => str b1 = str b2.
#[global] Instance buffer_equivalence : Equivalence (≡@{t}).
Proof. split; repeat intro; unfold equiv, buffer_equiv in *; congruence. Qed.

#[global] Instance str_proper : Proper ((≡@{t}) ==> (=)) str.
Proof. intros b1 b2 H. exact H. Qed.
#[global] Instance size_proper : Proper ((≡@{t}) ==> (=)) size.
Proof. intros b1 b2 H. unfold size. by rewrite H. Qed.
#[global] Instance copy_proper : Proper ((≡@{t}) ==> (=)) copy.
Proof. intros b1 b2 H. exact H. Qed.
#[global] Instance at_proper n : Proper ((≡@{t}) ==> (=)) (at_ n).
Proof. intros b1 b2 H. unfold at_. by rewrite H. Qed.

Lemma wf_of_string s : Zlen s < 2 ^ 64 -> wf (of_string s).
Proof. intros. cbn. pose proof (Zlen_nonneg s). lia. Qed.
Lemma str_of_string s : str (of_string s) = s.
Proof. apply drop_0. Qed.
(** Discarding [n] of the visible bytes. *)
Lemma remove_prefix_ok n b :
  wf b -> 0 <= n <= size b ->
  exists b', remove_prefix n b = Ret b' /\ wf b' /\ str b' = drop (Z.to_nat n) (str b).
Proof.
  destruct b as [[s|] off]; unfold wf, size, remove_prefix, str; cbn; intros Hwf Hn.
  - zlen. destruct (Z.gtb_spec n (Z.max 0 (Zlen s - Z.of_nat (Z.to_nat off)))); [lia |].
    rewrite u64_small by lia. eexists. split; [reflexivity |]. case_cmp; cbn.
    + split; [done |]. symmetry. apply drop_ge. rewrite length_drop. unfold Zlen in *. lia.
    + split; [lia |]. rewrite drop_drop. f_equal. lia.
  - destruct (Z.gtb_spec n (@Zlen byte [])); [zlen; lia |]. eexists. split; [reflexivity |]. cbn.
    by rewrite drop_nil.
Qed.

Lemma remove_prefix_too_long n b :
  size b < n -> remove_prefix n b = Raise (out_of_range "Buffer::remove_prefix").
Proof. unfold size, remove_prefix. intros. destruct (Z.gtb_spec n (Zlen (str b))); [done | lia]. Qed.

End Buffer.

Module BufferList.

Definition t := list Buffer.t.

Definition empty : t := [].
Definition of_buffer (b : Buffer.t) : t := [b].
Definition of_string (s : bytes) : t := [Buffer.of_string s].
Definition append (other : t) (l : t) : t := l ++ other.

(** [operator Buffer()]. *)
Definition to_buffer (l : t) : outcome Buffer.t :=
  match l with
  | [] => Ret Buffer.empty
  | [b] => Ret b
  | _ => Raise (runtime_error "BufferList: please use concatenate() to combine a multi-Buffer BufferList into one Buffer")
  end.

Fixpoint concatenate (l : t) : bytes :=
  match l with
  | [] => []
  | buf :: l => Buffer.str buf ++ concatenate l
  end.

Definition size (l : t) : Z := foldl (fun ret buf => u64 (ret + Buffer.size buf)) 0 l.

(** The loop body with [n > 0]; stops with [n = 0]. *)
Fixpoint remove_prefix (n : Z) (l : t) : outcome t :=
  if n >? 0 then
    match l with
    | [] => Raise (out_of_range "BufferList::remove_prefix")
    | front :: rest =>
        if n <? Zlen (Buffer.str front) then
          front ← Buffer.remove_prefix n front; Ret (front :: rest)
        else remove_prefix (n - Zlen (Buffer.str front)) rest
    end
  else Ret l.

Definition wf (l : t) : Prop := Forall Buffer.wf l.

#[global] Instance bufferlist_equiv : Equiv t := fun l1 l2 => concatenate l1 = concatenate l2.
#[global] Instance bufferlist_equivalence : Equivalence (≡@{t}).
Proof. split; repeat intro; unfold equiv, bufferlist_equiv in *; congruence. Qed.

Lemma concatenate_app l1 l2 : concatenate (l1 ++ l2) = concatenate l1 ++ concatenate l2.
Proof. induction l1 as [|b l1 IH]; cbn; [done |]. by rewrite IH, app_assoc. Qed.

#[global] Instance append_proper : Proper ((≡@{t}) ==> (≡@{t}) ==> (≡@{t})) append.
Proof.
  intros o1 o2 Ho l1 l2 Hl. unfold append, equiv, bufferlist_equiv in *.
  rewrite !concatenate_app. congruence.
Qed.

Lemma size_concatenate l : Zlen (concatenate l) < 2 ^ 64 -> size l = Zlen (concatenate l).
Proof.
  unfold size. intros H.
  enough (Hg : forall n, 0 <= n -> n + Zlen (concatenate l) < 2 ^ 64 ->
    foldl (fun ret buf => u64 (ret + Buffer.size buf)) n l = n + Zlen (concatenate l)).
  { rewrite Hg; lia. }
  clear H. induction l as [|b l IH]; intros n Hn Hb; cbn in *.
  - rewrite Zlen_nil. lia.
  - zlen. pose proof (Zlen_nonneg (Buffer.str b)). pose proof (Zlen_nonneg (concatenate l)).
    rewrite (u64_small (n + Buffer.size b)) by (unfold Buffer.size; lia).
    rewrite IH by (unfold Buffer.size; lia). unfold Buffer.size. lia.
Qed.

Lemma to_buffer_str l b : to_buffer l = Ret b -> Buffer.str b = concatenate l.
Proof.
  destruct l as [|x [|y l]]; cbn; intros [= <-]; [done |]. by rewrite app_nil_r.
Qed.

Lemma list_remove_prefix_ok n l :
  wf l -> 0 <= n <= Zlen (concatenate l) ->
  exists l', remove_prefix n l = Ret l' /\ wf l' /\
             concatenate l' = drop (Z.to_nat n) (concatenate l).
Proof.
  revert n. induction l as [|b l IH]; intros n Hwf Hn; cbn in *.
  - zlen. assert (n = 0) as -> by lia. by exists [].
  - inversion Hwf as [|? ? Hb Hl]; subst. zlen.
    destruct (Z.gtb_spec n 0); cycle 1.
    { assert (n = 0) as -> by lia. eexists. split_and!; [reflexivity | done | by rewrite drop_0]. }
    case_cmp.
    + destruct (Buffer.remove_prefix_ok n b Hb) as (b' & -> & Hb' & Hs);
        [unfold Buffer.size; lia |].
      eexists. split_and!; [reflexivity | by constructor |]. cbn. rewrite Hs.
      rewrite drop_app_le by (unfold Zlen in *; lia). done.
    + destruct (IH (n - Zlen (Buffer.str b)) Hl) as (l' & -> & Hl' & Hs); [lia |].
      eexists. split_and!; [reflexivity | done |]. rewrite Hs.
      rewrite drop_app_ge by (unfold Zlen in *; lia). f_equal. unfold Zlen. lia.
Qed.

Lemma list_remove_prefix_too_long n l :
  Zlen (concatenate l) < n ->
  remove_prefix n l = Raise (out_of_range "BufferList::remove_prefix").
Proof.
  revert n. induction l as [|b l IH]; intros n Hn; cbn in *; zlen.
  - destruct (Z.gtb_spec n 0); [done | lia].
  - pose proof (Zlen_nonneg (Buffer.str b)). pose proof (Zlen_nonneg (concatenate l)).
    destruct (Z.gtb_spec n 0); [| lia]. case_cmp; [lia |]. apply IH. lia.
Qed.

End BufferList.

Module BufferViewList.

Definition t := list bytes.

Definition of_string (s : bytes) : t := [s].
Definition of_bufferlist (l : BufferList.t) : t := map Buffer.str l.

Fixpoint remove_prefix (n : Z) (l : t) : outcome t :=
  if n >? 0 then
    match l with
    | [] => Raise (out_of_range "BufferListView::remove_prefix")
    | front :: rest =>
        if n <? Zlen front then Ret (drop (Z.to_nat n) front :: rest)
        else remove_prefix (n - Zlen front) rest
    end
  else Ret l.

Definition size (l : t) : Z := foldl (fun ret buf => u64 (ret + Zlen buf)) 0 l.

(** A vector of [iovec]s: the bytes pointed to and their number. *)
Definition as_iovecs (l : t) : list (bytes * Z) := map (fun x => (x, Zlen x)) l.

(** Discarding from the views is discarding from the buffers they show. *)
Lemma remove_prefix_views n l :
  BufferList.wf l -> 0 <= n <= Zlen (BufferList.concatenate l) ->
  exists l', BufferList.remove_prefix n l = Ret l' /\
             remove_prefix n (of_bufferlist l) = Ret (of_bufferlist l').
Proof.
  revert n. induction l as [|b l IH]; intros n Hwf Hn; cbn in *.
  - zlen. assert (n = 0) as -> by lia. by exists [].
  - inversion Hwf as [|? ? Hb Hl]; subst. zlen. destruct (Z.gtb_spec n 0); [| by eexists].
    case_cmp.
    + destruct (Buffer.remove_prefix_ok n b Hb) as (b' & -> & Hb' & Hs);
        [unfold Buffer.size; lia |].
      eexists. split; [reflexivity |]. cbn. by rewrite Hs.
    + apply IH; [done | lia].
Qed.

End BufferViewList.
