(* ===== verification/parser.v ===== *)
(** * libsponge/util/parser.{hh,cc}: reading and writing network byte order

    [NetParser] carries the rest of its input and the first error it met;
    once there is an error every read returns 0.  [NetUnparser] appends the
    big-endian bytes of an integer to a string. *)

From S2P Require Import Prelude buffer.

Inductive ParseResult :=
| NoError
| BadChecksum
| PacketTooShort
| WrongIPVersion
| HeaderTooShort
| TruncatedPacket
| Unsupported.

#[export] Instance ParseResult_eq_dec : EqDecision ParseResult.
Proof. solve_decision. Defined.

Module Parser.

Definition to_index (r : ParseResult) : nat :=
  match r with
  | NoError => 0 | BadChecksum => 1 | PacketTooShort => 2 | WrongIPVersion => 3
  | HeaderTooShort => 4 | TruncatedPacket => 5 | Unsupported => 6
  end%nat.

Definition _names : list string :=
  ["NoError"; "BadChecksum"; "PacketTooShort"; "WrongIPVersion"; "HeaderTooShort";
   "TruncatedPacket"]%string.

(** An index past the array is undefined behaviour. *)
Definition as_string (r : ParseResult) : outcome string :=
  match _names !! to_index r with
  | Some s => Ret s
  | None => Raise (undefined_behaviour "array index out of bounds")
  end.

End Parser.

(** An unsigned integer type of [len] bytes. *)
Definition uT (len : nat) (z : Z) : Z := z mod 2 ^ (8 * Z.of_nat len).

Module NetParser.

Record t := mk {
  _buffer : Buffer.t;
  _error : ParseResult;
}.

Definition make (b : Buffer.t) : t := mk b NoError.
Definition buffer (p : t) : Buffer.t := _buffer p.
Definition get_error (p : t) : ParseResult := _error p.
Definition set_error (res : ParseResult) (p : t) : t := mk (_buffer p) res.
Definition error (p : t) : bool := negb (bool_decide (get_error p = NoError)).

Definition _check_size (size : Z) (p : t) : t :=
  if size >? Buffer.size (_buffer p) then set_error PacketTooShort p else p.

(** [for (i = 0; i < len; i++) { ret <<= 8; ret += uint8_t(_buffer.at(i)); }],
    with [k] iterations left. *)
Fixpoint parse_loop (len k : nat) (ret : Z) (b : Buffer.t) : outcome Z :=
  match k with
  | O => Ret ret
  | S k' =>
      c ← Buffer.at_ (Z.of_nat (len - k)) b;
      parse_loop len k' (uT len (uT len (Z.shiftl ret 8) + u8 c)) b
  end.

Definition _parse_int (len : nat) (p : t) : outcome (Z * t) :=
  let p := _check_size (Z.of_nat len) p in
  if error p then Ret (0, p)
  else
    ret ← parse_loop len len 0 (_buffer p);
    b ← Buffer.remove_prefix (Z.of_nat len) (_buffer p);
    Ret (ret, mk b (_error p)).

Definition remove_prefix (n : Z) (p : t) : outcome t :=
  let p := _check_size n p in
  if error p then Ret p
  else b ← Buffer.remove_prefix n (_buffer p); Ret (mk b (_error p)).

Definition u32 (p : t) : outcome (Z * t) := _parse_int 4 p.
Definition u16 (p : t) : outcome (Z * t) := _parse_int 2 p.
Definition u8 (p : t) : outcome (Z * t) := _parse_int 1 p.

End NetParser.

Module NetUnparser.

(** [for (i = 0; i < len; ++i) s.push_back((val >> ((len-i-1)*8)) & 0xff)],
    with [k] iterations left. *)
Fixpoint unparse_loop (k : nat) (s : bytes) (val : Z) : bytes :=
  match k with
  | O => s
  | S k' =>
      let the_byte := byte_of (Z.land (Z.shiftr val (Z.of_nat k' * 8)) 0xff) in
      unparse_loop k' (s ++ [the_byte]) val
  end.

Definition _unparse_int (len : nat) (s : bytes) (val : Z) : bytes := unparse_loop len s val.

Definition u32 (s : bytes) (val : Z) : bytes := _unparse_int 4 s val.
Definition u16 (s : bytes) (val : Z) : bytes := _unparse_int 2 s val.
Definition u8 (s : bytes) (val : Z) : bytes := _unparse_int 1 s val.

End NetUnparser.

(** ** Big-endian numbers *)

Module ParserFacts.

Fixpoint be_val (bs : bytes) : Z :=
  match bs with
  | [] => 0
  | b :: bs => byte_val b * 2 ^ (8 * Zlen bs) + be_val bs
  end.

(** The bytes [_unparse_int] appends. *)
Fixpoint be_bytes (len : nat) (v : Z) : bytes :=
  match len with
  | O => []
  | S k => byte_of (Z.shiftr v (Z.of_nat k * 8)) :: be_bytes k v
  end.

Lemma length_be_bytes len v : length (be_bytes len v) = len.
Proof. induction len; cbn; congruence. Qed.

Lemma Zlen_be_bytes len v : Zlen (be_bytes len v) = Z.of_nat len.
Proof. unfold Zlen. by rewrite length_be_bytes. Qed.

Lemma unparse_int_app len s v : NetUnparser._unparse_int len s v = s ++ be_bytes len v.
Proof.
  unfold NetUnparser._unparse_int. revert s. induction len as [|k IH]; intros s; cbn [be_bytes NetUnparser.unparse_loop].
  - by rewrite app_nil_r.
  - rewrite IH, <- app_assoc. cbn. do 2 f_equal.
    replace 255 with (Z.ones 8) by reflexivity. rewrite Z.land_ones by lia.
    unfold byte_of, Prelude.u8. by rewrite Zmod_mod.
Qed.

Lemma be_val_range bs : 0 <= be_val bs < 2 ^ (8 * Zlen bs).
Proof.
  induction bs as [|b bs IH]; cbn [be_val]; [zlen; lia |].
  pose proof (byte_val_range b). rewrite Zlen_cons.
  replace (8 * (1 + Zlen bs)) with (8 + 8 * Zlen bs) by lia.
  pose proof (Zlen_nonneg bs). rewrite Z.pow_add_r by lia. nia.
Qed.

Lemma be_val_app l1 l2 : be_val (l1 ++ l2) = be_val l1 * 2 ^ (8 * Zlen l2) + be_val l2.
Proof.
  induction l1 as [|b l1 IH]; cbn [be_val app]; [lia |].
  rewrite IH. zlen. replace (8 * (Zlen l1 + Zlen l2)) with (8 * Zlen l1 + 8 * Zlen l2) by lia.
  pose proof (Zlen_nonneg l1). pose proof (Zlen_nonneg l2). rewrite Z.pow_add_r by lia. lia.
Qed.

Lemma be_val_bytes len v : be_val (be_bytes len v) = v mod 2 ^ (8 * Z.of_nat len).
Proof.
  induction len as [|k IH]; cbn [be_val be_bytes].
  - cbn. by rewrite Z.mod_1_r.
  - rewrite IH, byte_val_of, Zlen_be_bytes. unfold u8.
    rewrite Z.shiftr_div_pow2 by lia.
    replace (8 * Z.of_nat (S k)) with (8 * Z.of_nat k + 8) by lia.
    rewrite (Z.mul_comm (Z.of_nat k) 8).
    rewrite Z.pow_add_r by lia.
    pose proof (Z.rem_mul_r v (2 ^ (8 * Z.of_nat k)) (2 ^ 8)) as Hm.
    rewrite Hm by lia. lia.
Qed.

Lemma be_val_bytes_small len v :
  in_bits (8 * Z.of_nat len) v -> be_val (be_bytes len v) = v.
Proof. intros. rewrite be_val_bytes. by apply Z.mod_small. Qed.

(** ** Parsing *)

(** The parser has no error and the bytes [s] in front of it. *)
Definition ahead (p : NetParser.t) (s : bytes) : Prop :=
  Buffer.wf (NetParser._buffer p) /\ NetParser._error p = NoError /\
  Buffer.str (NetParser._buffer p) = s.

Lemma ahead_make b : Buffer.wf b -> ahead (NetParser.make b) (Buffer.str b).
Proof. by intros. Qed.

Lemma ahead_error p s : ahead p s -> NetParser.error p = false.
Proof.
  intros (_ & He & _). unfold NetParser.error, NetParser.get_error. rewrite He.
  by rewrite bool_decide_true.
Qed.

Lemma ahead_check p s n : ahead p s -> n <= Zlen s -> NetParser._check_size n p = p.
Proof.
  intros (_ & _ & Hs) Hn. unfold NetParser._check_size, Buffer.size. rewrite Hs.
  destruct (Z.gtb_spec n (Zlen s)); [lia | done].
Qed.

Lemma parse_loop_spec len bs rest b :
  length bs = len -> Buffer.str b = bs ++ rest ->
  forall k, (k <= len)%nat ->
    NetParser.parse_loop len k (be_val (take (len - k) bs)) b = Ret (be_val bs).
Proof.
  intros Hlen Hs. induction k as [|k IH]; intros Hk; cbn [NetParser.parse_loop].
  - rewrite take_ge by lia. done.
  - unfold Buffer.at_. rewrite Hs, Nat2Z.id.
    destruct (lookup_lt_is_Some_2 bs (len - S k)) as [c Hc]; [lia |].
    rewrite (lookup_app_l_Some _ _ _ _ Hc). cbn [mbind outcome_bind].
    rewrite <- IH by lia. f_equal.
    replace (len - k)%nat with (S (len - S k)) by lia.
    rewrite (take_S_r _ _ _ Hc), be_val_app. cbn [be_val]. zlen.
    set (pre := take (len - S k) bs). pose proof (be_val_range pre) as Hr.
    assert (Hpl : Zlen pre = Z.of_nat (len - S k)) by (unfold pre; zlen; unfold Zlen; lia).
    rewrite Hpl in Hr. pose proof (byte_val_range c).
    rewrite u8_small by lia. unfold uT. rewrite Z.shiftl_mul_pow2 by lia.
    assert (Hpow : 2 ^ (8 * Z.of_nat (len - S k)) * 2 ^ 8 <= 2 ^ (8 * Z.of_nat len)).
    { rewrite <- Z.pow_add_r by lia. apply Z.pow_le_mono_r; lia. }
    rewrite (Z.mod_small (be_val pre * 2 ^ 8)) by nia.
    rewrite Z.mod_small by nia. cbn. lia.
Qed.

Lemma parse_int_ok len p bs rest :
  ahead p (bs ++ rest) -> length bs = len ->
  exists p', NetParser._parse_int len p = Ret (be_val bs, p') /\ ahead p' rest.
Proof.
  intros Ha Hl. unfold NetParser._parse_int.
  rewrite (ahead_check _ _ _ Ha) by (zlen; unfold Zlen; lia).
  rewrite (ahead_error _ _ Ha). destruct Ha as (Hwf & He & Hs).
  pose proof (parse_loop_spec len bs rest _ Hl Hs len (le_n _)) as Hp.
  rewrite Nat.sub_diag in Hp. change (be_val (take 0 bs)) with 0 in Hp. rewrite Hp. cbn [mbind outcome_bind].
  destruct (Buffer.remove_prefix_ok (Z.of_nat len) _ Hwf) as (b' & -> & Hwf' & Hs').
  { unfold Buffer.size. rewrite Hs. zlen. unfold Zlen. lia. }
  eexists. split; [reflexivity |]. split_and!; [done | done |].
  cbn. rewrite Hs', Hs, Nat2Z.id. rewrite drop_app_length'; [done | done].
Qed.

(** Reading back what was written. *)
Lemma parse_be_bytes len p v rest :
  ahead p (be_bytes len v ++ rest) -> in_bits (8 * Z.of_nat len) v ->
  exists p', NetParser._parse_int len p = Ret (v, p') /\ ahead p' rest.
Proof.
  intros Ha Hv. destruct (parse_int_ok len p _ _ Ha (length_be_bytes _ _)) as (p' & Hp & Ha').
  rewrite be_val_bytes_small in Hp by done. eauto.
Qed.

Lemma remove_prefix_ahead p n bs rest :
  ahead p (bs ++ rest) -> Zlen bs = n ->
  exists p', NetParser.remove_prefix n p = Ret p' /\ ahead p' rest.
Proof.
  intros Ha Hn. unfold NetParser.remove_prefix. pose proof (Zlen_nonneg rest).
  pose proof (Zlen_nonneg bs).
  rewrite (ahead_check _ _ _ Ha) by (zlen; lia). rewrite (ahead_error _ _ Ha).
  destruct Ha as (Hwf & He & Hs).
  destruct (Buffer.remove_prefix_ok n _ Hwf) as (b' & -> & Hwf' & Hs').
  { unfold Buffer.size. rewrite Hs. zlen. lia. }
  eexists. split; [reflexivity |]. split_and!; [done | done |].
  cbn. rewrite Hs', Hs. rewrite drop_app_length'; [done | unfold Zlen in *; lia].
Qed.

(** A read past the end reports [PacketTooShort] and consumes nothing. *)
Lemma parse_int_short len p s :
  ahead p s -> Zlen s < Z.of_nat len ->
  NetParser._parse_int len p = Ret (0, NetParser.mk (NetParser._buffer p) PacketTooShort).
Proof.
  intros (Hwf & He & Hs) Hl. unfold NetParser._parse_int, NetParser._check_size, Buffer.size.
  rewrite Hs. destruct (Z.gtb_spec (Z.of_nat len) (Zlen s)); [| lia].
  unfold NetParser.error, NetParser.get_error. cbn. rewrite bool_decide_false by done. done.
Qed.


(** No read throws: on every input it returns a number of its width. *)
Lemma parse_int_total len p :
  Buffer.wf (NetParser._buffer p) ->
  exists v p', NetParser._parse_int len p = Ret (v, p') /\
    Buffer.wf (NetParser._buffer p') /\ in_bits (8 * Z.of_nat len) v.
Proof.
  intros Hwf. unfold in_bits. destruct p as [b e]. cbn in Hwf.
  assert (Hpos : 0 < 2 ^ (8 * Z.of_nat len)) by (apply Z.pow_pos_nonneg; lia).
  destruct (decide (e = NoError)) as [-> | Hne].
  - destruct (Z.lt_ge_cases (Buffer.size b) (Z.of_nat len)) as [Hlt | Hge].
    + erewrite (parse_int_short _ _ (Buffer.str b)); [| done | done].
      eexists _, _. split_and!; [done | done | lia | lia].
    + destruct (parse_int_ok len (NetParser.mk b NoError) (take len (Buffer.str b))
        (drop len (Buffer.str b))) as (p' & -> & Hwf' & _).
      { split_and!; [done | done |]. cbn. by rewrite take_drop. }
      { rewrite length_take. unfold Buffer.size, Zlen in *. lia. }
      pose proof (be_val_range (take len (Buffer.str b))) as Hr.
      rewrite Zlen_take, Z.min_l in Hr by exact Hge. eauto.
  - assert (He : NetParser.error (NetParser._check_size (Z.of_nat len) (NetParser.mk b e)) = true).
    { unfold NetParser._check_size, NetParser.error. destruct (_ >? _); cbn;
        by rewrite bool_decide_false. }
    unfold NetParser._parse_int. rewrite He. eexists _, _. split_and!; [done | | lia | lia].
    unfold NetParser._check_size. by destruct (_ >? _).
Qed.

Lemma remove_prefix_total n p :
  Buffer.wf (NetParser._buffer p) -> 0 <= n ->
  exists p', NetParser.remove_prefix n p = Ret p' /\ Buffer.wf (NetParser._buffer p').
Proof.
  intros Hwf Hn. unfold NetParser.remove_prefix, NetParser._check_size.
  destruct (Z.gtb_spec n (Buffer.size (NetParser._buffer p))).
  - unfold NetParser.error. cbn. eauto.
  - destruct (NetParser.error p); [eauto |].
    destruct (Buffer.remove_prefix_ok n _ Hwf) as (b' & -> & ? & _); [lia |].
    cbn. eauto.
Qed.

(** A read that fits. *)
Lemma parse_int_any len p s :
  ahead p s -> Z.of_nat len <= Zlen s ->
  exists v p', NetParser._parse_int len p = Ret (v, p') /\ ahead p' (drop len s) /\
    in_bits (8 * Z.of_nat len) v.
Proof.
  intros Ha Hl. rewrite <- (take_drop len s) in Ha.
  destruct (parse_int_ok len p _ _ Ha) as (p' & Hp & Ha').
  { rewrite length_take. unfold Zlen in Hl. lia. }
  pose proof (be_val_range (take len s)) as Hr.
  rewrite Zlen_take, Z.min_l in Hr by done. eauto.
Qed.

(** Writing an integer of [len] bytes and reading it back gives the
    integer and leaves the rest of the input, whatever was written before or
    after it; the parser meets no error. *)
Theorem unparse_parse_roundtrip (len : nat) (v : Z) (rest : bytes) :
  in_bits (8 * Z.of_nat len) v -> Zlen rest + Z.of_nat len < 2 ^ 64 ->
  exists p', NetParser._parse_int len
      (NetParser.make (Buffer.of_string (NetUnparser._unparse_int len [] v ++ rest))) = Ret (v, p') /\
    NetParser.error p' = false /\ Buffer.str (NetParser.buffer p') = rest.
Proof.
  intros Hv Hr. rewrite unparse_int_app. cbn [app].
  destruct (parse_be_bytes len (NetParser.make (Buffer.of_string (be_bytes len v ++ rest))) v rest)
    as (p' & Hp & Ha).
  - split_and!; [apply Buffer.wf_of_string; rewrite Zlen_app, Zlen_be_bytes; lia | done |
      apply Buffer.str_of_string].
  - done.
  - exists p'. split_and!; [done | by eapply ahead_error | apply Ha].
Qed.

Lemma unparse_parse_roundtrip_witness :
  exists p', NetParser._parse_int 4
    (NetParser.make (Buffer.of_string (NetUnparser._unparse_int 4 [] 0xc0a80001 ++ [Byte.x61])))
    = Ret (0xc0a80001, p') /\ NetParser.error p' = false.
Proof.
  destruct (unparse_parse_roundtrip 4 0xc0a80001 [Byte.x61]) as (p' & H1 & H2 & _);
    [unfold in_bits; lia | vm_compute; reflexivity |].
  exists p'. split; [exact H1 | exact H2].
Defined.

(** [as_string] indexes past its table of names for the last result
    code, [Unsupported], and is defined for every other one. *)
Theorem as_string_missing_name (r : ParseResult) :
  (exists s, Parser.as_string r = Ret s) <-> r <> Unsupported.
Proof. destruct r; cbn; split; intros H; try done; try (by eexists); by destruct H. Qed.

End ParserFacts.
