(* ===== verification/util.v ===== *)
(** * libsponge/util/util.{hh,cc}: the Internet checksum

    [SystemCall] is in kernel.v; hex dumps and the seeding of the random
    generator are input and output and are not modelled. *)

From S2P Require Import Prelude.

Module InternetChecksum.

Record t := mk {
  _sum : Z;        (* uint32_t *)
  _parity : bool;
}.

Definition make (initial_sum : Z) : t := mk initial_sum false.

Definition add_byte (c : t) (x : byte) : t :=
  let val := byte_val x in
  let val := if _parity c then val else u16 (Z.shiftl val 8) in
  mk (u32 (_sum c + val)) (negb (_parity c)).

Definition add (data : bytes) (c : t) : t := foldl add_byte c data.

(** [while (ret > 0xffff) ret = (ret >> 16) + (ret & 0xffff);] *)
Fixpoint fold_carry (fuel : nat) (ret : Z) : Z :=
  if ret >? 0xffff then
    match fuel with
    | O => ret
    | S fuel => fold_carry fuel (u32 (Z.shiftr ret 16 + Z.land ret 0xffff))
    end
  else ret.

(** Two iterations end the loop for every 32-bit sum ([fold_carry_done]). *)
Definition value (c : t) : Z := u16 (Z.lnot (fold_carry 2 (_sum c))).

End InternetChecksum.

Module ChecksumFacts.
Import InternetChecksum.

(** The sum of the 16-bit words of a string, the first byte in the high or,
    at odd parity, in the low half. *)
Fixpoint wsum (parity : bool) (data : bytes) : Z :=
  match data with
  | [] => 0
  | x :: data => (if parity then byte_val x else byte_val x * 256) + wsum (negb parity) data
  end.

Definition flip (parity : bool) (data : bytes) : bool := xorb parity (Nat.odd (length data)).

Lemma wsum_range par data :
  0 <= wsum par data /\ 2 * wsum par data <= 65535 * Zlen data + (if par then 0 else 65025).
Proof.
  revert par. induction data as [|x data IH]; intros par; cbn [wsum]; zlen.
  - destruct par; lia.
  - specialize (IH (negb par)). pose proof (byte_val_range x). destruct par; cbn in *; lia.
Qed.

Lemma flip_cons par x data : flip par (x :: data) = flip (negb par) data.
Proof. unfold flip. cbn [length]. rewrite Nat.odd_succ, <- Nat.negb_odd. by destruct par, (Nat.odd _). Qed.

Lemma flip_app par d1 d2 : flip par (d1 ++ d2) = flip (flip par d1) d2.
Proof. unfold flip. rewrite length_app, Nat.odd_add. by destruct par, (Nat.odd _), (Nat.odd _). Qed.

Lemma wsum_app par d1 d2 : wsum par (d1 ++ d2) = wsum par d1 + wsum (flip par d1) d2.
Proof.
  revert par. induction d1 as [|x d1 IH]; intros par; cbn [wsum app].
  - unfold flip. cbn. by rewrite xorb_false_r.
  - rewrite IH, flip_cons. lia.
Qed.

Lemma add_byte_eq s par x :
  add_byte (mk s par) x = mk (u32 (s + (if par then byte_val x else byte_val x * 256))) (negb par).
Proof.
  unfold add_byte. cbn. destruct par; [done |]. rewrite Z.shiftl_mul_pow2 by lia.
  pose proof (byte_val_range x). rewrite u16_small by lia. done.
Qed.

(** While the 32-bit accumulator does not overflow, [add] adds [wsum]. *)
Lemma add_spec s par data :
  0 <= s -> s + wsum par data < 2 ^ 32 ->
  add data (mk s par) = mk (s + wsum par data) (flip par data).
Proof.
  unfold add. revert s par. induction data as [|x data IH]; intros s par Hs Hlt; cbn [foldl wsum].
  - unfold flip. cbn. by rewrite xorb_false_r, Z.add_0_r.
  - cbn [wsum] in Hlt. pose proof (wsum_range (negb par) data). pose proof (byte_val_range x).
    pose proof (Zlen_nonneg data).
    rewrite add_byte_eq, u32_small by (destruct par; lia).
    rewrite IH by (destruct par; lia). f_equal; [lia |]. by rewrite flip_cons.
Qed.

(** One folding step keeps the residue modulo 65535 and does not reach 0. *)
Lemma fold_step r :
  0 <= r < 2 ^ 32 ->
  let r' := u32 (Z.shiftr r 16 + Z.land r 0xffff) in
  r' mod 65535 = r mod 65535 /\ (0 < r -> 0 < r') /\
  0 <= r' <= r / 65536 + 65535 /\ r' = r - 65535 * (r / 65536).
Proof.
  intros Hr. change (Z.land r 65535) with (Z.land r (Z.ones 16)). rewrite Z.land_ones, Z.shiftr_div_pow2 by lia.
  change (2 ^ 16) with 65536.
  pose proof (Z.div_mod r 65536 ltac:(lia)). pose proof (Z.mod_pos_bound r 65536 ltac:(lia)).
  assert (0 <= r / 65536 < 65536) by (split; [apply Z.div_pos; lia | apply Z.div_lt_upper_bound; lia]).
  rewrite u32_small by lia. cbv zeta.
  set (q := r / 65536) in *. set (l := r mod 65536) in *.
  assert (Heq : q + l = r - 65535 * q) by lia.
  split_and!; try lia.
  rewrite Heq. replace (r - 65535 * q) with (r + (- q) * 65535) by lia.
  apply Z.mod_add. lia.
Qed.

(** The loop ends within two iterations, on the residue modulo 65535 (and on
    0 only from 0). *)
Lemma fold_carry_done r :
  0 <= r < 2 ^ 32 ->
  0 <= fold_carry 2 r <= 0xffff /\ fold_carry 2 r mod 65535 = r mod 65535 /\
  (0 < r -> 0 < fold_carry 2 r).
Proof.
  intros Hr. cbn [fold_carry]. destruct (Z.gtb_spec r 65535); [| lia].
  destruct (fold_step r Hr) as (Hm1 & Hp1 & Hb1 & _). set (r1 := u32 (Z.shiftr r 16 + _)) in *.
  assert (r / 65536 < 65536) by (apply Z.div_lt_upper_bound; lia).
  destruct (Z.gtb_spec r1 65535); [| lia].
  destruct (fold_step r1 ltac:(lia)) as (Hm2 & Hp2 & Hb2 & Heq2). set (r2 := u32 (Z.shiftr r1 16 + _)) in *.
  assert (1 <= r1 / 65536) by (apply Z.div_le_lower_bound; lia).
  destruct (Z.gtb_spec r2 65535); [lia |]. split_and!; try lia; congruence.
Qed.

Lemma value_eq s par :
  0 <= s < 2 ^ 32 -> value (mk s par) = 65535 - fold_carry 2 s.
Proof.
  intros Hs. unfold value. destruct (fold_carry_done s Hs) as (Hr & _). cbn [_sum].
  unfold u16, Z.lnot. rewrite <- (Z.mod_add _ 1 (2 ^ 16)) by lia.
  rewrite Z.mod_small; lia.
Qed.

Lemma value_range c : 0 <= value c < 2 ^ 16.
Proof. apply u16_range. Qed.

(** The checksum is zero exactly for non-empty multiples of 65535. *)
Lemma value_zero s par :
  0 <= s < 2 ^ 32 -> value (mk s par) = 0 <-> 0 < s /\ s mod 65535 = 0.
Proof.
  intros Hs. rewrite value_eq by done. destruct (fold_carry_done s Hs) as (Hr & Hm & Hp).
  split.
  - intros Hv. assert (Hf : fold_carry 2 s = 65535) by lia. rewrite Hf in Hm.
    split; [| by rewrite <- Hm]. destruct (Z.eq_dec s 0) as [-> | ?]; [done | lia].
  - intros [Hp' Hz]. rewrite Hz in Hm. specialize (Hp Hp').
    assert (fold_carry 2 s = 65535 * (fold_carry 2 s / 65535))
      by (pose proof (Z.div_mod (fold_carry 2 s) 65535); lia).
    assert (fold_carry 2 s / 65535 < 2) by (apply Z.div_lt_upper_bound; lia). nia.
Qed.

(** Adding the checksum to the sum it was computed from verifies. *)
Lemma value_verifies s par par' :
  0 <= s -> s + 65535 < 2 ^ 32 ->
  value (mk (s + value (mk s par)) par') = 0.
Proof.
  intros H0 Hs. rewrite (value_eq s par) by lia.
  destruct (fold_carry_done s ltac:(lia)) as (Hr & Hm & Hp).
  apply value_zero; [lia |]. split; [destruct (Z.eq_dec s 0) as [-> | ?]; [done | lia] |].
  replace (s + (65535 - fold_carry 2 s)) with (s - fold_carry 2 s + 1 * 65535) by lia.
  rewrite Z.mod_add by lia. rewrite Zminus_mod, Hm, Z.sub_diag. done.
Qed.

(** ** The checksum of RFC 1071 *)

(** The 16-bit words of the data, padded with a zero byte. *)
Fixpoint words (data : bytes) : list Z :=
  match data with
  | [] => []
  | [x] => [256 * byte_val x]
  | x :: y :: data => 256 * byte_val x + byte_val y :: words data
  end.

(** One's complement addition: the carry comes back in at the bottom. *)
Definition ones_add (a b : Z) : Z := if a + b >? 0xffff then a + b - 0xffff else a + b.

Lemma ones_sum_spec (ws : list Z) (a : Z) :
  in_bits 16 a -> Forall (in_bits 16) ws ->
  let s := foldl ones_add a ws in
  in_bits 16 s /\ s mod 65535 = (a + foldr Z.add 0 ws) mod 65535 /\ (s = 0 <-> a + foldr Z.add 0 ws = 0) /\
  0 <= foldr Z.add 0 ws.
Proof.
  intros Ha Hws. revert a Ha. induction Hws as [| w ws Hw _ IH]; intros a Ha; cbn [foldl foldr].
  { rewrite Z.add_0_r. by split_and!. }
  unfold in_bits in *.
  assert (Hab : 0 <= ones_add a w < 2 ^ 16 /\ ones_add a w mod 65535 = (a + w) mod 65535 /\ (ones_add a w = 0 <-> a + w = 0)).
  { unfold ones_add. destruct (Z.gtb_spec (a + w) 65535); split_and!; try lia.
    replace (a + w - 65535) with (a + w + (-1) * 65535) by lia. by rewrite Z.mod_add. }
  destruct Hab as (Hr & Hm & Hz). destruct (IH _ Hr) as (Hs & Hms & Hzs & Hp). split_and!; try lia.
  rewrite Hms, Zplus_mod, Hm, <- Zplus_mod. f_equal. lia.
Qed.

Lemma words_wsum data : Forall (in_bits 16) (words data) /\ foldr Z.add 0 (words data) = wsum false data.
Proof.
  enough (forall n data, (length data < n)%nat -> Forall (in_bits 16) (words data) /\ foldr Z.add 0 (words data) = wsum false data)
    as H by exact (H _ _ (Nat.lt_succ_diag_r _)).
  clear data. induction n as [| n IH]; [lia |]. intros [| x [| y data]] Hl; cbn [words wsum foldr negb].
  - by split.
  - pose proof (byte_val_range x). split; [constructor; [unfold in_bits; lia | done] | lia].
  - pose proof (byte_val_range x). pose proof (byte_val_range y). destruct (IH data) as [Hf ->]; [cbn in Hl; lia |].
    split; [constructor; [unfold in_bits; lia | done] | lia].
Qed.

Lemma add_parts (parts : list bytes) (s : Z) (par : bool) :
  0 <= s -> s + wsum par (List.concat parts) < 2 ^ 32 ->
  foldl (fun c d => add d c) (mk s par) parts = mk (s + wsum par (List.concat parts)) (flip par (List.concat parts)).
Proof.
  revert s par. induction parts as [| d parts IH]; intros s par Hs Hlt; cbn [foldl List.concat] in *.
  { unfold flip. cbn. by rewrite xorb_false_r, Z.add_0_r. }
  rewrite wsum_app in *. pose proof (proj1 (wsum_range par d)). pose proof (proj1 (wsum_range (flip par d) (List.concat parts))).
  rewrite add_spec by lia. rewrite IH by lia. f_equal; [lia |]. by rewrite flip_app.
Qed.

(** C32: the running sum, fed byte by byte with deferred carries and in pieces
    that may end in the middle of a word, yields the checksum of RFC 1071:
    the complement of the one's complement sum of the 16-bit words of the
    whole data, padded with a zero byte. *)
Theorem checksum_rfc1071 (initial : Z) (parts : list bytes) :
  in_bits 16 initial -> Zlen (List.concat parts) <= 131000 ->
  value (foldl (fun c d => add d c) (make initial) parts)
  = 0xffff - foldl ones_add initial (words (List.concat parts)).
Proof.
  unfold make. intros Hi Hl. set (data := List.concat parts) in *. pose proof (wsum_range false data) as Hw.
  assert (Hs : 0 <= initial + wsum false data < 2 ^ 32) by (unfold in_bits in Hi; lia).
  rewrite (add_parts parts initial false (proj1 Hi) (proj2 Hs)). fold data. rewrite value_eq by done. f_equal.
  destruct (fold_carry_done _ Hs) as (Hr & Hm & Hp). destruct (words_wsum data) as [Hf Hwd].
  destruct (ones_sum_spec (words data) initial Hi Hf) as (Hsr & Hsm & Hsz & _). rewrite Hwd in *.
  set (f := fold_carry 2 _) in *. set (g := foldl ones_add _ _) in *. rewrite <- Hsm in Hm. unfold in_bits in Hsr.
  destruct (decide (initial + wsum false data = 0)) as [H0 | Hn].
  - assert (g = 0) as -> by (by apply Hsz). unfold f. by rewrite H0.
  - assert (Hg : g <> 0) by (by rewrite Hsz). assert (Hf0 : 0 < f) by (apply Hp; lia).
    assert (Hres : forall v, 0 < v <= 65535 -> v mod 65535 = if v =? 65535 then 0 else v).
    { intros v Hv. destruct (Z.eqb_spec v 65535) as [-> | Hne]; [done |]. apply Z.mod_small. lia. }
    rewrite !Hres in Hm by lia. destruct (Z.eqb_spec f 65535), (Z.eqb_spec g 65535); lia.
Qed.

(** The header of RFC 1071's example, in an odd and an even piece. *)
Lemma checksum_rfc1071_witness :
  value (foldl (fun c d => add d c) (make 0)
    [[Byte.x00]; [Byte.x01; Byte.xf2; Byte.x03; Byte.xf4]; [Byte.xf5; Byte.xf6; Byte.xf7]]) = 0xffff - 0xddf2.
Proof.
  rewrite (checksum_rfc1071 0 [[Byte.x00]; [Byte.x01; Byte.xf2; Byte.x03; Byte.xf4]; [Byte.xf5; Byte.xf6; Byte.xf7]]
    ltac:(split; [discriminate | reflexivity]) ltac:(vm_compute; discriminate)).
  reflexivity.
Defined.

End ChecksumFacts.
