(* ===== verification/codec.v ===== *)
(** * Header codecs: what the packet formats share

    [Codec] is the interface a header format offers to the packet that
    carries it: what [serialize] writes, [parse] reads back, leaving the rest
    of the input, whenever the header fits what follows it.  The formats are
    its instances (tcp_segment.v, ethernet.v, ipv4.v); packets are proved
    against the interface.  The file also has the tactics that step through a
    parser and the lemmas on checksum fields. *)

From S2P Require Import Prelude buffer parser util.

Module CodecFacts.
Import ParserFacts ChecksumFacts.

(** ** The interface *)

Class Codec (A : Type) := {
  encode : A -> outcome bytes;
  decode : A -> NetParser.t -> outcome (ParseResult * A * NetParser.t);
  (** the header is well formed in front of these bytes *)
  fits : A -> bytes -> Prop;
  encode_ok : forall a rest, fits a rest -> exists w, encode a = Ret w /\ Zlen w < 2 ^ 16;
  decode_encode : forall a a0 w p rest, fits a rest -> encode a = Ret w -> ahead p (w ++ rest) ->
    exists p', decode a0 p = Ret (NoError, a, p') /\ ahead p' rest;
}.

(** A header in front of a payload, in a buffer. *)
Lemma codec_buffer {A} `{Codec A} (a a0 : A) (w pay : bytes) (b : Buffer.t) :
  fits a pay -> encode a = Ret w -> Buffer.wf b -> Buffer.str b = w ++ pay ->
  exists p', decode a0 (NetParser.make b) = Ret (NoError, a, p') /\ ahead p' pay.
Proof. intros Hf Hw Hb Hs. apply (decode_encode a a0 w); [done | done |]. by split_and!. Qed.

(** ** Stepping through a parser *)

(** One more field read back. *)
Ltac parse_field :=
  match goal with
  | Ha : ahead ?p (be_bytes ?n ?v ++ ?rest) |- context [NetParser._parse_int ?n ?p] =>
      let p' := fresh "p" in let Hp := fresh "Hp" in let Ha' := fresh "Ha" in
      destruct (parse_be_bytes n p v rest Ha) as (p' & Hp & Ha');
      [unfold in_bits in *; lia |];
      rewrite Hp; clear Ha Hp; cbn [mbind outcome_bind]
  end.

Ltac parse_total :=
  match goal with
  | Hwf : Buffer.wf (NetParser._buffer ?p) |- context [NetParser._parse_int ?n ?p] =>
      let v := fresh "v" in let p' := fresh "p" in
      let Hp := fresh "Hp" in let Hw := fresh "Hwf" in let Hv := fresh "Hv" in
      destruct (parse_int_total n p Hwf) as (v & p' & Hp & Hw & Hv);
      rewrite Hp; clear Hp; cbn [mbind outcome_bind]
  end.

Ltac parse_any :=
  match goal with
  | Ha : ahead ?p ?s |- context [NetParser._parse_int ?n ?p] =>
      let v := fresh "v" in let p' := fresh "p" in
      let Hp := fresh "Hp" in let Ha' := fresh "Ha" in let Hv := fresh "Hv" in
      destruct (parse_int_any n p s Ha) as (v & p' & Hp & Ha' & Hv);
      [rewrite ?Zlen_drop; lia |];
      rewrite Hp; clear Hp Ha; cbn [mbind outcome_bind]
  end.

(** ** Checksum fields *)

Lemma wsum_be2 v : in_bits 16 v -> wsum false (be_bytes 2 v) = v.
Proof.
  unfold in_bits. intros Hv. cbn [be_bytes wsum negb]. rewrite !byte_val_of. unfold u8.
  rewrite !Z.shiftr_div_pow2 by lia. cbn. rewrite Z.div_1_r.
  change (2 ^ (Z.of_nat 1 * 8)) with 256. change (2 ^ 8) with 256.
  pose proof (Z.div_mod v 256). pose proof (Z.mod_pos_bound v 256).
  rewrite (Z.mod_small (v / 256)); [lia |].
  split; [apply Z.div_pos; lia | apply Z.div_lt_upper_bound; lia].
Qed.

Lemma wsum_cksum pre c post :
  in_bits 16 c -> Nat.even (length pre) = true ->
  wsum false (pre ++ be_bytes 2 c ++ post) = wsum false (pre ++ be_bytes 2 0 ++ post) + c.
Proof.
  intros Hc He. rewrite !wsum_app.
  assert (Hf : flip false pre = false) by (unfold flip; rewrite <- Nat.negb_even, He; done).
  rewrite Hf. unfold flip. rewrite !length_be_bytes.
  rewrite !wsum_be2; unfold in_bits in *; lia.
Qed.

End CodecFacts.
