(* ===== verification/tcp_segment.v ===== *)
(** * libsponge/tcp_helpers/tcp_header.{hh,cc}, tcp_segment.{hh,cc}

    The TCP header codec and the segment: parsing with the Internet checksum,
    serialisation with its computation.  [parse] returns the C++ return value,
    the new header and the parser; the printing functions are not modelled. *)

From S2P Require Import Prelude buffer parser util codec wrapping_integers.

Module TCPHeader.

Definition LENGTH : Z := 20.

Record t := mk {
  sport : Z;  dport : Z;
  seqno : WrappingInt32.t;  ackno : WrappingInt32.t;
  doff : Z;
  urg : bool;  ack : bool;  psh : bool;  rst : bool;  syn : bool;  fin : bool;
  win : Z;  cksum : Z;  uptr : Z;
}.

(** [TCPHeader{}]. *)
Definition default_ : t :=
  mk 0 0 0 0 (LENGTH / 4) false false false false false false 0 0 0.

Definition set_ports (sp dp : Z) (h : t) : t :=
  mk sp dp (seqno h) (ackno h) (doff h) (urg h) (ack h) (psh h) (rst h) (syn h) (fin h)
     (win h) (cksum h) (uptr h).
Definition set_seqno (x : Z) (h : t) : t :=
  mk (sport h) (dport h) x (ackno h) (doff h) (urg h) (ack h) (psh h) (rst h) (syn h) (fin h)
     (win h) (cksum h) (uptr h).
Definition set_ack (a : Z) (w : Z) (h : t) : t :=
  mk (sport h) (dport h) (seqno h) a (doff h) (urg h) true (psh h) (rst h) (syn h) (fin h)
     w (cksum h) (uptr h).
Definition set_rst (b : bool) (h : t) : t :=
  mk (sport h) (dport h) (seqno h) (ackno h) (doff h) (urg h) (ack h) (psh h) b (syn h) (fin h)
     (win h) (cksum h) (uptr h).
Definition set_syn (b : bool) (h : t) : t :=
  mk (sport h) (dport h) (seqno h) (ackno h) (doff h) (urg h) (ack h) (psh h) (rst h) b (fin h)
     (win h) (cksum h) (uptr h).
Definition set_fin (b : bool) (h : t) : t :=
  mk (sport h) (dport h) (seqno h) (ackno h) (doff h) (urg h) (ack h) (psh h) (rst h) (syn h) b
     (win h) (cksum h) (uptr h).
Definition set_cksum (c : Z) (h : t) : t :=
  mk (sport h) (dport h) (seqno h) (ackno h) (doff h) (urg h) (ack h) (psh h) (rst h) (syn h) (fin h)
     (win h) c (uptr h).

(** [static_cast<bool>(x & mask)]. *)
Definition flag (x mask : Z) : bool := negb (Z.land x mask =? 0).

Definition parse (p : NetParser.t) : outcome (ParseResult * t * NetParser.t) :=
  '(sport, p) ← NetParser.u16 p;
  '(dport, p) ← NetParser.u16 p;
  '(seqno, p) ← NetParser.u32 p;
  '(ackno, p) ← NetParser.u32 p;
  '(doff_b, p) ← NetParser.u8 p;
  let doff := Z.shiftr doff_b 4 in
  '(fl_b, p) ← NetParser.u8 p;
  '(win, p) ← NetParser.u16 p;
  '(cksum, p) ← NetParser.u16 p;
  '(uptr, p) ← NetParser.u16 p;
  let h := mk sport dport (WrappingInt32.of_u32 seqno) (WrappingInt32.of_u32 ackno) doff
              (flag fl_b 32) (flag fl_b 16) (flag fl_b 8) (flag fl_b 4) (flag fl_b 2) (flag fl_b 1)
              win cksum uptr in
  if doff <? 5 then Ret (HeaderTooShort, h, p)
  else
    p ← NetParser.remove_prefix (u64 (doff * 4 - LENGTH)) p;
    if NetParser.error p then Ret (NetParser.get_error p, h, p)
    else Ret (NoError, h, p).

Definition bit (b : bool) (mask : Z) : Z := if b then mask else 0.

Definition flags_byte (h : t) : Z :=
  u8 (Z.lor (Z.lor (Z.lor (Z.lor (Z.lor (bit (urg h) 32) (bit (ack h) 16)) (bit (psh h) 8))
                          (bit (rst h) 4)) (bit (syn h) 2)) (bit (fin h) 1)).

Definition serialize (h : t) : outcome bytes :=
  if doff h <? 5 then Raise (runtime_error "TCP header too short")
  else
    let ret := [] in
    let ret := NetUnparser.u16 ret (sport h) in
    let ret := NetUnparser.u16 ret (dport h) in
    let ret := NetUnparser.u32 ret (WrappingInt32.raw_value (seqno h)) in
    let ret := NetUnparser.u32 ret (WrappingInt32.raw_value (ackno h)) in
    let ret := NetUnparser.u8 ret (u8 (Z.shiftl (doff h) 4)) in
    let ret := NetUnparser.u8 ret (flags_byte h) in
    let ret := NetUnparser.u16 ret (win h) in
    let ret := NetUnparser.u16 ret (cksum h) in
    let ret := NetUnparser.u16 ret (uptr h) in
    Ret (resize ret (4 * doff h)).

(** [operator==] ignores the ports and the checksum. *)
Definition eqb (a b : t) : bool :=
  WrappingInt32.eqb (seqno a) (seqno b) && WrappingInt32.eqb (ackno a) (ackno b) &&
  (doff a =? doff b) && Bool.eqb (urg a) (urg b) && Bool.eqb (ack a) (ack b) &&
  Bool.eqb (psh a) (psh b) && Bool.eqb (rst a) (rst b) && Bool.eqb (syn a) (syn b) &&
  Bool.eqb (fin a) (fin b) && (win a =? win b) && (uptr a =? uptr b).

End TCPHeader.

Module TCPSegment.

Record t := mk {
  _header : TCPHeader.t;
  _payload : Buffer.t;
}.

(** [TCPSegment{}]. *)
Definition default_ : t := mk TCPHeader.default_ Buffer.empty.

Definition header (s : t) : TCPHeader.t := _header s.
Definition payload (s : t) : Buffer.t := _payload s.

(** The return value and the segment after the call. *)
Definition parse (buffer : Buffer.t) (datagram_layer_checksum : Z) (s : t)
  : outcome (ParseResult * t) :=
  let check := InternetChecksum.make datagram_layer_checksum in
  let check := InternetChecksum.add (Buffer.str buffer) check in
  if negb (InternetChecksum.value check =? 0) then Ret (BadChecksum, s)
  else
    let p := NetParser.make buffer in
    '(_, h, p) ← TCPHeader.parse p;
    Ret (NetParser.get_error p, mk h (NetParser.buffer p)).

Definition length_in_sequence_space (s : t) : Z :=
  Zlen (Buffer.str (payload s)) + (if TCPHeader.syn (header s) then 1 else 0)
  + (if TCPHeader.fin (header s) then 1 else 0).

Definition serialize (datagram_layer_checksum : Z) (s : t) : outcome BufferList.t :=
  let header_out := TCPHeader.set_cksum 0 (_header s) in
  let check := InternetChecksum.make datagram_layer_checksum in
  hs ← TCPHeader.serialize header_out;
  let check := InternetChecksum.add hs check in
  let check := InternetChecksum.add (Buffer.str (_payload s)) check in
  let header_out := TCPHeader.set_cksum (InternetChecksum.value check) header_out in
  hs ← TCPHeader.serialize header_out;
  let ret := BufferList.append (BufferList.of_string hs) BufferList.empty in
  Ret (BufferList.append (BufferList.of_buffer (_payload s)) ret).

End TCPSegment.

Module TCPSegmentFacts.
Import ParserFacts ChecksumFacts CodecFacts.

(** Field widths; [doff] is what four bits can hold. *)
Record header_wf (h : TCPHeader.t) : Prop := {
  wf_sport : in_bits 16 (TCPHeader.sport h);
  wf_dport : in_bits 16 (TCPHeader.dport h);
  wf_seqno : in_bits 32 (TCPHeader.seqno h);
  wf_ackno : in_bits 32 (TCPHeader.ackno h);
  wf_doff : 5 <= TCPHeader.doff h < 16;
  wf_win : in_bits 16 (TCPHeader.win h);
  wf_cksum : in_bits 16 (TCPHeader.cksum h);
  wf_uptr : in_bits 16 (TCPHeader.uptr h);
}.

(** The serialised header around its checksum field. *)
Definition before_cksum (h : TCPHeader.t) : bytes :=
  be_bytes 2 (TCPHeader.sport h) ++ be_bytes 2 (TCPHeader.dport h) ++
  be_bytes 4 (TCPHeader.seqno h) ++ be_bytes 4 (TCPHeader.ackno h) ++
  be_bytes 1 (u8 (Z.shiftl (TCPHeader.doff h) 4)) ++ be_bytes 1 (TCPHeader.flags_byte h) ++
  be_bytes 2 (TCPHeader.win h).
Definition after_cksum (h : TCPHeader.t) : bytes :=
  be_bytes 2 (TCPHeader.uptr h) ++ replicate (Z.to_nat (4 * TCPHeader.doff h - 20)) Byte.x00.

Lemma serialize_header h :
  5 <= TCPHeader.doff h ->
  TCPHeader.serialize h =
    Ret (before_cksum h ++ be_bytes 2 (TCPHeader.cksum h) ++ after_cksum h).
Proof.
  intros Hd. unfold TCPHeader.serialize. case_cmp; [lia |]. cbv zeta.
  unfold NetUnparser.u8, NetUnparser.u16, NetUnparser.u32. rewrite !unparse_int_app.
  f_equal. unfold resize, before_cksum, after_cksum, WrappingInt32.raw_value.
  rewrite take_ge.
  - zlen. rewrite !Zlen_be_bytes. rewrite <- !app_assoc. cbn [app]. repeat f_equal.
  - rewrite !length_app, !length_be_bytes. cbn. lia.
Qed.

Lemma flag_bits u a p r s f :
  let b := u8 (Z.lor (Z.lor (Z.lor (Z.lor (Z.lor (TCPHeader.bit u 32) (TCPHeader.bit a 16))
    (TCPHeader.bit p 8)) (TCPHeader.bit r 4)) (TCPHeader.bit s 2)) (TCPHeader.bit f 1)) in
  in_bits 8 b /\ TCPHeader.flag b 32 = u /\ TCPHeader.flag b 16 = a /\ TCPHeader.flag b 8 = p /\
  TCPHeader.flag b 4 = r /\ TCPHeader.flag b 2 = s /\ TCPHeader.flag b 1 = f.
Proof. destruct u, a, p, r, s, f; vm_compute; intuition congruence. Qed.

Lemma parse_header h p rest :
  header_wf h ->
  ahead p (before_cksum h ++ be_bytes 2 (TCPHeader.cksum h) ++ after_cksum h ++ rest) ->
  exists p', TCPHeader.parse p = Ret (NoError, h, p') /\ ahead p' rest.
Proof.
  intros [] Ha. unfold before_cksum, after_cksum in Ha. rewrite <- !app_assoc in Ha.
  unfold TCPHeader.parse, NetParser.u8, NetParser.u16, NetParser.u32.
  pose proof (flag_bits (TCPHeader.urg h) (TCPHeader.ack h) (TCPHeader.psh h) (TCPHeader.rst h)
    (TCPHeader.syn h) (TCPHeader.fin h)) as (Hf & Hu & Hack & Hps & Hrs & Hsy & Hfi).
  fold (TCPHeader.flags_byte h) in *.
  assert (Hdo : u8 (Z.shiftl (TCPHeader.doff h) 4) = TCPHeader.doff h * 16).
  { rewrite Z.shiftl_mul_pow2 by lia. apply u8_small. lia. }
  rewrite Hdo in Ha. repeat parse_field.
  rewrite Z.shiftr_div_pow2 by lia. change (2 ^ 4) with 16. rewrite Z.div_mul by lia.
  case_cmp; [lia |]. unfold TCPHeader.LENGTH. rewrite u64_small by lia.
  match goal with Ha : ahead ?p (replicate ?k ?x ++ rest) |- _ =>
    destruct (remove_prefix_ahead p (TCPHeader.doff h * 4 - 20) (replicate k x) rest Ha)
      as (p' & -> & Ha'); [rewrite Zlen_replicate; lia |] end.
  cbn [mbind outcome_bind]. rewrite (ahead_error _ _ Ha').
  exists p'. split; [| done]. rewrite Hu, Hack, Hps, Hrs, Hsy, Hfi. by destruct h.
Qed.

Lemma before_cksum_even h : Nat.even (length (before_cksum h)) = true.
Proof. unfold before_cksum. rewrite !length_app, !length_be_bytes. done. Qed.

(** What is computed over a serialised segment, and that it verifies. *)
Lemma segment_checksum h pay pc :
  header_wf h -> in_bits 24 pc -> Zlen pay < 2 ^ 16 ->
  let zero := before_cksum h ++ be_bytes 2 0 ++ after_cksum h in
  let c := InternetChecksum.value (InternetChecksum.add pay
             (InternetChecksum.add zero (InternetChecksum.make pc))) in
  in_bits 16 c /\
  InternetChecksum.value (InternetChecksum.add
    ((before_cksum h ++ be_bytes 2 c ++ after_cksum h) ++ pay) (InternetChecksum.make pc)) = 0.
Proof.
  intros [] Hpc Hpay zero c. unfold in_bits in *.
  assert (Hz : Zlen zero < 64).
  { unfold zero, before_cksum, after_cksum. zlen. rewrite !Zlen_be_bytes. lia. }
  pose proof (wsum_range false zero).
  assert (0 <= wsum (flip false zero) pay /\ 2 * wsum (flip false zero) pay <= 65535 * Zlen pay + 65025)
    by (pose proof (wsum_range (flip false zero) pay); destruct (flip false zero); lia).
  assert (Hadd : InternetChecksum.add pay (InternetChecksum.add zero (InternetChecksum.make pc)) =
    InternetChecksum.mk (pc + wsum false zero + wsum (flip false zero) pay)
      (flip (flip false zero) pay)).
  { unfold InternetChecksum.make. rewrite add_spec by lia. by rewrite add_spec by lia. }
  assert (Hc : in_bits 16 c) by apply value_range. unfold in_bits in Hc. split; [done |].
  unfold InternetChecksum.make.
  assert (Hw : wsum false ((before_cksum h ++ be_bytes 2 c ++ after_cksum h) ++ pay) =
    wsum false zero + c + wsum (flip false zero) pay).
  { rewrite wsum_app, (wsum_cksum _ c) by (done || apply before_cksum_even).
    unfold flip, zero. by rewrite !length_app, !length_be_bytes. }
  rewrite add_spec by lia. rewrite Hw.
  replace (pc + (wsum false zero + c + wsum (flip false zero) pay))
    with (pc + wsum false zero + wsum (flip false zero) pay + c) by lia.
  unfold c. rewrite Hadd. apply value_verifies; lia.
Qed.

#[global] Program Instance tcp_codec : Codec TCPHeader.t := {|
  encode := TCPHeader.serialize;
  decode _ := TCPHeader.parse;
  fits h _ := header_wf h;
|}.
Next Obligation.
  intros h rest Hh. pose proof (wf_doff _ Hh). rewrite serialize_header by lia. eexists. split; [reflexivity |].
  unfold before_cksum, after_cksum. zlen. rewrite !Zlen_be_bytes. lia.
Qed.
Next Obligation.
  intros h h0 w p rest Hh Hw Ha. pose proof (wf_doff _ Hh). rewrite serialize_header in Hw by lia.
  apply (inj Ret) in Hw as <-. rewrite <- !app_assoc in Ha. by apply parse_header.
Qed.

Definition verifies (pc : Z) (s : bytes) : Prop :=
  InternetChecksum.value (InternetChecksum.add s (InternetChecksum.make pc)) = 0.

(** What [serialize] puts on the wire: the header with its checksum, then
    the payload. *)
Lemma segment_serialize pc h pay :
  header_wf h -> in_bits 24 pc -> Zlen (Buffer.str pay) < 2 ^ 16 ->
  exists l c hs, TCPSegment.serialize pc (TCPSegment.mk h pay) = Ret l /\ in_bits 16 c /\
    TCPHeader.serialize (TCPHeader.set_cksum c h) = Ret hs /\ Zlen hs = 4 * TCPHeader.doff h /\
    BufferList.concatenate l = hs ++ Buffer.str pay /\ verifies pc (hs ++ Buffer.str pay).
Proof.
  intros Hh Hpc Hpay. destruct (segment_checksum h (Buffer.str pay) pc Hh Hpc Hpay) as [Hc Hv].
  unfold TCPSegment.serialize. cbn [TCPSegment._header TCPSegment._payload]. pose proof (wf_doff _ Hh) as Hdoff.
  rewrite serialize_header by (cbn; lia). cbn [mbind outcome_bind].
  change (before_cksum (TCPHeader.set_cksum 0 h)) with (before_cksum h).
  change (after_cksum (TCPHeader.set_cksum 0 h)) with (after_cksum h).
  change (TCPHeader.cksum (TCPHeader.set_cksum 0 h)) with 0.
  set (c := InternetChecksum.value _) in *.
  change (TCPHeader.set_cksum c (TCPHeader.set_cksum 0 h)) with (TCPHeader.set_cksum c h).
  rewrite serialize_header by (cbn; lia). cbn [mbind outcome_bind].
  change (before_cksum (TCPHeader.set_cksum c h)) with (before_cksum h).
  change (after_cksum (TCPHeader.set_cksum c h)) with (after_cksum h).
  change (TCPHeader.cksum (TCPHeader.set_cksum c h)) with c.
  set (hs := before_cksum h ++ be_bytes 2 c ++ after_cksum h) in *.
  exists (BufferList.append (BufferList.of_buffer pay) (BufferList.append (BufferList.of_string hs) BufferList.empty)), c, hs.
  split_and!; [done | done | by rewrite serialize_header by (cbn; lia) | | | done].
  - unfold hs, before_cksum, after_cksum. zlen. rewrite !Zlen_be_bytes. lia.
  - change (Buffer.str (Buffer.of_string hs) ++ Buffer.str pay ++ [] = hs ++ Buffer.str pay).
    by rewrite Buffer.str_of_string, app_nil_r.
Qed.

(** A buffer that holds a header in front of a payload is parsed back. *)
Lemma segment_parse pc h hs pay b seg0 :
  header_wf h -> TCPHeader.serialize h = Ret hs -> Buffer.wf b -> Buffer.str b = hs ++ pay -> verifies pc (hs ++ pay) ->
  exists b', TCPSegment.parse b pc seg0 = Ret (NoError, TCPSegment.mk h b') /\ Buffer.wf b' /\ Buffer.str b' = pay.
Proof.
  intros Hh Hhs Hb Hs Hv. destruct (@codec_buffer _ tcp_codec h h hs pay b Hh Hhs Hb Hs) as (p' & Hd & Hwf & He & Hstr).
  cbn [decode tcp_codec] in Hd. exists (NetParser.buffer p'). split_and!; [| done | done].
  unfold TCPSegment.parse, NetParser.get_error. unfold verifies in Hv. rewrite Hs, Hv. cbn [negb Z.eqb].
  rewrite Hd. cbn [mbind outcome_bind]. by rewrite He.
Qed.

Lemma tcp_set_cksum_wf c h : header_wf h -> in_bits 16 c -> header_wf (TCPHeader.set_cksum c h).
Proof. intros [] Hc. by constructor. Qed.

(** C30: parsing the bytes of a serialised segment gives back the segment:
    every header field (with the checksum that was computed), the flags and
    the payload; the checksum verifies and no error is reported. *)
Theorem segment_roundtrip (seg seg0 : TCPSegment.t) (pc : Z) :
  header_wf (TCPSegment.header seg) -> in_bits 24 pc ->
  Zlen (Buffer.str (TCPSegment.payload seg)) < 2 ^ 16 ->
  exists wire c seg', TCPSegment.serialize pc seg = Ret wire /\ in_bits 16 c /\
    TCPSegment.parse (Buffer.of_string (BufferList.concatenate wire)) pc seg0 = Ret (NoError, seg') /\
    TCPSegment.header seg' = TCPHeader.set_cksum c (TCPSegment.header seg) /\
    TCPSegment.payload seg' ≡ TCPSegment.payload seg.
Proof.
  destruct seg as [h pay]. intros Hh Hpc Hpay. cbn in Hh, Hpay. pose proof (wf_doff _ Hh).
  destruct (segment_serialize pc h pay Hh Hpc Hpay) as (l & c & hs & Hl & Hc & Hhs & Hlen & Hw & Hv).
  destruct (segment_parse pc _ hs (Buffer.str pay) (Buffer.of_string (BufferList.concatenate l)) seg0
    (tcp_set_cksum_wf c h Hh Hc) Hhs) as (b' & Hp & _ & Hs).
  - apply Buffer.wf_of_string. rewrite Hw, Zlen_app. lia.
  - by rewrite Buffer.str_of_string.
  - done.
  - by eexists l, c, _.
Qed.

Definition sample_header : TCPHeader.t :=
  TCPHeader.mk 80 1234 0xdeadbeef 7 6 false true true false false true 4096 0 0.
Definition sample_segment : TCPSegment.t :=
  TCPSegment.mk sample_header (Buffer.of_string [Byte.x61; Byte.x62; Byte.x63]).

Lemma segment_roundtrip_witness :
  exists wire c seg', TCPSegment.serialize 9 sample_segment = Ret wire /\
    TCPSegment.parse (Buffer.of_string (BufferList.concatenate wire)) 9 TCPSegment.default_
      = Ret (NoError, seg') /\
    TCPSegment.header seg' = TCPHeader.set_cksum c sample_header.
Proof.
  destruct (segment_roundtrip sample_segment TCPSegment.default_ 9)
    as (wire & c & seg' & H1 & _ & H2 & H3 & _).
  - constructor; vm_compute; intuition congruence.
  - unfold in_bits. lia.
  - vm_compute. reflexivity.
  - exists wire, c, seg'. split_and!; [exact H1 | exact H2 | exact H3].
Defined.

(** ** Arbitrary input *)

(** Every field of a header lies in the width its C++ type gives it. *)
Record header_typed (h : TCPHeader.t) : Prop := {
  ht_sport : in_bits 16 (TCPHeader.sport h);
  ht_dport : in_bits 16 (TCPHeader.dport h);
  ht_seqno : in_bits 32 (TCPHeader.seqno h);
  ht_ackno : in_bits 32 (TCPHeader.ackno h);
  ht_doff : in_bits 4 (TCPHeader.doff h);
  ht_win : in_bits 16 (TCPHeader.win h);
  ht_cksum : in_bits 16 (TCPHeader.cksum h);
  ht_uptr : in_bits 16 (TCPHeader.uptr h);
}.

Lemma high_nibble v : in_bits 8 v -> in_bits 4 (Z.shiftr v 4).
Proof.
  unfold in_bits. intros Hv. rewrite Z.shiftr_div_pow2 by lia. split; [apply Z.div_pos; lia |].
  apply Z.div_lt_upper_bound; lia.
Qed.

Lemma header_parse_total p :
  Buffer.wf (NetParser._buffer p) ->
  exists res h p', TCPHeader.parse p = Ret (res, h, p') /\ header_typed h /\ Buffer.wf (NetParser._buffer p').
Proof.
  intros Hwf. unfold TCPHeader.parse, NetParser.u8, NetParser.u16, NetParser.u32.
  repeat parse_total. match goal with |- context [TCPHeader.mk ?a ?b ?c ?d ?e ?f ?g ?h ?i ?j ?k ?l ?m ?n] =>
    assert (Ht : header_typed (TCPHeader.mk a b c d e f g h i j k l m n)) by (split; cbn; try apply high_nibble; done);
    set (hd := TCPHeader.mk a b c d e f g h i j k l m n) in * end.
  case_cmp; [by eexists _, _, _ |].
  match goal with |- context [NetParser.remove_prefix ?n ?p] =>
    destruct (remove_prefix_total n p) as (p' & -> & Hw'); [done | apply u64_range |] end.
  cbn [mbind outcome_bind]. destruct (NetParser.error p'); by eexists _, _, _.
Qed.

(** [parse] returns on every input. *)
Lemma segment_parse_total b pc s :
  Buffer.wf b -> in_bits 16 (TCPHeader.sport (TCPSegment.header s)) ->
  exists res s', TCPSegment.parse b pc s = Ret (res, s') /\ in_bits 16 (TCPHeader.sport (TCPSegment.header s')).
Proof.
  intros Hwf Hs. unfold TCPSegment.parse. destruct (negb _); [eauto |].
  destruct (header_parse_total (NetParser.make b) Hwf) as (res & h & p' & -> & Hp & _).
  cbn. pose proof (ht_sport h Hp). eauto.
Qed.



(** Twenty bytes are read without error, then the data offset decides. *)
Lemma header_parse_long p s :
  ahead p s -> 20 <= Zlen s ->
  exists h p1, ahead p1 (drop 20 s) /\
    TCPHeader.parse p =
      (if TCPHeader.doff h <? 5 then Ret (HeaderTooShort, h, p1)
       else p2 ← NetParser.remove_prefix (u64 (TCPHeader.doff h * 4 - 20)) p1;
            if NetParser.error p2 then Ret (NetParser.get_error p2, h, p2)
            else Ret (NoError, h, p2)).
Proof.
  intros Ha Hl. unfold TCPHeader.parse, NetParser.u8, NetParser.u16, NetParser.u32.
  repeat parse_any. eexists (TCPHeader.mk _ _ _ _ _ _ _ _ _ _ _ _ _ _), _.
  split; [| reflexivity]. match goal with Ha : ahead _ _ |- _ => rewrite !drop_drop in Ha; exact Ha end.
Qed.

(** A segment whose data offset is below the minimum of five words is
    accepted: the header's [HeaderTooShort] is dropped and [parse] reports
    [NoError], with everything after the twenty header bytes as payload. *)
Theorem segment_parse_accepts_short_header (b : Buffer.t) (pc : Z) (s : TCPSegment.t)
    (h : TCPHeader.t) (p' : NetParser.t) :
  Buffer.wf b -> 20 <= Buffer.size b ->
  InternetChecksum.value (InternetChecksum.add (Buffer.str b) (InternetChecksum.make pc)) = 0 ->
  TCPHeader.parse (NetParser.make b) = Ret (HeaderTooShort, h, p') ->
  TCPSegment.parse b pc s = Ret (NoError, TCPSegment.mk h (NetParser.buffer p')) /\
  TCPHeader.doff h < 5 /\ Buffer.str (NetParser.buffer p') = drop 20 (Buffer.str b).
Proof.
  intros Hwf Hsz Hck Hp.
  destruct (header_parse_long (NetParser.make b) (Buffer.str b)) as (h1 & p1 & Ha1 & Heq); [done | done |].
  rewrite Heq in Hp.
  assert (Hd : TCPHeader.doff h1 < 5 /\ h1 = h /\ p1 = p').
  { destruct (Z.ltb_spec (TCPHeader.doff h1) 5); [by injection Hp as -> -> |].
    destruct (NetParser.remove_prefix _ p1) as [p2| |] eqn:Er; [| done | done].
    cbn in Hp. destruct (NetParser.error p2); [| done].
    injection Hp as Hge _ _.
    exfalso. revert Er Hge. unfold NetParser.remove_prefix, NetParser._check_size.
    destruct Ha1 as (_ & He1 & _). unfold NetParser.get_error.
    destruct (_ >? _); unfold NetParser.error, NetParser.get_error; cbn.
    - intros [= <-]. done.
    - rewrite He1. rewrite bool_decide_true by done. cbn.
      destruct (Buffer.remove_prefix _ _); cbn; [intros [= <-]; done | done | done]. }
  destruct Hd as (Hd & -> & ->). unfold TCPSegment.parse. rewrite Hck. cbn [negb Z.eqb].
  rewrite Heq. destruct (Z.ltb_spec (TCPHeader.doff h) 5); [| lia]. cbn [mbind outcome_bind].
  destruct Ha1 as (_ & He1 & Hs1). unfold NetParser.get_error. rewrite He1.
  split_and!; [done | lia | exact Hs1].
Qed.

(** Twenty zero bytes and a checksum: data offset 0. *)
Definition short_header_bytes : bytes :=
  replicate 16 Byte.x00 ++ [Byte.xff; Byte.xff] ++ replicate 2 Byte.x00.

Lemma segment_parse_accepts_short_header_witness :
  exists seg, TCPSegment.parse (Buffer.of_string short_header_bytes) 0 TCPSegment.default_
              = Ret (NoError, seg) /\ TCPHeader.doff (TCPSegment.header seg) = 0.
Proof.
  eexists. split.
  - eapply segment_parse_accepts_short_header;
      [vm_compute; intuition congruence | vm_compute; congruence | vm_compute; reflexivity |
       vm_compute; reflexivity].
  - reflexivity.
Defined.

(** Corrupting one aligned 16-bit word of a segment that verifies is
    detected, unless it changes the word between 0x0000 and 0xffff. *)
Theorem segment_corruption_detected (pre post : bytes) (v v' pc : Z) (s : TCPSegment.t) :
  Nat.even (length pre) = true -> in_bits 16 v -> in_bits 16 v' -> in_bits 24 pc ->
  Zlen (pre ++ be_bytes 2 v ++ post) < 2 ^ 16 ->
  v <> v' -> ~ (v = 0 /\ v' = 65535) -> ~ (v = 65535 /\ v' = 0) ->
  InternetChecksum.value (InternetChecksum.add (pre ++ be_bytes 2 v ++ post)
                            (InternetChecksum.make pc)) = 0 ->
  TCPSegment.parse (Buffer.of_string (pre ++ be_bytes 2 v' ++ post)) pc s = Ret (BadChecksum, s).
Proof.
  intros He Hv Hv' Hpc Hl Hne H0 H1 Hck. unfold TCPSegment.parse. rewrite Buffer.str_of_string.
  unfold InternetChecksum.make in *. unfold in_bits in *.
  set (z := pre ++ be_bytes 2 0 ++ post).
  assert (Hz : Zlen z < 2 ^ 16) by (unfold z; revert Hl; rewrite !Zlen_app, !Zlen_be_bytes; lia).
  pose proof (wsum_range false z) as Hr.
  pose proof (wsum_cksum pre v post Hv He) as Hw. pose proof (wsum_cksum pre v' post Hv' He) as Hw'.
  fold z in Hw, Hw'.
  rewrite add_spec in Hck by lia. rewrite add_spec by lia.
  rewrite Hw in Hck. rewrite Hw'.
  apply value_zero in Hck as [Hp Hm]; [| lia].
  assert (Hnz : InternetChecksum.value (InternetChecksum.mk (pc + (wsum false z + v'))
    (flip false (pre ++ be_bytes 2 v' ++ post))) <> 0).
  { intros [_ Hm']%value_zero; [| lia].
    assert (Hd : (v - v') mod 65535 = 0).
    { replace (v - v') with (pc + (wsum false z + v) - (pc + (wsum false z + v'))) by lia.
      rewrite Zminus_mod, Hm, Hm'. done. }
    apply Z.mod_divide in Hd as [k Hk]; [| lia]. nia. }
  by rewrite (proj2 (Z.eqb_neq _ _) Hnz).
Qed.

Lemma segment_corruption_detected_witness :
  TCPSegment.parse (Buffer.of_string (be_bytes 2 0x1234 ++ be_bytes 2 0xedcc)) 0 TCPSegment.default_
  = Ret (BadChecksum, TCPSegment.default_).
Proof.
  apply (segment_corruption_detected [] (be_bytes 2 0xedcc) 0x1233 0x1234 0);
    vm_compute; intuition congruence.
Defined.

End TCPSegmentFacts.
