(* ===== verification/ethernet.v ===== *)
(** * libsponge/tcp_helpers/ethernet_header, ethernet_frame, arp_message

    An [EthernetAddress] is the string of its six bytes.  A [parse] method
    takes the object it is called on: it may return before it has assigned
    every field. *)

From S2P Require Import Prelude buffer parser util codec.

Abbreviation EthernetAddress := bytes.
Definition ETHERNET_BROADCAST : EthernetAddress := replicate 6 Byte.xff.

(** [for (auto &byte : addr) byte = p.u8();] over [n] bytes. *)
Fixpoint read_address (n : nat) (p : NetParser.t) : outcome (EthernetAddress * NetParser.t) :=
  match n with
  | O => Ret ([], p)
  | S n =>
      '(v, p) ← NetParser.u8 p;
      '(rest, p) ← read_address n p;
      Ret (byte_of v :: rest, p)
  end.

(** [for (auto &byte : addr) NetUnparser::u8(ret, byte);] *)
Definition write_address (ret : bytes) (a : EthernetAddress) : bytes :=
  foldl (fun ret x => NetUnparser.u8 ret (byte_val x)) ret a.

Module EthernetHeader.

Definition LENGTH : Z := 14.
Definition TYPE_IPv4 : Z := 0x800.
Definition TYPE_ARP : Z := 0x806.

Record t := mk {
  dst : EthernetAddress;
  src : EthernetAddress;
  type : Z;
}.

(** [EthernetHeader{}]: all zeros. *)
Definition default_ : t := mk (replicate 6 Byte.x00) (replicate 6 Byte.x00) 0.

Definition parse (h : t) (p : NetParser.t) : outcome (ParseResult * t * NetParser.t) :=
  if Buffer.size (NetParser.buffer p) <? LENGTH then Ret (PacketTooShort, h, p)
  else
    '(dst, p) ← read_address 6 p;
    '(src, p) ← read_address 6 p;
    '(type, p) ← NetParser.u16 p;
    Ret (NetParser.get_error p, mk dst src type, p).

Definition serialize (h : t) : bytes :=
  let ret := [] in
  let ret := write_address ret (dst h) in
  let ret := write_address ret (src h) in
  NetUnparser.u16 ret (type h).

End EthernetHeader.

Module EthernetFrame.

Record t := mk {
  _header : EthernetHeader.t;
  _payload : BufferList.t;
}.

Definition default_ : t := mk EthernetHeader.default_ BufferList.empty.
Definition header (f : t) : EthernetHeader.t := _header f.
Definition payload (f : t) : BufferList.t := _payload f.

Definition parse (buffer : Buffer.t) (f : t) : outcome (ParseResult * t) :=
  let p := NetParser.make buffer in
  '(_, h, p) ← EthernetHeader.parse (_header f) p;
  Ret (NetParser.get_error p, mk h (BufferList.of_buffer (NetParser.buffer p))).

Definition serialize (f : t) : BufferList.t :=
  let ret := BufferList.append (BufferList.of_string (EthernetHeader.serialize (_header f)))
               BufferList.empty in
  BufferList.append (_payload f) ret.

End EthernetFrame.

Module ARPMessage.

Definition LENGTH : Z := 28.
Definition TYPE_ETHERNET : Z := 1.
Definition OPCODE_REQUEST : Z := 1.
Definition OPCODE_REPLY : Z := 2.

Record t := mk {
  hardware_type : Z;
  protocol_type : Z;
  hardware_address_size : Z;
  protocol_address_size : Z;
  opcode : Z;
  sender_ethernet_address : EthernetAddress;
  sender_ip_address : Z;
  target_ethernet_address : EthernetAddress;
  target_ip_address : Z;
}.

(** [ARPMessage{}]; [sizeof(EthernetHeader::src)] is 6, [sizeof(IPv4Header::src)] 4. *)
Definition default_ : t :=
  mk TYPE_ETHERNET EthernetHeader.TYPE_IPv4 6 4 0
     (replicate 6 Byte.x00) 0 (replicate 6 Byte.x00) 0.

Definition supported (m : t) : bool :=
  (hardware_type m =? TYPE_ETHERNET) && (protocol_type m =? EthernetHeader.TYPE_IPv4) &&
  (hardware_address_size m =? 6) && (protocol_address_size m =? 4) &&
  ((opcode m =? OPCODE_REQUEST) || (opcode m =? OPCODE_REPLY)).

Definition parse (buffer : Buffer.t) (m : t) : outcome (ParseResult * t) :=
  let p := NetParser.make buffer in
  if Buffer.size (NetParser.buffer p) <? LENGTH then Ret (PacketTooShort, m)
  else
    '(hardware_type, p) ← NetParser.u16 p;
    '(protocol_type, p) ← NetParser.u16 p;
    '(hardware_address_size, p) ← NetParser.u8 p;
    '(protocol_address_size, p) ← NetParser.u8 p;
    '(opcode, p) ← NetParser.u16 p;
    let m := mk hardware_type protocol_type hardware_address_size protocol_address_size opcode
                (sender_ethernet_address m) (sender_ip_address m)
                (target_ethernet_address m) (target_ip_address m) in
    if negb (supported m) then Ret (Unsupported, m)
    else
      '(sea, p) ← read_address 6 p;
      '(sip, p) ← NetParser.u32 p;
      '(tea, p) ← read_address 6 p;
      '(tip, p) ← NetParser.u32 p;
      Ret (NetParser.get_error p,
           mk hardware_type protocol_type hardware_address_size protocol_address_size opcode
              sea sip tea tip).

Definition serialize (m : t) : outcome bytes :=
  if negb (supported m) then
    Raise (runtime_error "ARPMessage::serialize(): unsupported field combination (must be Ethernet/IP, and request or reply)")
  else
    let ret := [] in
    let ret := NetUnparser.u16 ret (hardware_type m) in
    let ret := NetUnparser.u16 ret (protocol_type m) in
    let ret := NetUnparser.u8 ret (hardware_address_size m) in
    let ret := NetUnparser.u8 ret (protocol_address_size m) in
    let ret := NetUnparser.u16 ret (opcode m) in
    let ret := write_address ret (sender_ethernet_address m) in
    let ret := NetUnparser.u32 ret (sender_ip_address m) in
    let ret := write_address ret (target_ethernet_address m) in
    let ret := NetUnparser.u32 ret (target_ip_address m) in
    Ret ret.

End ARPMessage.

Module EthernetFacts.
Import ParserFacts CodecFacts.

Lemma be_bytes_byte x : be_bytes 1 (byte_val x) = [x].
Proof. cbn. by rewrite Z.shiftr_0_r, byte_of_val. Qed.

Lemma write_address_app a ret : write_address ret a = ret ++ a.
Proof.
  unfold write_address. revert ret. induction a as [|x a IH]; intros ret; cbn [foldl].
  - by rewrite app_nil_r.
  - rewrite IH. unfold NetUnparser.u8. rewrite unparse_int_app, be_bytes_byte.
    by rewrite <- app_assoc.
Qed.

Lemma read_address_ok a p rest :
  ahead p (a ++ rest) ->
  exists p', read_address (length a) p = Ret (a, p') /\ ahead p' rest.
Proof.
  revert p. induction a as [|x a IH]; intros p Ha; cbn [read_address length].
  - by exists p.
  - destruct (parse_int_ok 1 p [x] (a ++ rest) Ha) as (p1 & Hp & Ha1); [done |].
    unfold NetParser.u8. rewrite Hp. cbn [mbind outcome_bind].
    destruct (IH p1 Ha1) as (p2 & -> & Ha2). cbn [mbind outcome_bind].
    exists p2. split; [| done]. do 3 f_equal. cbn. rewrite Z.mul_1_r, Z.add_0_r. apply byte_of_val.
Qed.

Lemma read_address6 a p rest :
  length a = 6%nat -> ahead p (a ++ rest) ->
  exists p', read_address 6 p = Ret (a, p') /\ ahead p' rest.
Proof. intros <-. apply read_address_ok. Qed.

Lemma read_address_total n p :
  Buffer.wf (NetParser._buffer p) ->
  exists a p', read_address n p = Ret (a, p') /\ Buffer.wf (NetParser._buffer p') /\ length a = n.
Proof.
  revert p. induction n as [|n IH]; intros p Hwf; cbn [read_address]; [by exists [], p |].
  unfold NetParser.u8. parse_total. destruct (IH _ ltac:(eassumption)) as (a & p' & -> & Hw' & Hl).
  cbn. eexists _, _. split_and!; [done | done | cbn; congruence].
Qed.

(** One more address read back. *)
Ltac parse_address :=
  match goal with
  | Ha : ahead ?p (?a ++ ?rest), Hl : length ?a = 6%nat |- context [read_address 6 ?p] =>
      let p' := fresh "p" in let Hp := fresh "Hp" in let Ha' := fresh "Ha" in
      destruct (read_address6 a p rest Hl Ha) as (p' & Hp & Ha');
      rewrite Hp; clear Ha Hp; cbn [mbind outcome_bind]
  end.

Ltac address_total :=
  match goal with
  | Hwf : Buffer.wf (NetParser._buffer ?p) |- context [read_address ?n ?p] =>
      let a := fresh "a" in let p' := fresh "p" in
      let Hp := fresh "Hp" in let Hw := fresh "Hwf" in let Hl := fresh "Hl" in
      destruct (read_address_total n p Hwf) as (a & p' & Hp & Hw & Hl);
      rewrite Hp; clear Hp; cbn [mbind outcome_bind]
  end.

Record eth_wf (h : EthernetHeader.t) : Prop := {
  wf_dst : length (EthernetHeader.dst h) = 6%nat;
  wf_src : length (EthernetHeader.src h) = 6%nat;
  wf_type : in_bits 16 (EthernetHeader.type h);
}.

Lemma eth_serialize_bytes h :
  EthernetHeader.serialize h =
  EthernetHeader.dst h ++ EthernetHeader.src h ++ be_bytes 2 (EthernetHeader.type h).
Proof.
  unfold EthernetHeader.serialize, NetUnparser.u16. cbv zeta.
  rewrite unparse_int_app, !write_address_app. by rewrite <- app_assoc.
Qed.

Lemma eth_parse_serialize h h0 p rest :
  eth_wf h -> ahead p (EthernetHeader.serialize h ++ rest) ->
  exists p', EthernetHeader.parse h0 p = Ret (NoError, h, p') /\ ahead p' rest.
Proof.
  intros [Hd Hs Ht] Ha. rewrite eth_serialize_bytes, <- !app_assoc in Ha.
  unfold EthernetHeader.parse. pose proof Ha as (_ & _ & Hstr).
  unfold NetParser.buffer, Buffer.size, EthernetHeader.LENGTH. rewrite Hstr.
  rewrite !Zlen_app, Zlen_be_bytes. pose proof (Zlen_nonneg rest). unfold Zlen at 1 2.
  case_cmp; [lia |].
  do 2 parse_address. unfold NetParser.u16. parse_field. eexists. split; [| eassumption].
  match goal with Ha : ahead _ rest |- _ => destruct Ha as (_ & He & _) end.
  unfold NetParser.get_error. rewrite He. by destruct h.
Qed.

#[global] Program Instance ethernet_codec : Codec EthernetHeader.t := {|
  encode h := Ret (EthernetHeader.serialize h);
  decode := EthernetHeader.parse;
  fits h _ := eth_wf h;
|}.
Next Obligation.
  intros h rest [Hd Hs _]. eexists. split; [reflexivity |].
  rewrite eth_serialize_bytes, !Zlen_app, Zlen_be_bytes. unfold Zlen. lia.
Qed.
Next Obligation. intros h h0 w p rest Hw [= <-]. by apply eth_parse_serialize. Qed.

Lemma frame_bytes f :
  BufferList.concatenate (EthernetFrame.serialize f) =
  EthernetHeader.serialize (EthernetFrame.header f) ++ BufferList.concatenate (EthernetFrame.payload f).
Proof.
  destruct f as [h pay]. unfold EthernetFrame.serialize, BufferList.append. cbn [EthernetFrame._header EthernetFrame._payload].
  rewrite BufferList.concatenate_app. f_equal.
  change (Buffer.str (Buffer.of_string (EthernetHeader.serialize h)) ++ [] = EthernetHeader.serialize h).
  by rewrite Buffer.str_of_string, app_nil_r.
Qed.

(** A buffer that holds a serialised frame is parsed back. *)
Lemma frame_parse f f0 b :
  eth_wf (EthernetFrame.header f) -> Buffer.wf b -> Buffer.str b = BufferList.concatenate (EthernetFrame.serialize f) ->
  exists b', EthernetFrame.parse b f0 = Ret (NoError, EthernetFrame.mk (EthernetFrame.header f) [b']) /\
    Buffer.wf b' /\ Buffer.str b' = BufferList.concatenate (EthernetFrame.payload f).
Proof.
  intros Hw Hb Hs. rewrite frame_bytes in Hs.
  destruct (@codec_buffer _ ethernet_codec (EthernetFrame.header f) (EthernetFrame._header f0) _ _ b Hw eq_refl Hb Hs)
    as (p' & Hd & Hwf & He & Hstr). cbn [decode ethernet_codec] in Hd.
  exists (NetParser.buffer p'). split_and!; [| done | done].
  unfold EthernetFrame.parse, NetParser.get_error. rewrite Hd. cbn [mbind outcome_bind]. by rewrite He.
Qed.

(** [parse] returns on every input, with one buffer for the payload. *)
Lemma frame_parse_total b f :
  Buffer.wf b ->
  exists r f' b', EthernetFrame.parse b f = Ret (r, f') /\ EthernetFrame.payload f' = [b'] /\ Buffer.wf b'.
Proof.
  intros Hwf. unfold EthernetFrame.parse, EthernetHeader.parse, NetParser.u16.
  cbn [NetParser.buffer NetParser.make NetParser._buffer]. case_cmp; [by eexists _, _, _ |].
  assert (Hwf0 : Buffer.wf (NetParser._buffer (NetParser.make b))) by done. clear Hwf.
  repeat first [parse_total | address_total]. by eexists _, _, _.
Qed.

Lemma Zlen_eth_serialize h : eth_wf h -> Zlen (EthernetHeader.serialize h) = EthernetHeader.LENGTH.
Proof. intros [Hd Hs _]. rewrite eth_serialize_bytes, !Zlen_app, Zlen_be_bytes. unfold Zlen, EthernetHeader.LENGTH. lia. Qed.

(** A frame sent over the wire is parsed back to the same header and
    payload bytes. *)
Theorem frame_roundtrip (f f0 : EthernetFrame.t) :
  eth_wf (EthernetFrame.header f) -> Zlen (BufferList.concatenate (EthernetFrame.payload f)) < 2 ^ 32 ->
  exists f', EthernetFrame.parse
      (Buffer.of_string (BufferList.concatenate (EthernetFrame.serialize f))) f0 = Ret (NoError, f') /\
    EthernetFrame.header f' = EthernetFrame.header f /\
    EthernetFrame.payload f' ≡ EthernetFrame.payload f.
Proof.
  intros Hw Hl. destruct (frame_parse f f0 (Buffer.of_string (BufferList.concatenate (EthernetFrame.serialize f))) Hw)
    as (b' & Hp & _ & Hs).
  - apply Buffer.wf_of_string. rewrite frame_bytes, Zlen_app, Zlen_eth_serialize by done. unfold EthernetHeader.LENGTH. lia.
  - apply Buffer.str_of_string.
  - eexists. split_and!; [exact Hp | done |].
    unfold equiv, BufferList.bufferlist_equiv. cbn. by rewrite Hs, app_nil_r.
Qed.

Definition sample_frame : EthernetFrame.t :=
  EthernetFrame.mk (EthernetHeader.mk ETHERNET_BROADCAST (replicate 6 Byte.x02) 0x806)
    [Buffer.of_string [Byte.x61]; Buffer.of_string [Byte.x62]].

Lemma frame_roundtrip_witness :
  exists f', EthernetFrame.parse
      (Buffer.of_string (BufferList.concatenate (EthernetFrame.serialize sample_frame)))
      EthernetFrame.default_ = Ret (NoError, f') /\
    EthernetFrame.header f' = EthernetFrame.header sample_frame.
Proof.
  destruct (frame_roundtrip sample_frame EthernetFrame.default_) as (f' & H1 & H2 & _).
  - split; [reflexivity | reflexivity | unfold in_bits; cbn; lia].
  - vm_compute. reflexivity.
  - exists f'. split; [exact H1 | exact H2].
Defined.

(** A frame shorter than its header is accepted: [parse] reports
    [NoError], keeps the old header and takes all the bytes as payload. *)
Theorem frame_parse_accepts_runt (b : Buffer.t) (f : EthernetFrame.t) :
  Buffer.size b < EthernetHeader.LENGTH ->
  EthernetFrame.parse b f =
    Ret (NoError, EthernetFrame.mk (EthernetFrame.header f) (BufferList.of_buffer b)).
Proof.
  intros Hs. unfold EthernetFrame.parse, EthernetHeader.parse. cbn [NetParser.buffer NetParser.make NetParser._buffer].
  case_cmp; [done | lia].
Qed.

Lemma frame_parse_accepts_runt_witness :
  EthernetFrame.parse (Buffer.of_string [Byte.x01; Byte.x02]) EthernetFrame.default_ =
  Ret (NoError, EthernetFrame.mk EthernetHeader.default_ [Buffer.of_string [Byte.x01; Byte.x02]]).
Proof. apply frame_parse_accepts_runt. vm_compute. reflexivity. Defined.

(** ** ARP *)

Record arp_wf (m : ARPMessage.t) : Prop := {
  wf_supported : ARPMessage.supported m = true;
  wf_sea : length (ARPMessage.sender_ethernet_address m) = 6%nat;
  wf_sip : in_bits 32 (ARPMessage.sender_ip_address m);
  wf_tea : length (ARPMessage.target_ethernet_address m) = 6%nat;
  wf_tip : in_bits 32 (ARPMessage.target_ip_address m);
}.

Lemma supported_fields m :
  ARPMessage.supported m = true ->
  ARPMessage.hardware_type m = 1 /\ ARPMessage.protocol_type m = 0x800 /\
  ARPMessage.hardware_address_size m = 6 /\ ARPMessage.protocol_address_size m = 4 /\
  (ARPMessage.opcode m = 1 \/ ARPMessage.opcode m = 2).
Proof.
  unfold ARPMessage.supported. rewrite !andb_true_iff, orb_true_iff, !Z.eqb_eq. tauto.
Qed.

Lemma arp_serialize_bytes m :
  ARPMessage.supported m = true ->
  ARPMessage.serialize m = Ret
    (be_bytes 2 (ARPMessage.hardware_type m) ++ be_bytes 2 (ARPMessage.protocol_type m) ++
     be_bytes 1 (ARPMessage.hardware_address_size m) ++ be_bytes 1 (ARPMessage.protocol_address_size m) ++
     be_bytes 2 (ARPMessage.opcode m) ++ ARPMessage.sender_ethernet_address m ++
     be_bytes 4 (ARPMessage.sender_ip_address m) ++ ARPMessage.target_ethernet_address m ++
     be_bytes 4 (ARPMessage.target_ip_address m)).
Proof.
  intros Hs. unfold ARPMessage.serialize. rewrite Hs. cbn [negb]. cbv zeta.
  unfold NetUnparser.u8, NetUnparser.u16, NetUnparser.u32.
  repeat first [rewrite unparse_int_app | rewrite write_address_app]. by rewrite <- !app_assoc.
Qed.

Lemma Zlen_arp m w :
  arp_wf m -> ARPMessage.serialize m = Ret w -> Zlen w = ARPMessage.LENGTH.
Proof.
  intros [Hsup Hse Hsi Hte Hti]. rewrite arp_serialize_bytes by done. intros <-%(inj Ret).
  unfold ARPMessage.LENGTH. rewrite !Zlen_app, !Zlen_be_bytes. unfold Zlen. lia.
Qed.

(** A buffer that starts with a serialised message is parsed back. *)
Lemma arp_parse m m0 w padding b :
  arp_wf m -> ARPMessage.serialize m = Ret w -> Buffer.wf b -> Buffer.str b = w ++ padding ->
  ARPMessage.parse b m0 = Ret (NoError, m).
Proof.
  intros Hm Hw Hwf Hs. pose proof (Zlen_arp m w Hm Hw) as Hlen. destruct Hm as [Hsup Hse Hsi Hte Hti].
  rewrite arp_serialize_bytes in Hw by done. destruct (supported_fields m Hsup) as (H1 & H2 & H3 & H4 & H5).
  unfold ARPMessage.parse, NetParser.u8, NetParser.u16, NetParser.u32.
  assert (Ha : ahead (NetParser.make b) (w ++ padding)) by (by split_and!).
  cbn [NetParser.buffer NetParser.make NetParser._buffer]. unfold Buffer.size. rewrite Hs, Zlen_app, Hlen.
  pose proof (Zlen_nonneg padding). case_cmp; [lia |].
  apply (inj Ret) in Hw as <-. rewrite <- !app_assoc in Ha.
  do 5 parse_field.
  match goal with |- context [negb ?b] => replace b with true by (symmetry; exact Hsup) end.
  cbn [negb]. parse_address. parse_field. parse_address. parse_field.
  match goal with Ha : ahead _ padding |- _ => destruct Ha as (_ & He & _) end.
  unfold NetParser.get_error. rewrite He. by destruct m.
Qed.

(** An ARP message that can be serialised is parsed back unchanged,
    also with trailing bytes (the padding of a minimum-size frame). *)
Theorem arp_roundtrip (m m0 : ARPMessage.t) (padding : bytes) :
  arp_wf m -> Zlen padding < 2 ^ 32 ->
  exists w, ARPMessage.serialize m = Ret w /\ Zlen w = ARPMessage.LENGTH /\
    ARPMessage.parse (Buffer.of_string (w ++ padding)) m0 = Ret (NoError, m).
Proof.
  intros Hm Hpad. pose proof (arp_serialize_bytes m (wf_supported m Hm)) as Hw. eexists. split; [exact Hw |].
  pose proof (Zlen_arp m _ Hm Hw) as Hl. split; [done |]. eapply arp_parse; [done | exact Hw | | apply Buffer.str_of_string].
  apply Buffer.wf_of_string. rewrite Zlen_app, Hl. unfold ARPMessage.LENGTH. lia.
Qed.

Definition sample_arp : ARPMessage.t :=
  ARPMessage.mk 1 0x800 6 4 2 (replicate 6 Byte.x02) 0x0a000001 (replicate 6 Byte.x03) 0x0a000002.

Lemma arp_roundtrip_witness :
  exists w, ARPMessage.serialize sample_arp = Ret w /\ Zlen w = ARPMessage.LENGTH /\
    ARPMessage.parse (Buffer.of_string (w ++ replicate 18 Byte.x00)) ARPMessage.default_ =
      Ret (NoError, sample_arp).
Proof.
  apply arp_roundtrip.
  - split; [reflexivity | reflexivity | unfold in_bits; cbn; lia | reflexivity
      | unfold in_bits; cbn; lia].
  - vm_compute. reflexivity.
Defined.

(** What [parse] accepts is a supported message of the right sizes, and
    [parse] returns on every input. *)
Lemma arp_parse_total b m :
  Buffer.wf b ->
  exists r m', ARPMessage.parse b m = Ret (r, m') /\ (r = NoError -> arp_wf m').
Proof.
  intros Hwf. unfold ARPMessage.parse, NetParser.u8, NetParser.u16, NetParser.u32.
  cbn [NetParser.buffer NetParser.make NetParser._buffer]. case_cmp.
  { by eexists _, _. }
  assert (Hwf0 : Buffer.wf (NetParser._buffer (NetParser.make b))) by done. clear Hwf.
  do 5 parse_total. destruct (ARPMessage.supported _) eqn:Hsup; cbn [negb]; [| by eexists _, _].
  repeat first [parse_total | address_total].
  eexists _, _. split; [reflexivity |]. intros _.
  split; [unfold ARPMessage.supported in *; exact Hsup | done | done | done | done].
Qed.

End EthernetFacts.
