(* ===== verification/ipv4.v ===== *)
(** * libsponge/tcp_helpers/ipv4_header and ipv4_datagram

    [IPv4Header::parse] returns early on bad input, with the fields read so
    far assigned and the parser where it stands; [IPv4Datagram::parse] then
    goes on with both. *)

From S2P Require Import Prelude buffer parser util codec.

Module IPv4Header.

Definition LENGTH : Z := 20.
Definition DEFAULT_TTL : Z := 128.
Definition PROTO_TCP : Z := 6.

Record t := mk {
  ver : Z;
  hlen : Z;
  tos : Z;
  len : Z;
  id : Z;
  df : bool;
  mf : bool;
  offset : Z;
  ttl : Z;
  proto : Z;
  cksum : Z;
  src : Z;
  dst : Z;
}.

Definition default_ : t := mk 4 (LENGTH / 4) 0 0 0 true false 0 DEFAULT_TTL PROTO_TCP 0 0 0.

Definition set_cksum (c : Z) (h : t) : t :=
  mk (ver h) (hlen h) (tos h) (len h) (id h) (df h) (mf h) (offset h) (ttl h) (proto h) c (src h) (dst h).
Definition set_ttl (v : Z) (h : t) : t :=
  mk (ver h) (hlen h) (tos h) (len h) (id h) (df h) (mf h) (offset h) v (proto h) (cksum h) (src h) (dst h).
(** [src], [dst] and [len], as [wrap_tcp_in_ip] assigns them. *)
Definition set_addresses (s d l : Z) (h : t) : t :=
  mk (ver h) (hlen h) (tos h) l (id h) (df h) (mf h) (offset h) (ttl h) (proto h) (cksum h) s d.

Definition parse (h : t) (p : NetParser.t) : outcome (ParseResult * t * NetParser.t) :=
  let original_serialized_version := NetParser.buffer p in
  let data_size := Buffer.size (NetParser.buffer p) in
  if data_size <? LENGTH then Ret (PacketTooShort, h, p)
  else
    '(first_byte, p) ← NetParser.u8 p;
    let ver := Z.shiftr first_byte 4 in
    let hlen := Z.land first_byte 0x0f in
    '(tos, p) ← NetParser.u8 p;
    '(len, p) ← NetParser.u16 p;
    '(id, p) ← NetParser.u16 p;
    '(fo_val, p) ← NetParser.u16 p;
    let df := negb (Z.land fo_val 0x4000 =? 0) in
    let mf := negb (Z.land fo_val 0x2000 =? 0) in
    let offset := Z.land fo_val 0x1fff in
    '(ttl, p) ← NetParser.u8 p;
    '(proto, p) ← NetParser.u8 p;
    '(cksum, p) ← NetParser.u16 p;
    '(src, p) ← NetParser.u32 p;
    '(dst, p) ← NetParser.u32 p;
    let h := mk ver hlen tos len id df mf offset ttl proto cksum src dst in
    if data_size <? 4 * hlen then Ret (PacketTooShort, h, p)
    else if negb (ver =? 4) then Ret (WrongIPVersion, h, p)
    else if hlen <? 5 then Ret (HeaderTooShort, h, p)
    else if negb (data_size =? len) then Ret (TruncatedPacket, h, p)
    else
      p ← NetParser.remove_prefix (u64 (hlen * 4 - LENGTH)) p;
      if NetParser.error p then Ret (NetParser.get_error p, h, p)
      else
        let check := InternetChecksum.make 0 in
        let check := InternetChecksum.add
          (take (Z.to_nat (4 * hlen)) (Buffer.str original_serialized_version)) check in
        if negb (InternetChecksum.value check =? 0) then Ret (BadChecksum, h, p)
        else Ret (NoError, h, p).

Definition serialize (h : t) : outcome bytes :=
  if negb (ver h =? 4) then Raise (runtime_error "wrong IP version")
  else if 4 * hlen h <? LENGTH then Raise (runtime_error "IP header too short")
  else
    let ret := [] in
    let first_byte := u8 (Z.lor (Z.shiftl (ver h) 4) (Z.land (hlen h) 0xf)) in
    let ret := NetUnparser.u8 ret first_byte in
    let ret := NetUnparser.u8 ret (tos h) in
    let ret := NetUnparser.u16 ret (len h) in
    let ret := NetUnparser.u16 ret (id h) in
    let fo_val := u16 (Z.lor (Z.lor (if df h then 0x4000 else 0) (if mf h then 0x2000 else 0))
                         (Z.land (offset h) 0x1fff)) in
    let ret := NetUnparser.u16 ret fo_val in
    let ret := NetUnparser.u8 ret (ttl h) in
    let ret := NetUnparser.u8 ret (proto h) in
    let ret := NetUnparser.u16 ret (cksum h) in
    let ret := NetUnparser.u32 ret (src h) in
    let ret := NetUnparser.u32 ret (dst h) in
    Ret (resize ret (4 * hlen h)).

Definition payload_length (h : t) : Z := u16 (len h - 4 * hlen h).

Definition pseudo_cksum (h : t) : Z :=
  let pcksum := u32 (Z.shiftr (src h) 16 + Z.land (src h) 0xffff) in
  let pcksum := u32 (pcksum + (Z.shiftr (dst h) 16 + Z.land (dst h) 0xffff)) in
  let pcksum := u32 (pcksum + proto h) in
  u32 (pcksum + payload_length h).

End IPv4Header.

Module IPv4Datagram.

Record t := mk {
  _header : IPv4Header.t;
  _payload : BufferList.t;
}.

Definition default_ : t := mk IPv4Header.default_ BufferList.empty.
Definition header (d : t) : IPv4Header.t := _header d.
Definition payload (d : t) : BufferList.t := _payload d.

Definition parse (buffer : Buffer.t) (d : t) : outcome (ParseResult * t) :=
  let p := NetParser.make buffer in
  '(_, h, p) ← IPv4Header.parse (_header d) p;
  let payload := BufferList.of_buffer (NetParser.buffer p) in
  if negb (BufferList.size payload =? IPv4Header.payload_length h)
  then Ret (PacketTooShort, mk h payload)
  else Ret (NetParser.get_error p, mk h payload).

Definition serialize (d : t) : outcome BufferList.t :=
  if negb (BufferList.size (_payload d) =? IPv4Header.payload_length (_header d)) then
    Raise (runtime_error "IPv4Datagram::serialize: payload is wrong size")
  else
    let header_out := IPv4Header.set_cksum 0 (_header d) in
    header_zero_checksum ← IPv4Header.serialize header_out;
    let check := InternetChecksum.add header_zero_checksum (InternetChecksum.make 0) in
    let header_out := IPv4Header.set_cksum (InternetChecksum.value check) header_out in
    hs ← IPv4Header.serialize header_out;
    let ret := BufferList.append (BufferList.of_string hs) BufferList.empty in
    Ret (BufferList.append (_payload d) ret).

End IPv4Datagram.

Abbreviation InternetDatagram := IPv4Datagram.t.

Module IPv4Facts.
Import ParserFacts ChecksumFacts CodecFacts.

(** Field widths; four bits of [hlen], thirteen of [offset]. *)
Record ip_wf (h : IPv4Header.t) : Prop := {
  wf_ver : IPv4Header.ver h = 4;
  wf_hlen : 5 <= IPv4Header.hlen h < 16;
  wf_tos : in_bits 8 (IPv4Header.tos h);
  wf_len : in_bits 16 (IPv4Header.len h);
  wf_id : in_bits 16 (IPv4Header.id h);
  wf_offset : in_bits 13 (IPv4Header.offset h);
  wf_ttl : in_bits 8 (IPv4Header.ttl h);
  wf_proto : in_bits 8 (IPv4Header.proto h);
  wf_cksum : in_bits 16 (IPv4Header.cksum h);
  wf_src : in_bits 32 (IPv4Header.src h);
  wf_dst : in_bits 32 (IPv4Header.dst h);
}.

Definition fo_val (h : IPv4Header.t) : Z :=
  u16 (Z.lor (Z.lor (if IPv4Header.df h then 0x4000 else 0) (if IPv4Header.mf h then 0x2000 else 0))
         (Z.land (IPv4Header.offset h) 0x1fff)).

Definition before_cksum (h : IPv4Header.t) : bytes :=
  be_bytes 1 (64 + IPv4Header.hlen h) ++ be_bytes 1 (IPv4Header.tos h) ++
  be_bytes 2 (IPv4Header.len h) ++ be_bytes 2 (IPv4Header.id h) ++ be_bytes 2 (fo_val h) ++
  be_bytes 1 (IPv4Header.ttl h) ++ be_bytes 1 (IPv4Header.proto h).
Definition after_cksum (h : IPv4Header.t) : bytes :=
  be_bytes 4 (IPv4Header.src h) ++ be_bytes 4 (IPv4Header.dst h) ++
  replicate (Z.to_nat (4 * IPv4Header.hlen h - 20)) Byte.x00.
Definition wire (c : Z) (h : IPv4Header.t) : bytes :=
  before_cksum h ++ be_bytes 2 c ++ after_cksum h.

Lemma first_byte v :
  5 <= v < 16 ->
  u8 (Z.lor (Z.shiftl 4 4) (Z.land v 0xf)) = 64 + v /\
  Z.shiftr (64 + v) 4 = 4 /\ Z.land (64 + v) 0x0f = v.
Proof.
  intros Hv. assert (Hc : v = 5 \/ v = 6 \/ v = 7 \/ v = 8 \/ v = 9 \/ v = 10 \/ v = 11 \/ v = 12 \/
    v = 13 \/ v = 14 \/ v = 15) by lia.
  repeat destruct Hc as [-> | Hc]; try (vm_compute; intuition congruence). subst v. vm_compute. intuition congruence.
Qed.

(** Bits 13 and 14 of the flags word, and the offset below them: checked on
    the 2^13 offsets. *)
Definition flags_word_ok (a b : bool) (o : Z) : bool :=
  let w := u16 (Z.lor (Z.lor (if a then 0x4000 else 0) (if b then 0x2000 else 0)) (Z.land o 0x1fff)) in
  (0 <=? w) && (w <? 2 ^ 16) && Bool.eqb (negb (Z.land w 0x4000 =? 0)) a &&
  Bool.eqb (negb (Z.land w 0x2000 =? 0)) b && (Z.land w 0x1fff =? o).

Lemma flags_word_all a b : forallb (flags_word_ok a b) (seqZ 0 (2 ^ 13)) = true.
Proof. destruct a, b; vm_compute; reflexivity. Qed.

Lemma flags_word h :
  in_bits 13 (IPv4Header.offset h) ->
  in_bits 16 (fo_val h) /\ negb (Z.land (fo_val h) 0x4000 =? 0) = IPv4Header.df h /\
  negb (Z.land (fo_val h) 0x2000 =? 0) = IPv4Header.mf h /\
  Z.land (fo_val h) 0x1fff = IPv4Header.offset h.
Proof.
  intros Ho. pose proof (flags_word_all (IPv4Header.df h) (IPv4Header.mf h)) as Hall.
  rewrite forallb_forall in Hall. specialize (Hall (IPv4Header.offset h)).
  rewrite <- list_elem_of_In, elem_of_seqZ in Hall. specialize (Hall ltac:(unfold in_bits in Ho; lia)).
  unfold flags_word_ok in Hall. cbv zeta in Hall. fold (fo_val h) in Hall.
  rewrite !andb_true_iff, !Bool.eqb_true_iff, Z.leb_le, Z.ltb_lt, Z.eqb_eq in Hall.
  unfold in_bits. tauto.
Qed.

Lemma serialize_wire h :
  ip_wf h -> IPv4Header.serialize h = Ret (wire (IPv4Header.cksum h) h).
Proof.
  intros []. unfold IPv4Header.serialize. rewrite wf_ver0. cbn [Z.eqb Pos.eqb negb].
  unfold IPv4Header.LENGTH. case_cmp; [lia |]. cbv zeta. fold (fo_val h).
  destruct (first_byte (IPv4Header.hlen h)) as (-> & _); [lia |].
  unfold NetUnparser.u8, NetUnparser.u16, NetUnparser.u32. rewrite !unparse_int_app.
  f_equal. unfold resize, wire, before_cksum, after_cksum. rewrite take_ge.
  - zlen. rewrite !Zlen_be_bytes. rewrite <- !app_assoc. cbn [app]. repeat f_equal.
  - rewrite !length_app, !length_be_bytes. cbn. lia.
Qed.

Lemma Zlen_wire c h : ip_wf h -> Zlen (wire c h) = 4 * IPv4Header.hlen h.
Proof. intros []. unfold wire, before_cksum, after_cksum. zlen. rewrite !Zlen_be_bytes. lia. Qed.

Lemma ip_before_cksum_even h : Nat.even (length (before_cksum h)) = true.
Proof. unfold before_cksum. rewrite !length_app, !length_be_bytes. done. Qed.

(** The checksum of a header. *)
Definition cksum_of (s : bytes) : Z := InternetChecksum.value (InternetChecksum.add s (InternetChecksum.make 0)).

Lemma wire_checksum h :
  ip_wf h -> cksum_of (wire (cksum_of (wire 0 h)) h) = 0.
Proof.
  intros Hh. pose proof (Zlen_wire 0 h Hh) as Hz. pose proof (wf_hlen _ Hh).
  pose proof (wsum_range false (wire 0 h)) as Hr.
  set (c := cksum_of (wire 0 h)).
  assert (Hc : in_bits 16 c) by apply value_range.
  pose proof (wsum_cksum (before_cksum h) c (after_cksum h) Hc (ip_before_cksum_even h)) as Hw.
  fold (wire c h) (wire 0 h) in Hw. unfold in_bits in Hc.
  unfold cksum_of at 1. unfold InternetChecksum.make. rewrite add_spec by lia. rewrite Hw, Z.add_0_l.
  unfold c, cksum_of, InternetChecksum.make. rewrite add_spec by lia. rewrite Z.add_0_l.
  apply value_verifies; lia.
Qed.

(** A header in front of a payload of the length it declares, with a correct
    checksum. *)
Definition ip_fits (h : IPv4Header.t) (rest : bytes) : Prop :=
  ip_wf h /\ IPv4Header.len h = 4 * IPv4Header.hlen h + Zlen rest /\
  cksum_of (wire (IPv4Header.cksum h) h) = 0.

Lemma ip_parse_wire h h0 p rest :
  ip_fits h rest -> ahead p (wire (IPv4Header.cksum h) h ++ rest) ->
  exists p', IPv4Header.parse h0 p = Ret (NoError, h, p') /\ ahead p' rest.
Proof.
  intros (Hh & Hlen & Hck) Ha. pose proof (Zlen_wire (IPv4Header.cksum h) h Hh) as Hw.
  unfold IPv4Header.parse. unfold NetParser.buffer, Buffer.size.
  pose proof Ha as (_ & _ & ->). rewrite Zlen_app, Hw, <- Hlen. pose proof (Zlen_nonneg rest).
  set (whole := wire (IPv4Header.cksum h) h ++ rest).
  assert (Hck' : cksum_of (take (Z.to_nat (4 * IPv4Header.hlen h)) whole) = 0)
    by (unfold whole; rewrite take_app_length'; [done | unfold Zlen in Hw; lia]).
  clearbody whole. destruct Hh. destruct (flags_word h wf_offset0) as (Hf & Hdf & Hmf & Ho).
  destruct (first_byte (IPv4Header.hlen h)) as (_ & Hv & Hl); [lia |].
  unfold IPv4Header.LENGTH. case_cmp; [lia |].
  unfold wire, before_cksum, after_cksum in Ha. rewrite <- !app_assoc in Ha.
  unfold NetParser.u8, NetParser.u16, NetParser.u32. repeat parse_field.
  rewrite Hv, Hl, Hdf, Hmf, Ho. case_cmp; [lia |]. cbn [Z.eqb Pos.eqb negb]. case_cmp; [lia |].
  rewrite Z.eqb_refl. cbn [negb]. rewrite u64_small by lia.
  match goal with Ha : ahead ?p (replicate ?k ?x ++ rest) |- _ =>
    destruct (remove_prefix_ahead p (IPv4Header.hlen h * 4 - 20) (replicate k x) rest Ha)
      as (p' & -> & Ha'); [rewrite Zlen_replicate; lia |] end.
  cbn [mbind outcome_bind]. rewrite (ahead_error _ _ Ha').
  fold (cksum_of (take (Z.to_nat (4 * IPv4Header.hlen h)) whole)). rewrite Hck'. cbn [Z.eqb negb].
  exists p'. split; [| done]. rewrite <- wf_ver0. by destruct h.
Qed.

#[global] Program Instance ipv4_codec : Codec IPv4Header.t := {|
  encode := IPv4Header.serialize;
  decode := IPv4Header.parse;
  fits := ip_fits;
|}.
Next Obligation.
  intros h rest (Hh & _). eexists. split; [by apply serialize_wire |].
  rewrite Zlen_wire by done. destruct Hh. lia.
Qed.
Next Obligation.
  intros h h0 w p rest Hf Hw Ha. rewrite serialize_wire in Hw by apply Hf. injection Hw as <-.
  by apply ip_parse_wire.
Qed.

(** ** Datagrams *)

Lemma set_cksum_wf c h : ip_wf h -> in_bits 16 c -> ip_wf (IPv4Header.set_cksum c h).
Proof. intros [] Hc. by constructor. Qed.

Lemma wire_set_cksum c c' h : wire c (IPv4Header.set_cksum c' h) = wire c h.
Proof. reflexivity. Qed.

Lemma payload_length_fits h (pay : bytes) :
  ip_wf h -> IPv4Header.len h = 4 * IPv4Header.hlen h + Zlen pay ->
  IPv4Header.payload_length h = Zlen pay.
Proof.
  intros [] Hl. unfold IPv4Header.payload_length, in_bits in *.
  pose proof (Zlen_nonneg pay). rewrite u16_small; lia.
Qed.

(** What [serialize] puts on the wire: the header with its checksum, then
    the payload. *)
Lemma datagram_serialize d :
  ip_wf (IPv4Datagram.header d) ->
  IPv4Header.len (IPv4Datagram.header d) =
    4 * IPv4Header.hlen (IPv4Datagram.header d) + Zlen (BufferList.concatenate (IPv4Datagram.payload d)) ->
  let h := IPv4Header.set_cksum (cksum_of (wire 0 (IPv4Datagram.header d))) (IPv4Datagram.header d) in
  exists l, IPv4Datagram.serialize d = Ret l /\
    BufferList.concatenate l = wire (IPv4Header.cksum h) h ++ BufferList.concatenate (IPv4Datagram.payload d) /\
    ip_fits h (BufferList.concatenate (IPv4Datagram.payload d)).
Proof.
  destruct d as [h pay]. cbn [IPv4Datagram.header IPv4Datagram.payload IPv4Datagram._header IPv4Datagram._payload].
  intros Hh Hlen. set (h' := IPv4Header.set_cksum (cksum_of (wire 0 h)) h). unfold IPv4Datagram.serialize. cbn [IPv4Datagram._header IPv4Datagram._payload].
  rewrite (payload_length_fits _ _ Hh Hlen), BufferList.size_concatenate, Z.eqb_refl.
  2: { destruct Hh. unfold in_bits in *. lia. }
  cbn [negb]. rewrite serialize_wire by (apply set_cksum_wf; [done | unfold in_bits; lia]).
  cbn [mbind outcome_bind]. rewrite wire_set_cksum.
  change (IPv4Header.cksum (IPv4Header.set_cksum 0 h)) with 0. fold (cksum_of (wire 0 h)).
  assert (Hc : in_bits 16 (cksum_of (wire 0 h))) by apply value_range.
  change (IPv4Header.set_cksum (cksum_of (wire 0 h)) (IPv4Header.set_cksum 0 h)) with h'.
  assert (Hh' : ip_wf h') by (by apply set_cksum_wf).
  rewrite serialize_wire by done. cbn [mbind outcome_bind].
  eexists. split_and!; [reflexivity | |].
  - unfold BufferList.append. rewrite BufferList.concatenate_app. f_equal.
    cbn [app BufferList.empty BufferList.of_string BufferList.concatenate].
    by rewrite Buffer.str_of_string, app_nil_r.
  - split_and!; [done | done |]. exact (wire_checksum h Hh).
Qed.

Lemma datagram_parse_fits h pay d0 b :
  ip_fits h pay -> Buffer.wf b -> Buffer.str b = wire (IPv4Header.cksum h) h ++ pay ->
  exists b', IPv4Datagram.parse b d0 = Ret (NoError, IPv4Datagram.mk h (BufferList.of_buffer b')) /\
    Buffer.wf b' /\ Buffer.str b' = pay.
Proof.
  intros Hf Hb Hs. pose proof Hf as (Hh & Hlen & _).
  destruct (@codec_buffer _ ipv4_codec h (IPv4Datagram._header d0) _ pay b Hf (serialize_wire h Hh) Hb Hs)
    as (p' & Hd & Hwf & He & Hstr). cbn [decode ipv4_codec] in Hd.
  exists (NetParser.buffer p'). split_and!; [| done | done]. unfold IPv4Datagram.parse. rewrite Hd. cbn [mbind outcome_bind].
  unfold NetParser.buffer. rewrite BufferList.size_concatenate; cbn; rewrite Hstr, app_nil_r; [| destruct Hh; unfold in_bits in *; lia].
  rewrite (payload_length_fits _ _ Hh Hlen), Z.eqb_refl. cbn. unfold NetParser.get_error. by rewrite He.
Qed.

(** C31: a datagram whose header declares its true length is serialised, and
    parsing the bytes gives back the header (with the checksum that was
    computed) and the payload. *)
Theorem datagram_roundtrip (d d0 : IPv4Datagram.t) :
  ip_wf (IPv4Datagram.header d) ->
  IPv4Header.len (IPv4Datagram.header d) =
    4 * IPv4Header.hlen (IPv4Datagram.header d) + Zlen (BufferList.concatenate (IPv4Datagram.payload d)) ->
  exists l d', IPv4Datagram.serialize d = Ret l /\
    IPv4Datagram.parse (Buffer.of_string (BufferList.concatenate l)) d0 = Ret (NoError, d') /\
    (exists c, IPv4Datagram.header d' = IPv4Header.set_cksum c (IPv4Datagram.header d)) /\
    IPv4Datagram.payload d' ≡ IPv4Datagram.payload d.
Proof.
  intros Hh Hlen. destruct (datagram_serialize d Hh Hlen) as (l & Hl & Hw & Hf).
  destruct (datagram_parse_fits _ _ d0 (Buffer.of_string (BufferList.concatenate l)) Hf) as (b & Hp & _ & Hb).
  { apply Buffer.wf_of_string. rewrite Hw, Zlen_app, Zlen_wire by apply Hf. pose proof (wf_hlen _ Hh).
    pose proof (wf_len _ Hh). unfold in_bits in *. cbn. lia. }
  { by rewrite Buffer.str_of_string. }
  eexists l, _. split_and!; [done | exact Hp | eexists; reflexivity |].
  unfold equiv, BufferList.bufferlist_equiv. cbn. by rewrite app_nil_r.
Qed.

Definition sample_datagram : IPv4Datagram.t :=
  IPv4Datagram.mk (IPv4Header.set_addresses 0x0a000001 0x0a000002 22 IPv4Header.default_)
    [Buffer.of_string [Byte.x61]; Buffer.of_string [Byte.x62]].

Lemma sample_header_wf : ip_wf (IPv4Datagram.header sample_datagram).
Proof. constructor; vm_compute; intuition congruence. Defined.

Lemma datagram_roundtrip_witness :
  exists l d', IPv4Datagram.serialize sample_datagram = Ret l /\
    IPv4Datagram.parse (Buffer.of_string (BufferList.concatenate l)) IPv4Datagram.default_ = Ret (NoError, d') /\
    (exists c, IPv4Datagram.header d' = IPv4Header.set_cksum c (IPv4Datagram.header sample_datagram)) /\
    IPv4Datagram.payload d' ≡ IPv4Datagram.payload sample_datagram.
Proof. apply datagram_roundtrip; [exact sample_header_wf | vm_compute; reflexivity]. Defined.

(** ** Arbitrary input *)

(** Twenty bytes are read without error; the checks follow. *)
Definition checks (s : bytes) (h : IPv4Header.t) (p : NetParser.t) : outcome (ParseResult * IPv4Header.t * NetParser.t) :=
  if Zlen s <? 4 * IPv4Header.hlen h then Ret (PacketTooShort, h, p)
  else if negb (IPv4Header.ver h =? 4) then Ret (WrongIPVersion, h, p)
  else if IPv4Header.hlen h <? 5 then Ret (HeaderTooShort, h, p)
  else if negb (Zlen s =? IPv4Header.len h) then Ret (TruncatedPacket, h, p)
  else
    p ← NetParser.remove_prefix (u64 (IPv4Header.hlen h * 4 - 20)) p;
    if NetParser.error p then Ret (NetParser.get_error p, h, p)
    else if negb (cksum_of (take (Z.to_nat (4 * IPv4Header.hlen h)) s) =? 0) then Ret (BadChecksum, h, p)
    else Ret (NoError, h, p).

Lemma ip_parse_long h0 p s :
  ahead p s -> 20 <= Zlen s ->
  exists h p1, IPv4Header.parse h0 p = checks s h p1 /\ ahead p1 (drop 20 s) /\
    0 <= IPv4Header.hlen h < 16 /\ in_bits 16 (IPv4Header.len h) /\
    in_bits 32 (IPv4Header.src h) /\ in_bits 32 (IPv4Header.dst h).
Proof.
  intros Ha Hl. unfold IPv4Header.parse, NetParser.buffer, Buffer.size, IPv4Header.LENGTH.
  pose proof Ha as (_ & _ & ->). case_cmp; [lia |].
  unfold NetParser.u8, NetParser.u16, NetParser.u32. repeat parse_any.
  eexists (IPv4Header.mk _ _ _ _ _ _ _ _ _ _ _ _ _), _. split; [reflexivity |].
  match goal with Ha : ahead _ _ |- _ => rewrite !drop_drop in Ha; split; [exact Ha |] end.
  cbn [IPv4Header.hlen IPv4Header.len IPv4Header.src IPv4Header.dst]. split; [| done].
  match goal with |- 0 <= ?x < 16 => change x with (Z.land v (Z.ones 4)) end.
  rewrite Z.land_ones by lia. apply Z.mod_pos_bound. lia.
Qed.

(** The checks in front of the options, once passed. *)
Lemma checks_passed s h p :
  ahead p (drop 20 s) -> IPv4Header.ver h = 4 -> 5 <= IPv4Header.hlen h < 16 ->
  Zlen s = IPv4Header.len h -> 4 * IPv4Header.hlen h <= Zlen s ->
  exists p', ahead p' (drop (Z.to_nat (4 * IPv4Header.hlen h)) s) /\
    checks s h p =
      Ret (if negb (cksum_of (take (Z.to_nat (4 * IPv4Header.hlen h)) s) =? 0) then BadChecksum else NoError, h, p').
Proof.
  intros Ha Hv Hh Hl Hs. unfold checks. rewrite Hv, Hl, !Z.eqb_refl. cbn [negb].
  case_cmp; [lia |]. case_cmp; [lia |]. rewrite u64_small by lia.
  set (n := IPv4Header.hlen h * 4 - 20).
  rewrite <- (take_drop (Z.to_nat n) (drop 20 s)) in Ha.
  destruct (remove_prefix_ahead p n _ _ Ha) as (p' & -> & Ha').
  { rewrite Zlen_take, Zlen_drop. lia. }
  cbn [mbind outcome_bind]. rewrite (ahead_error _ _ Ha'). exists p'. split.
  - rewrite drop_drop in Ha'. by replace (Z.to_nat (4 * IPv4Header.hlen h)) with (20 + Z.to_nat n)%nat by lia.
  - by destruct (cksum_of _ =? 0).
Qed.

(** [BadChecksum] comes after every other check. *)
Lemma checks_bad_checksum s h p h' p' :
  ahead p (drop 20 s) -> IPv4Header.hlen h < 16 -> checks s h p = Ret (BadChecksum, h', p') ->
  h' = h /\ 5 <= IPv4Header.hlen h /\ Zlen s = IPv4Header.len h /\
  4 * IPv4Header.hlen h <= Zlen s /\ ahead p' (drop (Z.to_nat (4 * IPv4Header.hlen h)) s).
Proof.
  intros Ha Hh Hc. pose proof Hc as Hc'. unfold checks in Hc'.
  destruct (Z.ltb_spec (Zlen s) (4 * IPv4Header.hlen h)); [done |].
  destruct (Z.eqb_spec (IPv4Header.ver h) 4); [| done]. cbn [negb] in Hc'.
  destruct (Z.ltb_spec (IPv4Header.hlen h) 5); [done |].
  destruct (Z.eqb_spec (Zlen s) (IPv4Header.len h)); [| done].
  destruct (checks_passed s h p) as (p2 & Ha2 & Heq); [done | done | lia | done | done |].
  rewrite Heq in Hc. destruct (cksum_of _ =? 0); [done |]. cbn [negb] in Hc. injection Hc as <- <-. done.
Qed.

Lemma ip_parse_short h0 b :
  Buffer.size b < 20 -> IPv4Header.parse h0 (NetParser.make b) = Ret (PacketTooShort, h0, NetParser.make b).
Proof. intros Hs. unfold IPv4Header.parse, IPv4Header.LENGTH. cbn. case_cmp; [done | lia]. Qed.

(** A datagram whose header checksum is wrong is accepted: when the
    header's parser reports [BadChecksum], the datagram's parser drops the
    report and returns [NoError] with the corrupted header. *)
Theorem datagram_accepts_bad_checksum (b : Buffer.t) (d : IPv4Datagram.t)
    (h : IPv4Header.t) (p' : NetParser.t) :
  Buffer.wf b ->
  IPv4Header.parse (IPv4Datagram.header d) (NetParser.make b) = Ret (BadChecksum, h, p') ->
  IPv4Datagram.parse b d = Ret (NoError, IPv4Datagram.mk h (BufferList.of_buffer (NetParser.buffer p'))).
Proof.
  intros Hwf Hp. unfold IPv4Datagram.parse. unfold IPv4Datagram.header in Hp. rewrite Hp.
  cbn [mbind outcome_bind].
  destruct (Z.lt_ge_cases (Buffer.size b) 20) as [Hs | Hs]; [by rewrite ip_parse_short in Hp |].
  destruct (ip_parse_long (IPv4Datagram._header d) (NetParser.make b) (Buffer.str b))
    as (h1 & p1 & Heq & Ha & Hh & Hl); [done | done |].
  rewrite Heq in Hp. apply checks_bad_checksum in Hp as (-> & Hlo & Hlen & Hle & (_ & He & Hs')); [| done | lia].
  unfold in_bits in Hl.
  assert (Hpl : Zlen (Buffer.str (NetParser.buffer p')) = IPv4Header.len h1 - 4 * IPv4Header.hlen h1)
    by (unfold NetParser.buffer; rewrite Hs', Zlen_drop; lia).
  rewrite BufferList.size_concatenate; cbn [BufferList.of_buffer BufferList.concatenate]; rewrite app_nil_r, Hpl; [| lia].
  unfold IPv4Header.payload_length. rewrite u16_small by lia. rewrite Z.eqb_refl. cbn [negb].
  unfold NetParser.get_error. by rewrite He.
Qed.

(** A header of zeros apart from its first byte and its length: checksum 0
    where 0xbae7 is due. *)
Definition bad_checksum_bytes : bytes := [Byte.x45; Byte.x00; Byte.x00; Byte.x15] ++ replicate 17 Byte.x00.

Lemma datagram_accepts_bad_checksum_witness :
  exists d, IPv4Datagram.parse (Buffer.of_string bad_checksum_bytes) IPv4Datagram.default_ = Ret (NoError, d) /\
    cksum_of (take 20 bad_checksum_bytes) <> 0.
Proof.
  eexists. split.
  - eapply datagram_accepts_bad_checksum; [vm_compute; intuition congruence | vm_compute; reflexivity].
  - vm_compute. congruence.
Defined.

(** Parsing a datagram returns on every input. *)
(** The addresses of a header are 32-bit values. *)
Definition addressed (h : IPv4Header.t) : Prop := in_bits 32 (IPv4Header.src h) /\ in_bits 32 (IPv4Header.dst h).

Lemma ip_parse_total h0 b :
  Buffer.wf b -> addressed h0 ->
  exists r h p', IPv4Header.parse h0 (NetParser.make b) = Ret (r, h, p') /\ addressed h /\ Buffer.wf (NetParser._buffer p').
Proof.
  intros Hwf H0. destruct (Z.lt_ge_cases (Buffer.size b) 20) as [Hs | Hs].
  { rewrite ip_parse_short by done. by eexists _, _, _. }
  destruct (ip_parse_long h0 (NetParser.make b) (Buffer.str b)) as (h & p1 & -> & [Hw _] & _ & _ & Hadd); [done | done |].
  unfold checks. do 4 (match goal with |- context [if ?c then _ else _] => destruct c; [by eexists _, _, _ |] end).
  destruct (remove_prefix_total (u64 (IPv4Header.hlen h * 4 - 20)) p1) as (p2 & -> & Hw2); [done | apply u64_range |].
  cbn [mbind outcome_bind]. destruct (NetParser.error p2); [by eexists _, _, _ |]. destruct (negb _); by eexists _, _, _.
Qed.

(** [parse] returns on every input, with one buffer for the payload. *)
Lemma datagram_parse_total b d :
  Buffer.wf b -> addressed (IPv4Datagram.header d) ->
  exists r d' b', IPv4Datagram.parse b d = Ret (r, d') /\ IPv4Datagram.payload d' = [b'] /\ Buffer.wf b' /\
    addressed (IPv4Datagram.header d').
Proof.
  intros Hwf Hd. unfold IPv4Datagram.parse, IPv4Datagram.header in *. destruct (ip_parse_total _ b Hwf Hd) as (r & h & p' & -> & Hh & Hw).
  cbn [mbind outcome_bind]. destruct (negb _); by eexists _, _, _.
Qed.

End IPv4Facts.
