(* ===== verification/tcp_receiver.v ===== *)
(** * libsponge/tcp_receiver.{hh,cc}: from segments to the inbound stream

    [TCPReceiver] finds the place of each segment in the stream with
    [unwrap] and hands its payload to the reassembler; it answers with the
    acknowledgement number and the window.  The facts are about a peer that
    sends segments of one stream [Str] of [L] bytes, numbered from [isn]. *)

From S2P Require Import Prelude byte_stream wrapping_integers stream_reassembler stream_reassembler_proofs buffer tcp_segment.

Module TCPReceiver.

Record t := mk {
  _reassembler : StreamReassembler.t;
  _capacity : Z;
  isn : WrappingInt32.t;
  syned : bool;
}.

Definition make (capacity : Z) : t :=
  mk (StreamReassembler.make capacity) capacity (WrappingInt32.of_u32 0) false.

Definition stream_out (r : t) : ByteStream.t := StreamReassembler.stream_out (_reassembler r).
Definition unassembled_bytes (r : t) : Z := StreamReassembler.unassembled_bytes (_reassembler r).

(** The stream index of the payload, [None] for a segment on the number of
    the SYN. *)
Definition index_of (h : TCPHeader.t) (r : t) : outcome (option Z) :=
  if TCPHeader.syn h then Ret (Some 0)
  else
    a ← WrappingInt32.unwrap (TCPHeader.seqno h) (isn r) (ByteStream.bytes_written (stream_out r));
    if a =? 0 then Ret None
    else
      a ← WrappingInt32.unwrap (TCPHeader.seqno h) (isn r) (ByteStream.bytes_written (stream_out r));
      Ret (Some (u64 (a - 1))).

Definition segment_received (seg : TCPSegment.t) (r : t) : outcome t :=
  let h := TCPSegment.header seg in
  if negb (syned r) && negb (TCPHeader.syn h) then Ret r
  else
    let r := if TCPHeader.syn h then mk (_reassembler r) (_capacity r) (TCPHeader.seqno h) true
             else r in
    let f := TCPHeader.fin h in
    idx ← index_of h r;
    match idx with
    | None => Ret r
    | Some idx =>
        ra ← StreamReassembler.push_substring (Buffer.copy (TCPSegment.payload seg)) idx f (_reassembler r);
        Ret (mk ra (_capacity r) (isn r) (syned r))
    end.

Definition ackno (r : t) : option WrappingInt32.t :=
  if negb (syned r) then None
  else
    let ack := u64 (ByteStream.bytes_written (stream_out r) + 1) in
    let ack := if ByteStream.input_ended (stream_out r) then u64 (ack + 1) else ack in
    Some (WrappingInt32.wrap ack (isn r)).

Definition window_size (r : t) : Z := ByteStream.remaining_capacity (stream_out r).

(** The owner works on the inbound stream in place through [stream_out()]. *)
Definition with_stream (out : ByteStream.t) (r : t) : t :=
  mk (StreamReassembler.with_output out (_reassembler r)) (_capacity r) (isn r) (syned r).

End TCPReceiver.

Module ReceiverFacts.
Import ReassemblerFacts TCPReceiver.

Section Peer.
Context (Str : Z -> byte) (cp : nat) (L : Z) (isn0 : WrappingInt32.t).
Hypothesis isn_range : in_bits 32 isn0.
Hypothesis bounds : 0 <= L /\ L + Z.of_nat cp + 2 < 2 ^ 31.

(** The absolute number of a segment of the peer and the place of its
    payload in the stream; a segment on the number of the SYN that is not
    the SYN carries nothing. *)
Definition abs_seqno (seg : TCPSegment.t) : Z :=
  WrappingFacts.base (TCPHeader.seqno (TCPSegment.header seg)) isn0.
Definition place (seg : TCPSegment.t) : option Z :=
  if TCPHeader.syn (TCPSegment.header seg) then Some 0
  else if abs_seqno seg =? 0 then None else Some (abs_seqno seg - 1).

(** The fields the receiver and the sender read, within their types. *)
Definition typed (h : TCPHeader.t) : Prop :=
  in_bits 32 (TCPHeader.seqno h) /\ in_bits 32 (TCPHeader.ackno h) /\ in_bits 16 (TCPHeader.win h).

(** A segment without payload or FIN (an acknowledgement): its number may be
    the one after the FIN. *)
Definition bare (seg : TCPSegment.t) : Prop :=
  Buffer.str (TCPSegment.payload seg) = [] /\ TCPHeader.fin (TCPSegment.header seg) = false.

Definition genuine_segment (seg : TCPSegment.t) : Prop :=
  typed (TCPSegment.header seg) /\
  (TCPHeader.syn (TCPSegment.header seg) = true -> abs_seqno seg = 0) /\
  (forall i, place seg = Some i ->
     genuine Str L (Buffer.str (TCPSegment.payload seg)) i (TCPHeader.fin (TCPSegment.header seg)) \/
     bare seg /\ 0 <= i <= L + 1).

Definition carries (seg : TCPSegment.t) (i : Z) : Prop :=
  exists k, place seg = Some k /\ k <= i < k + Zlen (Buffer.str (TCPSegment.payload seg)).

Record rcv_inv (r : t) (a : ByteStreamSpec.t) : Prop := {
  rcv_syned : syned r = true;
  rcv_isn : isn r = isn0;
  rcv_reas : InvL Str cp L (_reassembler r) a;
}.

Lemma L_bounds : 0 <= L /\ L + Z.of_nat cp < 2 ^ 31.
Proof. lia. Qed.
#[local] Hint Resolve L_bounds : core.

Lemma invl_written ra a :
  InvL Str cp L ra a ->
  ByteStream.bytes_written (StreamReassembler.stream_out ra) = Zlen (ByteStreamSpec.hist a) /\
  0 <= Zlen (ByteStreamSpec.hist a) <= L.
Proof.
  intros Hi. split; [apply (inv_written Str), Hi |].
  split; [apply Zlen_nonneg | eapply invl_hist; eauto].
Qed.

Lemma index_of_genuine r a seg :
  rcv_inv r a -> genuine_segment seg -> index_of (TCPSegment.header seg) r = Ret (place seg).
Proof.
  intros [_ Hisn Hi] ((Hseq & _) & Hsyn & Hg). unfold index_of, place in *.
  destruct (TCPHeader.syn _); [done |].
  destruct (invl_written _ _ Hi) as (Hbw & Hw). unfold stream_out. rewrite Hbw, Hisn.
  pose proof (WrappingFacts.base_range (TCPHeader.seqno (TCPSegment.header seg)) isn0) as Hr.
  assert (Hle : abs_seqno seg <= L + 2).
  { destruct (Z.eqb_spec (abs_seqno seg) 0); [lia |]. destruct (Hg _ eq_refl) as [(_ & ? & _) | [_ ?]]; [| lia].
    pose proof (Zlen_nonneg (Buffer.str (TCPSegment.payload seg))). lia. }
  pose proof (WrappingFacts.wrap_cand _ isn0 0 Hseq) as Hwc. fold (abs_seqno seg) in *.
  rewrite Z.mul_0_r, Z.add_0_r in Hwc. fold (abs_seqno seg) in Hwc.
  rewrite <- Hwc, WrappingFacts.unwrap_wrap_near by (unfold in_bits in *; lia).
  cbn [mbind outcome_bind]. destruct (Z.eqb_spec (abs_seqno seg) 0); [done |].
  by rewrite u64_small by lia.
Qed.

Lemma carries_some seg k i :
  place seg = Some k ->
  carries seg i <-> k <= i < k + Zlen (Buffer.str (TCPSegment.payload seg)).
Proof.
  intros Hp. split; [| intros Hi; by exists k]. intros (k' & Hp' & Hi). by simplify_eq.
Qed.

Lemma carries_none seg i : place seg = None -> carries seg i <-> False.
Proof. intros Hp. split; [| done]. intros (k & Hp' & _). by simplify_eq. Qed.

(** A segment of the peer, received by a connection past its SYN or being
    the SYN: accepted, and the bytes known grow by those it carries inside
    the window. *)
Lemma receive_genuine r a seg :
  InvL Str cp L (_reassembler r) a -> genuine_segment seg ->
  (rcv_inv r a \/ TCPHeader.syn (TCPSegment.header seg) = true) ->
  exists r' a', segment_received seg r = Ret r' /\ rcv_inv r' a' /\
    ByteStreamSpec.nread a' = ByteStreamSpec.nread a /\
    StreamReassembler.endIdx (_reassembler r') =
      (if TCPHeader.fin (TCPSegment.header seg) && bool_decide (place seg <> None)
       then L else StreamReassembler.endIdx (_reassembler r)) /\
    (forall i, 0 <= i -> known (_reassembler r') a' i <->
       known (_reassembler r) a i \/ carries seg i /\ i < window_end (_reassembler r) a).
Proof.
  intros Hi Hg Hs. unfold segment_received.
  set (r1 := if TCPHeader.syn _ then _ else r).
  assert (Hr1 : rcv_inv r1 a /\ _reassembler r1 = _reassembler r).
  { unfold r1. destruct (TCPHeader.syn _) eqn:Esyn.
    - split; [| done]. constructor; [done | | done]. cbn.
      destruct Hg as ((Hseq & _) & Habs & _). specialize (Habs Esyn).
      pose proof (WrappingFacts.wrap_cand _ isn0 0 Hseq) as Hwc. fold (abs_seqno seg) in Hwc.
      rewrite Habs, WrappingFacts.wrap_spec in Hwc. cbn in Hwc. rewrite <- Hwc.
      apply Z.mod_small. exact isn_range.
    - destruct Hs; [by split | done]. }
  clearbody r1. destruct Hr1 as (Hr1 & Heq).
  replace (negb (syned r) && _) with false.
  2: { symmetry. apply andb_false_iff. destruct Hs as [Hs | ->]; [left; by rewrite (rcv_syned _ _ Hs) | by right]. }
  rewrite (index_of_genuine _ _ _ Hr1 Hg). cbn [mbind outcome_bind].
  destruct Hr1 as [H1 H2 H3]. destruct (place seg) as [k|] eqn:Ep.
  - destruct Hg as (_ & _ & Hg). specialize (Hg k Ep). destruct Hg as [Hg | [[Hp Hf] _]]; cycle 1.
    { unfold Buffer.copy. rewrite Hp, Hf, (invl_push_empty Str cp L L_bounds _ a) by done. cbn [mbind outcome_bind].
      eexists _, a. split_and!; [reflexivity | by constructor | done | cbn; by rewrite Heq |].
      intros i _. cbn [_reassembler]. rewrite Heq, (carries_some _ k), Hp by done. zlen. intuition lia. }
    destruct (invl_push Str cp L L_bounds _ _ _ _ _ H3 Hg) as (ra & a' & Hp & Hi' & Hn & He & Hk).
    unfold Buffer.copy. rewrite Hp. cbn [mbind outcome_bind]. eexists _, a'.
    split_and!; [reflexivity | by constructor | done | cbn [_reassembler]; rewrite He, Heq | ].
    + by rewrite bool_decide_true, andb_true_r by done.
    + intros i Hi0. cbn [_reassembler]. rewrite Hk, Heq, (carries_some _ k) by done. done.
  - exists r1, a. split_and!; [done | by constructor | done | | ].
    + by rewrite bool_decide_false, andb_false_r, Heq by tauto.
    + intros i _. rewrite Heq, carries_none by done. tauto.
Qed.

(** ** Whole runs *)

Inductive rcv_reachable : t -> Prop :=
| rcv_make : rcv_reachable (make (Z.of_nat cp))
| rcv_segment r r' seg :
    rcv_reachable r -> genuine_segment seg -> segment_received seg r = Ret r' -> rcv_reachable r'
| rcv_read r len d out :
    rcv_reachable r -> in_bits 64 len -> ByteStream.read len (stream_out r) = Ret (d, out) ->
    rcv_reachable (with_stream out r)
| rcv_error r :
    rcv_reachable r -> rcv_reachable (with_stream (ByteStream.set_error (stream_out r)) r).

Lemma listening_ignores r seg :
  syned r = false -> TCPHeader.syn (TCPSegment.header seg) = false -> segment_received seg r = Ret r.
Proof. intros H1 H2. unfold segment_received. by rewrite H1, H2. Qed.

(** The invariant of a receiver, before or after the SYN. *)
Definition rcv_ok (r : t) : Prop :=
  exists a, InvL Str cp L (_reassembler r) a /\ (syned r = false \/ rcv_inv r a).

Lemma rcv_ok_make : rcv_ok (make (Z.of_nat cp)).
Proof.
  destruct (reachable_inv Str cp L L_bounds _ (reach_make Str cp L)) as (a & Ha). exists a. by split; [| left].
Qed.

Lemma rcv_ok_segment r seg :
  rcv_ok r -> genuine_segment seg -> exists r', segment_received seg r = Ret r' /\ rcv_ok r'.
Proof.
  intros (a & Hi & Hs) Hg. destruct (TCPHeader.syn (TCPSegment.header seg)) eqn:Esyn; [| destruct Hs as [Hs | Hs]].
  2: { exists r. split; [by apply listening_ignores |]. exists a. by split; [| left]. }
  all: destruct (receive_genuine r a seg Hi Hg) as (r1 & a1 & Hr1 & Hi1 & _); [tauto |];
    exists r1; (split; [done |]); exists a1; (split; [apply Hi1 | by right]).
Qed.

Lemma rcv_ok_read r len :
  rcv_ok r -> in_bits 64 len ->
  exists d out, ByteStream.read len (stream_out r) = Ret (d, out) /\ rcv_ok (with_stream out r).
Proof.
  intros (a & Hi & Hs) Hl. destruct (invl_read Str cp L L_bounds _ a len Hi Hl) as (d & out & a1 & Hr & Hi1 & _).
  exists d, out. split; [done |]. exists a1. split; [done |].
  destruct Hs as [Hs | [? ? _]]; [by left | right; by constructor].
Qed.

Lemma rcv_ok_error r : rcv_ok r -> rcv_ok (with_stream (ByteStream.set_error (stream_out r)) r).
Proof.
  intros (a & Hi & Hs). eexists. split; [by apply invl_set_error |].
  destruct Hs as [Hs | [? ? _]]; [by left | right; constructor; [done | done | by apply invl_set_error]].
Qed.

Lemma rcv_reachable_ok r : rcv_reachable r -> rcv_ok r.
Proof.
  induction 1 as [| r r' seg _ IH Hg Hr | r len d out _ IH Hl Hr | r _ IH].
  - apply rcv_ok_make.
  - destruct (rcv_ok_segment r seg IH Hg) as (r1 & Hr1 & ?). rewrite Hr in Hr1. by injection Hr1 as <-.
  - destruct (rcv_ok_read r len IH Hl) as (d1 & out1 & Hr1 & ?). rewrite Hr in Hr1. by injection Hr1 as <- <-.
  - by apply rcv_ok_error.
Qed.

Lemma ackno_eq r a :
  rcv_inv r a ->
  ackno r = Some (WrappingInt32.wrap
    (Zlen (ByteStreamSpec.hist a) + 1 + (if ByteStreamSpec.ended a then 1 else 0)) isn0).
Proof.
  intros [H1 H2 H3]. unfold ackno. rewrite H1, H2. cbn [negb].
  destruct (invl_written _ _ H3) as (Hbw & Hw). unfold stream_out. rewrite Hbw.
  rewrite (u64_small (Zlen (ByteStreamSpec.hist a) + 1)) by lia. unfold ByteStream.input_ended, StreamReassembler.stream_out.
  rewrite (ByteStreamFacts.repr_ended _ _ (inv_repr _ _ _ (invl_inv _ _ _ _ _ H3))).
  destruct (ByteStreamSpec.ended a); [by rewrite u64_small by lia | by rewrite Z.add_0_r].
Qed.

Lemma window_size_eq r a :
  InvL Str cp L (_reassembler r) a ->
  Zlen (ByteStreamSpec.hist a) + window_size r = Z.of_nat (ByteStreamSpec.nread a) + Z.of_nat cp /\
  0 <= window_size r.
Proof.
  intros Hi. pose proof (invl_inv _ _ _ _ _ Hi) as I. pose proof (inv_repr _ _ _ I) as Hr.
  unfold window_size, stream_out, StreamReassembler.stream_out. rewrite (ByteStreamFacts.repr_room _ _ Hr).
  unfold ByteStreamSpec.room, ByteStreamSpec.unread. pose proof (inv_cap _ _ _ I).
  pose proof (invl_cap _ _ _ _ _ Hi). destruct (ByteStreamFacts.repr_wf _ _ Hr).
  unfold Zlen. rewrite length_drop. lia.
Qed.

Fixpoint receive_all (segs : list TCPSegment.t) (r : t) : outcome t :=
  match segs with
  | [] => Ret r
  | seg :: segs => r ← segment_received seg r; receive_all segs r
  end.

Definition ends_stream (seg : TCPSegment.t) : Prop :=
  TCPHeader.fin (TCPSegment.header seg) = true /\ place seg <> None.

Lemma receive_all_inv segs : forall r a,
  rcv_inv r a -> L <= window_end (_reassembler r) a -> Forall genuine_segment segs ->
  exists r' a', receive_all segs r = Ret r' /\ rcv_inv r' a' /\
    ByteStreamSpec.nread a' = ByteStreamSpec.nread a /\
    (StreamReassembler.endIdx (_reassembler r) = L \/ Exists ends_stream segs ->
       StreamReassembler.endIdx (_reassembler r') = L) /\
    (forall i, 0 <= i < L -> known (_reassembler r) a i \/ Exists (fun seg => carries seg i) segs ->
       known (_reassembler r') a' i).
Proof.
  induction segs as [|seg segs IH]; intros r a Hi Hw Hg.
  { exists r, a. split_and!; try done; [| intros i _]; rewrite Exists_nil; tauto. }
  inversion Hg as [| ? ? Hg1 Hg2]; subst.
  destruct (receive_genuine r a seg (rcv_reas _ _ Hi) Hg1 (or_introl Hi))
    as (r1 & a1 & Hr1 & Hi1 & Hn1 & He1 & Hk1).
  destruct (IH r1 a1 Hi1) as (r2 & a2 & Hr2 & Hi2 & Hn2 & He2 & Hk2); [| done |].
  { unfold window_end in *. rewrite Hn1. pose proof (invl_cap _ _ _ _ _ (rcv_reas _ _ Hi)).
    pose proof (invl_cap _ _ _ _ _ (rcv_reas _ _ Hi1)). lia. }
  exists r2, a2. cbn [receive_all]. rewrite Hr1. cbn [mbind outcome_bind].
  split_and!; [done | done | congruence | |].
  - intros He. apply He2. rewrite Exists_cons in He. rewrite He1.
    destruct (TCPHeader.fin _) eqn:Ef; [| unfold ends_stream in He; rewrite Ef in He; cbn [andb]; intuition congruence].
    destruct (decide (place seg = None)) as [Hp | Hp].
    + rewrite bool_decide_false by tauto. unfold ends_stream in He. cbn. tauto.
    + rewrite bool_decide_true by done. by left.
  - intros i Hi0 Hk. apply Hk2; [done |]. rewrite Hk1 by lia. rewrite Exists_cons in Hk.
    destruct Hk as [Hk | [Hk | Hk]]; [by left; left | left; right | by right]. split; [done | lia].
Qed.

Lemma receive_all_early early segs r :
  syned r = false -> Forall (fun seg => TCPHeader.syn (TCPSegment.header seg) = false) early ->
  receive_all (early ++ segs) r = receive_all segs r.
Proof.
  intros Hr. induction 1 as [|seg early Hs _ IH]; [done |].
  cbn [app receive_all]. by rewrite listening_ignores.
Qed.

(** The SYN, then the rest. *)
Lemma receive_all_syn syn segs :
  L <= Z.of_nat cp -> TCPHeader.syn (TCPSegment.header syn) = true ->
  Forall genuine_segment (syn :: segs) ->
  exists r a, receive_all (syn :: segs) (make (Z.of_nat cp)) = Ret r /\ rcv_inv r a /\
    ByteStreamSpec.nread a = O /\
    (Exists ends_stream (syn :: segs) -> StreamReassembler.endIdx (_reassembler r) = L) /\
    (forall i, 0 <= i < L -> Exists (fun seg => carries seg i) (syn :: segs) -> known (_reassembler r) a i).
Proof.
  intros HL Hs Hg. inversion Hg as [| ? ? Hg1 Hg2]; subst.
  destruct (reachable_inv Str cp L L_bounds _ (reach_make Str cp L)) as (a0 & I0).
  pose proof (inv_read _ _ _ (invl_inv _ _ _ _ _ I0)) as Hn0.
  change (0 = Z.of_nat (ByteStreamSpec.nread a0)) in Hn0.
  destruct (receive_genuine (make (Z.of_nat cp)) a0 syn I0 Hg1 (or_intror Hs))
    as (r1 & a1 & Hr1 & Hi1 & Hn1 & He1 & Hk1).
  destruct (receive_all_inv segs r1 a1 Hi1) as (r & a & Hr & Hi & Hn & He & Hk); [| done |].
  { unfold window_end. pose proof (invl_cap _ _ _ _ _ (rcv_reas _ _ Hi1)). lia. }
  exists r, a. cbn [receive_all]. rewrite Hr1. split_and!; [done | done | lia | |].
  - intros [[Hf Hp] | Hex]%Exists_cons; apply He; [left | by right].
    by rewrite He1, Hf, bool_decide_true by done.
  - intros i Hi0 [Hc | Hex]%Exists_cons; apply Hk; [done | left | done | by right].
    apply Hk1; [lia |]. right. split; [done |]. unfold window_end. cbn. lia.
Qed.

End Peer.

(** C5: whatever segments of the peer's stream arrive, and whatever is read
    in between, the inbound stream holds a prefix [W] of the peer's stream;
    once the SYN has arrived, [ackno] is the first number not yet received
    (counting SYN and FIN), [ackno + window_size] is [cp] past what was read,
    and every further segment of the peer is accepted. *)
Theorem receiver_safe (Str : Z -> byte) (cp : nat) (L : Z) (isn0 : WrappingInt32.t) (r : t) :
  in_bits 32 isn0 -> 0 <= L /\ L + Z.of_nat cp + 2 < 2 ^ 31 ->
  rcv_reachable Str cp L isn0 r ->
  exists W, agrees Str 0 W /\
    ByteStream.buffer (stream_out r) = drop (Z.to_nat (ByteStream.bytes_read (stream_out r))) W /\
    Zlen W + window_size r = ByteStream.bytes_read (stream_out r) + Z.of_nat cp /\
    ~ stored (StreamReassembler.m (_reassembler r)) (Zlen W) /\
    (ByteStream.input_ended (stream_out r) = true -> Zlen W = L) /\
    ackno r = (if syned r then Some (WrappingInt32.wrap
      (Zlen W + 1 + (if ByteStream.input_ended (stream_out r) then 1 else 0)) isn0) else None) /\
    (forall seg, genuine_segment Str L isn0 seg -> exists r', segment_received seg r = Ret r').
Proof.
  intros Hisn Hb Hr. destruct (rcv_reachable_ok Str cp L isn0 Hisn Hb r Hr) as (a & Hi & Hs).
  pose proof (invl_inv _ _ _ _ _ Hi) as I. pose proof (inv_repr _ _ _ I) as Hrep.
  exists (ByteStreamSpec.hist a). unfold stream_out, StreamReassembler.stream_out, ByteStream.input_ended.
  rewrite (inv_read _ _ _ I), (ByteStreamFacts.repr_ended _ _ Hrep), (ByteStreamFacts.repr_buffer _ _ Hrep).
  rewrite Nat2Z.id. split_and!; [apply I | done | | | | |].
  - by apply (window_size_eq Str cp L).
  - intros Hst. apply (chain_stored_ge _ _ _ _ _ (inv_chain _ _ _ I)) in Hst. lia.
  - intros He. by apply (invl_ended _ _ _ _ _ Hi).
  - destruct Hs as [Hs | Hs]; [unfold ackno; by rewrite Hs |].
    rewrite (rcv_syned _ _ _ _ _ _ Hs). by apply (ackno_eq Str cp L).
  - intros seg Hg. destruct Hs as [Hs | Hs], (TCPHeader.syn (TCPSegment.header seg)) eqn:Es.
    2: { exists r. by apply listening_ignores. }
    all: destruct (receive_genuine Str cp L isn0 Hisn Hb r a seg Hi Hg) as (r' & ? & ? & _); [tauto | by exists r'].
Qed.

Lemma deliver_all (Str : Z -> byte) (cp : nat) (L : Z) (isn0 : WrappingInt32.t)
    (segs : list TCPSegment.t) (syn : TCPSegment.t) :
  in_bits 32 isn0 -> 0 <= L /\ L + Z.of_nat cp + 2 < 2 ^ 31 -> L <= Z.of_nat cp ->
  TCPHeader.syn (TCPSegment.header syn) = true ->
  Forall (genuine_segment Str L isn0) (syn :: segs) ->
  Exists (ends_stream isn0) (syn :: segs) ->
  (forall i, 0 <= i < L -> Exists (fun seg => carries isn0 seg i) (syn :: segs)) ->
  exists r, receive_all (syn :: segs) (make (Z.of_nat cp)) = Ret r /\
    Zlen (ByteStream.buffer (stream_out r)) = L /\ agrees Str 0 (ByteStream.buffer (stream_out r)) /\
    ByteStream.input_ended (stream_out r) = true /\
    ackno r = Some (WrappingInt32.wrap (L + 2) isn0) /\ window_size r = Z.of_nat cp - L.
Proof.
  intros Hisn Hb HL Hs Hg Hend Hc.
  destruct (receive_all_syn Str cp L isn0 Hisn Hb syn segs HL Hs Hg) as (r & a & -> & Hi & Hn & Hei & Hk).
  pose proof (rcv_reas _ _ _ _ _ _ Hi) as Hl. pose proof (invl_inv _ _ _ _ _ Hl) as I.
  pose proof (inv_repr _ _ _ I) as Hrep.
  assert (Hfull : Zlen (ByteStreamSpec.hist a) = L).
  { pose proof (invl_hist Str cp L (L_bounds cp L Hb) _ _ Hl). enough (L <= Zlen (ByteStreamSpec.hist a)) by lia.
    apply (inv_maximal Str (_reassembler r) a); [done | lia |]. intros i Hi0. apply Hk; auto. }
  assert (Hended : ByteStreamSpec.ended a = true) by (apply (invl_ended _ _ _ _ _ Hl); auto).
  assert (Hbuf : ByteStream.buffer (stream_out r) = ByteStreamSpec.hist a).
  { unfold stream_out, StreamReassembler.stream_out. rewrite (ByteStreamFacts.repr_buffer _ _ Hrep).
    unfold ByteStreamSpec.unread. rewrite Hn. apply drop_0. }
  exists r. rewrite Hbuf. split_and!; [done | done | apply I | | |].
  - unfold stream_out, StreamReassembler.stream_out, ByteStream.input_ended.
    by rewrite (ByteStreamFacts.repr_ended _ _ Hrep).
  - rewrite (ackno_eq Str cp L isn0 Hb _ _ Hi), Hfull, Hended. do 2 f_equal. lia.
  - destruct (window_size_eq Str cp L r a Hl). lia.
Qed.

(** End to end: once the SYN has arrived, segments that together carry
    the whole stream and its FIN, in any order, duplicated or overlapping,
    deliver exactly the stream, end it, and are acknowledged up to and
    including the FIN; whatever non-SYN segments came before. *)
Theorem receiver_delivers (Str : Z -> byte) (cp : nat) (L : Z) (isn0 : WrappingInt32.t)
    (early segs : list TCPSegment.t) (syn : TCPSegment.t) :
  in_bits 32 isn0 -> 0 <= L /\ L + Z.of_nat cp + 2 < 2 ^ 31 -> L <= Z.of_nat cp ->
  Forall (fun seg => TCPHeader.syn (TCPSegment.header seg) = false) early ->
  TCPHeader.syn (TCPSegment.header syn) = true ->
  Forall (genuine_segment Str L isn0) (syn :: segs) ->
  Exists (ends_stream isn0) (syn :: segs) ->
  (forall i, 0 <= i < L -> Exists (fun seg => carries isn0 seg i) (syn :: segs)) ->
  exists r, receive_all (early ++ syn :: segs) (make (Z.of_nat cp)) = Ret r /\
    Zlen (ByteStream.buffer (stream_out r)) = L /\ agrees Str 0 (ByteStream.buffer (stream_out r)) /\
    ByteStream.input_ended (stream_out r) = true /\
    ackno r = Some (WrappingInt32.wrap (L + 2) isn0) /\ window_size r = Z.of_nat cp - L.
Proof. intros Hisn Hb HL He. rewrite receive_all_early by done. by apply deliver_all. Qed.

(** ** Two gibibytes

    [bytes_written] is an [int] widened to [size_t]: after 2^31 bytes the
    checkpoint given to [unwrap] is close to 2^64. *)


(** ** Instances: the stream "abc" from 2^32 - 1, so that numbers wrap. *)

Definition a_segment (seqno : Z) (syn fin : bool) (payload : bytes) : TCPSegment.t :=
  TCPSegment.mk (TCPHeader.set_fin fin (TCPHeader.set_syn syn
                   (TCPHeader.set_seqno seqno TCPHeader.default_))) (Buffer.of_string payload).

Definition syn_segment : TCPSegment.t := a_segment (2 ^ 32 - 1) true false [].
Definition late_segment : TCPSegment.t := a_segment 1 false true [Byte.x62; Byte.x63].
Definition first_segment : TCPSegment.t := a_segment 0 false false [Byte.x61; Byte.x62].

Lemma sample_genuine seg :
  seg ∈ [syn_segment; late_segment; first_segment] -> genuine_segment sample 3 (2 ^ 32 - 1) seg.
Proof.
  rewrite !elem_of_cons, elem_of_nil. intros [-> | [-> | [-> | []]]];
    (split; [vm_compute; intuition congruence |]; split; [vm_compute; congruence |]);
    intros i [= <-]; left; (split_and!; [vm_compute; congruence | vm_compute; congruence | | vm_compute; congruence]);
    vm_compute Buffer.str; solve_agrees.
Defined.

Lemma receiver_safe_witness :
  exists r, segment_received syn_segment (make 8) = Ret r /\ ackno r = Some 0 /\
    exists r', segment_received late_segment r = Ret r'.
Proof.
  destruct (segment_received syn_segment (make 8)) as [r | |] eqn:Hr; [| vm_compute in Hr; congruence ..].
  destruct (receiver_safe sample 8 3 (2 ^ 32 - 1) r) as (W & _ & _ & _ & _ & _ & _ & Hacc).
  - unfold in_bits. lia.
  - lia.
  - eapply rcv_segment; [apply rcv_make | apply (sample_genuine syn_segment) | exact Hr]. by left.
  - exists r. split; [done |]. split.
    + vm_compute in Hr. injection Hr as <-. reflexivity.
    + apply Hacc, sample_genuine. right. by left.
Defined.

Lemma receiver_delivers_witness :
  exists r, receive_all ([first_segment] ++ [syn_segment; late_segment; first_segment]) (make 8) = Ret r /\
    Zlen (ByteStream.buffer (stream_out r)) = 3 /\ ByteStream.input_ended (stream_out r) = true /\
    ackno r = Some 4.
Proof.
  destruct (receiver_delivers sample 8 3 (2 ^ 32 - 1) [first_segment] [late_segment; first_segment] syn_segment)
    as (r & H1 & H2 & _ & H3 & H4 & _).
  - unfold in_bits. lia.
  - lia.
  - lia.
  - by repeat constructor.
  - done.
  - apply Forall_forall. apply sample_genuine.
  - apply Exists_cons. right. left. by split.
  - intros i Hi. apply Exists_cons. right. rewrite !Exists_cons. destruct (Z.eq_dec i 0) as [-> | Hne].
    + right. left. exists 0. split; [reflexivity |]. vm_compute. intuition congruence.
    + left. exists 1. split; [reflexivity |]. change (1 <= i < 3). lia.
  - exists r. split_and!; [exact H1 | exact H2 | exact H3 | exact H4].
Defined.


End ReceiverFacts.
