(* ===== verification/tcp_config.v ===== *)
(** * libsponge/tcp_helpers/tcp_config.hh: the parameters of a connection *)

From S2P Require Import Prelude wrapping_integers.

Module TCPConfig.

Definition DEFAULT_CAPACITY : Z := 64000.
Definition MAX_PAYLOAD_SIZE : Z := 1000.
Definition TIMEOUT_DFLT : Z := 1000.
Definition MAX_RETX_ATTEMPTS : Z := 8.

Record t := mk {
  rt_timeout : Z;        (* uint16_t *)
  recv_capacity : Z;     (* size_t *)
  send_capacity : Z;     (* size_t *)
  fixed_isn : option WrappingInt32.t;
}.

Definition default_ : t := mk TIMEOUT_DFLT DEFAULT_CAPACITY DEFAULT_CAPACITY None.

End TCPConfig.
