(* ===== verification/tcp_sender.v ===== *)
(** * libsponge/tcp_sender.{hh,cc}: from the outbound stream to segments

    Queues are lists with the front at the head.  The random initial
    sequence number ([random_device()()], used when no [fixed_isn] is given)
    is an argument of the constructor.  [fill_window]'s loop takes fuel: one
    round for the SYN, one for the FIN, one per unread byte, and one to
    leave are enough (tcp_sender_proofs.v). *)

From S2P Require Import Prelude byte_stream wrapping_integers buffer tcp_segment tcp_config.

Module TCPSender.

Record t := mk {
  _isn : WrappingInt32.t;
  _segments_out : list TCPSegment.t;
  _initial_retransmission_timeout : Z;   (* unsigned int *)
  _stream : ByteStream.t;
  _next_seqno : Z;                       (* uint64_t *)
  outstandings : list TCPSegment.t;
  in_flights : Z;                        (* uint64_t *)
  timePassed : Z;                        (* size_t *)
  RTO : Z;                               (* unsigned int *)
  recount : Z;                           (* unsigned int *)
  window : Z;                            (* uint64_t *)
  window_right : Z;                      (* uint64_t *)
  lastAck : Z;                           (* uint64_t *)
  fin_sent : bool;
  probing : bool;
}.

Definition make (capacity retx_timeout : Z) (fixed_isn : option WrappingInt32.t)
    (random_device : Z) : t :=
  mk (default (WrappingInt32.of_u32 random_device) fixed_isn) [] retx_timeout
     (ByteStream.make capacity) 0 [] 0 0 retx_timeout 0 1 0 0 false false.

Definition stream_in (s : t) : ByteStream.t := _stream s.
Definition segments_out (s : t) : list TCPSegment.t := _segments_out s.
Definition bytes_in_flight (s : t) : Z := in_flights s.
Definition consecutive_retransmissions (s : t) : Z := recount s.
Definition next_seqno_absolute (s : t) : Z := _next_seqno s.
Definition next_seqno (s : t) : WrappingInt32.t := WrappingInt32.wrap (_next_seqno s) (_isn s).

(** The owner works on the stream and on the queue in place. *)
Definition with_stream (st : ByteStream.t) (s : t) : t :=
  mk (_isn s) (_segments_out s) (_initial_retransmission_timeout s) st (_next_seqno s)
     (outstandings s) (in_flights s) (timePassed s) (RTO s) (recount s) (window s)
     (window_right s) (lastAck s) (fin_sent s) (probing s).
Definition with_segments_out (q : list TCPSegment.t) (s : t) : t :=
  mk (_isn s) q (_initial_retransmission_timeout s) (_stream s) (_next_seqno s)
     (outstandings s) (in_flights s) (timePassed s) (RTO s) (recount s) (window s)
     (window_right s) (lastAck s) (fin_sent s) (probing s).

(** [in_flights += n; outstandings.push(seg); segments_out().push(seg);]
    after the stream, [_next_seqno] and [fin_sent] were assigned. *)
Definition sent (seg : TCPSegment.t) (st : ByteStream.t) (next n : Z) (fin : bool) (s : t) : t :=
  mk (_isn s) (_segments_out s ++ [seg]) (_initial_retransmission_timeout s) st next
     (outstandings s ++ [seg]) (u64 (in_flights s + n)) (timePassed s) (RTO s) (recount s)
     (window s) (window_right s) (lastAck s) fin (probing s).
Definition with_probing (b : bool) (s : t) : t :=
  mk (_isn s) (_segments_out s) (_initial_retransmission_timeout s) (_stream s) (_next_seqno s)
     (outstandings s) (in_flights s) (timePassed s) (RTO s) (recount s) (window s)
     (window_right s) (lastAck s) (fin_sent s) b.

(** [TCPSegment seg{}] with its [seqno] assigned. *)
Definition new_segment (s : t) : TCPHeader.t := TCPHeader.set_seqno (next_seqno s) TCPHeader.default_.

Definition send_empty_segment (s : t) : t :=
  with_segments_out (_segments_out s ++ [TCPSegment.mk (new_segment s) Buffer.empty]) s.

Definition send_empty_segment_RST (s : t) : t :=
  with_segments_out
    (_segments_out s ++ [TCPSegment.mk (TCPHeader.set_rst true (new_segment s)) Buffer.empty]) s.

Definition send_one_byte_segment (f : bool) (s : t) : outcome t :=
  '(seg, st) ← (if f then Ret (TCPSegment.mk (TCPHeader.set_fin true (new_segment s)) Buffer.empty, _stream s)
               else '(data, st) ← ByteStream.read 1 (_stream s);
                    Ret (TCPSegment.mk (new_segment s) (Buffer.of_string data), st));
  Ret (sent seg st (u64 (_next_seqno s + 1)) 1 (fin_sent s) s).

Definition ReadyToFin (s : t) : bool :=
  ByteStream.eof (stream_in s) &&
  (next_seqno_absolute s <? u64 (ByteStream.bytes_written (stream_in s) + 2)).

(** The rest of the loop body, past its [break]: one segment. *)
Definition send_next (s : t) : outcome t :=
  let hd := new_segment s in
  let '(hd, syn) := if next_seqno_absolute s =? 0 then (TCPHeader.set_syn true hd, 1) else (hd, 0) in
  let dlen := Z.min (u64 (window_right s - syn - next_seqno_absolute s + 1)) TCPConfig.MAX_PAYLOAD_SIZE in
  '(data, st) ← ByteStream.read dlen (_stream s);
  let seg := TCPSegment.mk hd (Buffer.of_string data) in
  let next := u64 (TCPSegment.length_in_sequence_space seg + _next_seqno s) in
  let '(seg, next, fin) :=
    if ByteStream.eof st && (next <=? window_right s) && negb (fin_sent s)
    then (TCPSegment.mk (TCPHeader.set_fin true hd) (Buffer.of_string data), u64 (next + 1), true)
    else (seg, next, fin_sent s) in
  Ret (sent seg st next (TCPSegment.length_in_sequence_space seg) fin s).

Fixpoint fill_loop (fuel : nat) (s : t) : outcome t :=
  if next_seqno_absolute s <=? window_right s then
    if (next_seqno_absolute s >? 0) && ByteStream.buffer_empty (stream_in s) && negb (ReadyToFin s)
    then Ret s
    else match fuel with
         | O => Diverge
         | S fuel => s ← send_next s; fill_loop fuel s
         end
  else Ret s.

Definition fill_window (s : t) : outcome t :=
  let loop := fill_loop (3 + length (ByteStream.buffer (_stream s))) s in
  if (window s =? 0) && negb (probing s) then
    if negb (ByteStream.buffer_empty (stream_in s)) then
      send_one_byte_segment false (with_probing true s)
    else if ReadyToFin s then send_one_byte_segment true (with_probing true s)
    else loop
  else loop.

(** [while(outstandings.size()!=0)]: what is left, [in_flights], [rm]. *)
Fixpoint remove_acked (isn : WrappingInt32.t) (checkpoint ackabs : Z) (q : list TCPSegment.t)
    (flights : Z) (rm : bool) : outcome (list TCPSegment.t * Z * bool) :=
  match q with
  | [] => Ret ([], flights, rm)
  | seg :: q' =>
      x ← WrappingInt32.unwrap (TCPHeader.seqno (TCPSegment.header seg)) isn checkpoint;
      let last := u64 (TCPSegment.length_in_sequence_space seg + x - 1) in
      if last <? ackabs then
        remove_acked isn checkpoint ackabs q'
          (u64 (flights - TCPSegment.length_in_sequence_space seg)) true
      else Ret (q, flights, rm)
  end.

Definition ack_received (ackno : WrappingInt32.t) (window_size : Z) (s : t) : outcome t :=
  ackabs ← WrappingInt32.unwrap ackno (_isn s) (ByteStream.bytes_read (stream_in s));
  if ackabs >? next_seqno_absolute s then Ret s
  else
    let right_ := u64 (ackabs + window_size - 1) in
    let window_move := right_ >? window_right s in
    '(q, flights, rm) ← remove_acked (_isn s) (ByteStream.bytes_read (stream_in s)) ackabs
                          (outstandings s) (in_flights s) false;
    Ret (mk (_isn s) (_segments_out s) (_initial_retransmission_timeout s) (_stream s) (_next_seqno s)
            q flights
            (if rm && (0 <? Zlen q) then 0 else timePassed s)
            (if rm then _initial_retransmission_timeout s else RTO s)
            (if rm then 0 else recount s)
            window_size
            (if window_move then right_ else window_right s)
            (lastAck s) (fin_sent s)
            (if window_move then false else probing s)).

Definition tick (ms_since_last_tick : Z) (s : t) : t :=
  match outstandings s with
  | [] => s
  | front :: _ =>
      let timePassed := u64 (ms_since_last_tick + timePassed s) in
      if timePassed >=? RTO s then
        mk (_isn s) (_segments_out s ++ [front]) (_initial_retransmission_timeout s) (_stream s)
           (_next_seqno s) (outstandings s) (in_flights s) 0
           (if window s >? 0 then u32 (RTO s * 2) else RTO s)
           (if window s >? 0 then u32 (recount s + 1) else recount s)
           (window s) (window_right s) (lastAck s) (fin_sent s) (probing s)
      else
        mk (_isn s) (_segments_out s) (_initial_retransmission_timeout s) (_stream s)
           (_next_seqno s) (outstandings s) (in_flights s) timePassed (RTO s) (recount s)
           (window s) (window_right s) (lastAck s) (fin_sent s) (probing s)
  end.

End TCPSender.
