(* ===== verification/tcp_sender_proofs.v ===== *)
(** * tcp_sender: invariant, window, retransmission

    The owner writes a stream [Str] of [L] bytes.  The ghost state of a
    sender is the history [a] of its stream, whether the FIN was sent, and
    [una], the absolute number of the oldest outstanding segment. *)

From S2P Require Import Prelude byte_stream wrapping_integers buffer stream_reassembler_proofs tcp_segment tcp_config tcp_receiver tcp_sender.

Module SenderFacts.
Import ReassemblerFacts ReceiverFacts TCPSender.

Abbreviation len := TCPSegment.length_in_sequence_space.

Section Stream.
Context (Str : Z -> byte) (L : Z) (isn0 : WrappingInt32.t).
Hypothesis isn_range : in_bits 32 isn0.
Hypothesis bounds : 0 <= L /\ L + 2 < 2 ^ 31.

(** A segment of the stream that starts at the absolute number [x]; the SYN
    is the one at 0. *)
Record seg_at (x : Z) (seg : TCPSegment.t) : Prop := {
  at_genuine : genuine_segment Str L isn0 seg;
  at_abs : abs_seqno isn0 seg = x;
  at_seqno : TCPHeader.seqno (TCPSegment.header seg) = WrappingInt32.wrap x isn0;
  at_syn : TCPHeader.syn (TCPSegment.header seg) = (x =? 0);
  at_len : 0 < len seg;
  at_rst : TCPHeader.rst (TCPSegment.header seg) = false;
}.

(** Segments that follow each other from [x] to [hi]. *)
Fixpoint train (x : Z) (q : list TCPSegment.t) (hi : Z) : Prop :=
  match q with
  | [] => x = hi
  | seg :: q => seg_at x seg /\ train (x + len seg) q hi
  end.

Definition flag_len (b : bool) : Z := if b then 1 else 0.

Record sinv (s : t) (a : ByteStreamSpec.t) (fin : bool) (una : Z) : Prop := {
  si_isn : _isn s = isn0;
  si_repr : ByteStreamFacts.repr (_stream s) a;
  si_prefix : agrees Str 0 (ByteStreamSpec.hist a);
  si_hist : Zlen (ByteStreamSpec.hist a) <= L;
  si_ended : ByteStreamSpec.ended a = true -> Zlen (ByteStreamSpec.hist a) = L;
  si_fin : fin = true -> ByteStreamSpec.ended a = true /\
    ByteStreamSpec.nread a = length (ByteStreamSpec.hist a);
  si_fin_sent : fin_sent s = true -> fin = true;
  si_next : (_next_seqno s = 0 /\ ByteStreamSpec.nread a = O /\ fin = false /\ window s = 1) \/
    _next_seqno s = 1 + Z.of_nat (ByteStreamSpec.nread a) + flag_len fin;
  si_train : train una (outstandings s) (_next_seqno s);
  si_una : 0 <= una;
  si_flight : in_flights s = _next_seqno s - una;
  si_right : in_bits 64 (window_right s);
}.

Lemma train_app x q1 q2 hi :
  train x (q1 ++ q2) hi <-> exists mid, train x q1 mid /\ train mid q2 hi.
Proof.
  revert x. induction q1 as [|seg q1 IH]; intros x; cbn [train app].
  - split; [intros H; by exists x | intros (mid & -> & H); done].
  - rewrite IH. split; [intros (? & mid & ? & ?) | intros (mid & (? & ?) & ?)]; eauto.
Qed.

Lemma train_snoc x q mid seg : train x q mid -> seg_at mid seg -> train x (q ++ [seg]) (mid + len seg).
Proof. intros Hq Hs. apply train_app. exists mid. by cbn. Qed.

Lemma train_le x q hi : train x q hi -> x <= hi.
Proof.
  revert x. induction q as [|seg q IH]; intros x; cbn; [lia |].
  intros [Hs Hq]. apply IH in Hq. pose proof (at_len _ _ Hs). lia.
Qed.

Lemma train_fun x q hi hi' : train x q hi -> train x q hi' -> hi = hi'.
Proof. revert x. induction q as [|seg q IH]; intros x; cbn; [congruence |]. intros [_ H1] [_ H2]. by eapply IH. Qed.

Lemma train_genuine x q hi : train x q hi -> Forall (genuine_segment Str L isn0) q.
Proof.
  revert x. induction q as [|seg q IH]; intros x; cbn; constructor; [apply H | eapply IH, H].
Qed.

Lemma base_wrap x : 0 <= x < 2 ^ 32 -> WrappingFacts.base (WrappingInt32.wrap x isn0) isn0 = x.
Proof.
  intros Hx. unfold WrappingFacts.base. rewrite WrappingFacts.wrap_spec.
  rewrite Zminus_mod_idemp_l. replace (x + isn0 - isn0) with x by lia. by apply Z.mod_small.
Qed.

(** Bounds that follow from the invariant. *)
Lemma sinv_bounds s a fin una :
  sinv s a fin una ->
  0 <= Z.of_nat (ByteStreamSpec.nread a) <= Zlen (ByteStreamSpec.hist a) /\
  0 <= una <= _next_seqno s /\ _next_seqno s <= L + 2 /\
  Z.of_nat (ByteStreamSpec.nread a) <= _next_seqno s + 0 /\
  Zlen (ByteStream.buffer (_stream s)) = Zlen (ByteStreamSpec.hist a) - Z.of_nat (ByteStreamSpec.nread a).
Proof.
  intros []. destruct (ByteStreamFacts.repr_wf _ _ si_repr0).
  pose proof (train_le _ _ _ si_train0). pose proof (ByteStreamFacts.repr_buffer_len _ _ si_repr0) as (Hb & _).
  unfold Zlen in *. unfold flag_len in *. destruct fin; intuition lia.
Qed.

Lemma sinv_bytes_read s a fin una :
  sinv s a fin una -> ByteStream.bytes_read (stream_in s) = Z.of_nat (ByteStreamSpec.nread a) /\
    ByteStream.bytes_written (stream_in s) = Zlen (ByteStreamSpec.hist a).
Proof.
  intros H. pose proof (si_hist _ _ _ _ H).
  split; [apply ByteStreamFacts.repr_bytes_read | apply ByteStreamFacts.repr_bytes_written];
    try apply (si_repr _ _ _ _ H); lia.
Qed.

Lemma sinv_empty s a fin una :
  sinv s a fin una ->
  ByteStream.buffer_empty (stream_in s) = bool_decide (ByteStreamSpec.nread a = length (ByteStreamSpec.hist a)).
Proof.
  intros H. destruct (sinv_bounds _ _ _ _ H) as (Hn & _ & _ & _ & Hb).
  unfold ByteStream.buffer_empty, stream_in. rewrite Hb. unfold Zlen in *.
  case_cmp; [rewrite bool_decide_true by lia | rewrite bool_decide_false by lia]; done.
Qed.

(** [ReadyToFin]: the stream is all sent and ended, the FIN is not sent. *)
Lemma sinv_ready s a fin una :
  sinv s a fin una ->
  ReadyToFin s = ByteStreamSpec.ended a &&
    bool_decide (ByteStreamSpec.nread a = length (ByteStreamSpec.hist a)) && negb fin.
Proof.
  intros H. destruct (sinv_bounds _ _ _ _ H) as (Hn & _ & _ & _ & Hb).
  unfold ReadyToFin. destruct (sinv_bytes_read _ _ _ _ H) as (_ & ->).
  pose proof (ByteStreamFacts.repr_eof _ _ (si_repr _ _ _ _ H)) as He. unfold stream_in. rewrite He.
  pose proof (si_hist _ _ _ _ H). rewrite u64_small by lia.
  destruct (ByteStreamSpec.ended a); [| done]. cbn [andb].
  destruct (bool_decide_reflect (ByteStreamSpec.nread a = length (ByteStreamSpec.hist a))) as [Hd |]; [| done].
  cbn [andb]. unfold next_seqno_absolute, flag_len, Zlen in *.
  destruct (si_next _ _ _ _ H) as [(-> & _ & Hf & _) | ->]; destruct fin; try done; case_cmp; cbn in *; done || lia.
Qed.

(** ** Sending one segment *)

(** The segment built by [fill_window] and [send_one_byte_segment]: the next
    [k] unread bytes, the SYN on number 0, the FIN if [f]. *)
Record next_seg (s : t) (a : ByteStreamSpec.t) (k : nat) (f : bool) (seg : TCPSegment.t) : Prop := {
  ns_header : TCPSegment.header seg =
    TCPHeader.set_fin f (TCPHeader.set_syn (_next_seqno s =? 0) (new_segment s));
  ns_payload : Buffer.str (TCPSegment.payload seg) = take k (ByteStreamSpec.unread a);
  ns_fin : f = true -> ByteStreamSpec.ended a = true /\
    length (take k (ByteStreamSpec.unread a)) = length (ByteStreamSpec.unread a);
  ns_len : 0 < len seg;
}.

Lemma next_seg_len s a k f seg :
  next_seg s a k f seg ->
  len seg = flag_len (_next_seqno s =? 0) + Zlen (take k (ByteStreamSpec.unread a)) + flag_len f.
Proof.
  intros []. unfold len. rewrite ns_header0, ns_payload0. unfold flag_len. cbn. destruct f, (_ =? 0); lia.
Qed.

Lemma sinv_place s a una :
  sinv s a false una -> Z.of_nat (ByteStreamSpec.nread a) = (if _next_seqno s =? 0 then 0 else _next_seqno s - 1).
Proof.
  intros H. destruct (si_next _ _ _ _ H) as [(-> & -> & _) | ->]; [done |].
  unfold flag_len. case_cmp; lia.
Qed.

Lemma next_seg_genuine s a k f seg una :
  sinv s a false una -> next_seg s a k f seg ->
  genuine Str L (take k (ByteStreamSpec.unread a)) (Z.of_nat (ByteStreamSpec.nread a)) f.
Proof.
  intros H [_ _ Hf _]. pose proof (si_hist _ _ _ _ H). destruct (sinv_bounds _ _ _ _ H) as (Hn & _).
  pose proof (si_prefix _ _ _ _ H) as Hp. unfold ByteStreamSpec.unread in *.
  apply (agrees_drop _ _ (ByteStreamSpec.nread a)) in Hp.
  split_and!; [lia | rewrite Zlen_take, Zlen_drop; lia | by apply agrees_take |].
  intros Hft. destruct (Hf Hft) as (He & Hl). apply (si_ended _ _ _ _ H) in He.
  unfold Zlen in *. rewrite Hl, length_drop. lia.
Qed.

Lemma next_seg_at s a k f seg una :
  sinv s a false una -> next_seg s a k f seg -> seg_at (_next_seqno s) seg.
Proof.
  intros H Hseg. pose proof Hseg as [Hh Hp Hf Hl]. destruct (sinv_bounds _ _ _ _ H) as (_ & ? & ? & _).
  assert (Hsq : TCPHeader.seqno (TCPSegment.header seg) = WrappingInt32.wrap (_next_seqno s) isn0).
  { rewrite Hh. cbn. unfold next_seqno. by rewrite (si_isn _ _ _ _ H). }
  assert (Habs : abs_seqno isn0 seg = _next_seqno s)
    by (unfold abs_seqno; rewrite Hsq; apply base_wrap; lia).
  constructor; [| done | done | by rewrite Hh | done | by rewrite Hh].
  split_and!; [split; [rewrite Hsq; apply WrappingFacts.wrap_range | by rewrite Hh] | |].
  - rewrite Habs, Hh. cbn. by intros ?%Z.eqb_eq.
  - intros i Hi. left. pose proof (sinv_place _ _ _ H) as Hpl.
    assert (Hi' : i = Z.of_nat (ByteStreamSpec.nread a)).
    { rewrite Hpl. revert Hi. unfold place. rewrite Habs, Hh. cbn.
      destruct (_ =? 0); intros [= <-]; done. }
    rewrite Hi', Hp, Hh. cbn. by eapply next_seg_genuine.
Qed.

Lemma sent_inv s a k f fs seg st una :
  sinv s a false una -> next_seg s a k f seg -> (fs = true -> f = true) ->
  ByteStreamFacts.repr st (snd (ByteStreamSpec.read k a)) ->
  sinv (sent seg st (_next_seqno s + len seg) (len seg) fs s) (snd (ByteStreamSpec.read k a)) f una.
Proof.
  intros H Hseg Hfs Hst. pose proof (next_seg_len _ _ _ _ _ Hseg) as Hlen.
  pose proof (next_seg_at _ _ _ _ _ _ H Hseg) as Hat. pose proof (sinv_place _ _ _ H) as Hpl.
  destruct (sinv_bounds _ _ _ _ H) as (Hn & Hu & Hnx & _). pose proof (si_hist _ _ _ _ H).
  pose proof (ns_fin _ _ _ _ _ Hseg) as Hf. unfold ByteStreamSpec.unread in *.
  assert (Hdl : Zlen (take k (drop (ByteStreamSpec.nread a) (ByteStreamSpec.hist a))) <=
    Zlen (ByteStreamSpec.hist a) - Z.of_nat (ByteStreamSpec.nread a)) by (zlen; lia).
  destruct H. constructor; cbn; try done.
  - intros Hft. destruct (Hf Hft) as (He & Hl). split; [done |]. unfold ByteStreamSpec.unread.
    unfold Zlen in *. rewrite Hl, length_drop. lia.
  - right. rewrite Hlen. unfold ByteStreamSpec.unread, flag_len, Zlen in *.
    destruct (Z.eqb_spec (_next_seqno s) 0); lia.
  - by apply train_snoc.
  - assert (0 <= flag_len f <= 1 /\ 0 <= flag_len (_next_seqno s =? 0) <= 1)
      by (unfold flag_len; destruct f, (_next_seqno s =? 0); lia).
    pose proof (at_len _ _ Hat). rewrite si_flight0, u64_small; lia.
Qed.

(** ** Filling the window *)

Lemma next_seg_mk s a k f payload :
  Buffer.str payload = take k (ByteStreamSpec.unread a) ->
  (f = true -> ByteStreamSpec.ended a = true /\ (length (ByteStreamSpec.unread a) <= k)%nat) ->
  (_next_seqno s = 0 \/ f = true \/ 0 < Zlen (take k (ByteStreamSpec.unread a))) ->
  next_seg s a k f
    (TCPSegment.mk (TCPHeader.set_fin f (TCPHeader.set_syn (_next_seqno s =? 0) (new_segment s))) payload).
Proof.
  intros Hp Hf Hl. constructor; [done | done | |].
  - intros Hft. destruct (Hf Hft). split; [done |]. by rewrite take_ge.
  - unfold len. cbn [TCPSegment.payload TCPSegment.header TCPSegment._payload TCPSegment._header TCPHeader.syn
      TCPHeader.fin TCPHeader.set_syn TCPHeader.set_fin].
    rewrite Hp. pose proof (Zlen_nonneg (take k (ByteStreamSpec.unread a))).
    destruct Hl as [-> | [-> | Hl]]; [cbn; destruct f; lia | destruct (_ =? 0); lia |
      destruct f, (_ =? 0); lia].
Qed.

(** The number of rounds left: SYN, unread bytes, FIN. *)
Definition work (s : t) (a : ByteStreamSpec.t) (fin : bool) : nat :=
  (if _next_seqno s =? 0 then 1 else 0) + length (ByteStreamSpec.unread a) + (if fin then 0 else 1).

(** What a round may not touch. *)
Definition same_env (s s' : t) : Prop :=
  window s' = window s /\ window_right s' = window_right s /\ timePassed s' = timePassed s /\
  RTO s' = RTO s /\ recount s' = recount s /\
  _initial_retransmission_timeout s' = _initial_retransmission_timeout s.

(** The stream is only read. *)
Definition only_read (a a' : ByteStreamSpec.t) : Prop :=
  ByteStreamSpec.hist a' = ByteStreamSpec.hist a /\ ByteStreamSpec.ended a' = ByteStreamSpec.ended a.

(** There is something to send. *)
Definition busy (s : t) : Prop :=
  _next_seqno s = 0 \/ ByteStream.buffer_empty (stream_in s) = false \/ ReadyToFin s = true.

Lemma busy_not_fin s a fin una : sinv s a fin una -> busy s -> fin = false.
Proof.
  intros H Hb. destruct fin; [| done]. destruct (si_fin _ _ _ _ H eq_refl) as (He & Hn).
  unfold busy in Hb. rewrite (sinv_empty _ _ _ _ H), (sinv_ready _ _ _ _ H), He, bool_decide_true in Hb by done.
  destruct Hb as [Hz | [? | ?]]; [| done | done].
  destruct (si_next _ _ _ _ H) as [(_ & _ & ? & _) | Hx]; [done |]. unfold flag_len in Hx. lia.
Qed.

Lemma busy_data s a una k :
  sinv s a false una -> busy s -> (0 < k)%nat ->
  _next_seqno s = 0 \/ 0 < Zlen (take k (ByteStreamSpec.unread a)) \/
  ByteStreamSpec.ended a = true /\ ByteStreamSpec.unread a = [].
Proof.
  intros H Hb Hk. destruct Hb as [? | [Hb | Hb]]; [by left | |]; right.
  - left. rewrite (sinv_empty _ _ _ _ H) in Hb. apply bool_decide_eq_false in Hb.
    destruct (sinv_bounds _ _ _ _ H) as (Hn & _). unfold ByteStreamSpec.unread, Zlen in *.
    rewrite length_take, length_drop. lia.
  - right. rewrite (sinv_ready _ _ _ _ H), !andb_true_iff in Hb. destruct Hb as ((He & Hn) & _).
    split; [done |]. apply bool_decide_eq_true in Hn. apply drop_ge. lia.
Qed.

Lemma eof_read st a k :
  ByteStreamSpec.wf a -> ByteStreamFacts.repr st (snd (ByteStreamSpec.read k a)) ->
  ByteStream.eof st = ByteStreamSpec.ended a && bool_decide (length (ByteStreamSpec.unread a) <= k)%nat.
Proof.
  intros [Hw1 Hw2] Hr. rewrite (ByteStreamFacts.repr_eof _ _ Hr). cbn. f_equal.
  apply bool_decide_ext. unfold ByteStreamSpec.unread. rewrite length_take, length_drop. lia.
Qed.

(** The header and the lengths of [send_next], without the cases on the SYN. *)
Lemma send_next_eq s st data :
  let z := _next_seqno s =? 0 in
  let hd := TCPHeader.set_syn z (new_segment s) in
  let dlen := Z.min (window_right s - flag_len z - _next_seqno s + 1) TCPConfig.MAX_PAYLOAD_SIZE in
  let n1 := _next_seqno s + flag_len z + Zlen data in
  0 <= _next_seqno s <= window_right s -> in_bits 64 (window_right s) -> n1 + 1 < 2 ^ 64 ->
  ByteStream.read dlen (_stream s) = Ret (data, st) ->
  send_next s = Ret
    (let f := ByteStream.eof st && (n1 <=? window_right s) && negb (fin_sent s) in
     let seg := TCPSegment.mk (TCPHeader.set_fin f hd) (Buffer.of_string data) in
     sent seg st (_next_seqno s + len seg) (len seg) (f || fin_sent s) s).
Proof.
  intros z hd dlen n1 Hw Hr Hn1 Hread. unfold in_bits in Hr. unfold send_next, next_seqno_absolute.
  pose proof (Zlen_nonneg data).
  assert (Hz : (if _next_seqno s =? 0 then (TCPHeader.set_syn true (new_segment s), 1) else (new_segment s, 0))
    = (hd, flag_len z)) by (unfold hd, z; by destruct (_ =? 0)).
  rewrite Hz. rewrite u64_small.
  2: { unfold flag_len, z. destruct (Z.eqb_spec (_next_seqno s) 0); lia. }
  fold dlen. rewrite Hread. cbn [mbind outcome_bind]. cbv zeta.
  assert (Hl : forall f, len (TCPSegment.mk (TCPHeader.set_fin f hd) (Buffer.of_string data)) =
    flag_len z + Zlen data + flag_len f).
  { intros f. unfold len. cbn. rewrite drop_0. unfold flag_len. destruct z, f; lia. }
  change (TCPSegment.mk hd (Buffer.of_string data))
    with (TCPSegment.mk (TCPHeader.set_fin false hd) (Buffer.of_string data)).
  rewrite (Hl false).
  replace (u64 (flag_len z + Zlen data + flag_len false + _next_seqno s)) with n1.
  2: { rewrite u64_small; unfold n1, flag_len in *; destruct z; lia. }
  destruct (_ && _ && _); cbn [orb]; rewrite ?(u64_small (n1 + 1)) by (unfold n1, flag_len in *; destruct z; lia);
    rewrite Hl; do 2 f_equal; unfold n1, flag_len; destruct z; lia.
Qed.

Lemma send_next_sends s a una :
  sinv s a false una -> _next_seqno s <= window_right s -> busy s ->
  exists k f fs seg st,
    send_next s = Ret (sent seg st (_next_seqno s + len seg) (len seg) fs s) /\
    next_seg s a k f seg /\ (fs = true -> f = true) /\
    ByteStreamFacts.repr st (snd (ByteStreamSpec.read k a)) /\
    _next_seqno s + len seg <= window_right s + 1 /\ Z.of_nat k <= TCPConfig.MAX_PAYLOAD_SIZE.
Proof.
  intros H Hw Hb. destruct (sinv_bounds _ _ _ _ H) as (Hn & ? & Hnx & _ & Hbl). pose proof (si_right _ _ _ _ H) as Hr.
  pose proof (si_hist _ _ _ _ H).
  assert (Hfs : fin_sent s = false) by (destruct (fin_sent s) eqn:E; [by apply (si_fin_sent _ _ _ _ H) in E | done]).
  set (dlen := Z.min (window_right s - flag_len (_next_seqno s =? 0) - _next_seqno s + 1) TCPConfig.MAX_PAYLOAD_SIZE).
  assert (Hd : 0 <= dlen <= window_right s - flag_len (_next_seqno s =? 0) - _next_seqno s + 1 /\ dlen <= 1000 /\
    (_next_seqno s <> 0 -> 0 < dlen)).
  { unfold dlen, TCPConfig.MAX_PAYLOAD_SIZE, flag_len. destruct (Z.eqb_spec (_next_seqno s) 0); lia. }
  destruct (ByteStreamFacts.read_refines _ _ dlen (si_repr _ _ _ _ H)) as (st & Hrd & Hst); [lia |].
  set (k := Z.to_nat dlen) in *. cbn [fst ByteStreamSpec.read] in Hrd.
  assert (Hdata : Zlen (take k (ByteStreamSpec.unread a)) <= dlen /\
    Zlen (take k (ByteStreamSpec.unread a)) <= L).
  { unfold ByteStreamSpec.unread. zlen. lia. }
  erewrite send_next_eq; [| lia | done | | exact Hrd].
  2: { unfold flag_len. destruct (_ =? 0); lia. }
  cbv zeta. rewrite Hfs, orb_false_r, andb_true_r.
  rewrite (eof_read _ _ _ (ByteStreamFacts.repr_wf _ _ (si_repr _ _ _ _ H)) Hst).
  set (n1 := _next_seqno s + flag_len (_next_seqno s =? 0) + Zlen (take k (ByteStreamSpec.unread a))).
  set (f := _ && _ && (n1 <=? window_right s)). set (seg := TCPSegment.mk _ _).
  assert (Hseg : next_seg s a k f seg).
  { apply next_seg_mk; [apply Buffer.str_of_string | |].
    - unfold f. rewrite !andb_true_iff, bool_decide_eq_true. tauto.
    - destruct (Z.eq_dec (_next_seqno s) 0) as [? | Hnz]; [by left |].
      destruct (busy_data s a una k H Hb) as [? | [? | (He & Hu)]]; [lia | by left | by right; right |].
      right. left. unfold f, n1. rewrite He, Hu, bool_decide_true by (cbn; lia). cbn [andb].
      rewrite firstn_nil. apply Z.leb_le. change (Zlen (@nil byte)) with 0. unfold flag_len. destruct (Z.eqb_spec (_next_seqno s) 0); lia. }
  exists k, f, f, seg, st. split_and!; [done | done | done | done | | unfold TCPConfig.MAX_PAYLOAD_SIZE; lia].
  rewrite (next_seg_len _ _ _ _ _ Hseg). destruct f eqn:Ef; cbn [flag_len]; [| lia].
  apply andb_true_iff in Ef as [_ Hle%Z.leb_le]. lia.
Qed.

(** What an operation that sends the segments [new] does to the sender. *)
Record sends (s : t) (a : ByteStreamSpec.t) (una : Z) (new : list TCPSegment.t) (s' : t)
    (a' : ByteStreamSpec.t) (fin' : bool) : Prop := {
  sd_inv : sinv s' a' fin' una;
  sd_train : train (_next_seqno s) new (_next_seqno s');
  sd_out : _segments_out s' = _segments_out s ++ new;
  sd_outstanding : outstandings s' = outstandings s ++ new;
  sd_env : same_env s s';
  sd_read : only_read a a';
  sd_size : Forall (fun seg => Zlen (Buffer.str (TCPSegment.payload seg)) <= TCPConfig.MAX_PAYLOAD_SIZE) new;
}.

Lemma sends_nil s a fin una : sinv s a fin una -> sends s a una [] s a fin.
Proof. intros H. constructor; try done; by rewrite app_nil_r. Qed.

Lemma sends_app s1 s2 s3 a1 a2 a3 f2 f3 una l1 l2 :
  sends s1 a1 una l1 s2 a2 f2 -> sends s2 a2 una l2 s3 a3 f3 -> sends s1 a1 una (l1 ++ l2) s3 a3 f3.
Proof.
  intros [] []. constructor; [done | apply train_app; eauto | | | | | by apply Forall_app].
  - by rewrite sd_out1, sd_out0, app_assoc.
  - by rewrite sd_outstanding1, sd_outstanding0, app_assoc.
  - unfold same_env in *. intuition congruence.
  - unfold only_read in *. intuition congruence.
Qed.

Lemma sends_one s a k f fs seg st una :
  sinv s a false una -> next_seg s a k f seg -> (fs = true -> f = true) ->
  ByteStreamFacts.repr st (snd (ByteStreamSpec.read k a)) -> Z.of_nat k <= TCPConfig.MAX_PAYLOAD_SIZE ->
  let s' := sent seg st (_next_seqno s + len seg) (len seg) fs s in
  sends s a una [seg] s' (snd (ByteStreamSpec.read k a)) f /\
  (work s' (snd (ByteStreamSpec.read k a)) f < work s a false)%nat.
Proof.
  intros H Hseg Hfs Hst Hk s'. pose proof (next_seg_at _ _ _ _ _ _ H Hseg) as Hat. split.
  - constructor; [by apply sent_inv | by cbn | done | done | done | done |].
    constructor; [| done]. rewrite (ns_payload _ _ _ _ _ Hseg). zlen. lia.
  - pose proof (at_len _ _ Hat). pose proof (next_seg_len _ _ _ _ _ Hseg) as Hl.
    destruct (sinv_bounds _ _ _ _ H) as (_ & ? & _).
    assert (Hu : (length (ByteStreamSpec.unread (snd (ByteStreamSpec.read k a))) +
      length (take k (ByteStreamSpec.unread a)) = length (ByteStreamSpec.unread a))%nat).
    { unfold ByteStreamSpec.unread. cbn. unfold ByteStreamSpec.unread. rewrite length_take, !length_drop. lia. }
    unfold work, flag_len, Zlen in *. cbn [_next_seqno s' sent].
    destruct (Z.eqb_spec (_next_seqno s + len seg) 0), (Z.eqb_spec (_next_seqno s) 0), f; lia.
Qed.

Lemma busy_dec s a fin una :
  sinv s a fin una ->
  (next_seqno_absolute s >? 0) && ByteStream.buffer_empty (stream_in s) && negb (ReadyToFin s) = false <-> busy s.
Proof.
  intros H. destruct (sinv_bounds _ _ _ _ H) as (_ & ? & _). unfold busy, next_seqno_absolute.
  destruct (Z.gtb_spec (_next_seqno s) 0), (ByteStream.buffer_empty _), (ReadyToFin s); cbn; intuition (lia || congruence).
Qed.

Lemma not_busy_work s a fin una : sinv s a fin una -> busy s -> (0 < work s a fin)%nat.
Proof. intros H Hb. rewrite (busy_not_fin _ _ _ _ H Hb). unfold work. lia. Qed.

(** The loop ends, and stops only at the edge of the window or with nothing
    left to send. *)
Lemma fill_loop_spec fuel : forall s a fin una,
  sinv s a fin una -> (work s a fin <= fuel)%nat ->
  exists s' a' fin' new, fill_loop fuel s = Ret s' /\ sends s a una new s' a' fin' /\
    _next_seqno s' <= Z.max (_next_seqno s) (window_right s + 1) /\
    (window_right s < _next_seqno s' \/ ~ busy s').
Proof.
  induction fuel as [|fuel IH]; intros s a fin una H Hf; cbn [fill_loop];
    unfold next_seqno_absolute at 1;
    (destruct (Z.leb_spec (_next_seqno s) (window_right s));
      [| exists s, a, fin, []; split_and!; [done | by apply sends_nil | lia | by left]]);
    (destruct (_ && _ && _) eqn:Eb;
      [exists s, a, fin, []; split_and!; [done | by apply sends_nil | lia | right;
         rewrite <- (busy_dec _ _ _ _ H); congruence] |]);
    apply (busy_dec _ _ _ _ H) in Eb.
  - pose proof (not_busy_work _ _ _ _ H Eb). lia.
  - pose proof (busy_not_fin _ _ _ _ H Eb) as ->.
    destruct (send_next_sends s a una H) as (k & f & fs & seg & st & -> & Hseg & Hfs & Hst & Hle & Hk); [lia | done |].
    cbn [mbind outcome_bind]. destruct (sends_one s a k f fs seg st una H Hseg Hfs Hst Hk) as (Hs & Hw).
    destruct (IH _ _ _ _ (sd_inv _ _ _ _ _ _ _ Hs)) as (s' & a' & fin' & new & -> & Hs' & Hn' & Hb'); [lia |].
    exists s', a', fin', ([seg] ++ new). split_and!; [done | by eapply sends_app | | exact Hb'].
    cbn in Hn'. lia.
Qed.

(** ** The zero-window probe *)

Lemma with_probing_inv b s a fin una : sinv s a fin una -> sinv (with_probing b s) a fin una.
Proof. by intros []. Qed.

Lemma zero_window_started s a fin una : sinv s a fin una -> window s = 0 -> _next_seqno s <> 0.
Proof.
  intros H Hw. destruct (si_next _ _ _ _ H) as [(_ & _ & _ & ?) | ->]; [lia |].
  unfold flag_len. destruct fin; lia.
Qed.

(** The probe carries the next byte, or the FIN when the bytes are all sent. *)
Lemma probe_sends (f : bool) s a fin una :
  sinv s a fin una -> _next_seqno s <> 0 ->
  (if f then ReadyToFin s = true else ByteStream.buffer_empty (stream_in s) = false) ->
  exists s' a' fin' seg, send_one_byte_segment f s = Ret s' /\ sends s a una [seg] s' a' fin' /\ len seg = 1 /\
    probing s' = probing s.
Proof.
  intros H Hnz Hc.
  assert (Hb : busy s) by (unfold busy; destruct f; tauto).
  pose proof (busy_not_fin _ _ _ _ H Hb) as ->.
  assert (Hfs : fin_sent s = false) by (destruct (fin_sent s) eqn:E; [by apply (si_fin_sent _ _ _ _ H) in E | done]).
  set (k := if f then O else 1%nat).
  assert (Hseg : exists seg st, send_one_byte_segment f s = Ret (sent seg st (u64 (_next_seqno s + 1)) 1 (fin_sent s) s) /\
    next_seg s a k f seg /\ len seg = 1 /\ ByteStreamFacts.repr st (snd (ByteStreamSpec.read k a))).
  { unfold send_one_byte_segment. destruct f.
    - eexists _, _. split; [reflexivity |]. rewrite (sinv_ready _ _ _ _ H), !andb_true_iff, bool_decide_eq_true in Hc.
      destruct Hc as ((He & Hn) & _).
      assert (Hu : ByteStreamSpec.unread a = []) by (apply drop_ge; lia).
      pose proof (next_seg_mk s a O true Buffer.empty eq_refl) as Hs.
      rewrite Hu, (proj2 (Z.eqb_neq _ _) Hnz) in Hs.
      split_and!; [apply Hs; cbn; auto | done |].
      pose proof (si_repr _ _ _ _ H) as Hr. destruct a. unfold ByteStreamSpec.read. cbn in *. by rewrite Nat.add_0_r.
    - destruct (ByteStreamFacts.read_refines _ _ 1 (si_repr _ _ _ _ H)) as (st & Hrd & Hst); [lia |].
      cbn [fst ByteStreamSpec.read] in Hrd. change (Z.to_nat 1) with 1%nat in *. rewrite Hrd. cbn [mbind outcome_bind].
      eexists _, _. split; [reflexivity |].
      rewrite (sinv_empty _ _ _ _ H) in Hc. apply bool_decide_eq_false in Hc.
      destruct (sinv_bounds _ _ _ _ H) as (Hn & _).
      assert (Hl : Zlen (take 1 (ByteStreamSpec.unread a)) = 1).
      { unfold ByteStreamSpec.unread. zlen. unfold Zlen in *. lia. }
      pose proof (next_seg_mk s a 1 false (Buffer.of_string (take 1 (ByteStreamSpec.unread a)))
        (Buffer.str_of_string _)) as Hs. rewrite (proj2 (Z.eqb_neq _ _) Hnz) in Hs.
      split_and!; [apply Hs; [done | right; right; lia] | | done].
      unfold len. cbn [TCPSegment.payload TCPSegment._payload]. rewrite Buffer.str_of_string, Hl. done. }
  destruct Hseg as (seg & st & Heq & Hns & Hl & Hst).
  destruct (sinv_bounds _ _ _ _ H) as (_ & ? & ? & _). rewrite u64_small in Heq by lia.
  destruct (sends_one s a k f (fin_sent s) seg st una H Hns) as (Hs & _);
    [by rewrite Hfs | done | unfold k, TCPConfig.MAX_PAYLOAD_SIZE; destruct f; lia |].
  rewrite Hl in Hs. eexists _, _, _, seg. split_and!; [exact Heq | exact Hs | done | done].
Qed.

(** What [fill_window] achieves: one probe on a zero window that was not
    probed yet, or everything up to the window's edge, without crossing it. *)
Definition filled (s s' : t) : Prop :=
  (window s = 0 /\ probing s = false /\ probing s' = true /\ _next_seqno s' = _next_seqno s + 1) \/
  ((window s <> 0 \/ probing s = true \/ ReadyToFin s = false /\ ByteStream.buffer_empty (stream_in s) = true) /\
   probing s' = probing s /\
   _next_seqno s' <= Z.max (_next_seqno s) (window_right s + 1) /\
   (window_right s < _next_seqno s' \/ ~ busy s')).

Lemma fill_loop_probing fuel s s' : fill_loop fuel s = Ret s' -> probing s' = probing s.
Proof.
  revert s. induction fuel as [|fuel IH]; intros s; cbn [fill_loop];
    (destruct (_ <=? _); [| by intros [= <-]]); (destruct (_ && _ && _); [by intros [= <-] |]); [done |].
  intros (s1 & H1 & ->%IH)%bind_Ret. revert H1. unfold send_next. destruct (if next_seqno_absolute s =? 0 then _ else _) as [hd syn].
  intros ((data & st) & _ & H1)%bind_Ret. revert H1. by destruct (_ && _ && _); intros [= <-].
Qed.

Lemma fill_window_spec s a fin una :
  sinv s a fin una ->
  exists s' a' fin' new, fill_window s = Ret s' /\ sends s a una new s' a' fin' /\ filled s s'.
Proof.
  intros H. unfold fill_window.
  assert (Hloop : window s <> 0 \/ probing s = true \/ ReadyToFin s = false /\ ByteStream.buffer_empty (stream_in s) = true ->
    exists s' a' fin' new,
    fill_loop (3 + length (ByteStream.buffer (_stream s))) s = Ret s' /\ sends s a una new s' a' fin' /\ filled s s').
  { intros Hwhy. destruct (fill_loop_spec (3 + length (ByteStream.buffer (_stream s))) s a fin una H)
      as (s' & a' & fin' & new & Heq & ? & ?).
    - rewrite (ByteStreamFacts.repr_buffer _ _ (si_repr _ _ _ _ H)). unfold work. destruct (_ =? 0), fin; lia.
    - exists s', a', fin', new. apply fill_loop_probing in Heq as Hpr. split_and!; [done | done |]. right. tauto. }
  destruct (Z.eqb_spec (window s) 0) as [Hw |]; [| apply Hloop; tauto].
  destruct (probing s) eqn:Ep; [apply Hloop; tauto |]. cbn [andb negb].
  assert (Hp : forall f : bool,
    (if f then ReadyToFin s = true else ByteStream.buffer_empty (stream_in s) = false) ->
    exists s' a' fin' new, send_one_byte_segment f (with_probing true s) = Ret s' /\ sends s a una new s' a' fin' /\
      filled s s').
  { intros f Hc. destruct (probe_sends f (with_probing true s) a fin una) as (s' & a' & fin' & seg & Heq & Hs & Hl & Hpr);
      [by apply with_probing_inv | exact (zero_window_started s a fin una H Hw) | exact Hc |].
    exists s', a', fin', [seg]. pose proof (sd_train _ _ _ _ _ _ _ Hs) as [_ Ht]. cbn in Ht.
    split_and!; [done | by destruct Hs | left]. split_and!; [done | done | done | lia]. }
  destruct (ByteStream.buffer_empty (stream_in s)) eqn:Eb; cbn [negb]; [| by apply (Hp false)].
  destruct (ReadyToFin s) eqn:Er; [by apply (Hp true) | apply Hloop; tauto].
Qed.

(** ** Acknowledgements *)

Lemma remove_acked_spec cpnt ackabs q : forall una hi rm,
  0 <= cpnt <= hi -> hi <= L + 2 -> 0 <= una -> train una q hi ->
  exists gone q' una', remove_acked isn0 cpnt ackabs q (hi - una) rm =
      Ret (q', hi - una', match gone with [] => rm | _ => true end) /\
    q = gone ++ q' /\ train una gone una' /\ train una' q' hi /\
    (gone <> [] -> una' <= ackabs) /\
    (forall seg rest, q' = seg :: rest -> ackabs < una' + len seg).
Proof.
  induction q as [|seg q IH]; intros una hi rm Hc Hhi Hu Ht.
  { exists [], [], una. by split_and!. }
  pose proof (train_le _ _ _ Ht). cbn [train] in Ht. destruct Ht as [Hs Ht]. pose proof (train_le _ _ _ Ht).
  pose proof (at_len _ _ Hs). cbn [remove_acked].
  rewrite (at_seqno _ _ Hs), WrappingFacts.unwrap_wrap_near by (unfold in_bits in *; lia).
  cbn [mbind outcome_bind]. rewrite u64_small by lia. case_cmp.
  - replace (u64 (hi - una - len seg)) with (hi - (una + len seg)) by (rewrite u64_small; lia).
    destruct (IH (una + len seg) hi true) as (gone & q' & una' & -> & -> & Hg & Hq & Hle & Hh); [lia | lia | lia | done |].
    exists (seg :: gone), q', una'. split_and!; [by destruct gone | done | by cbn | done | | done].
    intros _. destruct gone; [cbn in Hg; lia | by apply Hle].
  - exists [], (seg :: q), una. split_and!; [done | done | done | by cbn | done |].
    intros seg' rest [= <- <-]. lia.
Qed.

(** What an acknowledgement does: segments it covers whole leave the queue,
    the retransmission state is reset when there are any. *)
Record acks (s : t) (una ackabs w : Z) (s' : t) (una' : Z) : Prop := {
  ak_queue : exists gone, outstandings s = gone ++ outstandings s' /\ train una gone una' /\
    (gone <> [] -> una' <= ackabs /\ RTO s' = _initial_retransmission_timeout s /\ recount s' = 0) /\
    (gone = [] -> RTO s' = RTO s /\ recount s' = recount s /\ timePassed s' = timePassed s);
  ak_front : forall seg rest, outstandings s' = seg :: rest -> ackabs < una' + len seg;
  ak_time : outstandings s' = [] -> timePassed s' = timePassed s;
  ak_window : window s' = w;
  ak_right : window_right s' = Z.max (window_right s) (u64 (ackabs + w - 1));
  ak_rest : _segments_out s' = _segments_out s /\ _next_seqno s' = _next_seqno s /\ _stream s' = _stream s /\
    _initial_retransmission_timeout s' = _initial_retransmission_timeout s;
  ak_probing : probing s' = if u64 (ackabs + w - 1) >? window_right s then false else probing s;
}.

Lemma ack_received_spec s a fin una ackno w :
  sinv s a fin una -> in_bits 32 ackno -> in_bits 16 w -> _next_seqno s <> 0 ->
  exists ackabs s' una', WrappingInt32.unwrap ackno isn0 (Z.of_nat (ByteStreamSpec.nread a)) = Ret ackabs /\
    ack_received ackno w s = Ret s' /\ sinv s' a fin una' /\
    (if ackabs >? _next_seqno s then s' = s else acks s una ackabs w s' una').
Proof.
  intros H Hack Hw Hnz. destruct (sinv_bounds _ _ _ _ H) as (Hn & Hu & Hnx & _).
  pose proof (si_hist _ _ _ _ H). unfold ack_received. destruct (sinv_bytes_read _ _ _ _ H) as (-> & _).
  rewrite (si_isn _ _ _ _ H). pose proof (WrappingFacts.base_range ackno isn0).
  rewrite WrappingFacts.unwrap_spec by (unfold in_bits in *; lia).
  set (ackabs := WrappingFacts.unwrap_result _ _ _).
  assert (Ha : in_bits 64 ackabs) by (apply WrappingFacts.unwrap_result_range; unfold in_bits; lia).
  cbn [mbind outcome_bind]. exists ackabs. unfold next_seqno_absolute.
  destruct (Z.gtb_spec ackabs (_next_seqno s)); [by exists s, una |].
  assert (Hs1 : _next_seqno s = 1 + Z.of_nat (ByteStreamSpec.nread a) + flag_len fin).
  { destruct (si_next _ _ _ _ H) as [(? & _) |]; [lia | done]. }
  destruct (remove_acked_spec (Z.of_nat (ByteStreamSpec.nread a)) ackabs (outstandings s) una (_next_seqno s) false)
    as (gone & q' & una' & Heq & Hq & Hg & Ht & Hle & Hh);
    [unfold flag_len in Hs1; destruct fin; lia | lia | lia | apply H |].
  rewrite (si_flight _ _ _ _ H), Heq. cbn [mbind outcome_bind].
  eexists _, una'. split_and!; [done | reflexivity | |].
  - pose proof (train_le _ _ _ Hg). pose proof (u64_range (ackabs + w - 1)).
    destruct H. constructor; cbn; try done; [by right | lia | by destruct (_ >? _)].
  - constructor; cbn; [| done | intros ->; by rewrite andb_false_r | done | | done | done].
    + exists gone. split_and!; [done | done | |]; destruct gone; done || auto.
    + destruct (Z.gtb_spec (u64 (ackabs + w - 1)) (window_right s)); lia.
Qed.

(** ** Time *)

Lemma tick_inv ms s a fin una : sinv s a fin una -> sinv (tick ms s) a fin una.
Proof. intros []. unfold tick. destruct (outstandings s) as [|front q] eqn:Eq; [by constructor; rewrite ?Eq |].
  destruct (_ >=? _); constructor; cbn; rewrite ?Eq; done.
Qed.

Lemma tick_out ms s a fin una :
  sinv s a fin una ->
  exists new, _segments_out (tick ms s) = _segments_out s ++ new /\ Forall (genuine_segment Str L isn0) new /\
    _next_seqno (tick ms s) = _next_seqno s.
Proof.
  intros H. pose proof (train_genuine _ _ _ (si_train _ _ _ _ H)) as Hg. unfold tick.
  destruct (outstandings s) as [|front q]; [exists []; by rewrite app_nil_r |].
  inversion Hg; subst. destruct (_ >=? _); [exists [front]; by split_and!; [| constructor |] |].
  exists []. by rewrite app_nil_r.
Qed.

(** ** The owner's operations *)

Lemma with_segments_out_inv q s a fin una : sinv s a fin una -> sinv (with_segments_out q s) a fin una.
Proof. by intros []. Qed.

(** Segments without payload: acknowledgements and resets. *)
Lemma bare_genuine s a fin una h :
  sinv s a fin una -> TCPHeader.seqno h = next_seqno s -> typed h ->
  TCPHeader.syn h = false -> TCPHeader.fin h = false ->
  genuine_segment Str L isn0 (TCPSegment.mk h Buffer.empty).
Proof.
  intros H Hseq Ht Hsyn Hfin. destruct (sinv_bounds _ _ _ _ H) as (_ & ? & ? & _).
  assert (Habs : abs_seqno isn0 (TCPSegment.mk h Buffer.empty) = _next_seqno s).
  { unfold abs_seqno. cbn. rewrite Hseq. unfold next_seqno. rewrite (si_isn _ _ _ _ H). apply base_wrap. lia. }
  split_and!; [done | cbn; congruence |].
  intros i. unfold place. rewrite Habs. cbn. rewrite Hsyn. destruct (Z.eqb_spec (_next_seqno s) 0); [done |].
  intros [= <-]. right. split; [done | lia].
Qed.

Lemma typed_new s : typed (new_segment s).
Proof. split; [apply WrappingFacts.wrap_range | done]. Qed.

Lemma write_inv s a fin una data :
  sinv s a fin una -> ByteStreamSpec.ended a = false ->
  agrees Str (Zlen (ByteStreamSpec.hist a)) data -> Zlen (ByteStreamSpec.hist a) + Zlen data <= L ->
  exists n st, ByteStream.write data (_stream s) = Ret (n, st) /\
    sinv (with_stream st s) (snd (ByteStreamSpec.write data a)) fin una.
Proof.
  intros H He Hd Hl. destruct (ByteStreamFacts.write_refines _ _ data (si_repr _ _ _ _ H)) as (st & Hw & Hst); [lia |].
  eexists _, st. split; [exact Hw |].
  assert (Hf : fin = false) by (destruct fin; [destruct (si_fin _ _ _ _ H eq_refl); congruence | done]).
  subst fin. destruct H. constructor; cbn; try done; try congruence.
  - apply agrees_app. split; [done |]. by apply agrees_take.
  - zlen. lia.
Qed.

Lemma end_input_inv s a fin una :
  sinv s a fin una -> Zlen (ByteStreamSpec.hist a) = L ->
  exists a', sinv (with_stream (ByteStream.end_input (_stream s)) s) a' fin una.
Proof.
  intros H Hl. exists (ByteStreamSpec.mk (ByteStreamSpec.cap a) (ByteStreamSpec.hist a) (ByteStreamSpec.nread a)
    true (ByteStreamSpec.failed a)).
  destruct H. constructor; cbn; try done; [by apply ByteStreamFacts.end_input_refines |].
  intros Hf. by destruct (si_fin0 Hf).
Qed.

(** ** Runs

    [sreach s popped]: the sender reached [s], and the owner has taken the
    segments [popped] from its queue; [popped ++ segments_out s] is all that
    was emitted. *)

Inductive sreach : t -> list TCPSegment.t -> Prop :=
| sr_make cap rt fixed rnd :
    Z.of_nat cap < 2 ^ 31 -> default rnd fixed = isn0 ->
    sreach (make (Z.of_nat cap) rt fixed rnd) []
| sr_write s p data n st :
    sreach s p -> ByteStream.input_ended (_stream s) = false ->
    agrees Str (ByteStream.bytes_written (_stream s)) data ->
    ByteStream.bytes_written (_stream s) + Zlen data <= L ->
    ByteStream.write data (_stream s) = Ret (n, st) -> sreach (with_stream st s) p
| sr_end s p :
    sreach s p -> ByteStream.bytes_written (_stream s) = L ->
    sreach (with_stream (ByteStream.end_input (_stream s)) s) p
| sr_fill s p s' :
    sreach s p -> fill_window s = Ret s' -> sreach s' p
| sr_ack s p s' ackno w :
    sreach s p -> in_bits 32 ackno -> in_bits 16 w -> _next_seqno s <> 0 ->
    ack_received ackno w s = Ret s' -> sreach s' p
| sr_tick s p ms : sreach s p -> sreach (tick ms s) p
| sr_empty s p : sreach s p -> sreach (send_empty_segment s) p
| sr_pop s p seg q :
    sreach s p -> _segments_out s = seg :: q -> sreach (with_segments_out q s) (p ++ [seg]).

(** The number [x] was sent. *)
Definition covered (e : list TCPSegment.t) (x : Z) : Prop :=
  Exists (fun seg => seg_at (abs_seqno isn0 seg) seg /\ abs_seqno isn0 seg <= x < abs_seqno isn0 seg + len seg) e.

(** The segments [e] are parts of the stream and make up its first [n]
    numbers. *)
Definition out_ok (n : Z) (e : list TCPSegment.t) : Prop :=
  Forall (genuine_segment Str L isn0) e /\ (forall x, 0 <= x < n -> covered e x).

(** The invariant, with the segments [out] already gone. *)
Definition sok (s : t) (out : list TCPSegment.t) : Prop :=
  exists a fin una, sinv s a fin una /\ out_ok (_next_seqno s) (out ++ _segments_out s).

Lemma train_covered lo q hi x : train lo q hi -> lo <= x < hi -> covered q x.
Proof.
  revert lo. induction q as [|seg q IH]; intros lo; cbn [train]; [lia |].
  intros [Hs Hq] Hx. pose proof (at_abs _ _ Hs) as Ha.
  destruct (Z.lt_ge_cases x (lo + len seg)).
  - apply Exists_cons. left. rewrite Ha. split; [done | lia].
  - apply Exists_cons. right. apply (IH (lo + len seg)); [done | lia].
Qed.

Lemma out_ok_app n n' e new :
  out_ok n e -> Forall (genuine_segment Str L isn0) new ->
  (forall x, n <= x < n' -> covered new x) -> out_ok n' (e ++ new).
Proof.
  intros (Hg & Hc) Hn Hx. split; [by apply Forall_app |].
  intros x Hx0. apply Exists_app. destruct (Z.lt_ge_cases x n); [left; apply Hc | right; apply Hx]; lia.
Qed.

Lemma out_ok_same n e new : out_ok n e -> Forall (genuine_segment Str L isn0) new -> out_ok n (e ++ new).
Proof. intros He Hn. apply (out_ok_app n); [done | done | lia]. Qed.

Lemma make_sinv cap rt fixed rnd :
  Z.of_nat cap < 2 ^ 31 -> default rnd fixed = isn0 ->
  sinv (make (Z.of_nat cap) rt fixed rnd) (ByteStreamSpec.mk cap [] 0 false false) false 0.
Proof.
  intros Hc Hi. constructor; cbn; try done; [by apply ByteStreamFacts.repr_make | change (0 <= L); lia | by left].
Qed.

Lemma sok_fill s out : sok s out -> exists s', fill_window s = Ret s' /\ sok s' out.
Proof.
  intros (a & fin & una & H & Ho). destruct (fill_window_spec s a fin una H) as (s' & a' & fin' & new & Hf & Hs & _).
  exists s'. split; [done |]. exists a', fin', una. split; [apply Hs |].
  rewrite (sd_out _ _ _ _ _ _ _ Hs), app_assoc. apply (out_ok_app (_next_seqno s)); [done | eapply train_genuine, Hs |].
  intros x Hx. eapply train_covered; [apply Hs | done].
Qed.

Lemma sok_ack s out ackno w :
  sok s out -> in_bits 32 ackno -> in_bits 16 w -> _next_seqno s <> 0 ->
  exists s', ack_received ackno w s = Ret s' /\ sok s' out /\ _next_seqno s' = _next_seqno s.
Proof.
  intros (a & fin & una & H & Ho) Ha Hw Hnz.
  destruct (ack_received_spec s a fin una ackno w H Ha Hw Hnz) as (ackabs & s' & una' & _ & Hr & H' & Hk).
  exists s'. split; [done |].
  assert (Heq : _segments_out s' = _segments_out s /\ _next_seqno s' = _next_seqno s).
  { destruct (ackabs >? _next_seqno s); [by subst |]. destruct Hk as [_ _ _ _ _ (? & ? & _) _]. done. }
  destruct Heq as (Hq & Hn). split; [| done]. exists a, fin, una'. by rewrite Hq, Hn.
Qed.

Lemma sok_tick s out ms : sok s out -> sok (tick ms s) out.
Proof.
  intros (a & fin & una & H & Ho). exists a, fin, una. split; [by apply tick_inv |].
  destruct (tick_out ms s a fin una H) as (new & -> & Hg & ->). rewrite app_assoc. by apply out_ok_same.
Qed.

Lemma sok_queue s out q :
  sok s out -> out_ok (_next_seqno s) (out ++ q) -> sok (with_segments_out q s) out.
Proof. intros (a & fin & una & H & _) Hq. exists a, fin, una. by split; [apply with_segments_out_inv |]. Qed.

Lemma sok_bare s out h :
  sok s out -> TCPHeader.seqno h = next_seqno s -> typed h ->
  TCPHeader.syn h = false -> TCPHeader.fin h = false ->
  sok (with_segments_out (_segments_out s ++ [TCPSegment.mk h Buffer.empty]) s) out.
Proof.
  intros H Hs Ht Hsyn Hfin. apply sok_queue; [done |]. destruct H as (a & fin & una & H & Ho).
  rewrite app_assoc. apply out_ok_same; [done |]. constructor; [by eapply bare_genuine | done].
Qed.

Lemma sok_empty s out : sok s out -> sok (send_empty_segment s) out.
Proof. intros H. apply sok_bare; [done | done | apply typed_new | done | done]. Qed.

Lemma sok_rst s out : sok s out -> sok (send_empty_segment_RST s) out.
Proof. intros H. apply sok_bare; [done | done | apply (typed_new s) | done | done]. Qed.

Lemma sok_error s out : sok s out -> sok (with_stream (ByteStream.set_error (_stream s)) s) out.
Proof.
  intros (a & fin & una & H & Ho). exists (ByteStreamSpec.mk (ByteStreamSpec.cap a) (ByteStreamSpec.hist a)
    (ByteStreamSpec.nread a) (ByteStreamSpec.ended a) true), fin, una.
  split; [| done]. destruct H. constructor; try done. by apply ByteStreamFacts.set_error_refines.
Qed.

Lemma sok_write s out data :
  sok s out -> ByteStream.input_ended (_stream s) = false ->
  agrees Str (ByteStream.bytes_written (_stream s)) data ->
  ByteStream.bytes_written (_stream s) + Zlen data <= L ->
  exists n st, ByteStream.write data (_stream s) = Ret (n, st) /\ sok (with_stream st s) out.
Proof.
  intros (a & fin & una & H & Ho) Hend Hd Hl.
  pose proof (sinv_bytes_read _ _ _ _ H) as (_ & Hb). unfold stream_in in Hb. rewrite Hb in Hd, Hl.
  assert (Hne : ByteStreamSpec.ended a = false) by (by rewrite <- (ByteStreamFacts.repr_ended _ _ (si_repr _ _ _ _ H))).
  destruct (write_inv s a fin una data H Hne Hd Hl) as (n & st & Hw & H').
  exists n, st. split; [done |]. by exists (snd (ByteStreamSpec.write data a)), fin, una.
Qed.

Lemma sok_end s out :
  sok s out -> ByteStream.bytes_written (_stream s) = L ->
  sok (with_stream (ByteStream.end_input (_stream s)) s) out.
Proof.
  intros (a & fin & una & H & Ho) Hl.
  pose proof (sinv_bytes_read _ _ _ _ H) as (_ & Hb). unfold stream_in in Hb. rewrite Hb in Hl.
  destruct (end_input_inv s a fin una H Hl) as (a' & H'). by exists a', fin, una.
Qed.

Lemma sok_make cap rt fixed rnd :
  Z.of_nat cap < 2 ^ 31 -> default rnd fixed = isn0 -> sok (make (Z.of_nat cap) rt fixed rnd) [].
Proof.
  intros Hc Hi. eexists _, _, _. split; [by apply make_sinv |]. split; [done | cbn; lia].
Qed.

Lemma sreach_ok s p : sreach s p -> sok s p.
Proof.
  induction 1 as [cap rt fixed rnd Hc Hi | s p data n st _ IH Hend Hd Hl Hw | s p _ IH Hl | s p s' _ IH Hf
    | s p s' ackno w _ IH Ha Hw Hnz Hr | s p ms _ IH | s p _ IH | s p seg q _ IH Hq].
  - by apply sok_make.
  - destruct (sok_write s p data IH Hend Hd Hl) as (n' & st' & Hw' & H'). rewrite Hw in Hw'. by injection Hw' as <- <-.
  - by apply sok_end.
  - destruct (sok_fill s p IH) as (s1 & Hf' & H'). rewrite Hf in Hf'. by injection Hf' as <-.
  - destruct (sok_ack s p ackno w IH Ha Hw Hnz) as (s1 & Hr' & H' & _). rewrite Hr in Hr'. by injection Hr' as <-.
  - by apply sok_tick.
  - by apply sok_empty.
  - destruct IH as (a & fin & una & H & Ho). exists a, fin, una. split; [by apply with_segments_out_inv |].
    rewrite Hq in Ho. by rewrite <- app_assoc.
Qed.

(** ** What a sent segment carries *)

Lemma seg_at_place y seg :
  seg_at y seg ->
  exists p, place isn0 seg = Some p /\ (y = p + 1 \/ y = 0 /\ p = 0) /\
    genuine Str L (Buffer.str (TCPSegment.payload seg)) p (TCPHeader.fin (TCPSegment.header seg)) /\
    y + len seg = p + 1 + Zlen (Buffer.str (TCPSegment.payload seg)) + flag_len (TCPHeader.fin (TCPSegment.header seg)).
Proof.
  intros [(Hr & Hs & Hg) Ha _ Hsyn Hl _]. unfold place in *. rewrite Ha, Hsyn in *.
  unfold len in *. rewrite Hsyn in *. unfold bare in Hg.
  destruct (Z.eqb_spec y 0) as [-> | Hne].
  - exists 0. destruct (Hg 0 eq_refl) as [Hgen | [(Hp & Hf) ?]].
    + split_and!; [done | by right | done |]. unfold flag_len. destruct (TCPHeader.fin _); lia.
    + rewrite Hp, Hf in *. split_and!; [done | by right | | done]. split_and!; [lia | change (0 <= L); lia | apply agrees_nil | done].
  - exists (y - 1). destruct (Hg (y - 1) eq_refl) as [Hgen | [(Hp & Hf) ?]].
    + split_and!; [done | left; lia | done |]. unfold flag_len. destruct (TCPHeader.fin _); lia.
    + rewrite Hp, Hf in Hl. change (0 < 0) in Hl. lia.
Qed.

Lemma covered_byte e i : 0 <= i < L -> covered e (i + 1) -> Exists (fun seg => carries isn0 seg i) e.
Proof.
  intros Hi Hc. eapply Exists_impl; [exact Hc |]. intros seg (Hs & Hx).
  destruct (seg_at_place _ _ Hs) as (p & Hp & Hy & (Hg1 & Hg2 & _ & Hg3) & Hl).
  exists p. split; [done |]. unfold flag_len in Hl. destruct (TCPHeader.fin _); [specialize (Hg3 eq_refl); lia | lia].
Qed.

Lemma covered_fin e : covered e (L + 1) -> Exists (ends_stream isn0) e.
Proof.
  intros Hc. eapply Exists_impl; [exact Hc |]. intros seg (Hs & Hx).
  destruct (seg_at_place _ _ Hs) as (p & Hp & Hy & (Hg1 & Hg2 & _ & Hg3) & Hl).
  unfold ends_stream. rewrite Hp. unfold flag_len in Hl. destruct (TCPHeader.fin _); [by split | lia].
Qed.

Lemma train_sum lo q hi : train lo q hi -> hi - lo = foldr (fun seg n => len seg + n) 0 q.
Proof.
  revert lo. induction q as [|seg q IH]; intros lo; cbn [train foldr]; [lia |].
  intros [_ Hq]. apply IH in Hq. lia.
Qed.

End Stream.

(** C4: in every run of a sender (the owner writing a stream of [L] bytes,
    any acknowledgements and time in between): every segment emitted is a
    part of the stream with the right sequence number and flags; every number
    below [next_seqno_absolute] has been sent; [bytes_in_flight] is the total
    length of the outstanding segments; and [fill_window] and [ack_received]
    return, on any acknowledgement. *)
Theorem sender_safe (Str : Z -> byte) (L : Z) (isn0 : WrappingInt32.t) (s : t) (p : list TCPSegment.t) :
  in_bits 32 isn0 -> 0 <= L /\ L + 2 < 2 ^ 31 -> sreach Str L isn0 s p ->
  Forall (genuine_segment Str L isn0) (p ++ segments_out s) /\
  (forall x, 0 <= x < next_seqno_absolute s -> covered Str L isn0 (p ++ segments_out s) x) /\
  bytes_in_flight s = foldr (fun seg n => len seg + n) 0 (outstandings s) /\
  (next_seqno_absolute s = 0 \/
   exists fin : bool, next_seqno_absolute s = 1 + ByteStream.bytes_read (stream_in s) + (if fin then 1 else 0) /\
     (fin = true -> ByteStream.eof (stream_in s) = true)) /\
  (exists s', fill_window s = Ret s') /\
  (forall ackno w, in_bits 32 ackno -> in_bits 16 w -> next_seqno_absolute s <> 0 ->
     exists s', ack_received ackno w s = Ret s').
Proof.
  intros Hisn Hb Hr. destruct (sreach_ok Str L isn0 Hisn Hb s p Hr) as (a & fin & una & H & Hg & Hc).
  split_and!; [done | done | | | |].
  - unfold bytes_in_flight. rewrite (si_flight _ _ _ _ _ _ _ H). eapply train_sum, H.
  - destruct (si_next _ _ _ _ _ _ _ H) as [(Hz & _) | Hn]; [by left | right]. exists fin.
    destruct (sinv_bytes_read Str L isn0 Hb _ _ _ _ H) as (-> & _). split; [done |].
    intros ->. destruct (si_fin _ _ _ _ _ _ _ H eq_refl) as (He & Hn').
    unfold stream_in. by rewrite (ByteStreamFacts.repr_eof _ _ (si_repr _ _ _ _ _ _ _ H)), He, bool_decide_true.
  - destruct (fill_window_spec Str L isn0 Hb s a fin una H) as (s' & _ & _ & _ & ? & _). eauto.
  - intros ackno w Ha Hw Hnz.
    destruct (ack_received_spec Str L isn0 Hisn Hb s a fin una ackno w H Ha Hw Hnz) as (_ & s' & _ & _ & ? & _). eauto.
Qed.

(** C14: [fill_window] sends what the window allows and no more: on a zero
    window one byte (or the FIN) as a probe, unless there is none or the
    window was probed before; otherwise segments of at most
    MAX_PAYLOAD_SIZE bytes, contiguous from [next_seqno], none past the right
    edge of the window, until the edge is reached or nothing is left to send. *)
Theorem fill_window_correct (Str : Z -> byte) (L : Z) (isn0 : WrappingInt32.t) (s : t) (p : list TCPSegment.t) :
  in_bits 32 isn0 -> 0 <= L /\ L + 2 < 2 ^ 31 -> sreach Str L isn0 s p ->
  exists s' new, fill_window s = Ret s' /\ segments_out s' = segments_out s ++ new /\
    outstandings s' = outstandings s ++ new /\
    train Str L isn0 (next_seqno_absolute s) new (next_seqno_absolute s') /\
    Forall (fun seg => Zlen (Buffer.str (TCPSegment.payload seg)) <= TCPConfig.MAX_PAYLOAD_SIZE) new /\
    filled s s'.
Proof.
  intros Hisn Hb Hr. destruct (sreach_ok Str L isn0 Hisn Hb s p Hr) as (a & fin & una & H & _).
  destruct (fill_window_spec Str L isn0 Hb s a fin una H) as (s' & a' & fin' & new & Hf & [] & Hfl).
  exists s', new. split_and!; done.
Qed.


(** C7: end to end with the receiver: once the sender has sent its whole
    stream and the FIN, a receiver with room for the stream that gets the
    segments emitted, each at least once, the SYN before the others but
    otherwise in any order and any number of times, holds exactly the stream,
    ended, and acknowledges the FIN. *)
Theorem transfer_complete (Str : Z -> byte) (L : Z) (isn0 : WrappingInt32.t) (s : t)
    (p arrived : list TCPSegment.t) (first : TCPSegment.t) (cp : nat) :
  in_bits 32 isn0 -> 0 <= L /\ L + Z.of_nat cp + 2 < 2 ^ 31 -> L <= Z.of_nat cp ->
  sreach Str L isn0 s p -> next_seqno_absolute s = L + 2 ->
  TCPHeader.syn (TCPSegment.header first) = true ->
  (forall seg, seg ∈ first :: arrived <-> seg ∈ p ++ segments_out s) ->
  exists r, receive_all (first :: arrived) (TCPReceiver.make (Z.of_nat cp)) = Ret r /\
    Zlen (ByteStream.buffer (TCPReceiver.stream_out r)) = L /\
    agrees Str 0 (ByteStream.buffer (TCPReceiver.stream_out r)) /\
    ByteStream.input_ended (TCPReceiver.stream_out r) = true /\
    TCPReceiver.ackno r = Some (next_seqno s).
Proof.
  intros Hisn Hb HL Hr Hn Hs Hperm.
  assert (Hb' : 0 <= L /\ L + 2 < 2 ^ 31) by lia.
  destruct (sreach_ok Str L isn0 Hisn Hb' s p Hr) as (a & fin & una & H & Hg & Hc).
  unfold next_seqno_absolute in Hn. rewrite Hn in Hc.
  assert (Hex : forall P : TCPSegment.t -> Prop, Exists P (p ++ _segments_out s) -> Exists P (first :: arrived)).
  { intros P (seg & Hin & HP)%Exists_exists. apply Exists_exists. exists seg. by rewrite Hperm. }
  destruct (deliver_all Str cp L isn0 arrived first Hisn Hb HL Hs) as (r & ? & ? & ? & ? & Hack & _).
  - apply Forall_forall. intros seg Hin%Hperm. by eapply Forall_forall in Hg.
  - apply Hex, (covered_fin Str L isn0 Hb'), Hc. lia.
  - intros i Hi. apply Hex, (covered_byte Str L isn0 Hb'); [done | apply Hc; lia].
  - exists r. split_and!; try done. rewrite Hack. unfold next_seqno. by rewrite Hn, (si_isn _ _ _ _ _ _ _ H).
Qed.

Lemma ack_right_top ackno w s s' :
  ack_received ackno w s = Ret s' -> window_right s = 2 ^ 64 - 1 -> window_right s' = 2 ^ 64 - 1.
Proof.
  unfold ack_received. intros (ackabs & _ & Hs)%bind_Ret Hr.
  destruct (ackabs >? _); [by injection Hs as <- |].
  apply bind_Ret in Hs as (((q & fl) & rm) & _ & [= <-]). cbn. rewrite Hr.
  pose proof (u64_range (ackabs + w - 1)). destruct (Z.gtb_spec (u64 (ackabs + w - 1)) (2 ^ 64 - 1)); lia.
Qed.

(** An acknowledgement of nothing (the initial sequence number) with a
    zero window underflows [ackabs + window_size - 1]: the right edge of the
    window becomes 2^64 - 1, and no later acknowledgement brings it back, so
    the peer's window is ignored from then on. *)
Theorem zero_window_underflow (Str : Z -> byte) (L : Z) (isn0 : WrappingInt32.t) (s : t) (p : list TCPSegment.t) :
  in_bits 32 isn0 -> 0 <= L /\ L + 2 < 2 ^ 31 -> sreach Str L isn0 s p -> 0 < next_seqno_absolute s ->
  exists s', ack_received isn0 0 s = Ret s' /\ window s' = 0 /\ window_right s' = 2 ^ 64 - 1 /\
    (forall ackno w s'', ack_received ackno w s' = Ret s'' -> window_right s'' = 2 ^ 64 - 1).
Proof.
  intros Hisn Hb Hr Hnz. destruct (sreach_ok Str L isn0 Hisn Hb s p Hr) as (a & fin & una & H & _).
  destruct (sinv_bounds Str L isn0 Hb _ _ _ _ H) as (Hn & _). pose proof (si_hist _ _ _ _ _ _ _ H).
  unfold next_seqno_absolute in Hnz.
  destruct (ack_received_spec Str L isn0 Hisn Hb s a fin una isn0 0 H Hisn) as (ackabs & s' & una' & Hu & Hs' & H' & Hk);
    [unfold in_bits; lia | lia |].
  assert (Hw : WrappingInt32.wrap 0 isn0 = isn0) by (rewrite WrappingFacts.wrap_spec; by apply Z.mod_small).
  rewrite <- Hw in Hu at 1. rewrite WrappingFacts.unwrap_wrap_near in Hu by (unfold in_bits in *; lia). injection Hu as <-.
  destruct (Z.gtb_spec 0 (_next_seqno s)); [lia |]. destruct Hk as [_ _ _ Hkw Hkr _ _].
  pose proof (si_right _ _ _ _ _ _ _ H) as Hri. unfold in_bits in Hri.
  assert (Htop : window_right s' = 2 ^ 64 - 1) by (rewrite Hkr; change (u64 (0 + 0 - 1)) with (2 ^ 64 - 1); lia).
  exists s'. split_and!; [done | done | done |]. intros ackno w s'' Ha. by eapply ack_right_top.
Qed.

(** The retransmission timer is not restarted when the last outstanding
    segment is acknowledged: the time [timePassed] that had run until then
    counts against the next segment sent, which is retransmitted after
    [ms] milliseconds as soon as both together reach the timeout. *)
Theorem stale_timer_retransmits (Str : Z -> byte) (L : Z) (isn0 : WrappingInt32.t) (s s1 s2 : t)
    (p q : list TCPSegment.t) (front : TCPSegment.t) (ackno w ms : Z) :
  in_bits 32 isn0 -> 0 <= L /\ L + 2 < 2 ^ 31 -> sreach Str L isn0 s p -> 0 < next_seqno_absolute s ->
  in_bits 32 ackno -> in_bits 16 w -> outstandings s <> [] ->
  ack_received ackno w s = Ret s1 -> outstandings s1 = [] ->
  fill_window s1 = Ret s2 -> outstandings s2 = front :: q ->
  0 <= timePassed s + ms < 2 ^ 64 -> _initial_retransmission_timeout s <= timePassed s + ms ->
  segments_out (tick ms s2) = segments_out s2 ++ [front].
Proof.
  intros Hisn Hb Hr Hnz Ha Hw Hout Hack Hq1 Hfill Hq2 Hms Hto.
  destruct (sreach_ok Str L isn0 Hisn Hb s p Hr) as (a & fin & una & H & _). unfold next_seqno_absolute in Hnz.
  destruct (ack_received_spec Str L isn0 Hisn Hb s a fin una ackno w H Ha Hw) as (ackabs & s' & una' & _ & Hs' & H' & Hk); [lia |].
  rewrite Hack in Hs'. injection Hs' as <-. destruct (ackabs >? _); [by subst |].
  destruct Hk as [(gone & Hg & _ & Hrto & _) _ Ht _ _ _ _]. rewrite Hq1, app_nil_r in Hg. subst gone.
  destruct (Hrto Hout) as (_ & HR & _). specialize (Ht Hq1).
  destruct (fill_window_spec Str L isn0 Hb s1 a fin una' H') as (s2' & a' & fin' & new & Hf & [_ _ _ _ (_ & _ & Ht2 & HR2 & _) _ _] & _).
  rewrite Hfill in Hf. injection Hf as <-. unfold tick. rewrite Hq2, Ht2, Ht, HR2, HR.
  rewrite u64_small by lia. destruct (Z.geb_spec (ms + timePassed s) (_initial_retransmission_timeout s)); [done | lia].
Qed.

(** ** A run: the stream "abc" numbered from 5, timeout 1000 ms *)

Definition ret {A} (d : A) (o : outcome A) : A := match o with Ret x => x | _ => d end.

Definition run0 : t := make 8 1000 (Some 5) 0.
Definition run1 : t := Eval vm_compute in ret run0 (fill_window run0).
Definition run2 : t := Eval vm_compute in
  with_stream (snd (ret (0, _stream run1) (ByteStream.write [Byte.x61; Byte.x62; Byte.x63] (_stream run1)))) run1.
Definition run3 : t := Eval vm_compute in tick 999 run2.
Definition run4 : t := Eval vm_compute in ret run3 (ack_received 6 10 run3).
Definition run5 : t := Eval vm_compute in with_stream (ByteStream.end_input (_stream run4)) run4.
Definition run6 : t := Eval vm_compute in ret run5 (fill_window run5).

Lemma sample_run :
  sreach sample 3 5 run2 [] /\ sreach sample 3 5 run3 [] /\ sreach sample 3 5 run4 [] /\ sreach sample 3 5 run6 [].
Proof.
  assert (R0 : sreach sample 3 5 run0 []) by (by apply (sr_make sample 3 5 8 1000 (Some 5) 0)).
  assert (R1 : sreach sample 3 5 run1 []) by exact (sr_fill sample 3 5 run0 [] run1 R0 eq_refl).
  assert (R2 : sreach sample 3 5 run2 []).
  { refine (sr_write sample 3 5 run1 _ [Byte.x61; Byte.x62; Byte.x63] 3 (_stream run2) R1 eq_refl _ _ eq_refl);
      [solve_agrees | vm_compute; congruence]. }
  assert (R3 : sreach sample 3 5 run3 []) by exact (sr_tick sample 3 5 run2 [] 999 R2).
  assert (R4 : sreach sample 3 5 run4 []).
  { refine (sr_ack sample 3 5 run3 _ run4 6 10 R3 _ _ _ eq_refl); [unfold in_bits; lia | unfold in_bits; lia | done]. }
  assert (R5 : sreach sample 3 5 run5 []) by exact (sr_end sample 3 5 run4 _ R4 eq_refl).
  split_and!; [done | done | done |]. exact (sr_fill sample 3 5 run5 [] run6 R5 eq_refl).
Defined.

Lemma sender_safe_witness :
  bytes_in_flight run6 = 4 /\ Forall (genuine_segment sample 3 5) (_segments_out run6).
Proof.
  destruct (sender_safe sample 3 5 run6 []) as (H1 & _ & H2 & _);
    [unfold in_bits; lia | lia | apply sample_run |].
  split; [exact H2 | exact H1].
Defined.

Lemma fill_window_correct_witness :
  exists s' new, fill_window run4 = Ret s' /\ segments_out s' = segments_out run4 ++ new /\ filled run4 s'.
Proof.
  destruct (fill_window_correct sample 3 5 run4 []) as (s' & new & H1 & H2 & _ & _ & _ & H3);
    [unfold in_bits; lia | lia | apply sample_run |].
  exists s', new. split_and!; [exact H1 | exact H2 | exact H3].
Defined.


Lemma transfer_complete_witness :
  exists r, receive_all (_segments_out run6 ++ _segments_out run6) (TCPReceiver.make 8) = Ret r /\
    Zlen (ByteStream.buffer (TCPReceiver.stream_out r)) = 3 /\
    ByteStream.input_ended (TCPReceiver.stream_out r) = true.
Proof.
  destruct (transfer_complete sample 3 5 run6 [] (drop 1 (_segments_out run6) ++ _segments_out run6)
    (hd TCPSegment.default_ (_segments_out run6)) 8) as (r & H1 & H2 & _ & H3 & _);
    [unfold in_bits; lia | lia | lia | apply sample_run | reflexivity | reflexivity | |].
  - intros seg. change (hd _ _ :: drop 1 (_segments_out run6) ++ _segments_out run6)
      with (_segments_out run6 ++ _segments_out run6). rewrite elem_of_app. tauto.
  - exists r. split_and!; [exact H1 | exact H2 | exact H3].
Defined.

Lemma zero_window_underflow_witness :
  exists s', ack_received 5 0 run2 = Ret s' /\ window_right s' = 2 ^ 64 - 1.
Proof.
  destruct (zero_window_underflow sample 3 5 run2 []) as (s' & H1 & _ & H2 & _);
    [unfold in_bits; lia | lia | apply sample_run | vm_compute; congruence |].
  exists s'. split; [exact H1 | exact H2].
Defined.

(** After 999 ms of waiting for the SYN's acknowledgement, "abc" is sent and
    retransmitted one millisecond later. *)
Lemma stale_timer_retransmits_witness :
  exists s2 front, fill_window run4 = Ret s2 /\ segments_out (tick 1 s2) = segments_out s2 ++ [front].
Proof.
  eexists (ret run4 (fill_window run4)), _. split; [reflexivity |].
  eapply (stale_timer_retransmits sample 3 5 run3 run4 _ [] _ _ 6 10 1);
    [unfold in_bits; lia | lia | apply sample_run | vm_compute; congruence | unfold in_bits; lia | unfold in_bits; lia
    | vm_compute; congruence | reflexivity | reflexivity | reflexivity | vm_compute; reflexivity
    | vm_compute; intuition congruence | vm_compute; congruence].
Defined.

End SenderFacts.
