(* ===== verification/tcp_state.v ===== *)
(** * libsponge/tcp_helpers/tcp_state: the official TCP states

    The summaries are the strings of the source, compared as strings. *)

From S2P Require Import Prelude byte_stream tcp_receiver tcp_sender.

Module TCPReceiverStateSummary.
Definition ERROR : string := "error (connection was reset)".
Definition LISTEN : string := "waiting for SYN: ackno is empty".
Definition SYN_RECV : string := "SYN received (ackno exists), and input to stream hasn't ended".
Definition FIN_RECV : string := "input to stream has ended".
End TCPReceiverStateSummary.

Module TCPSenderStateSummary.
Definition ERROR : string := "error (connection was reset)".
Definition CLOSED : string := "waiting for stream to begin (no SYN sent)".
Definition SYN_SENT : string := "stream started but nothing acknowledged".
Definition SYN_ACKED : string := "stream ongoing".
Definition FIN_SENT : string := "stream finished (FIN sent) but not fully acknowledged".
Definition FIN_ACKED : string := "stream finished and fully acknowledged".
End TCPSenderStateSummary.

Module TCPState.

Record t := mk {
  _sender : string;
  _receiver : string;
  _active : bool;
  _linger_after_streams_finish : bool;
}.

#[global] Instance state_eq_decision : EqDecision t.
Proof. solve_decision. Defined.

Definition eqb (a b : t) : bool :=
  Bool.eqb (_active a) (_active b) &&
  Bool.eqb (_linger_after_streams_finish a) (_linger_after_streams_finish b) &&
  String.eqb (_sender a) (_sender b) && String.eqb (_receiver a) (_receiver b).
Definition neqb (a b : t) : bool := negb (eqb a b).

Inductive State :=
| LISTEN | SYN_RCVD | SYN_SENT | ESTABLISHED | CLOSE_WAIT | LAST_ACK
| FIN_WAIT_1 | FIN_WAIT_2 | CLOSING | TIME_WAIT | CLOSED | RESET.

Definition of_state (state : State) : t :=
  match state with
  | LISTEN => mk TCPSenderStateSummary.CLOSED TCPReceiverStateSummary.LISTEN true true
  | SYN_RCVD => mk TCPSenderStateSummary.SYN_SENT TCPReceiverStateSummary.SYN_RECV true true
  | SYN_SENT => mk TCPSenderStateSummary.SYN_SENT TCPReceiverStateSummary.LISTEN true true
  | ESTABLISHED => mk TCPSenderStateSummary.SYN_ACKED TCPReceiverStateSummary.SYN_RECV true true
  | CLOSE_WAIT => mk TCPSenderStateSummary.SYN_ACKED TCPReceiverStateSummary.FIN_RECV true false
  | LAST_ACK => mk TCPSenderStateSummary.FIN_SENT TCPReceiverStateSummary.FIN_RECV true false
  | CLOSING => mk TCPSenderStateSummary.FIN_SENT TCPReceiverStateSummary.FIN_RECV true true
  | FIN_WAIT_1 => mk TCPSenderStateSummary.FIN_SENT TCPReceiverStateSummary.SYN_RECV true true
  | FIN_WAIT_2 => mk TCPSenderStateSummary.FIN_ACKED TCPReceiverStateSummary.SYN_RECV true true
  | TIME_WAIT => mk TCPSenderStateSummary.FIN_ACKED TCPReceiverStateSummary.FIN_RECV true true
  | RESET => mk TCPSenderStateSummary.ERROR TCPReceiverStateSummary.ERROR false false
  | CLOSED => mk TCPSenderStateSummary.FIN_ACKED TCPReceiverStateSummary.FIN_RECV false false
  end.

(** [state_summary(const TCPReceiver &)]. *)
Definition receiver_summary (r : TCPReceiver.t) : string :=
  if ByteStream.error (TCPReceiver.stream_out r) then TCPReceiverStateSummary.ERROR
  else if negb (bool_decide (is_Some (TCPReceiver.ackno r))) then TCPReceiverStateSummary.LISTEN
  else if ByteStream.input_ended (TCPReceiver.stream_out r) then TCPReceiverStateSummary.FIN_RECV
  else TCPReceiverStateSummary.SYN_RECV.

(** [state_summary(const TCPSender &)]. *)
Definition sender_summary (s : TCPSender.t) : string :=
  if ByteStream.error (TCPSender.stream_in s) then TCPSenderStateSummary.ERROR
  else if TCPSender.next_seqno_absolute s =? 0 then TCPSenderStateSummary.CLOSED
  else if TCPSender.next_seqno_absolute s =? TCPSender.bytes_in_flight s then TCPSenderStateSummary.SYN_SENT
  else if negb (ByteStream.eof (TCPSender.stream_in s)) then TCPSenderStateSummary.SYN_ACKED
  else if TCPSender.next_seqno_absolute s <? u64 (ByteStream.bytes_written (TCPSender.stream_in s) + 2)
       then TCPSenderStateSummary.SYN_ACKED
  else if negb (TCPSender.bytes_in_flight s =? 0) then TCPSenderStateSummary.FIN_SENT
  else TCPSenderStateSummary.FIN_ACKED.

Definition make (s : TCPSender.t) (r : TCPReceiver.t) (active linger : bool) : t :=
  mk (sender_summary s) (receiver_summary r) active (if active then linger else false).

(** [to_string(bool)]: the bool is promoted to [int]. *)
Definition name (x : t) : string :=
  "sender=`" ++ _sender x ++ "`, receiver=`" ++ _receiver x ++ "`, active=" ++
  (if _active x then "1" else "0") ++ ", linger_after_streams_finish=" ++
  (if _linger_after_streams_finish x then "1" else "0").

End TCPState.

Module StateFacts.

Lemma eqb_spec a b : TCPState.eqb a b = true <-> a = b.
Proof.
  unfold TCPState.eqb. rewrite !andb_true_iff, !Bool.eqb_true_iff, !String.eqb_eq.
  destruct a, b; cbn. split; [intros (((-> & ->) & ->) & ->) | intros [=]]; done.
Qed.

(** The twelve official states have twelve different descriptions: a
    connection is in at most one of them. *)
Lemma of_state_inj s1 s2 : TCPState.of_state s1 = TCPState.of_state s2 -> s1 = s2.
Proof. destruct s1, s2; vm_compute; congruence. Qed.

End StateFacts.
