(* ===== verification/tcp_connection.v ===== *)
(** * libsponge/tcp_connection.{hh,cc}: one endpoint of a TCP connection

    [seg_2_seg] copies each segment out of the sender's queue after
    [pop()]ping it; the model gives it the segment that was at the front,
    which is what the code means to use (the reference it reads dangles).
    The warning the destructor prints is left out. *)

From S2P Require Import Prelude byte_stream wrapping_integers buffer tcp_segment tcp_config tcp_receiver tcp_sender tcp_state.

Module TCPConnection.

Record t := mk {
  _cfg : TCPConfig.t;
  _receiver : TCPReceiver.t;
  _sender : TCPSender.t;
  _segments_out : list TCPSegment.t;
  _linger_after_streams_finish : bool;
  _time_since_last_segment_received : Z;   (* size_t *)
  _active : bool;
  _since_time_wait : Z;                    (* size_t *)
}.

Definition make (cfg : TCPConfig.t) (random_device : Z) : t :=
  mk cfg (TCPReceiver.make (TCPConfig.recv_capacity cfg))
     (TCPSender.make (TCPConfig.send_capacity cfg) (TCPConfig.rt_timeout cfg) (TCPConfig.fixed_isn cfg)
        random_device)
     [] true 0 true 0.

Definition with_receiver (r : TCPReceiver.t) (c : t) : t :=
  mk (_cfg c) r (_sender c) (_segments_out c) (_linger_after_streams_finish c)
     (_time_since_last_segment_received c) (_active c) (_since_time_wait c).
Definition with_sender (s : TCPSender.t) (c : t) : t :=
  mk (_cfg c) (_receiver c) s (_segments_out c) (_linger_after_streams_finish c)
     (_time_since_last_segment_received c) (_active c) (_since_time_wait c).
Definition with_segments_out (q : list TCPSegment.t) (c : t) : t :=
  mk (_cfg c) (_receiver c) (_sender c) q (_linger_after_streams_finish c)
     (_time_since_last_segment_received c) (_active c) (_since_time_wait c).
Definition with_linger (b : bool) (c : t) : t :=
  mk (_cfg c) (_receiver c) (_sender c) (_segments_out c) b
     (_time_since_last_segment_received c) (_active c) (_since_time_wait c).
Definition with_time (ms : Z) (c : t) : t :=
  mk (_cfg c) (_receiver c) (_sender c) (_segments_out c) (_linger_after_streams_finish c)
     ms (_active c) (_since_time_wait c).
Definition with_active (b : bool) (c : t) : t :=
  mk (_cfg c) (_receiver c) (_sender c) (_segments_out c) (_linger_after_streams_finish c)
     (_time_since_last_segment_received c) b (_since_time_wait c).
Definition with_time_wait (ms : Z) (c : t) : t :=
  mk (_cfg c) (_receiver c) (_sender c) (_segments_out c) (_linger_after_streams_finish c)
     (_time_since_last_segment_received c) (_active c) ms.

(** [_sender.stream_in().set_error(); _receiver.stream_out().set_error();] *)
Definition set_errors (c : t) : t :=
  let c := with_sender (TCPSender.with_stream (ByteStream.set_error (TCPSender.stream_in (_sender c))) (_sender c)) c in
  with_receiver
    (TCPReceiver.with_stream (ByteStream.set_error (TCPReceiver.stream_out (_receiver c))) (_receiver c)) c.

Definition remaining_outbound_capacity (c : t) : Z :=
  ByteStream.remaining_capacity (TCPSender.stream_in (_sender c)).
Definition bytes_in_flight (c : t) : Z := TCPSender.bytes_in_flight (_sender c).
Definition unassembled_bytes (c : t) : Z := TCPReceiver.unassembled_bytes (_receiver c).
Definition time_since_last_segment_received (c : t) : Z := _time_since_last_segment_received c.
Definition inbound_stream (c : t) : ByteStream.t := TCPReceiver.stream_out (_receiver c).
Definition segments_out (c : t) : list TCPSegment.t := _segments_out c.
Definition active (c : t) : bool := _active c.
Definition state (c : t) : TCPState.t :=
  TCPState.make (_sender c) (_receiver c) (active c) (_linger_after_streams_finish c).

(** What [seg_2_seg] does to one segment; [win] is a [uint16_t]. *)
Definition stamp (r : TCPReceiver.t) (seg : TCPSegment.t) : TCPSegment.t :=
  match TCPReceiver.ackno r with
  | Some a => TCPSegment.mk
      (TCPHeader.set_ack a (u16 (TCPReceiver.window_size r)) (TCPSegment.header seg)) (TCPSegment.payload seg)
  | None => seg
  end.

Definition seg_2_seg (c : t) : t :=
  with_segments_out (_segments_out c ++ map (stamp (_receiver c)) (TCPSender.segments_out (_sender c)))
    (with_sender (TCPSender.with_segments_out [] (_sender c)) c).

(** [if(_sender.segments_out().empty()) _sender.send_empty_segment();] *)
Definition ensure_reply (s : TCPSender.t) : TCPSender.t :=
  match TCPSender.segments_out s with
  | [] => TCPSender.send_empty_segment s
  | _ => s
  end.

Definition segment_received (seg : TCPSegment.t) (c : t) : outcome t :=
  let hd := TCPSegment.header seg in
  let c := with_time 0 c in
  if (TCPSender.next_seqno_absolute (_sender c) =? 0) && TCPHeader.ack hd then Ret c
  else if TCPHeader.rst hd then Ret (with_linger false (with_active false (set_errors c)))
  else
    let stream := TCPSender.stream_in (_sender c) in
    let c := if TCPHeader.fin hd &&
                (negb (ByteStream.eof stream) ||
                 (TCPSender.next_seqno_absolute (_sender c) <? u64 (ByteStream.bytes_written stream + 2)))
             then with_linger false c else c in
    r ← TCPReceiver.segment_received seg (_receiver c);
    let c := with_receiver r c in
    s ← (if TCPHeader.ack hd then
           s ← TCPSender.ack_received (TCPHeader.ackno hd) (TCPHeader.win hd) (_sender c);
           TCPSender.fill_window s
         else Ret (_sender c));
    s ← (if (TCPSender.next_seqno_absolute s =? 0) && bool_decide (is_Some (TCPReceiver.ackno r))
         then TCPSender.fill_window s else Ret s);
    let s := if TCPSegment.length_in_sequence_space seg >? 0 then ensure_reply s else s in
    let s := match TCPReceiver.ackno r with
             | Some a =>
                 if (TCPSegment.length_in_sequence_space seg =? 0) &&
                    WrappingInt32.eqb (TCPHeader.seqno hd) (WrappingInt32.sub a 1)
                 then ensure_reply s else s
             | None => s
             end in
    Ret (seg_2_seg (with_sender s c)).

Definition write (data : bytes) (c : t) : outcome (Z * t) :=
  '(res, st) ← ByteStream.write data (TCPSender.stream_in (_sender c));
  s ← TCPSender.fill_window (TCPSender.with_stream st (_sender c));
  Ret (res, seg_2_seg (with_sender s c)).

Definition end_input_stream (c : t) : outcome t :=
  s ← TCPSender.fill_window
        (TCPSender.with_stream (ByteStream.end_input (TCPSender.stream_in (_sender c))) (_sender c));
  Ret (seg_2_seg (with_sender s c)).

Definition connect (c : t) : outcome t :=
  s ← TCPSender.fill_window (_sender c);
  Ret (seg_2_seg (with_sender s c)).

(** The conditions of the clean shutdown. *)
Definition finished (c : t) : bool :=
  negb (_linger_after_streams_finish c) && ByteStream.input_ended (TCPReceiver.stream_out (_receiver c)) &&
  ByteStream.eof (TCPSender.stream_in (_sender c)) &&
  (TCPSender.next_seqno_absolute (_sender c) =?
     u64 (ByteStream.bytes_written (TCPSender.stream_in (_sender c)) + 2)) &&
  (TCPSender.bytes_in_flight (_sender c) =? 0).

(** [_sender.send_empty_segment_RST(); seg_2_seg();] with both queues emptied first. *)
Definition abort (c : t) : t :=
  let c := with_active false c in
  let c := with_sender (TCPSender.with_segments_out [] (_sender c)) c in
  let c := with_segments_out [] c in
  let c := with_sender (TCPSender.send_empty_segment_RST (_sender c)) c in
  let c := seg_2_seg c in
  with_linger false (set_errors c).

Definition tick (ms_since_last_tick : Z) (c : t) : t :=
  let c := with_sender (TCPSender.tick ms_since_last_tick (_sender c)) c in
  let c := with_time (u64 (_time_since_last_segment_received c + ms_since_last_tick)) c in
  let st_tw := TCPState.of_state TCPState.TIME_WAIT in
  if TCPState.eqb (state c) st_tw then
    let c := with_time_wait (u64 (_since_time_wait c + ms_since_last_tick)) c in
    if _since_time_wait c >=? 10 * TCPConfig.rt_timeout (_cfg c)
    then with_active false (with_linger false c) else c
  else if _active c && (TCPSender.consecutive_retransmissions (_sender c) >? TCPConfig.MAX_RETX_ATTEMPTS)
       then abort c
  else
    let c := seg_2_seg c in
    if finished c then with_active false c else c.

(** [~TCPConnection()]: the segments it leaves in the queue are the last. *)
Definition destruct_ (c : t) : t :=
  if active c then
    let c := with_linger false (with_active false c) in
    let c := with_sender (TCPSender.send_empty_segment_RST (_sender c)) c in
    let c := seg_2_seg c in
    set_errors c
  else c.

End TCPConnection.
