(* ===== verification/tcp_connection_proofs.v ===== *)
(** * tcp_connection: safety of a connection and of two connections

    A connection sends a stream [StrO] of [LO] bytes numbered from [isnO] and
    receives the peer's stream [StrI].  Its owner takes the segments out of
    [segments_out()] after every call; [out] are those taken so far. *)

From S2P Require Import Prelude byte_stream wrapping_integers buffer stream_reassembler stream_reassembler_proofs tcp_segment tcp_config tcp_receiver tcp_sender tcp_sender_proofs tcp_state tcp_connection.

Module ConnectionFacts.
Import ReassemblerFacts ReceiverFacts SenderFacts TCPConnection.

(** One stream: its bytes, length and initial sequence number. *)
Record flow := Flow { bytes_of : Z -> byte; total_of : Z; isn_of : WrappingInt32.t }.

Definition genuine_of (f : flow) : TCPSegment.t -> Prop := genuine_segment (bytes_of f) (total_of f) (isn_of f).

(** ** Stamping *)

Lemma stamp_fields r seg :
  TCPHeader.seqno (TCPSegment.header (stamp r seg)) = TCPHeader.seqno (TCPSegment.header seg) /\
  TCPHeader.syn (TCPSegment.header (stamp r seg)) = TCPHeader.syn (TCPSegment.header seg) /\
  TCPHeader.fin (TCPSegment.header (stamp r seg)) = TCPHeader.fin (TCPSegment.header seg) /\
  TCPSegment.payload (stamp r seg) = TCPSegment.payload seg.
Proof. unfold stamp. by destruct (TCPReceiver.ackno r). Qed.

Lemma stamp_typed r seg : typed (TCPSegment.header seg) -> typed (TCPSegment.header (stamp r seg)).
Proof.
  intros (H1 & H2 & H3). unfold stamp. destruct (TCPReceiver.ackno r) as [a|] eqn:Ea; [| done].
  split_and!; [done | | apply u16_range]. cbn. revert Ea. unfold TCPReceiver.ackno.
  destruct (negb _); [done |]. intros [= <-]. apply WrappingFacts.wrap_range.
Qed.

Lemma stamp_genuine f r seg : genuine_of f seg -> genuine_of f (stamp r seg).
Proof.
  intros (Ht & Hs & Hg). destruct (stamp_fields r seg) as (E1 & E2 & E3 & E4).
  unfold genuine_of, genuine_segment, place, bare, abs_seqno in *. rewrite E1, E2, E3, E4.
  split; [by apply stamp_typed | done].
Qed.

Lemma stamp_at f r x seg :
  seg_at (bytes_of f) (total_of f) (isn_of f) x seg -> seg_at (bytes_of f) (total_of f) (isn_of f) x (stamp r seg).
Proof.
  intros [Hg Ha Hs Hy Hl Hr]. destruct (stamp_fields r seg) as (E1 & E2 & E3 & E4).
  constructor; [by apply (stamp_genuine f) | | by rewrite E1 | by rewrite E2 | |].
  - unfold abs_seqno in *. by rewrite E1.
  - unfold TCPSegment.length_in_sequence_space in *. by rewrite E2, E3, E4.
  - unfold stamp. by destruct (TCPReceiver.ackno r).
Qed.

Lemma covered_stamp f r q x :
  covered (bytes_of f) (total_of f) (isn_of f) q x ->
  covered (bytes_of f) (total_of f) (isn_of f) (map (stamp r) q) x.
Proof.
  unfold covered. rewrite !Exists_exists. intros (seg & Hin & Hat & Hr). exists (stamp r seg).
  destruct (stamp_fields r seg) as (E1 & E2 & E3 & E4). split; [by apply list_elem_of_fmap_2 |].
  assert (Habs : abs_seqno (isn_of f) (stamp r seg) = abs_seqno (isn_of f) seg) by (unfold abs_seqno; by rewrite E1).
  rewrite Habs. split; [by apply stamp_at |]. unfold TCPSegment.length_in_sequence_space in *. by rewrite E2, E3, E4.
Qed.

Lemma out_ok_stamp f r n e q :
  out_ok (bytes_of f) (total_of f) (isn_of f) n (e ++ q) ->
  out_ok (bytes_of f) (total_of f) (isn_of f) n (e ++ map (stamp r) q).
Proof.
  intros ([He Hq]%Forall_app & Hc). split.
  - apply Forall_app. split; [done |]. apply Forall_map. eapply Forall_impl; [exact Hq |].
    intros seg. apply (stamp_genuine f).
  - intros x Hx. specialize (Hc x Hx). apply Exists_app in Hc as [Hc | Hc]; apply Exists_app; [by left | right].
    by apply covered_stamp.
Qed.

(** What a connection puts on the wire acknowledges what it has received. *)
Definition acknowledges (r : TCPReceiver.t) (seg : TCPSegment.t) : Prop :=
  match TCPReceiver.ackno r with
  | Some a =>
      TCPHeader.ack (TCPSegment.header seg) = true /\ TCPHeader.ackno (TCPSegment.header seg) = a /\
      TCPHeader.win (TCPSegment.header seg) = u16 (TCPReceiver.window_size r)
  | None => True
  end.

Lemma stamp_acknowledges r seg : acknowledges r (stamp r seg).
Proof. unfold acknowledges, stamp. by destruct (TCPReceiver.ackno r). Qed.

Section Conn.
Context (fo fi : flow) (cp : nat).
Hypothesis isn_o : in_bits 32 (isn_of fo).
Hypothesis isn_i : in_bits 32 (isn_of fi).
Hypothesis bounds_o : 0 <= total_of fo /\ total_of fo + 2 < 2 ^ 31.
Hypothesis bounds_i : 0 <= total_of fi /\ total_of fi + Z.of_nat cp + 2 < 2 ^ 31.

Abbreviation send_ok := (sok (bytes_of fo) (total_of fo) (isn_of fo)).
Abbreviation recv_ok := (rcv_ok (bytes_of fi) cp (total_of fi) (isn_of fi)).

(** Between calls: the sender's queue has been forwarded. *)
Record cinv (c : t) (out : list TCPSegment.t) : Prop := {
  ci_sender : send_ok (_sender c) out;
  ci_queue : TCPSender._segments_out (_sender c) = [];
  ci_receiver : recv_ok (_receiver c);
}.

(** A call has left [c']: its queue goes to the owner. *)
Definition result_ok (out : list TCPSegment.t) (c' : t) : Prop :=
  cinv (with_segments_out [] c') (out ++ _segments_out c') /\
  Forall (acknowledges (_receiver c')) (_segments_out c').

Lemma seg_2_seg_ok c out :
  _segments_out c = [] -> send_ok (_sender c) out -> recv_ok (_receiver c) -> result_ok out (seg_2_seg c).
Proof.
  intros Hq Hs Hr. unfold seg_2_seg, result_ok. rewrite Hq. cbn [app _segments_out _receiver with_segments_out with_sender].
  split.
  - constructor; [| done | done]. cbn. destruct Hs as (a & fin & una & H & Ho).
    exists a, fin, una. split; [by apply with_segments_out_inv |]. cbn. rewrite app_nil_r.
    by apply (out_ok_stamp fo).
  - apply Forall_map, Forall_true. intros seg. apply stamp_acknowledges.
Qed.

(** A call that queues nothing. *)
Lemma silent_ok c out : _segments_out c = [] -> cinv c out -> result_ok out c.
Proof.
  intros Hq [Hs Hsq Hr]. unfold result_ok. rewrite Hq, app_nil_r. split; [| done]. by constructor.
Qed.

Lemma set_errors_ok c out :
  send_ok (_sender c) out -> recv_ok (_receiver c) ->
  send_ok (_sender (set_errors c)) out /\ recv_ok (_receiver (set_errors c)).
Proof. intros Hs Hr. split; [by apply sok_error | by apply rcv_ok_error]. Qed.

Lemma ensure_reply_ok (b : bool) s out : send_ok s out -> send_ok (if b then ensure_reply s else s) out.
Proof.
  intros H. destruct b; [| done]. unfold ensure_reply. destruct (TCPSender.segments_out s); [by apply sok_empty | done].
Qed.

(** ** The calls *)

Lemma connect_ok c out :
  _segments_out c = [] -> cinv c out -> exists c', connect c = Ret c' /\ result_ok out c'.
Proof.
  intros Hq [Hs _ Hr]. unfold connect. destruct (sok_fill _ _ _ bounds_o _ _ Hs) as (s' & -> & Hs').
  cbn [mbind outcome_bind]. eexists. split; [reflexivity |]. by apply seg_2_seg_ok.
Qed.

Lemma write_ok c out data :
  _segments_out c = [] -> cinv c out -> ByteStream.input_ended (TCPSender.stream_in (_sender c)) = false ->
  agrees (bytes_of fo) (ByteStream.bytes_written (TCPSender.stream_in (_sender c))) data ->
  ByteStream.bytes_written (TCPSender.stream_in (_sender c)) + Zlen data <= total_of fo ->
  exists n c', write data c = Ret (n, c') /\ result_ok out c'.
Proof.
  intros Hq [Hs _ Hr] He Hd Hl. unfold write.
  destruct (sok_write _ _ _ bounds_o _ _ data Hs He Hd Hl) as (n & st & Hw & Hs1).
  unfold TCPSender.stream_in. rewrite Hw. cbn [mbind outcome_bind].
  destruct (sok_fill _ _ _ bounds_o _ _ Hs1) as (s' & -> & Hs'). cbn [mbind outcome_bind].
  eexists _, _. split; [reflexivity |]. by apply seg_2_seg_ok.
Qed.

Lemma end_input_stream_ok c out :
  _segments_out c = [] -> cinv c out ->
  ByteStream.bytes_written (TCPSender.stream_in (_sender c)) = total_of fo ->
  exists c', end_input_stream c = Ret c' /\ result_ok out c'.
Proof.
  intros Hq [Hs _ Hr] Hl. unfold end_input_stream.
  destruct (sok_fill _ _ _ bounds_o _ _ (sok_end _ _ _ bounds_o _ _ Hs Hl)) as (s' & Hf & Hs').
  unfold TCPSender.stream_in. rewrite Hf. cbn [mbind outcome_bind].
  eexists. split; [reflexivity |]. by apply seg_2_seg_ok.
Qed.

Lemma segment_received_ok c out seg :
  _segments_out c = [] -> cinv c out -> genuine_of fi seg ->
  exists c', segment_received seg c = Ret c' /\ result_ok out c'.
Proof.
  intros Hq Hc Hg. pose proof Hc as [Hs Hsq Hr]. unfold segment_received.
  destruct (_ && TCPHeader.ack _) eqn:Eack; [eexists; split; [reflexivity |]; by apply silent_ok |].
  destruct (TCPHeader.rst _).
  { eexists. split; [reflexivity |]. apply silent_ok; [done |].
    destruct (set_errors_ok c out Hs Hr). by constructor. }
  set (c1 := if (TCPHeader.fin _ && _ : bool) then _ else _).
  assert (Hc1 : _sender c1 = _sender c /\ _receiver c1 = _receiver c /\ _segments_out c1 = _segments_out c)
    by (unfold c1; by destruct (TCPHeader.fin _ && _)).
  clearbody c1. destruct Hc1 as (E1 & E2 & E3). rewrite E2.
  destruct (rcv_ok_segment _ _ _ _ isn_i bounds_i _ _ Hr Hg) as (r & -> & Hr'). cbn [mbind outcome_bind].
  cbn [_sender with_receiver]. rewrite E1.
  assert (Hack : exists s, (if TCPHeader.ack (TCPSegment.header seg) then
      s ← TCPSender.ack_received (TCPHeader.ackno (TCPSegment.header seg)) (TCPHeader.win (TCPSegment.header seg)) (_sender c);
      TCPSender.fill_window s else Ret (_sender c)) = Ret s /\ send_ok s out).
  { destruct (TCPHeader.ack _); [| by exists (_sender c)].
    destruct Hg as ((_ & Ha & Hw) & _). rewrite andb_true_r in Eack. apply Z.eqb_neq in Eack.
    destruct (sok_ack _ _ _ isn_o bounds_o _ _ _ _ Hs Ha Hw Eack) as (s1 & -> & Hs1 & _). cbn [mbind outcome_bind].
    exact (sok_fill _ _ _ bounds_o _ _ Hs1). }
  destruct Hack as (s1 & -> & Hs1). cbn [mbind outcome_bind].
  assert (Hsyn : exists s, (if (TCPSender.next_seqno_absolute s1 =? 0) && bool_decide (is_Some (TCPReceiver.ackno r))
      then TCPSender.fill_window s1 else Ret s1) = Ret s /\ send_ok s out)
    by (destruct ((TCPSender.next_seqno_absolute s1 =? 0) && bool_decide (is_Some (TCPReceiver.ackno r)));
        [exact (sok_fill _ _ _ bounds_o _ _ Hs1) | by exists s1]).
  destruct Hsyn as (s2 & -> & Hs2). cbn [mbind outcome_bind].
  eexists. split; [reflexivity |]. apply seg_2_seg_ok; [cbn; congruence | | done]. cbn [_sender with_sender].
  destruct (TCPReceiver.ackno r); repeat apply ensure_reply_ok; done.
Qed.

(** In TIME_WAIT nothing is outstanding, so the sender's timer is idle. *)
Lemma time_wait_idle s out ms :
  send_ok s out -> TCPSender._segments_out s = [] ->
  TCPSender.bytes_in_flight (TCPSender.tick ms s) = 0 -> TCPSender.tick ms s = s.
Proof.
  clear isn_o isn_i bounds_o bounds_i. intros (a & fin & una & H & _) Hq Hf. unfold TCPSender.tick in *.
  destruct (TCPSender.outstandings s) as [|front q] eqn:Eo; [done |]. exfalso.
  pose proof (si_train _ _ _ _ _ _ _ H) as Ht. rewrite Eo in Ht. destruct Ht as [Hat Ht].
  pose proof (train_le _ _ _ _ _ _ Ht). pose proof (at_len _ _ _ _ _ Hat).
  pose proof (si_flight _ _ _ _ _ _ _ H) as Hfl.
  destruct (_ >=? _); cbn in Hf; rewrite Hfl in Hf; lia.
Qed.

Lemma time_wait_flight c : state c = TCPState.of_state TCPState.TIME_WAIT -> TCPSender.bytes_in_flight (_sender c) = 0.
Proof.
  intros [= Hs _ _ _]. revert Hs. unfold TCPState.sender_summary.
  repeat case_match; try (vm_compute; congruence). intros _.
  match goal with H : negb (_ =? 0) = false |- _ => apply negb_false_iff, Z.eqb_eq in H; exact H end.
Qed.

Lemma abort_ok c out :
  send_ok (TCPSender.with_segments_out [] (_sender c)) out -> recv_ok (_receiver c) -> result_ok out (abort c).
Proof.
  intros Hs Hr. unfold abort.
  set (c1 := with_sender (TCPSender.send_empty_segment_RST _) _).
  destruct (seg_2_seg_ok c1 out) as ([Hs1 Hq1 Hr1] & Hack); [done | by apply sok_rst | done |].
  set (c2 := seg_2_seg c1) in *. cbn [_sender _receiver with_segments_out] in Hs1, Hq1, Hr1.
  destruct (set_errors_ok c2 _ Hs1 Hr1). split; [by constructor |].
  eapply Forall_impl; [exact Hack |]. intros seg Ha. exact Ha.
Qed.

Lemma tick_ok c out ms :
  _segments_out c = [] -> cinv c out -> result_ok out (tick ms c).
Proof.
  intros Hq [Hs Hsq Hr]. unfold tick.
  pose proof (sok_tick _ _ _ _ _ ms Hs) as Ht.
  set (c1 := with_time _ (with_sender _ c)).
  destruct (TCPState.eqb _ _) eqn:Est.
  - apply StateFacts.eqb_spec, time_wait_flight in Est. cbn in Est.
    pose proof (time_wait_idle _ _ ms Hs Hsq Est) as Hidle.
    assert (Hc : cinv (with_time_wait (u64 (_since_time_wait c1 + ms)) c1) out)
      by (constructor; [done | cbn; by rewrite Hidle | done]).
    destruct (_ >=? _); (apply silent_ok; [done |]); [by destruct Hc | done].
  - destruct (_ && _); [apply abort_ok; [| done] |].
    + apply sok_queue; [done |]. rewrite app_nil_r. destruct Hs as (a & fin & una & H & Ho).
      rewrite Hsq, app_nil_r in Ho. cbn. by destruct (tick_out _ _ _ ms _ _ _ _ H) as (_ & _ & _ & ->).
    + pose proof (seg_2_seg_ok c1 out Hq Ht Hr) as Hres. destruct (finished _); [| done].
      destruct Hres as ([] & ?). by split; [constructor |].
Qed.

Lemma read_ok c out len :
  _segments_out c = [] -> cinv c out -> in_bits 64 len ->
  exists d st, ByteStream.read len (inbound_stream c) = Ret (d, st) /\
    result_ok out (with_receiver (TCPReceiver.with_stream st (_receiver c)) c).
Proof.
  intros Hq [Hs Hsq Hr] Hl. destruct (rcv_ok_read _ _ _ _ bounds_i _ _ Hr Hl) as (d & st & Hrd & Hr').
  exists d, st. split; [done |]. apply silent_ok; [done |]. by constructor.
Qed.

(** ** Runs *)

Inductive call :=
| Connect
| Write (data : bytes)
| EndInput
| Tick (ms : Z)
| Read (len : Z).

Definition perform (op : call) (c : t) : outcome t :=
  match op with
  | Connect => connect c
  | Write data => '(_, c) ← write data c; Ret c
  | EndInput => end_input_stream c
  | Tick ms => Ret (tick ms c)
  | Read len =>
      '(_, st) ← ByteStream.read len (inbound_stream c);
      Ret (with_receiver (TCPReceiver.with_stream st (_receiver c)) c)
  end.

(** The owner writes the stream of [fo], ends it where it ends. *)
Definition legal (op : call) (c : t) : Prop :=
  let st := TCPSender.stream_in (_sender c) in
  match op with
  | Connect | Tick _ => True
  | Write data => ByteStream.input_ended st = false /\ agrees (bytes_of fo) (ByteStream.bytes_written st) data /\
      ByteStream.bytes_written st + Zlen data <= total_of fo
  | EndInput => ByteStream.bytes_written st = total_of fo
  | Read len => in_bits 64 len
  end.

Lemma perform_ok op c out :
  _segments_out c = [] -> cinv c out -> legal op c -> exists c', perform op c = Ret c' /\ result_ok out c'.
Proof.
  intros Hq Hc Hl. destruct op as [|data| |ms|len]; cbn [perform legal] in *.
  - by apply connect_ok.
  - destruct Hl as (H1 & H2 & H3). destruct (write_ok c out data Hq Hc H1 H2 H3) as (n & c' & -> & ?). by exists c'.
  - by apply end_input_stream_ok.
  - eexists. split; [reflexivity |]. by apply tick_ok.
  - destruct (read_ok c out len Hq Hc Hl) as (d & st & -> & ?). by eexists.
Qed.

Definition configured (c : t) : Prop :=
  exists cfg rnd scp, c = make cfg rnd /\ TCPConfig.recv_capacity cfg = Z.of_nat cp /\
    TCPConfig.send_capacity cfg = Z.of_nat scp /\ Z.of_nat scp < 2 ^ 31 /\
    default rnd (TCPConfig.fixed_isn cfg) = isn_of fo /\ in_bits 16 (TCPConfig.rt_timeout cfg).

Lemma configured_ok c : configured c -> _segments_out c = [] /\ cinv c [].
Proof.
  intros (cfg & rnd & scp & -> & H1 & H2 & H3 & H4 & _). split; [done |].
  unfold make. rewrite H1, H2. constructor; [by apply sok_make | done | by apply rcv_ok_make].
Qed.

(** What has arrived from the peer: a prefix of its stream, whole once ended. *)
Definition delivered (c : t) : Prop :=
  exists W, agrees (bytes_of fi) 0 W /\
    ByteStream.buffer (inbound_stream c) = drop (Z.to_nat (ByteStream.bytes_read (inbound_stream c))) W /\
    (ByteStream.input_ended (inbound_stream c) = true -> Zlen W = total_of fi).

Lemma cinv_delivered c out : cinv c out -> delivered c.
Proof.
  intros [_ _ (a & Hi & _)]. pose proof (invl_inv _ _ _ _ _ Hi) as I. pose proof (inv_repr _ _ _ I) as Hrep.
  exists (ByteStreamSpec.hist a). unfold inbound_stream, TCPReceiver.stream_out, StreamReassembler.stream_out.
  rewrite (inv_read _ _ _ I), Nat2Z.id. split_and!; [apply I | apply Hrep |].
  unfold ByteStream.input_ended. rewrite (ByteStreamFacts.repr_ended _ _ Hrep).
  intros He. by apply (invl_ended _ _ _ _ _ Hi).
Qed.

End Conn.
(** ** Two connections and a network

    Each host's segments stay on the wire: delivery picks any segment that
    was ever sent, so segments may be lost, reordered and duplicated. *)

Record net := Net { host_a : t; host_b : t; wire_a : list TCPSegment.t; wire_b : list TCPSegment.t }.

Section Network.
Context (fa fb : flow) (cpa cpb : nat).

Inductive net_reach : net -> Prop :=
| net_start ca cb :
    configured fa cpa ca -> configured fb cpb cb -> net_reach (Net ca cb [] [])
| net_call_a n op c :
    net_reach n -> legal fa op (host_a n) -> perform op (host_a n) = Ret c ->
    net_reach (Net (with_segments_out [] c) (host_b n) (wire_a n ++ _segments_out c) (wire_b n))
| net_call_b n op c :
    net_reach n -> legal fb op (host_b n) -> perform op (host_b n) = Ret c ->
    net_reach (Net (host_a n) (with_segments_out [] c) (wire_a n) (wire_b n ++ _segments_out c))
| net_to_a n seg c :
    net_reach n -> seg ∈ wire_b n -> segment_received seg (host_a n) = Ret c ->
    net_reach (Net (with_segments_out [] c) (host_b n) (wire_a n ++ _segments_out c) (wire_b n))
| net_to_b n seg c :
    net_reach n -> seg ∈ wire_a n -> segment_received seg (host_b n) = Ret c ->
    net_reach (Net (host_a n) (with_segments_out [] c) (wire_a n) (wire_b n ++ _segments_out c)).

Hypothesis isn_a : in_bits 32 (isn_of fa).
Hypothesis isn_b : in_bits 32 (isn_of fb).
Hypothesis bounds_a : 0 <= total_of fa /\ total_of fa + Z.of_nat cpb + 2 < 2 ^ 31.
Hypothesis bounds_b : 0 <= total_of fb /\ total_of fb + Z.of_nat cpa + 2 < 2 ^ 31.

Record net_ok (n : net) : Prop := {
  nk_a : cinv fa fb cpa (host_a n) (wire_a n);
  nk_b : cinv fb fa cpb (host_b n) (wire_b n);
  nk_qa : _segments_out (host_a n) = [];
  nk_qb : _segments_out (host_b n) = [];
}.

Lemma bounds_a' : 0 <= total_of fa /\ total_of fa + 2 < 2 ^ 31.
Proof. lia. Qed.
Lemma bounds_b' : 0 <= total_of fb /\ total_of fb + 2 < 2 ^ 31.
Proof. lia. Qed.
#[local] Hint Resolve bounds_a' bounds_b' isn_a isn_b bounds_a bounds_b : core.

Lemma wire_genuine fo fi cp c out seg :
  _segments_out c = [] -> cinv fo fi cp c out -> seg ∈ out -> genuine_of fo seg.
Proof.
  intros Hq [(a & fin & una & _ & Hg & _) _ _] Hin. apply Forall_app in Hg as [Hg _].
  by eapply Forall_forall in Hg.
Qed.

Lemma net_reach_ok n : net_reach n -> net_ok n.
Proof.
  induction 1 as [ca cb Ha Hb | n op c _ [Ha Hb Hqa Hqb] Hl Hp | n op c _ [Ha Hb Hqa Hqb] Hl Hp
    | n seg c _ [Ha Hb Hqa Hqb] Hin Hp | n seg c _ [Ha Hb Hqa Hqb] Hin Hp].
  - destruct (configured_ok fa fb cpa bounds_a' bounds_b _ Ha) as (? & ?).
    destruct (configured_ok fb fa cpb bounds_b' bounds_a _ Hb) as (? & ?). by constructor.
  - destruct (perform_ok fa fb cpa bounds_a' bounds_b op _ _ Hqa Ha Hl) as (c' & Hp' & Hc & _).
    rewrite Hp in Hp'. injection Hp' as <-. by constructor.
  - destruct (perform_ok fb fa cpb bounds_b' bounds_a op _ _ Hqb Hb Hl) as (c' & Hp' & Hc & _).
    rewrite Hp in Hp'. injection Hp' as <-. by constructor.
  - destruct (segment_received_ok fa fb cpa isn_a isn_b bounds_a' bounds_b _ _ seg Hqa Ha) as (c' & Hp' & Hc & _);
      [exact (wire_genuine fb fa cpb _ _ _ Hqb Hb Hin) |]. rewrite Hp in Hp'. injection Hp' as <-. by constructor.
  - destruct (segment_received_ok fb fa cpb isn_b isn_a bounds_b' bounds_a _ _ seg Hqb Hb) as (c' & Hp' & Hc & _);
      [exact (wire_genuine fa fb cpa _ _ _ Hqa Ha Hin) |]. rewrite Hp in Hp'. injection Hp' as <-. by constructor.
Qed.

End Network.


Definition abc_flow : flow := Flow sample 3 5.
Definition other_flow : flow := Flow sample 2 (2 ^ 32 - 1).
Definition cfg_a : TCPConfig.t := TCPConfig.mk 1000 8 8 (Some 5).
Definition cfg_b : TCPConfig.t := TCPConfig.mk 1000 8 8 (Some (2 ^ 32 - 1)).

Lemma sample_net :
  exists n, net_reach abc_flow other_flow 8 8 n /\
    state (host_b n) = TCPState.of_state TCPState.SYN_RCVD /\ length (wire_b n) = 1%nat.
Proof.
  eexists. split.
  - eapply net_to_b.
    + eapply (net_call_a _ _ _ _ _ Connect).
      * apply (net_start _ _ _ _ (make cfg_a 0) (make cfg_b 0)).
        -- exists cfg_a, 0, 8%nat. by split_and!.
        -- exists cfg_b, 0, 8%nat. by split_and!.
      * done.
      * vm_compute. reflexivity.
    + cbn. apply list_elem_of_singleton. reflexivity.
    + vm_compute. reflexivity.
  - split; vm_compute; reflexivity.
Defined.




(** ** The three-way handshake *)

Lemma wrap_0 isn : in_bits 32 isn -> WrappingInt32.wrap 0 isn = isn.
Proof. intros H. rewrite WrappingFacts.wrap_spec. by apply Z.mod_small. Qed.

(** The SYN, and a sender that has sent it. *)
Definition syn_seg (isn : WrappingInt32.t) : TCPSegment.t :=
  TCPSegment.mk (TCPHeader.set_syn true (TCPHeader.set_seqno isn TCPHeader.default_)) (Buffer.of_string []).
Definition syn_sent (cfg : TCPConfig.t) (isn : WrappingInt32.t) (q : list TCPSegment.t) : TCPSender.t :=
  TCPSender.mk isn q (TCPConfig.rt_timeout cfg) (ByteStream.make (TCPConfig.send_capacity cfg)) 1 [syn_seg isn] 1 0
    (TCPConfig.rt_timeout cfg) 0 1 0 0 false false.

Lemma fill_syn cfg rnd isn :
  in_bits 32 isn -> default rnd (TCPConfig.fixed_isn cfg) = isn ->
  TCPSender.fill_window (TCPSender.make (TCPConfig.send_capacity cfg) (TCPConfig.rt_timeout cfg)
    (TCPConfig.fixed_isn cfg) rnd) = Ret (syn_sent cfg isn [syn_seg isn]).
Proof.
  intros Hr Hi. unfold TCPSender.make, WrappingInt32.of_u32. rewrite Hi.
  unfold syn_sent, syn_seg. rewrite <- (wrap_0 isn Hr) at 3 4. reflexivity.
Qed.

(** A sender whose SYN was acknowledged with the window [w]. *)
Definition syn_acked (cfg : TCPConfig.t) (isn : WrappingInt32.t) (w : Z) (q : list TCPSegment.t) : TCPSender.t :=
  TCPSender.mk isn q (TCPConfig.rt_timeout cfg) (ByteStream.make (TCPConfig.send_capacity cfg)) 1 [] 0 0
    (TCPConfig.rt_timeout cfg) 0 w w 0 false false.

Lemma ack_syn cfg isn w :
  in_bits 32 isn -> in_bits 16 w ->
  TCPSender.ack_received (WrappingInt32.wrap 1 isn) w (syn_sent cfg isn []) = Ret (syn_acked cfg isn w []).
Proof.
  intros Hr Hw. unfold in_bits in Hw. unfold TCPSender.ack_received.
  change (ByteStream.bytes_read (TCPSender.stream_in (syn_sent cfg isn []))) with 0.
  cbn [syn_sent TCPSender._isn TCPSender.outstandings TCPSender.in_flights].
  rewrite WrappingFacts.unwrap_wrap_near by (unfold in_bits in *; lia). cbn [mbind outcome_bind].
  change (1 >? TCPSender.next_seqno_absolute _) with false. cbn [TCPSender.remove_acked].
  change (TCPHeader.seqno (TCPSegment.header (syn_seg isn))) with isn.
  assert (Hu : WrappingInt32.unwrap (WrappingInt32.wrap 0 isn) isn 0 = Ret 0)
    by (apply WrappingFacts.unwrap_wrap_near; unfold in_bits in *; lia).
  rewrite (wrap_0 isn Hr) in Hu. rewrite Hu. cbn [mbind outcome_bind].
  change (u64 (len (syn_seg isn) + 0 - 1) <? 1) with true. cbn [mbind outcome_bind].
  change (TCPSender.window_right (syn_sent cfg isn [])) with 0. rewrite (u64_small (1 + w - 1)) by lia.
  replace (1 + w - 1) with w by lia.
  destruct (Z.gtb_spec w 0); [| assert (w = 0) as -> by lia]; reflexivity.
Qed.

Lemma fill_syn_acked cfg isn w : TCPSender.fill_window (syn_acked cfg isn w []) = Ret (syn_acked cfg isn w []).
Proof.
  unfold TCPSender.fill_window. cbn [TCPSender.window TCPSender.probing syn_acked negb].
  change (TCPSender.ReadyToFin _) with false.
  change (negb (ByteStream.buffer_empty _)) with false.
  change (ByteStream.buffer (TCPSender._stream _)) with (@nil byte).
  assert (Hl : TCPSender.fill_loop (3 + length (@nil byte)) (syn_acked cfg isn w []) = Ret (syn_acked cfg isn w []))
    by (cbn [length Nat.add TCPSender.fill_loop]; by destruct (_ <=? _)).
  destruct (_ && _); exact Hl.
Qed.

(** The receiver past the SYN. *)
Definition syn_received (cfg : TCPConfig.t) (isn : WrappingInt32.t) : TCPReceiver.t :=
  TCPReceiver.mk (StreamReassembler.make (TCPConfig.recv_capacity cfg)) (TCPConfig.recv_capacity cfg) isn true.

Lemma receive_ack cfg isn seg :
  in_bits 32 isn -> TCPHeader.syn (TCPSegment.header seg) = false -> TCPHeader.fin (TCPSegment.header seg) = false ->
  Buffer.copy (TCPSegment.payload seg) = [] ->
  TCPHeader.seqno (TCPSegment.header seg) = WrappingInt32.wrap 1 isn ->
  TCPReceiver.segment_received seg (syn_received cfg isn) = Ret (syn_received cfg isn).
Proof.
  intros Hr Hs Hf Hp Hq. unfold TCPReceiver.segment_received. cbn [TCPReceiver.syned syn_received negb andb].
  rewrite Hs, Hf, Hp. unfold TCPReceiver.index_of. rewrite Hs, Hq.
  change (ByteStream.bytes_written (TCPReceiver.stream_out _)) with 0. cbn [TCPReceiver.isn syn_received].
  rewrite WrappingFacts.unwrap_wrap_near by (unfold in_bits in *; lia). reflexivity.
Qed.

Definition ack_seg (ca cb : TCPConfig.t) (ia ib : WrappingInt32.t) : TCPSegment.t :=
  stamp (syn_received ca ib)
    (TCPSegment.mk (TCPHeader.set_seqno (WrappingInt32.wrap 1 ia) TCPHeader.default_) Buffer.empty).

Definition host (cfg : TCPConfig.t) (r : TCPReceiver.t) (s : TCPSender.t) (q : list TCPSegment.t) : t :=
  mk cfg r s q true 0 true 0.

Lemma handshake_1 ca rnd ia :
  in_bits 32 ia -> default rnd (TCPConfig.fixed_isn ca) = ia ->
  connect (make ca rnd) =
    Ret (host ca (TCPReceiver.make (TCPConfig.recv_capacity ca)) (syn_sent ca ia []) [syn_seg ia]).
Proof. intros Hr Hi. unfold connect. cbn [_sender make]. rewrite (fill_syn ca rnd ia Hr Hi). reflexivity. Qed.

Lemma handshake_2 cb rnd ia ib :
  in_bits 32 ia -> in_bits 32 ib -> default rnd (TCPConfig.fixed_isn cb) = ib ->
  segment_received (syn_seg ia) (make cb rnd) =
    Ret (host cb (syn_received cb ia) (syn_sent cb ib []) [stamp (syn_received cb ia) (syn_seg ib)]).
Proof.
  intros Ha Hb Hi. unfold segment_received. cbn [TCPHeader.ack TCPHeader.rst TCPHeader.fin syn_seg TCPSegment.header
    TCPSegment._header TCPHeader.set_syn TCPHeader.set_seqno TCPHeader.default_]. rewrite andb_false_r. cbn [andb].
  change (TCPReceiver.segment_received _ (_receiver _)) with (Ret (syn_received cb ia)). cbn [mbind outcome_bind].
  change (_sender (with_receiver _ _)) with (_sender (make cb rnd)). cbn [_sender make].
  change (TCPSender.next_seqno_absolute _ =? 0) with true.
  change (bool_decide (is_Some (TCPReceiver.ackno (syn_received cb ia)))) with true. cbn [andb].
  rewrite (fill_syn cb rnd ib Hb Hi). reflexivity.
Qed.

Lemma handshake_3 ca cb ia ib :
  in_bits 32 ia -> in_bits 32 ib ->
  exists w, segment_received (stamp (syn_received cb ia) (syn_seg ib))
      (host ca (TCPReceiver.make (TCPConfig.recv_capacity ca)) (syn_sent ca ia []) []) =
    Ret (host ca (syn_received ca ib) (syn_acked ca ia w []) [ack_seg ca cb ia ib]).
Proof.
  intros Ha Hb. set (w := u16 (TCPReceiver.window_size (syn_received cb ia))). exists w.
  assert (Hw : in_bits 16 w) by apply u16_range. unfold segment_received.
  change (TCPHeader.rst _) with false. change (TCPHeader.fin _) with false. change (TCPHeader.ack _) with true.
  change (TCPHeader.ackno _) with (WrappingInt32.wrap 1 ia). change (TCPHeader.win _) with w.
  change (TCPSender.next_seqno_absolute (_sender (with_time 0 _)) =? 0) with false. cbn [andb].
  change (TCPReceiver.segment_received _ (_receiver _)) with (Ret (syn_received ca ib)). cbn [mbind outcome_bind].
  change (_sender (with_receiver _ _)) with (syn_sent ca ia []).
  rewrite (ack_syn ca ia w Ha Hw). cbn [mbind outcome_bind]. rewrite fill_syn_acked. reflexivity.
Qed.

Lemma not_keep_alive ia : in_bits 32 ia ->
  WrappingInt32.eqb (WrappingInt32.wrap 1 ia) (WrappingInt32.sub (WrappingInt32.wrap 1 ia) 1) = false.
Proof.
  intros Ha. unfold WrappingInt32.eqb, WrappingInt32.sub, WrappingInt32.add, WrappingInt32.raw_value, WrappingInt32.of_u32.
  apply Z.eqb_neq. pose proof (WrappingFacts.wrap_range 1 ia). set (x := WrappingInt32.wrap 1 ia) in *.
  change (u32 (- (1))) with (2 ^ 32 - 1). unfold u32.
  destruct (Z.eq_dec x 0) as [-> | ?]; [rewrite Z.mod_small; lia |].
  replace (x + (2 ^ 32 - 1)) with (x - 1 + 1 * 2 ^ 32) by lia. rewrite Z.mod_add, Z.mod_small; lia.
Qed.

Lemma handshake_4 ca cb ia ib :
  in_bits 32 ia -> in_bits 32 ib ->
  exists w, segment_received (ack_seg ca cb ia ib) (host cb (syn_received cb ia) (syn_sent cb ib []) []) =
    Ret (host cb (syn_received cb ia) (syn_acked cb ib w []) []).
Proof.
  intros Ha Hb. set (w := u16 (TCPReceiver.window_size (syn_received ca ib))). exists w.
  assert (Hw : in_bits 16 w) by apply u16_range. unfold segment_received.
  change (TCPHeader.rst _) with false. change (TCPHeader.fin _) with false. change (TCPHeader.ack _) with true.
  change (TCPHeader.ackno _) with (WrappingInt32.wrap 1 ib). change (TCPHeader.win _) with w.
  change (TCPHeader.seqno _) with (WrappingInt32.wrap 1 ia).
  change (TCPSender.next_seqno_absolute (_sender (with_time 0 _)) =? 0) with false. cbn [andb].
  change (_receiver (with_time 0 _)) with (syn_received cb ia).
  rewrite (receive_ack cb ia (ack_seg ca cb ia ib)) by done. cbn [mbind outcome_bind].
  change (_sender (with_receiver _ _)) with (syn_sent cb ib []).
  rewrite (ack_syn cb ib w Hb Hw). cbn [mbind outcome_bind]. rewrite fill_syn_acked. cbn [mbind outcome_bind].
  change (TCPReceiver.ackno (syn_received cb ia)) with (Some (WrappingInt32.wrap 1 ia)). cbv iota.
  rewrite (not_keep_alive ia Ha), andb_false_r. reflexivity.
Qed.

(** C23: the three-way handshake: whatever the configurations and initial
    sequence numbers, [connect] sends a SYN; the listening peer answers with
    one SYN/ACK; the caller answers with one ACK and is ESTABLISHED; the peer
    is ESTABLISHED when it arrives, and sends nothing more. *)
Theorem handshake (ca cb : TCPConfig.t) (rnda rndb : Z) :
  in_bits 32 (default rnda (TCPConfig.fixed_isn ca)) -> in_bits 32 (default rndb (TCPConfig.fixed_isn cb)) ->
  exists a1 b1 a2 b2 syn synack ack,
    connect (make ca rnda) = Ret a1 /\ segments_out a1 = [syn] /\
    segment_received syn (make cb rndb) = Ret b1 /\ segments_out b1 = [synack] /\
    segment_received synack (with_segments_out [] a1) = Ret a2 /\ segments_out a2 = [ack] /\
    segment_received ack (with_segments_out [] b1) = Ret b2 /\ segments_out b2 = [] /\
    state (make cb rndb) = TCPState.of_state TCPState.LISTEN /\
    state a1 = TCPState.of_state TCPState.SYN_SENT /\ state b1 = TCPState.of_state TCPState.SYN_RCVD /\
    state a2 = TCPState.of_state TCPState.ESTABLISHED /\ state b2 = TCPState.of_state TCPState.ESTABLISHED.
Proof.
  intros Ha Hb. set (ia := default rnda _) in *. set (ib := default rndb _) in *.
  destruct (handshake_3 ca cb ia ib Ha Hb) as (w & H3). destruct (handshake_4 ca cb ia ib Ha Hb) as (w' & H4).
  do 7 eexists. split; [apply (handshake_1 ca rnda ia Ha eq_refl) |]. split; [reflexivity |].
  split; [apply (handshake_2 cb rndb ia ib Ha Hb eq_refl) |]. split; [reflexivity |].
  split; [exact H3 |]. split; [reflexivity |]. split; [exact H4 |]. repeat split; reflexivity.
Qed.

Lemma handshake_witness :
  exists a1 syn, connect (make TCPConfig.default_ 7) = Ret a1 /\ segments_out a1 = [syn] /\
    state a1 = TCPState.of_state TCPState.SYN_SENT.
Proof.
  destruct (handshake TCPConfig.default_ TCPConfig.default_ 7 9)
    as (a1 & b1 & a2 & b2 & syn & synack & ack & H1 & H2 & _ & _ & _ & _ & _ & _ & _ & H3 & _);
    [unfold in_bits; cbn; lia | unfold in_bits; cbn; lia |].
  exists a1, syn. split; [exact H1 | split; [exact H2 | exact H3]].
Defined.

(** ** Closing *)

(** A reset in a connection that may receive it ends it at once: both
    streams are in error, the connection is in RESET and nothing is sent. *)
Theorem reset_ends_connection (seg : TCPSegment.t) (c : t) :
  TCPHeader.rst (TCPSegment.header seg) = true ->
  (TCPSender.next_seqno_absolute (_sender c) = 0 -> TCPHeader.ack (TCPSegment.header seg) = false) ->
  exists c', segment_received seg c = Ret c' /\ state c' = TCPState.of_state TCPState.RESET /\
    active c' = false /\ segments_out c' = segments_out c.
Proof.
  intros Hr Hack. unfold segment_received. cbn [_sender with_time].
  replace (_ && TCPHeader.ack (TCPSegment.header seg)) with false.
  2: { symmetry. apply andb_false_iff. destruct (Z.eqb_spec (TCPSender.next_seqno_absolute (_sender c)) 0); auto. }
  rewrite Hr. eexists. split_and!; reflexivity.
Qed.

Lemma reset_ends_connection_witness :
  exists c', segment_received (TCPSegment.mk (TCPHeader.set_rst true TCPHeader.default_) Buffer.empty) (make cfg_a 0)
    = Ret c' /\ state c' = TCPState.of_state TCPState.RESET.
Proof.
  destruct (reset_ends_connection (TCPSegment.mk (TCPHeader.set_rst true TCPHeader.default_) Buffer.empty) (make cfg_a 0))
    as (c' & H1 & H2 & _); [reflexivity | reflexivity |].
  exists c'. split; [exact H1 | exact H2].
Defined.

(** C36: after more than MAX_RETX_ATTEMPTS consecutive retransmissions the
    connection gives up: whatever was queued is dropped, exactly one segment,
    a RST on the next sequence number, is left to send, and the connection is
    in RESET. *)
Theorem gives_up (ms : Z) (c : t) :
  let s := TCPSender.tick ms (_sender c) in
  active c = true -> TCPSender.consecutive_retransmissions s > TCPConfig.MAX_RETX_ATTEMPTS ->
  0 < TCPSender.bytes_in_flight s ->
  state (tick ms c) = TCPState.of_state TCPState.RESET /\ active (tick ms c) = false /\
  exists rst, segments_out (tick ms c) = [rst] /\ TCPHeader.rst (TCPSegment.header rst) = true /\
    TCPHeader.seqno (TCPSegment.header rst) = TCPSender.next_seqno s.
Proof.
  intros s Ha Hre Hf. unfold tick.
  destruct (TCPState.eqb _ _) eqn:Est.
  { apply StateFacts.eqb_spec, time_wait_flight in Est. change (TCPSender.bytes_in_flight s = 0) in Est. lia. }
  cbn [_active with_time with_sender _sender]. unfold active in Ha. rewrite Ha. fold s.
  destruct (Z.gtb_spec (TCPSender.consecutive_retransmissions s) TCPConfig.MAX_RETX_ATTEMPTS); [| lia]. cbn [andb].
  split_and!; [done | done |]. exists (stamp (_receiver c)
    (TCPSegment.mk (TCPHeader.set_rst true (TCPSender.new_segment s)) Buffer.empty)).
  split_and!; [done | |]; unfold stamp; by destruct (TCPReceiver.ackno _).
Qed.

(** A host whose SYN was retransmitted eight times. *)
Definition tired (c : t) : t :=
  with_sender (TCPSender.mk 5 [] 1000 (ByteStream.make 8) 1 [syn_seg 5] 1 0 256000 8 1 0 0 false false) c.

Lemma gives_up_witness :
  state (tick 256000 (tired (make cfg_a 0))) = TCPState.of_state TCPState.RESET.
Proof. apply gives_up; vm_compute; reflexivity. Defined.


(** A run to TIME_WAIT: both streams are empty, host a closes first. *)
Definition empty_a : flow := Flow sample 0 5.
Definition empty_b : flow := Flow sample 0 (2 ^ 32 - 1).

Definition do_a (op : call) (n : net) : net :=
  let c := ret (host_a n) (perform op (host_a n)) in
  Net (with_segments_out [] c) (host_b n) (wire_a n ++ _segments_out c) (wire_b n).
Definition do_b (op : call) (n : net) : net :=
  let c := ret (host_b n) (perform op (host_b n)) in
  Net (host_a n) (with_segments_out [] c) (wire_a n) (wire_b n ++ _segments_out c).
Definition to_a (k : nat) (n : net) : net :=
  let c := ret (host_a n) (segment_received (nth k (wire_b n) TCPSegment.default_) (host_a n)) in
  Net (with_segments_out [] c) (host_b n) (wire_a n ++ _segments_out c) (wire_b n).
Definition to_b (k : nat) (n : net) : net :=
  let c := ret (host_b n) (segment_received (nth k (wire_a n) TCPSegment.default_) (host_b n)) in
  Net (host_a n) (with_segments_out [] c) (wire_a n) (wire_b n ++ _segments_out c).

Definition tw0 : net := Net (make cfg_a 0) (make cfg_b 0) [] [].
Definition tw1 : net := Eval vm_compute in to_a 0 (to_b 0 (do_a Connect tw0)).
Definition tw2 : net := Eval vm_compute in to_b 2 (do_a EndInput (to_b 1 tw1)).
Definition tw3 : net := Eval vm_compute in to_a 2 (do_b EndInput (to_a 1 tw2)).

Ltac net_step :=
  match goal with
  | |- net_reach _ _ _ _ (do_a ?op _) => eapply (net_call_a _ _ _ _ _ op); [| vm_compute; reflexivity | vm_compute; reflexivity]
  | |- net_reach _ _ _ _ (do_b ?op _) => eapply (net_call_b _ _ _ _ _ op); [| vm_compute; reflexivity | vm_compute; reflexivity]
  | |- net_reach _ _ _ _ (to_a ?k ?n) => eapply (net_to_a _ _ _ _ _ (nth k (wire_b n) TCPSegment.default_));
      [| apply list_elem_of_In, nth_In; vm_compute; lia | vm_compute; reflexivity]
  | |- net_reach _ _ _ _ (to_b ?k ?n) => eapply (net_to_b _ _ _ _ _ (nth k (wire_a n) TCPSegment.default_));
      [| apply list_elem_of_In, nth_In; vm_compute; lia | vm_compute; reflexivity]
  end.

Lemma tw3_reach : net_reach empty_a empty_b 8 8 tw3.
Proof.
  change tw3 with (to_a 2 (do_b EndInput (to_a 1 (to_b 2 (do_a EndInput (to_b 1 (to_a 0 (to_b 0 (do_a Connect tw0))))))))).
  do 9 net_step. apply net_start; [exists cfg_a, 0, 8%nat | exists cfg_b, 0, 8%nat]; by split_and!.
Defined.


(** ** The retransmission timeout *)

(** Exponential backoff: the timeout doubles with every retransmission. *)
Definition backoff (s : TCPSender.t) : Prop :=
  0 <= TCPSender.recount s /\
  TCPSender.RTO s = TCPSender._initial_retransmission_timeout s * 2 ^ TCPSender.recount s.

Definition same_timer (s s' : TCPSender.t) : Prop :=
  TCPSender.RTO s' = TCPSender.RTO s /\ TCPSender.recount s' = TCPSender.recount s /\
  TCPSender._initial_retransmission_timeout s' = TCPSender._initial_retransmission_timeout s.

#[global] Instance same_timer_preorder : PreOrder same_timer.
Proof. split; [done |]. intros s1 s2 s3. unfold same_timer. intuition congruence. Qed.

Lemma send_next_timer s s' : TCPSender.send_next s = Ret s' -> same_timer s s'.
Proof.
  unfold TCPSender.send_next. destruct (if TCPSender.next_seqno_absolute s =? 0 then _ else _) as [hd syn].
  intros ((data & st) & _ & Hs)%bind_Ret. revert Hs.
  destruct (if (_ && _ && _ : bool) then _ else _) as [[seg next] fin]. intros [= <-]. done.
Qed.

Lemma fill_loop_timer fuel s s' : TCPSender.fill_loop fuel s = Ret s' -> same_timer s s'.
Proof.
  revert s. induction fuel as [|fuel IH]; intros s; cbn [TCPSender.fill_loop];
    (destruct (_ <=? _); [| by intros [= <-]]); (destruct (_ && _ && _); [by intros [= <-] |]); [done |].
  intros (s1 & H1 & H2)%bind_Ret. apply send_next_timer in H1. apply IH in H2. by transitivity s1.
Qed.

Lemma probe_timer f s s' : TCPSender.send_one_byte_segment f s = Ret s' -> same_timer s s'.
Proof. unfold TCPSender.send_one_byte_segment. intros ((seg & st) & _ & [= <-])%bind_Ret. done. Qed.

Lemma fill_timer s s' : TCPSender.fill_window s = Ret s' -> same_timer s s'.
Proof.
  unfold TCPSender.fill_window. destruct (_ && _); [| apply fill_loop_timer].
  destruct (negb _); [intros H%probe_timer; exact H |].
  destruct (TCPSender.ReadyToFin s); [intros H%probe_timer; exact H | apply fill_loop_timer].
Qed.

Lemma ack_timer ackno w s s' : TCPSender.ack_received ackno w s = Ret s' ->
  same_timer s s' \/ TCPSender.recount s' = 0 /\
    TCPSender.RTO s' = TCPSender._initial_retransmission_timeout s /\
    TCPSender._initial_retransmission_timeout s' = TCPSender._initial_retransmission_timeout s.
Proof.
  unfold TCPSender.ack_received. intros (ackabs & _ & Hs)%bind_Ret.
  destruct (ackabs >? _); [injection Hs as <-; by left |].
  apply bind_Ret in Hs as (((q & fl) & rm) & _ & [= <-]). unfold same_timer. cbn. destruct rm; auto.
Qed.

(** The timer of a connection that is still active. *)
Definition timer_ok (c : t) : Prop :=
  in_bits 16 (TCPConfig.rt_timeout (_cfg c)) /\
  (active c = true -> backoff (_sender c) /\ TCPSender.recount (_sender c) <= TCPConfig.MAX_RETX_ATTEMPTS /\
     TCPSender._initial_retransmission_timeout (_sender c) = TCPConfig.rt_timeout (_cfg c)).

Lemma same_timer_ok c c' :
  timer_ok c -> _cfg c' = _cfg c -> (active c' = true -> active c = true) ->
  same_timer (_sender c) (_sender c') \/ TCPSender.recount (_sender c') = 0 /\
    TCPSender.RTO (_sender c') = TCPSender._initial_retransmission_timeout (_sender c) /\
    TCPSender._initial_retransmission_timeout (_sender c') = TCPSender._initial_retransmission_timeout (_sender c) ->
  timer_ok c'.
Proof.
  intros (Hr & Ht) Hc Ha Hs. unfold timer_ok. rewrite Hc. split; [done |]. intros Hact.
  destruct (Ht (Ha Hact)) as ((H0 & HR) & Hle & Hi). unfold backoff.
  destruct Hs as [(E1 & E2 & E3) | (E2 & E1 & E3)]; rewrite E1, E2, E3; [done |].
  split_and!; [lia | rewrite Z.pow_0_r; lia | unfold TCPConfig.MAX_RETX_ATTEMPTS; lia | done].
Qed.

Lemma tick_backoff ms s :
  backoff s -> TCPSender.recount s <= TCPConfig.MAX_RETX_ATTEMPTS ->
  in_bits 16 (TCPSender._initial_retransmission_timeout s) -> backoff (TCPSender.tick ms s).
Proof.
  intros (H0 & HR) Hle Hi. unfold in_bits, TCPConfig.MAX_RETX_ATTEMPTS in *. unfold TCPSender.tick.
  destruct (TCPSender.outstandings s); [done |].
  destruct (_ >=? _); [| done]. unfold backoff. cbn.
  destruct (TCPSender.window s >? 0); [| done].
  assert (2 ^ TCPSender.recount s <= 2 ^ 8) by (apply Z.pow_le_mono_r; lia).
  assert (0 < 2 ^ TCPSender.recount s) by (apply Z.pow_pos_nonneg; lia).
  rewrite (u32_small (TCPSender.recount s + 1)) by lia. rewrite HR.
  rewrite u32_small by nia. rewrite Z.pow_add_r by lia. split; lia.
Qed.

Lemma tick_timer fo fi cp ms c out :
  cinv fo fi cp c out -> timer_ok c -> timer_ok (tick ms c).
Proof.
  intros [Hs Hsq _] (Hr & Ht). unfold tick.
  set (c1 := with_time _ (with_sender _ c)).
  assert (Hc1 : active c1 = true -> backoff (_sender c1) /\
    TCPSender._initial_retransmission_timeout (_sender c1) = TCPConfig.rt_timeout (_cfg c)).
  { intros Ha. destruct (Ht Ha) as (Hb & Hle & Hi).
    split; [apply tick_backoff; [done | done | by rewrite Hi] |].
    rewrite <- Hi. cbn. unfold TCPSender.tick. destruct (TCPSender.outstandings _); [done |]. by destruct (_ >=? _). }
  destruct (TCPState.eqb _ _) eqn:Est.
  - apply StateFacts.eqb_spec, time_wait_flight in Est.
    assert (Hidle : _sender c1 = _sender c) by (eapply time_wait_idle; [exact Hs | exact Hsq | exact Est]).
    destruct (_ >=? _); [by split |]. split; [done |]. intros Ha. cbn [_sender with_time_wait]. rewrite Hidle. by apply Ht.
  - destruct (_active c1) eqn:Ea; cbn [andb].
    + destruct (Z.gtb_spec (TCPSender.consecutive_retransmissions (_sender c1)) TCPConfig.MAX_RETX_ATTEMPTS); [by split |].
      destruct (Hc1 Ea) as (Hb & Hi). destruct (finished _); (split; [done |]); intros Ha; done.
    + destruct (finished _); (split; [done |]); intros Ha; [done |]. cbn in Ha. change (_active c1 = true) in Ha. congruence.
Qed.

Lemma perform_timer fo fi cp op c c' out :
  cinv fo fi cp c out -> timer_ok c -> perform op c = Ret c' -> timer_ok c'.
Proof.
  intros Hc Ht. destruct op as [|data| |ms|n]; cbn [perform].
  - unfold connect. intros (s & Hf%fill_timer & [= <-])%bind_Ret. eapply (same_timer_ok c); [done .. | by left].
  - intros ((m & c1) & Hw & [= <-])%bind_Ret. unfold write in Hw.
    apply bind_Ret in Hw as ((r & st) & _ & Hw). apply bind_Ret in Hw as (s & Hf%fill_timer & [= <- <-]).
    eapply (same_timer_ok c); [done .. | by left].
  - unfold end_input_stream. intros (s & Hf%fill_timer & [= <-])%bind_Ret. eapply (same_timer_ok c); [done .. | by left].
  - intros [= <-]. by eapply tick_timer.
  - intros ((d & st) & _ & [= <-])%bind_Ret. eapply (same_timer_ok c); [done .. | by left].
Qed.

Lemma ensure_reply_timer (b : bool) s : same_timer s (if b then ensure_reply s else s).
Proof. destruct b; [| done]. unfold ensure_reply. by destruct (TCPSender.segments_out s). Qed.

Lemma same_timer_after s1 s2 s3 :
  same_timer s1 s2 \/ TCPSender.recount s2 = 0 /\
    TCPSender.RTO s2 = TCPSender._initial_retransmission_timeout s1 /\
    TCPSender._initial_retransmission_timeout s2 = TCPSender._initial_retransmission_timeout s1 ->
  same_timer s2 s3 ->
  same_timer s1 s3 \/ TCPSender.recount s3 = 0 /\
    TCPSender.RTO s3 = TCPSender._initial_retransmission_timeout s1 /\
    TCPSender._initial_retransmission_timeout s3 = TCPSender._initial_retransmission_timeout s1.
Proof. unfold same_timer. intuition congruence. Qed.

Lemma segment_timer seg c c' : timer_ok c -> segment_received seg c = Ret c' -> timer_ok c'.
Proof.
  intros Ht. unfold segment_received.
  destruct (_ && TCPHeader.ack _); [intros [= <-]; eapply (same_timer_ok c); [done .. | by left] |].
  destruct (TCPHeader.rst _); [intros [= <-]; split; [apply Ht | done] |].
  set (c1 := if (TCPHeader.fin _ && _ : bool) then _ else _).
  assert (Hc1 : _sender c1 = _sender c /\ _cfg c1 = _cfg c /\ active c1 = active c)
    by (unfold c1; by destruct (TCPHeader.fin _ && _)).
  clearbody c1. destruct Hc1 as (E1 & E2 & E3).
  intros (r & _ & H)%bind_Ret. apply bind_Ret in H as (s1 & H1 & H). apply bind_Ret in H as (s2 & H2 & [= <-]).
  eapply (same_timer_ok c); [done | done | cbn; unfold active in *; cbn; by rewrite E3 |].
  change (_sender (with_receiver r c1)) with (_sender c1) in H1. rewrite E1 in H1.
  apply (same_timer_after _ s1).
  - revert H1. destruct (TCPHeader.ack _); [| intros [= <-]; by left].
    intros (s0 & Ha%ack_timer & Hf%fill_timer)%bind_Ret. by eapply same_timer_after.
  - assert (Hs2 : same_timer s1 s2).
    { revert H2. destruct ((TCPSender.next_seqno_absolute s1 =? 0) && _); [apply fill_timer | by intros [= <-]]. }
    etransitivity; [exact Hs2 |].
    destruct (TCPReceiver.ackno r); cbn; [etransitivity; [apply (ensure_reply_timer (len seg >? 0)) |] |];
      apply ensure_reply_timer.
Qed.

Lemma configured_timer fo cp c : configured fo cp c -> timer_ok c.
Proof.
  intros (cfg & rnd & scp & -> & _ & _ & _ & _ & Hr). split; [done |]. intros _.
  split_and!; [split; [done | cbn; lia] | done | done].
Qed.

Lemma net_timer fa fb cpa cpb n :
  in_bits 32 (isn_of fa) -> in_bits 32 (isn_of fb) ->
  0 <= total_of fa /\ total_of fa + Z.of_nat cpb + 2 < 2 ^ 31 ->
  0 <= total_of fb /\ total_of fb + Z.of_nat cpa + 2 < 2 ^ 31 ->
  net_reach fa fb cpa cpb n -> timer_ok (host_a n) /\ timer_ok (host_b n).
Proof.
  intros Ia Ib Ba Bb. induction 1 as [ca cb Ha Hb | n op c Hn (Ta & Tb) Hl Hp | n op c Hn (Ta & Tb) Hl Hp
    | n seg c Hn (Ta & Tb) Hin Hp | n seg c Hn (Ta & Tb) Hin Hp].
  1: { split; by eapply configured_timer. }
  all: destruct (net_reach_ok fa fb cpa cpb Ia Ib Ba Bb n Hn) as [Ka Kb _ _]; split; try done;
    first [exact (perform_timer _ _ _ _ _ _ _ Ka Ta Hp) | exact (perform_timer _ _ _ _ _ _ _ Kb Tb Hp)
      | exact (segment_timer _ _ _ Ta Hp) | exact (segment_timer _ _ _ Tb Hp)].
Qed.

(** C38: exponential backoff: as long as a connection is active, its
    retransmission timeout is the configured one doubled once for each of the
    at most MAX_RETX_ATTEMPTS consecutive retransmissions; the 32-bit timeout
    never overflows. *)
Theorem timeout_backs_off (fa fb : flow) (cpa cpb : nat) (n : net) :
  in_bits 32 (isn_of fa) -> in_bits 32 (isn_of fb) ->
  0 <= total_of fa /\ total_of fa + Z.of_nat cpb + 2 < 2 ^ 31 ->
  0 <= total_of fb /\ total_of fb + Z.of_nat cpa + 2 < 2 ^ 31 ->
  net_reach fa fb cpa cpb n -> active (host_a n) = true ->
  let s := _sender (host_a n) in
  0 <= TCPSender.consecutive_retransmissions s <= TCPConfig.MAX_RETX_ATTEMPTS /\
  TCPSender.RTO s = TCPConfig.rt_timeout (_cfg (host_a n)) * 2 ^ TCPSender.consecutive_retransmissions s.
Proof.
  intros Ia Ib Ba Bb Hn Hact s. destruct (net_timer fa fb cpa cpb n Ia Ib Ba Bb Hn) as ((_ & Ht) & _).
  destruct (Ht Hact) as ((H0 & HR) & Hle & Hi). rewrite Hi in HR. by split.
Qed.

Lemma timeout_backs_off_witness :
  TCPSender.RTO (_sender (host_a tw3)) = 1000.
Proof.
  destruct (timeout_backs_off empty_a empty_b 8 8 tw3) as (_ & H);
    [unfold in_bits; cbn; lia | unfold in_bits; cbn; lia | cbn; lia | cbn; lia | exact tw3_reach | reflexivity | exact H].
Defined.

(** The window is advertised modulo 2^16: a receiver with room for
    exactly a multiple of 65536 bytes advertises a window of zero. *)
Theorem window_truncated (r : TCPReceiver.t) (seg : TCPSegment.t) (a : WrappingInt32.t) (k : Z) :
  TCPReceiver.ackno r = Some a -> TCPReceiver.window_size r = k * 2 ^ 16 ->
  TCPHeader.win (TCPSegment.header (stamp r seg)) = 0.
Proof. intros Ha Hw. unfold stamp. rewrite Ha, Hw. cbn. unfold u16. apply Z.mod_mul. lia. Qed.

Lemma window_truncated_witness :
  exists c, segment_received (syn_seg 7) (make (TCPConfig.mk 1000 65536 8 (Some 5)) 0) = Ret c /\
    TCPHeader.win (TCPSegment.header (stamp (_receiver c) (syn_seg 5))) = 0.
Proof.
  eexists. split; [vm_compute; reflexivity |].
  eapply (window_truncated _ _ _ 1); vm_compute; reflexivity.
Defined.

End ConnectionFacts.
