(* ===== verification/address.v ===== *)
(** * libsponge/util/address: socket addresses

    The storage of an address is its bytes ([sockaddr_in] on the platforms
    the project builds for: a two-byte family, the port and the IP address in
    network order, eight bytes of zeros).  Name resolution and formatting are
    the C library's: [NetDB] is what the project uses of them. *)

From S2P Require Import Prelude parser.

Module Address.

Definition AF_INET : Z := 2.
(** [sizeof(sockaddr_in)] and [sizeof(sockaddr_storage)]. *)
Definition sizeof_sockaddr_in : Z := 16.
Definition sizeof_storage : Z := 128.

Record t := mk {
  _size : Z;
  _address : bytes;    (* the sockaddr_storage *)
}.

#[global] Instance address_eq_decision : EqDecision t.
Proof. solve_decision. Defined.

(** [memcpy] into a zeroed [sockaddr_storage]. *)
Definition of_sockaddr (addr : bytes) (size : Z) : outcome t :=
  if size >? sizeof_storage then Raise (runtime_error "invalid sockaddr size")
  else Ret (mk size (resize (take (Z.to_nat size) addr) sizeof_storage)).

(** The family is in the byte order of the (little-endian) host. *)
Definition ss_family (a : t) : Z :=
  match _address a with
  | lo :: hi :: _ => byte_val lo + 256 * byte_val hi
  | _ => 0
  end.

(** [be32toh] of the four bytes of [sin_addr]. *)
Definition sin_addr (a : t) : Z :=
  ParserFacts.be_val (take 4 (drop 4 (_address a))).

Definition ipv4_numeric (a : t) : outcome Z :=
  if negb (ss_family a =? AF_INET) || negb (_size a =? sizeof_sockaddr_in)
  then Raise (runtime_error "ipv4_numeric called on non-IPV4 address")
  else Ret (sin_addr a).

(** The bytes of a [sockaddr_in]. *)
Definition sockaddr_in (port ip : Z) : bytes :=
  [byte_of AF_INET; Byte.x00] ++ ParserFacts.be_bytes 2 port ++ ParserFacts.be_bytes 4 ip ++ replicate 8 Byte.x00.

Definition from_ipv4_numeric (ip_address : Z) : outcome t :=
  of_sockaddr (sockaddr_in 0 ip_address) sizeof_sockaddr_in.

(** [memcmp] over the first [_size] bytes. *)
Definition eqb (a b : t) : bool :=
  if negb (_size a =? _size b) then false
  else bool_decide (take (Z.to_nat (_size a)) (_address a) = take (Z.to_nat (_size a)) (_address b)).

(** What is used of the C library: [getnameinfo] with numeric flags, then
    [stoi] of the port ([port()]), and [getaddrinfo] on
    [inet_ntoa(htobe32(ip))] and a numeric port (the constructor from a
    dotted quad). *)
Class NetDB := {
  port : t -> outcome Z;
  of_ip_port : Z -> Z -> outcome t;
}.

(** Their documented behaviour on IPv4 addresses. *)
Class NetDBLaws `{NetDB} : Prop := {
  port_in : forall p ip, in_bits 16 p -> in_bits 32 ip ->
    port (mk sizeof_sockaddr_in (resize (sockaddr_in p ip) sizeof_storage)) = Ret p;
  of_ip_port_in : forall p ip, in_bits 16 p -> in_bits 32 ip ->
    of_ip_port ip p = Ret (mk sizeof_sockaddr_in (resize (sockaddr_in p ip) sizeof_storage));
}.

End Address.

Module AddressFacts.
Import Address ParserFacts.

(** The address of an IPv4 endpoint. *)
Definition inet (p ip : Z) : t := mk sizeof_sockaddr_in (resize (sockaddr_in p ip) sizeof_storage).

Lemma resize_in p ip : resize (sockaddr_in p ip) sizeof_storage = sockaddr_in p ip ++ replicate 112 Byte.x00.
Proof.
  unfold resize, sizeof_storage. rewrite take_ge by (unfold sockaddr_in; rewrite !length_app, !length_be_bytes; cbn; lia).
  by do 2 f_equal.
Qed.

Lemma inet_numeric p ip : in_bits 32 ip -> ipv4_numeric (inet p ip) = Ret ip.
Proof.
  intros Hip. unfold ipv4_numeric, inet, ss_family, sin_addr. cbn [_address _size]. rewrite resize_in.
  unfold sockaddr_in. cbn [app]. change (byte_val (byte_of AF_INET) + 256 * byte_val Byte.x00) with 2.
  change (negb (2 =? AF_INET) || negb (sizeof_sockaddr_in =? sizeof_sockaddr_in)) with false. f_equal.
  rewrite <- !app_assoc. change (drop 4 (byte_of AF_INET :: Byte.x00 :: be_bytes 2 p ++ be_bytes 4 ip ++ ?l))
    with (drop 2 (be_bytes 2 p ++ be_bytes 4 ip ++ l)).
  rewrite drop_app_length' by (by rewrite length_be_bytes). rewrite take_app_length' by (by rewrite length_be_bytes).
  by apply be_val_bytes_small.
Qed.

Lemma from_numeric ip : from_ipv4_numeric ip = Ret (inet 0 ip).
Proof.
  unfold from_ipv4_numeric, of_sockaddr, inet. change (sizeof_sockaddr_in >? sizeof_storage) with false. cbv iota.
  by do 3 f_equal.
Qed.

(** A 32-bit address survives the conversion to an [Address] and back. *)
Lemma numeric_roundtrip ip : in_bits 32 ip -> from_ipv4_numeric ip ≫= ipv4_numeric = Ret ip.
Proof. intros Hip. rewrite from_numeric. by apply inet_numeric. Qed.

(** The laws can hold: decode the port from the bytes. *)
Definition port_of_bytes (a : t) : outcome Z :=
  if negb (ss_family a =? AF_INET) then Raise (runtime_error "getnameinfo")
  else Ret (be_val (take 2 (drop 2 (_address a)))).

#[global] Instance byte_netdb : NetDB := {| port := port_of_bytes; of_ip_port ip p := Ret (inet p ip) |}.
#[global] Instance byte_netdb_laws : NetDBLaws.
Proof.
  split; [| done]. intros p ip Hp Hip. cbn [port byte_netdb]. unfold port_of_bytes, ss_family. cbn [_address].
  rewrite resize_in. unfold sockaddr_in. cbn [app]. change (byte_val (byte_of AF_INET) + 256 * byte_val Byte.x00) with 2.
  change (negb (2 =? AF_INET)) with false. cbv iota. f_equal. rewrite <- !app_assoc.
  change (drop 2 (byte_of AF_INET :: Byte.x00 :: ?l)) with l. cbn [drop]. rewrite take_app_length' by (by rewrite length_be_bytes).
  by apply be_val_bytes_small.
Qed.

End AddressFacts.
