(* ===== verification/network_interface.v ===== *)
(** * libsponge/network_interface: IPv4 over Ethernet with ARP

    The state is the class's four [unordered_map]s (finite maps), its two
    addresses and its queue of frames.  The two [while] loops of [tick] run
    over the entries of a map in the order the container gives them, which
    the model takes as an argument: the theorems hold for every order. *)

From S2P Require Import Prelude buffer parser util codec ethernet ipv4 address.

Module NetworkInterface.

Record t := mk {
  _ethernet_address : EthernetAddress;
  _ip_address : Address.t;
  _frames_out : list EthernetFrame.t;
  since_last_sent : gmap Z Z;
  cache_time : gmap Z Z;
  cache : gmap Z EthernetAddress;
  datagrams : gmap Z (list InternetDatagram);
}.

Definition make (ethernet_address : EthernetAddress) (ip_address : Address.t) : t :=
  mk ethernet_address ip_address [] ∅ ∅ ∅ ∅.

Definition frames_out (n : t) : list EthernetFrame.t := _frames_out n.
Definition with_frames_out (q : list EthernetFrame.t) (n : t) : t :=
  mk (_ethernet_address n) (_ip_address n) q (since_last_sent n) (cache_time n) (cache n) (datagrams n).
Definition push_frame (f : EthernetFrame.t) (n : t) : t := with_frames_out (_frames_out n ++ [f]) n.
Definition with_since_last_sent (m : gmap Z Z) (n : t) : t :=
  mk (_ethernet_address n) (_ip_address n) (_frames_out n) m (cache_time n) (cache n) (datagrams n).
Definition with_cache_time (m : gmap Z Z) (n : t) : t :=
  mk (_ethernet_address n) (_ip_address n) (_frames_out n) (since_last_sent n) m (cache n) (datagrams n).
Definition with_cache (m : gmap Z EthernetAddress) (n : t) : t :=
  mk (_ethernet_address n) (_ip_address n) (_frames_out n) (since_last_sent n) (cache_time n) m (datagrams n).
Definition with_datagrams (m : gmap Z (list InternetDatagram)) (n : t) : t :=
  mk (_ethernet_address n) (_ip_address n) (_frames_out n) (since_last_sent n) (cache_time n) (cache n) m.

(** [frames_out().push] of an IPv4 frame for [dst]. *)
Definition send_ip (dst : EthernetAddress) (dgram : InternetDatagram) (n : t) : outcome t :=
  payload ← IPv4Datagram.serialize dgram;
  Ret (push_frame (EthernetFrame.mk (EthernetHeader.mk dst (_ethernet_address n) EthernetHeader.TYPE_IPv4) payload) n).

(** [frames_out().push] of an ARP frame for [dst]. *)
Definition send_arp (dst : EthernetAddress) (arp : ARPMessage.t) (n : t) : outcome t :=
  payload ← ARPMessage.serialize arp;
  Ret (push_frame (EthernetFrame.mk (EthernetHeader.mk dst (_ethernet_address n) EthernetHeader.TYPE_ARP)
                     (BufferList.of_string payload)) n).

(** An [ARPMessage{}] with the fields the code assigns. *)
Definition arp_message (opcode : Z) (sea : EthernetAddress) (sip : Z) (tea : EthernetAddress) (tip : Z) : ARPMessage.t :=
  ARPMessage.mk (ARPMessage.hardware_type ARPMessage.default_) (ARPMessage.protocol_type ARPMessage.default_)
    (ARPMessage.hardware_address_size ARPMessage.default_) (ARPMessage.protocol_address_size ARPMessage.default_)
    opcode sea sip tea tip.

(** No request is pending for this address, or it is five seconds old. *)
Definition may_request (ip : Z) (n : t) : bool :=
  match since_last_sent n !! ip with
  | None => true
  | Some v => v >=? 5000
  end.

Definition send_datagram (dgram : InternetDatagram) (next_hop : Address.t) (n : t) : outcome t :=
  next_hop_ip ← Address.ipv4_numeric next_hop;
  match cache n !! next_hop_ip with
  | Some mac => send_ip mac dgram n
  | None =>
      if may_request next_hop_ip n then
        let n := with_since_last_sent (<[next_hop_ip := 0]> (since_last_sent n)) n in
        sip ← Address.ipv4_numeric (_ip_address n);
        let arp := arp_message ARPMessage.OPCODE_REQUEST (_ethernet_address n) sip
                     (ARPMessage.target_ethernet_address ARPMessage.default_) next_hop_ip in
        n ← send_arp ETHERNET_BROADCAST arp n;
        let ls := default [] (datagrams n !! next_hop_ip) in
        Ret (with_datagrams (<[next_hop_ip := dgram :: ls]> (datagrams n)) n)
      else Ret n
  end.

(** [while (wait.size() > 0)]. *)
Fixpoint flush (mac : EthernetAddress) (wait : list InternetDatagram) (n : t) : outcome t :=
  match wait with
  | [] => Ret n
  | id :: wait => n ← send_ip mac id n; flush mac wait n
  end.

(** The ARP branch of [recv_frame], the message parsed. *)
Definition recv_arp (am : ARPMessage.t) (n : t) : outcome t :=
  let ip := ARPMessage.sender_ip_address am in
  let mac := ARPMessage.sender_ethernet_address am in
  let n := with_cache (<[ip := mac]> (cache n)) n in
  let n := with_cache_time (<[ip := 0]> (cache_time n)) n in
  n ← (match datagrams n !! ip with
       | Some wait =>
           n ← flush mac wait n;
           Ret (with_datagrams (delete ip (datagrams n)) n)
       | None => Ret n
       end);
  if ARPMessage.opcode am =? ARPMessage.OPCODE_REQUEST then
    my_ip ← Address.ipv4_numeric (_ip_address n);
    if ARPMessage.target_ip_address am =? my_ip then
      send_arp mac (arp_message ARPMessage.OPCODE_REPLY (_ethernet_address n) my_ip mac ip) n
    else Ret n
  else Ret n.

Definition recv_frame (frame : EthernetFrame.t) (n : t) : outcome (option InternetDatagram * t) :=
  let hd := EthernetFrame.header frame in
  if negb (bool_decide (EthernetHeader.dst hd = ETHERNET_BROADCAST) ||
           bool_decide (EthernetHeader.dst hd = _ethernet_address n)) then Ret (None, n)
  else if EthernetHeader.type hd =? EthernetHeader.TYPE_IPv4 then
    buffer ← BufferList.to_buffer (EthernetFrame.payload frame);
    '(pr, dgram) ← IPv4Datagram.parse buffer IPv4Datagram.default_;
    if bool_decide (pr = NoError) then Ret (Some dgram, n) else Ret (None, n)
  else
    buffer ← BufferList.to_buffer (EthernetFrame.payload frame);
    '(pr, am) ← ARPMessage.parse buffer ARPMessage.default_;
    if negb (bool_decide (pr = NoError)) then Ret (None, n)
    else n ← recv_arp am n; Ret (None, n).

(** The first loop of [tick], over the entries of [cache_time];
    [cache.erase(cache.find(ip))] of a missing key erases [end()]. *)
Fixpoint age_cache (entries : list (Z * Z)) (ms : Z) (n : t) : outcome t :=
  match entries with
  | [] => Ret n
  | (ip, v) :: entries =>
      let t := u64 (v + ms) in
      if t >=? 30000 then
        match cache n !! ip with
        | None => Raise (undefined_behaviour "unordered_map::erase(end())")
        | Some _ =>
            age_cache entries ms (with_cache_time (delete ip (cache_time n)) (with_cache (delete ip (cache n)) n))
        end
      else age_cache entries ms (with_cache_time (<[ip := t]> (cache_time n)) n)
  end.

(** The second loop, over the entries of [since_last_sent]. *)
Fixpoint age_requests (entries : list (Z * Z)) (ms : Z) (n : t) : t :=
  match entries with
  | [] => n
  | (ip, v) :: entries =>
      let t := u64 (v + ms) in
      if t >=? 5000 then age_requests entries ms (with_since_last_sent (delete ip (since_last_sent n)) n)
      else age_requests entries ms (with_since_last_sent (<[ip := t]> (since_last_sent n)) n)
  end.

(** [tick], the loops running over the entries in the orders given. *)
Definition tick_in (order1 order2 : list (Z * Z)) (ms : Z) (n : t) : outcome t :=
  n ← age_cache order1 ms n;
  Ret (age_requests order2 ms n).

Definition tick (ms : Z) (n : t) : outcome t :=
  tick_in (map_to_list (cache_time n)) (map_to_list (since_last_sent n)) ms n.

End NetworkInterface.
