(* ===== verification/network_interface_proofs.v ===== *)
(** * NetworkInterface: invariant, ARP resolution and expiry

    [ni_inv] ties the four maps together; every operation returns on it and
    keeps it.  [arp_resolution] runs two interfaces against each other over
    the wire formats of ethernet.v and ipv4.v. *)

From S2P Require Import Prelude buffer parser util codec ethernet ipv4 address network_interface.

Module InterfaceFacts.
Import ParserFacts CodecFacts EthernetFacts IPv4Facts AddressFacts NetworkInterface.

(** ** Sending *)

(** A datagram that [serialize] accepts. *)
Definition sendable (d : InternetDatagram) : Prop :=
  ip_wf (IPv4Datagram.header d) /\
  IPv4Header.len (IPv4Datagram.header d) =
    4 * IPv4Header.hlen (IPv4Datagram.header d) + Zlen (BufferList.concatenate (IPv4Datagram.payload d)).

(** [f] carries [d] from [src] to [dst]. *)
Definition carries_ip (dst src : EthernetAddress) (d : InternetDatagram) (f : EthernetFrame.t) : Prop :=
  EthernetFrame.header f = EthernetHeader.mk dst src EthernetHeader.TYPE_IPv4 /\
  IPv4Datagram.serialize d = Ret (EthernetFrame.payload f).

Lemma send_ip_ok mac d n :
  sendable d -> exists f, send_ip mac d n = Ret (push_frame f n) /\ carries_ip mac (_ethernet_address n) d f.
Proof.
  intros [Hh Hl]. destruct (datagram_serialize d Hh Hl) as (l & Hs & _). unfold send_ip. rewrite Hs.
  eexists. split; [reflexivity | by split].
Qed.

(** [f] carries the ARP message [m] from [src] to [dst]. *)
Definition carries_arp (dst src : EthernetAddress) (m : ARPMessage.t) (f : EthernetFrame.t) : Prop :=
  EthernetFrame.header f = EthernetHeader.mk dst src EthernetHeader.TYPE_ARP /\
  ARPMessage.serialize m = Ret (BufferList.concatenate (EthernetFrame.payload f)).

Lemma send_arp_ok mac m n :
  arp_wf m -> exists f, send_arp mac m n = Ret (push_frame f n) /\ carries_arp mac (_ethernet_address n) m f.
Proof.
  intros Hm. unfold send_arp. pose proof (arp_serialize_bytes m (wf_supported m Hm)) as Hs. rewrite Hs.
  eexists. split; [reflexivity |]. split; [done |]. rewrite Hs. f_equal.
  cbn [EthernetFrame.payload EthernetFrame._payload BufferList.of_string BufferList.concatenate].
  by rewrite Buffer.str_of_string, app_nil_r.
Qed.

Lemma arp_message_wf op sea sip tea tip :
  op = ARPMessage.OPCODE_REQUEST \/ op = ARPMessage.OPCODE_REPLY ->
  length sea = 6%nat -> in_bits 32 sip -> length tea = 6%nat -> in_bits 32 tip ->
  arp_wf (arp_message op sea sip tea tip).
Proof. intros Hop ? ? ? ?. split; [| done..]. by destruct Hop as [-> | ->]. Qed.

(** The datagrams waiting for an address are sent in the order of the list. *)
Lemma flush_ok mac ws n :
  Forall sendable ws ->
  exists fs, flush mac ws n = Ret (with_frames_out (_frames_out n ++ fs) n) /\
    Forall2 (carries_ip mac (_ethernet_address n)) ws fs.
Proof.
  intros Hws. revert n. induction Hws as [|d ws Hd _ IH]; intros n; cbn [flush].
  { exists []. rewrite app_nil_r. by destruct n. }
  destruct (send_ip_ok mac d n Hd) as (f & -> & Hf). cbn [mbind outcome_bind].
  destruct (IH (push_frame f n)) as (fs & -> & Hfs). exists (f :: fs). split; [| by constructor].
  f_equal. unfold push_frame, with_frames_out. cbn. by rewrite <- app_assoc.
Qed.

(** ** The invariant *)

(** A frame the interface sends. *)
Definition frame_ok (src : EthernetAddress) (f : EthernetFrame.t) : Prop :=
  exists dst, length dst = 6%nat /\
    ((exists d, sendable d /\ carries_ip dst src d f) \/ (exists m, arp_wf m /\ carries_arp dst src m f)).

Record ni_inv (n : t) : Prop := {
  ni_mac : length (_ethernet_address n) = 6%nat;
  ni_ip : exists ip, in_bits 32 ip /\ Address.ipv4_numeric (_ip_address n) = Ret ip;
  (** every mapping has an age, and every age a mapping *)
  ni_dom : dom (cache n) = dom (cache_time n);
  ni_cache : map_Forall (fun ip mac => in_bits 32 ip /\ length mac = 6%nat) (cache n);
  ni_cache_time : map_Forall (fun _ v => 0 <= v < 30000) (cache_time n);
  ni_requests : map_Forall (fun _ v => 0 <= v < 5000) (since_last_sent n);
  ni_waiting : map_Forall (fun _ ws => ws <> [] /\ Forall sendable ws) (datagrams n);
  (** nothing waits for an address that is known *)
  ni_disjoint : dom (datagrams n) ## dom (cache n);
  ni_frames : Forall (frame_ok (_ethernet_address n)) (_frames_out n);
}.

Lemma ni_inv_make mac ip :
  length mac = 6%nat -> in_bits 32 ip -> ni_inv (make mac (inet 0 ip)).
Proof.
  intros Hm Hip. split; cbn; try done; try apply map_Forall_empty.
  exists ip. split; [done |]. by apply inet_numeric.
Qed.

Lemma push_frame_inv f n : ni_inv n -> frame_ok (_ethernet_address n) f -> ni_inv (push_frame f n).
Proof. intros [] Hf. split; cbn; try done. apply Forall_app. split; [done |]. by constructor. Qed.

(** ** [send_datagram] *)

(** What [send_datagram] does: an IPv4 frame when the address is known; a
    broadcast request, the datagram first in its queue, when it is not and no
    request is pending; nothing otherwise. *)
Lemma send_datagram_ok d hop ip n :
  ni_inv n -> sendable d -> Address.ipv4_numeric hop = Ret ip -> in_bits 32 ip ->
  match cache n !! ip with
  | Some mac => exists f, send_datagram d hop n = Ret (push_frame f n) /\ carries_ip mac (_ethernet_address n) d f
  | None =>
      if may_request ip n then
        exists f my_ip, Address.ipv4_numeric (_ip_address n) = Ret my_ip /\ in_bits 32 my_ip /\
          send_datagram d hop n = Ret (with_datagrams (<[ip := d :: default [] (datagrams n !! ip)]> (datagrams n))
            (push_frame f (with_since_last_sent (<[ip := 0]> (since_last_sent n)) n))) /\
          carries_arp ETHERNET_BROADCAST (_ethernet_address n)
            (arp_message ARPMessage.OPCODE_REQUEST (_ethernet_address n) my_ip (replicate 6 Byte.x00) ip) f
      else send_datagram d hop n = Ret n
  end.
Proof.
  intros Hn Hd Hhop Hip. unfold send_datagram. rewrite Hhop. cbn [mbind outcome_bind].
  destruct (cache n !! ip) as [mac|]; [by apply send_ip_ok |].
  destruct (may_request ip n); [| done]. destruct (ni_ip n Hn) as (my_ip & Hmy & Heq). cbn [_ip_address with_since_last_sent].
  rewrite Heq. cbn [mbind outcome_bind].
  edestruct (send_arp_ok ETHERNET_BROADCAST) as (f & Hs & Hf);
    [| rewrite Hs; cbn [mbind outcome_bind]; exists f, my_ip; split_and!; [done | done | reflexivity | exact Hf]].
  apply arp_message_wf; [by left | apply (ni_mac n Hn) | done | done | done].
Qed.

Lemma send_datagram_inv d hop ip n :
  ni_inv n -> sendable d -> Address.ipv4_numeric hop = Ret ip -> in_bits 32 ip ->
  exists n', send_datagram d hop n = Ret n' /\ ni_inv n'.
Proof.
  intros Hn Hd Hhop Hip. pose proof (send_datagram_ok d hop ip n Hn Hd Hhop Hip) as Hs.
  destruct (cache n !! ip) as [mac|] eqn:Hc.
  { destruct Hs as (f & Hs & Hf). eexists. split; [exact Hs |]. apply push_frame_inv; [done |].
    exists mac. split; [apply (ni_cache n Hn ip mac Hc) |]. left. by exists d. }
  destruct (may_request ip n); [| by exists n].
  destruct Hs as (f & my_ip & Hmy & Hb & Hs & Hf). eexists. split; [exact Hs |].
  assert (Hfr : frame_ok (_ethernet_address n) f).
  { exists ETHERNET_BROADCAST. split; [done |]. right. eexists. split; [| exact Hf].
    apply arp_message_wf; [by left | apply (ni_mac n Hn) | done | done | done]. }
  destruct (push_frame_inv f n Hn Hfr). split; cbn in *; try done.
  - apply map_Forall_insert_2; [lia | done].
  - apply map_Forall_insert_2; [| done]. split; [done |]. constructor; [done |].
    destruct (datagrams n !! ip) as [ws|] eqn:Hws; cbn; [| done]. by apply (ni_waiting0 ip ws).
  - rewrite dom_insert. apply not_elem_of_dom in Hc.
    apply disjoint_union_l. by rewrite disjoint_singleton_l.
Qed.

(** ** [recv_frame] *)

(** The mapping of an ARP message learnt, and what waited for it sent. *)
Definition learn (am : ARPMessage.t) (fs : list EthernetFrame.t) (n : t) : t :=
  let ip := ARPMessage.sender_ip_address am in
  mk (_ethernet_address n) (_ip_address n) (_frames_out n ++ fs) (since_last_sent n)
    (<[ip := 0]> (cache_time n)) (<[ip := ARPMessage.sender_ethernet_address am]> (cache n)) (delete ip (datagrams n)).

(** Is the message a request for this interface? *)
Definition asks_me (am : ARPMessage.t) (my_ip : Z) : bool :=
  (ARPMessage.opcode am =? ARPMessage.OPCODE_REQUEST) && (ARPMessage.target_ip_address am =? my_ip).

(** What an ARP message does: its sender is learnt, the datagrams waiting for
    it leave in queue order, and a request for this interface is answered. *)
Lemma recv_arp_ok am n my_ip :
  ni_inv n -> arp_wf am -> Address.ipv4_numeric (_ip_address n) = Ret my_ip -> in_bits 32 my_ip ->
  let mac := ARPMessage.sender_ethernet_address am in
  let ip := ARPMessage.sender_ip_address am in
  exists fs reply, recv_arp am n = Ret (learn am (fs ++ reply) n) /\
    Forall2 (carries_ip mac (_ethernet_address n)) (default [] (datagrams n !! ip)) fs /\
    (if asks_me am my_ip
     then exists f, reply = [f] /\ carries_arp mac (_ethernet_address n)
            (arp_message ARPMessage.OPCODE_REPLY (_ethernet_address n) my_ip mac ip) f
     else reply = []).
Proof.
  intros Hn Ham Hmy Hb mac ip. unfold recv_arp. fold ip. fold mac. cbn [datagrams with_cache_time with_cache].
  set (n1 := with_cache_time _ _).
  assert (Hflush : exists fs,
    (match datagrams n !! ip with
     | Some wait => n ← flush mac wait n1; Ret (with_datagrams (delete ip (datagrams n)) n)
     | None => Ret n1
     end) = Ret (learn am fs n) /\
    Forall2 (carries_ip mac (_ethernet_address n)) (default [] (datagrams n !! ip)) fs).
  { destruct (datagrams n !! ip) as [ws|] eqn:Hws; cbn [default].
    - destruct (flush_ok mac ws n1) as (fs & -> & Hfs); [by apply (ni_waiting n Hn ip ws) |].
      exists fs. split; [| done]. cbn [mbind outcome_bind]. done.
    - exists []. split; [| constructor]. unfold learn. fold ip. rewrite app_nil_r, delete_id by done. done. }
  destruct Hflush as (fs & -> & Hfs). cbn [mbind outcome_bind]. exists fs. unfold asks_me.
  destruct (ARPMessage.opcode am =? ARPMessage.OPCODE_REQUEST); cbn [andb].
  2: { exists []. by rewrite app_nil_r. }
  cbn [_ip_address learn]. rewrite Hmy. cbn [mbind outcome_bind].
  destruct (ARPMessage.target_ip_address am =? my_ip).
  2: { exists []. by rewrite app_nil_r. }
  edestruct (send_arp_ok mac) as (f & Hs & Hf);
    [| rewrite Hs; exists [f]; split_and!; [| done | exists f; split; [done | exact Hf]]].
  - apply arp_message_wf; [by right | apply (ni_mac n Hn) | done | apply Ham | apply Ham].
  - unfold learn, push_frame, with_frames_out. cbn. by rewrite <- app_assoc.
Qed.

Lemma learn_inv am fs n :
  ni_inv n -> arp_wf am -> Forall (frame_ok (_ethernet_address n)) fs -> ni_inv (learn am fs n).
Proof.
  intros [] [] Hfs. split; cbn; try done.
  - by rewrite !dom_insert_L, ni_dom0.
  - by apply map_Forall_insert_2.
  - apply map_Forall_insert_2; [lia | done].
  - by apply map_Forall_delete.
  - rewrite dom_delete_L, dom_insert_L. set_unfold. intros x [Hx Hne] [-> | Hc]; [done |]. by apply (ni_disjoint0 x).
  - by apply Forall_app.
Qed.

Lemma recv_arp_inv am n :
  ni_inv n -> arp_wf am -> exists n', recv_arp am n = Ret n' /\ ni_inv n'.
Proof.
  intros Hn Ham. destruct (ni_ip n Hn) as (my_ip & Hb & Hmy).
  destruct (recv_arp_ok am n my_ip Hn Ham Hmy Hb) as (fs & reply & Hr & Hfs & Hrep).
  eexists. split; [exact Hr |]. apply learn_inv; [done | done |]. apply Forall_app. split.
  - apply Forall_forall. intros f [k Hk]%list_elem_of_lookup. destruct (Forall2_lookup_r _ _ _ _ _ Hfs Hk) as (d & Hd & Hc).
    exists (ARPMessage.sender_ethernet_address am). split; [apply Ham |]. left. exists d. split; [| done].
    destruct (datagrams n !! _) as [ws|] eqn:Hws; [| done]. cbn in Hd.
    apply (Forall_lookup_1 _ _ k d (proj2 (ni_waiting n Hn _ ws Hws)) Hd).
  - destruct (asks_me am my_ip); [| by subst]. destruct Hrep as (f & -> & Hf). constructor; [| done].
    exists (ARPMessage.sender_ethernet_address am). split; [apply Ham |]. right. eexists. split; [| exact Hf].
    apply arp_message_wf; [by right | apply (ni_mac n Hn) | done | apply Ham | apply Ham].
Qed.

(** A frame as [EthernetFrame::parse] leaves it: its payload is one buffer. *)
Definition parsed (f : EthernetFrame.t) : Prop :=
  exists b, EthernetFrame.payload f = [b] /\ Buffer.wf b.

(** A datagram as [IPv4Datagram::parse] leaves it. *)
Definition received (d : InternetDatagram) : Prop :=
  addressed (IPv4Datagram.header d) /\ exists b, IPv4Datagram.payload d = [b] /\ Buffer.wf b.

Lemma recv_frame_inv f n :
  ni_inv n -> parsed f ->
  exists d n', recv_frame f n = Ret (d, n') /\ ni_inv n' /\ (forall dg, d = Some dg -> received dg).
Proof.
  intros Hn (b & Hb & Hwf). unfold recv_frame. rewrite Hb. cbn [BufferList.to_buffer].
  destruct (negb _); [by eexists _, _ |]. destruct (_ =? _).
  - cbn [mbind outcome_bind]. destruct (datagram_parse_total b IPv4Datagram.default_ Hwf) as (r & d & b' & -> & Hd); [done |].
    cbn [mbind outcome_bind]. destruct (bool_decide _); eexists _, _; split_and!; try done.
    intros dg [= <-]. split; [apply Hd |]. exists b'. by split; apply Hd.
  - cbn [mbind outcome_bind]. destruct (arp_parse_total b ARPMessage.default_ Hwf) as (r & am & -> & Ham).
    cbn [mbind outcome_bind]. destruct (bool_decide _) eqn:Hr; cbn [negb]; [| by eexists _, _].
    apply bool_decide_eq_true in Hr. destruct (recv_arp_inv am n Hn (Ham Hr)) as (n' & -> & Hn').
    cbn [mbind outcome_bind]. by eexists _, _.
Qed.

(** ** [tick] *)

(** An entry of age [v], [ms] later. *)
Definition aged (limit ms v : Z) : option Z := if v + ms <? limit then Some (v + ms) else None.

Lemma age_step ms v limit :
  0 <= v < limit -> limit <= 2 ^ 32 -> 0 <= ms < 2 ^ 63 ->
  u64 (v + ms) = v + ms /\ (v + ms >=? limit) = negb (v + ms <? limit).
Proof. intros. split; [apply u64_small; lia |]. repeat case_cmp; done || lia. Qed.

(** The entries of a map aged one by one, and the mappings whose entry
    expires removed. *)
Definition age_map (limit ms : Z) (entries : list (Z * Z)) (m : gmap Z Z) : gmap Z Z :=
  foldl (fun m e => partial_alter (fun _ => aged limit ms e.2) e.1 m) m entries.
Definition expire (ms : Z) (entries : list (Z * Z)) (c : gmap Z EthernetAddress) : gmap Z EthernetAddress :=
  foldl (fun c e => if e.2 + ms <? 30000 then c else delete e.1 c) c entries.

Lemma age_map_lookup limit ms entries m i :
  NoDup entries.*1 ->
  age_map limit ms entries m !! i =
  match (list_to_map entries : gmap Z Z) !! i with Some v => aged limit ms v | None => m !! i end.
Proof.
  revert m. induction entries as [|[k v] es IH]; intros m Hnd; [done |].
  apply NoDup_cons in Hnd as [Hk Hnd]. cbn in Hk. cbn [age_map foldl fst snd]. fold (age_map limit ms es).
  unfold age_map in IH. rewrite IH by done. cbn [list_to_map foldr fst snd]. destruct (decide (i = k)) as [-> | Hne].
  - rewrite lookup_insert_eq, not_elem_of_list_to_map_1 by done. apply lookup_partial_alter_eq.
  - rewrite lookup_insert_ne by done. destruct (_ !! i); [done |]. by apply lookup_partial_alter_ne.
Qed.

Lemma expire_lookup ms entries c i :
  NoDup entries.*1 ->
  expire ms entries c !! i =
  match (list_to_map entries : gmap Z Z) !! i with
  | Some v => if v + ms <? 30000 then c !! i else None
  | None => c !! i
  end.
Proof.
  revert c. induction entries as [|[k v] es IH]; intros c Hnd; [done |].
  apply NoDup_cons in Hnd as [Hk Hnd]. cbn in Hk. unfold expire in *. cbn [foldl fst snd].
  rewrite IH by done. cbn [list_to_map foldr fst snd]. destruct (decide (i = k)) as [-> | Hne].
  - rewrite lookup_insert_eq, not_elem_of_list_to_map_1 by done. destruct (v + ms <? 30000); [done | apply lookup_delete_eq].
  - rewrite lookup_insert_ne by done. destruct (v + ms <? 30000); [done |]. by rewrite lookup_delete_ne.
Qed.

Lemma age_requests_map entries ms n :
  0 <= ms < 2 ^ 63 -> Forall (fun e => 0 <= e.2 < 5000) entries ->
  age_requests entries ms n = with_since_last_sent (age_map 5000 ms entries (since_last_sent n)) n.
Proof.
  intros Hms Hall. revert n. induction Hall as [|[k v] es Hv _ IH]; intros n; [by destruct n |].
  cbn [age_requests age_map foldl fst snd] in *. destruct (age_step ms v 5000 Hv) as [-> ->]; [lia | done |].
  unfold aged at 2. destruct (v + ms <? 5000); cbn [negb]; by rewrite IH.
Qed.

Lemma age_cache_map entries ms n :
  0 <= ms < 2 ^ 63 -> NoDup entries.*1 ->
  Forall (fun e => 0 <= e.2 < 30000 /\ is_Some (cache n !! e.1)) entries ->
  age_cache entries ms n =
    Ret (with_cache_time (age_map 30000 ms entries (cache_time n)) (with_cache (expire ms entries (cache n)) n)).
Proof.
  intros Hms. revert n. induction entries as [|[k v] es IH]; intros n Hnd Hall; [by destruct n |].
  apply NoDup_cons in Hnd as [Hk Hnd]. apply Forall_cons in Hall as [[Hv [mac Hmac]] Hall]. cbn in Hk, Hv, Hmac.
  cbn [age_cache age_map expire foldl fst snd]. destruct (age_step ms v 30000 Hv) as [-> ->]; [lia | done |].
  unfold aged at 2. rewrite Hmac. destruct (v + ms <? 30000); cbn [negb]; rewrite IH; try done.
  apply Forall_forall. intros [k' v'] Hin. destruct (proj1 (Forall_forall _ _) Hall _ Hin) as [Hv' Hc']. split; [done |].
  cbn in *. rewrite lookup_delete_ne; [done |]. intros <-. apply Hk. apply list_elem_of_fmap. by exists (k, v').
Qed.

(** The entries of [m], in whatever order. *)
Lemma entries_of (P : Z -> Z -> Prop) (m : gmap Z Z) order :
  order ≡ₚ map_to_list m -> map_Forall P m ->
  NoDup order.*1 /\ list_to_map order = m /\ Forall (fun e => P e.1 e.2 /\ m !! e.1 = Some e.2) order.
Proof.
  intros Hp HP. assert (Hnd : NoDup order.*1) by (rewrite Hp; apply NoDup_fst_map_to_list).
  split_and!; [done | |].
  - rewrite (list_to_map_proper _ _ Hnd Hp). apply list_to_map_to_list.
  - apply Forall_forall. intros [k v] Hin. rewrite Hp in Hin. apply elem_of_map_to_list in Hin. split; [by apply HP | done].
Qed.

Lemma aged_range limit ms v w : 0 <= v -> 0 <= ms -> aged limit ms v = Some w -> 0 <= w < limit.
Proof. unfold aged. case_cmp; intros ? ? [= <-]; lia. Qed.

(** [n'] is [n], [ms] later. *)
Record aged_by (ms : Z) (n n' : t) : Prop := {
  ab_cache : forall ip, cache n' !! ip =
    (v ← cache_time n !! ip; mac ← cache n !! ip; if v + ms <? 30000 then Some mac else None);
  ab_cache_time : forall ip, cache_time n' !! ip = (v ← cache_time n !! ip; aged 30000 ms v);
  ab_requests : forall ip, since_last_sent n' !! ip = (v ← since_last_sent n !! ip; aged 5000 ms v);
  ab_waiting : datagrams n' = datagrams n;
  ab_frames : _frames_out n' = _frames_out n;
  ab_mac : _ethernet_address n' = _ethernet_address n;
  ab_ip : _ip_address n' = _ip_address n;
}.

Lemma aged_by_inv n n' ms : ni_inv n -> 0 <= ms < 2 ^ 63 -> aged_by ms n n' -> ni_inv n'.
Proof.
  intros [] Hms [Hc Ht Hs Hd Hf He Hi].
  assert (Hsub : forall ip mac, cache n' !! ip = Some mac -> cache n !! ip = Some mac).
  { intros ip mac. rewrite Hc. destruct (cache_time n !! ip), (cache n !! ip); cbn; try done. by case_cmp. }
  split; rewrite ?Hd, ?Hf, ?He, ?Hi; try done.
  - apply set_eq. intros ip. rewrite !elem_of_dom, Hc, Ht.
    assert (Hiff : ip ∈ dom (cache n) <-> ip ∈ dom (cache_time n)) by (by rewrite ni_dom0).
    rewrite !elem_of_dom in Hiff. destruct (cache_time n !! ip) as [v|]; cbn; [| done].
    destruct (proj2 Hiff) as [mac ->]; [by eexists |]. cbn. unfold aged. by case_cmp; split; intros [? [=]]; eexists.
  - intros ip mac Hm. by apply ni_cache0, Hsub.
  - intros ip w. rewrite Ht. destruct (cache_time n !! ip) as [v|] eqn:Hv; cbn; [| done].
    apply ni_cache_time0 in Hv. apply aged_range; lia.
  - intros ip w. rewrite Hs. destruct (since_last_sent n !! ip) as [v|] eqn:Hv; cbn; [| done].
    apply ni_requests0 in Hv. apply aged_range; lia.
  - intros ip Hw [mac Hm%Hsub]%elem_of_dom. apply (ni_disjoint0 ip Hw), elem_of_dom. by exists mac.
Qed.

Lemma ni_tick_ok n ms order1 order2 :
  ni_inv n -> 0 <= ms < 2 ^ 63 ->
  order1 ≡ₚ map_to_list (cache_time n) -> order2 ≡ₚ map_to_list (since_last_sent n) ->
  exists n', tick_in order1 order2 ms n = Ret n' /\ aged_by ms n n'.
Proof.
  intros Hn Hms Hp1 Hp2.
  destruct (entries_of _ _ order1 Hp1 (ni_cache_time n Hn)) as (Hnd1 & Hm1 & Ha1).
  destruct (entries_of _ _ order2 Hp2 (ni_requests n Hn)) as (Hnd2 & Hm2 & Ha2).
  unfold tick_in. rewrite age_cache_map; [| done | done |].
  2: { eapply Forall_impl; [exact Ha1 |]. intros [k v] [Hv Hk]. split; [done |]. cbn in Hk |- *.
       apply elem_of_dom. rewrite (ni_dom n Hn). apply elem_of_dom. by exists v. }
  cbn [mbind outcome_bind]. rewrite age_requests_map; [| done | eapply Forall_impl; [exact Ha2 | by intros ? []]].
  set (n' := with_since_last_sent _ _). exists n'. split; [done |].
  assert (Hc : forall ip, cache n' !! ip =
    (v ← cache_time n !! ip; mac ← cache n !! ip; if v + ms <? 30000 then Some mac else None)).
  { intros ip. unfold n'. cbn. rewrite expire_lookup, Hm1 by done.
    destruct (cache_time n !! ip) as [v|] eqn:Ht; cbn.
    - destruct (cache n !! ip); cbn; by destruct (_ <? _).
    - apply not_elem_of_dom. rewrite (ni_dom n Hn). by apply not_elem_of_dom. }
  assert (Ht : forall ip, cache_time n' !! ip = (v ← cache_time n !! ip; aged 30000 ms v)).
  { intros ip. unfold n'. cbn. rewrite age_map_lookup, Hm1 by done. by destruct (cache_time n !! ip). }
  assert (Hs : forall ip, since_last_sent n' !! ip = (v ← since_last_sent n !! ip; aged 5000 ms v)).
  { intros ip. unfold n'. cbn. rewrite age_map_lookup, Hm2 by done. by destruct (since_last_sent n !! ip). }
  done.
Qed.

(** C18: [tick] returns whatever the iteration order of the hash maps, and
    its effect does not depend on it: a mapping is forgotten, with its age,
    when it is thirty seconds old, a pending request when it is five seconds
    old, everything younger ages by [ms], and nothing else changes. *)
Theorem tick_correct (n : t) (ms : Z) (order1 order2 : list (Z * Z)) :
  ni_inv n -> 0 <= ms < 2 ^ 63 ->
  order1 ≡ₚ map_to_list (cache_time n) -> order2 ≡ₚ map_to_list (since_last_sent n) ->
  exists n', tick_in order1 order2 ms n = Ret n' /\ ni_inv n' /\ aged_by ms n n'.
Proof.
  intros Hn Hms H1 H2. destruct (ni_tick_ok n ms order1 order2 Hn Hms H1 H2) as (n' & Ht & Ha).
  exists n'. split_and!; [done | | done]. by eapply aged_by_inv.
Qed.

(** ** Runs of an interface *)

Inductive op :=
| Send (d : InternetDatagram) (hop : Address.t)
| Receive (f : EthernetFrame.t)
| Tick (order1 order2 : list (Z * Z)) (ms : Z)
| Transmit.   (* the owner takes a frame of the queue *)

Definition perform (o : op) (n : t) : outcome (option InternetDatagram * t) :=
  match o with
  | Send d hop => n ← send_datagram d hop n; Ret (None, n)
  | Receive f => recv_frame f n
  | Tick order1 order2 ms => n ← tick_in order1 order2 ms n; Ret (None, n)
  | Transmit => Ret (None, with_frames_out (tail (_frames_out n)) n)
  end.

(** Any frame may arrive; datagrams to send are consistent, and next hops
    are IPv4 addresses. *)
Definition legal (o : op) (n : t) : Prop :=
  match o with
  | Send d hop => sendable d /\ exists ip, in_bits 32 ip /\ Address.ipv4_numeric hop = Ret ip
  | Receive f => parsed f
  | Tick order1 order2 ms =>
      0 <= ms < 2 ^ 63 /\ order1 ≡ₚ map_to_list (cache_time n) /\ order2 ≡ₚ map_to_list (since_last_sent n)
  | Transmit => True
  end.

Inductive ni_reach (mac : EthernetAddress) (ip : Z) : t -> Prop :=
| ni_reach_make : ni_reach mac ip (make mac (inet 0 ip))
| ni_reach_step n o d n' : ni_reach mac ip n -> legal o n -> perform o n = Ret (d, n') -> ni_reach mac ip n'.

Lemma perform_inv o n : ni_inv n -> legal o n -> exists d n', perform o n = Ret (d, n') /\ ni_inv n'.
Proof.
  intros Hn Ho. destruct o as [d hop | f | o1 o2 ms |]; cbn [perform legal] in *.
  - destruct Ho as [Hd (ip & Hip & Hhop)]. destruct (send_datagram_inv d hop ip n Hn Hd Hhop Hip) as (n' & -> & Hn').
    by eexists _, _.
  - destruct (recv_frame_inv f n Hn Ho) as (d & n' & Hr & Hn' & _). by exists d, n'.
  - destruct Ho as (Hms & H1 & H2). destruct (ni_tick_ok n ms o1 o2 Hn Hms H1 H2) as (n' & -> & Ha). eexists _, _.
    split; [reflexivity |]. by eapply aged_by_inv.
  - eexists _, _. split; [reflexivity |]. destruct Hn. split; cbn; try done.
    destruct (_frames_out n); [done |]. by apply Forall_cons in ni_frames0 as [_ ?].
Qed.

(** C17: whatever frames arrive, in any interleaving with sending, timer
    ticks and transmission, every call returns (no exception, no erase of a
    missing mapping), and the invariant holds: each mapping has an age below
    thirty seconds, each pending request is younger than five, nothing waits
    for a known address, and every queued frame is well formed. *)
Theorem interface_safe (mac : EthernetAddress) (ip : Z) (n : t) (o : op) :
  length mac = 6%nat -> in_bits 32 ip -> ni_reach mac ip n -> legal o n ->
  ni_inv n /\ exists d n', perform o n = Ret (d, n') /\ ni_inv n'.
Proof.
  intros Hmac Hip Hr Ho. assert (Hn : ni_inv n).
  { clear Ho o. induction Hr as [| n o d n' _ IH Ho Hp]; [by apply ni_inv_make |].
    destruct (perform_inv o n IH Ho) as (d1 & n1 & Hp' & Hn1). congruence. }
  split; [done |]. by apply perform_inv.
Qed.

(** ** Resolution over the wire *)

(** What the other end parses of a frame. *)
Definition on_wire (f : EthernetFrame.t) : outcome (ParseResult * EthernetFrame.t) :=
  EthernetFrame.parse (Buffer.of_string (BufferList.concatenate (EthernetFrame.serialize f))) EthernetFrame.default_.

Lemma on_wire_ok f :
  eth_wf (EthernetFrame.header f) -> Zlen (BufferList.concatenate (EthernetFrame.payload f)) < 2 ^ 32 ->
  exists b, on_wire f = Ret (NoError, EthernetFrame.mk (EthernetFrame.header f) [b]) /\
    Buffer.wf b /\ Buffer.str b = BufferList.concatenate (EthernetFrame.payload f).
Proof.
  intros Hw Hl. apply frame_parse; [done | | apply Buffer.str_of_string].
  apply Buffer.wf_of_string. rewrite frame_bytes, Zlen_app, Zlen_eth_serialize by done. unfold EthernetHeader.LENGTH. lia.
Qed.

(** A frame for this interface whose payload is one buffer. *)
Lemma recv_frame_for_us hd b n :
  EthernetHeader.dst hd = ETHERNET_BROADCAST \/ EthernetHeader.dst hd = _ethernet_address n ->
  recv_frame (EthernetFrame.mk hd [b]) n =
    if EthernetHeader.type hd =? EthernetHeader.TYPE_IPv4 then
      '(result, dgram) ← IPv4Datagram.parse b IPv4Datagram.default_;
      if bool_decide (result = NoError) then Ret (Some dgram, n) else Ret (None, n)
    else
      '(result, am) ← ARPMessage.parse b ARPMessage.default_;
      if negb (bool_decide (result = NoError)) then Ret (None, n)
      else n ← recv_arp am n; Ret (None, n).
Proof.
  intros Hfor. unfold recv_frame. cbn [EthernetFrame.header EthernetFrame._header].
  assert (Hdst : bool_decide (EthernetHeader.dst hd = ETHERNET_BROADCAST) ||
    bool_decide (EthernetHeader.dst hd = _ethernet_address n) = true).
  { apply orb_true_iff. destruct Hfor; [left | right]; by apply bool_decide_eq_true_2. }
  rewrite Hdst. done.
Qed.

(** An ARP message sent to the broadcast address or to this interface. *)
Lemma recv_arp_buffer dst src m f b n :
  carries_arp dst src m f -> arp_wf m -> dst = ETHERNET_BROADCAST \/ dst = _ethernet_address n ->
  Buffer.wf b -> Buffer.str b = BufferList.concatenate (EthernetFrame.payload f) ->
  recv_frame (EthernetFrame.mk (EthernetFrame.header f) [b]) n = (n ← recv_arp m n; Ret (None, n)).
Proof.
  intros [Hh Hs] Hm Hfor Hwf Hstr. rewrite Hh. rewrite recv_frame_for_us by done.
  change (EthernetHeader.TYPE_ARP =? EthernetHeader.TYPE_IPv4) with false. cbv iota.
  by rewrite (arp_parse m ARPMessage.default_ _ [] b Hm Hs Hwf) by (by rewrite app_nil_r).
Qed.

Lemma recv_arp_wire dst src m f n :
  carries_arp dst src m f -> arp_wf m -> length dst = 6%nat -> length src = 6%nat ->
  dst = ETHERNET_BROADCAST \/ dst = _ethernet_address n ->
  exists f', on_wire f = Ret (NoError, f') /\ recv_frame f' n = (n ← recv_arp m n; Ret (None, n)).
Proof.
  intros Hc Hm Hd Hsrc Hfor. pose proof Hc as [Hh Hs]. destruct (on_wire_ok f) as (b & Hw & Hwf & Hstr).
  - rewrite Hh. by split.
  - rewrite (Zlen_arp m _ Hm Hs). done.
  - eexists. split; [exact Hw |]. by apply (recv_arp_buffer dst src m f b n).
Qed.

(** [d'] is [d] as it is handed up at the other end. *)
Definition arrives (d d' : InternetDatagram) : Prop :=
  (exists c, in_bits 16 c /\ IPv4Datagram.header d' = IPv4Header.set_cksum c (IPv4Datagram.header d)) /\
  exists buf, IPv4Datagram.payload d' = [buf] /\ Buffer.wf buf /\
    Buffer.str buf = BufferList.concatenate (IPv4Datagram.payload d).

(** A datagram sent to this interface. *)
Lemma recv_ip_buffer dst src d f b n :
  carries_ip dst src d f -> sendable d -> dst = ETHERNET_BROADCAST \/ dst = _ethernet_address n ->
  Buffer.wf b -> Buffer.str b = BufferList.concatenate (EthernetFrame.payload f) ->
  exists d', recv_frame (EthernetFrame.mk (EthernetFrame.header f) [b]) n = Ret (Some d', n) /\ arrives d d'.
Proof.
  intros [Hh Hs] [Hwf Hl] Hfor Hb Hstr. destruct (datagram_serialize d Hwf Hl) as (l & Hl' & Hw & Hf).
  rewrite Hs in Hl'. apply (inj Ret) in Hl' as <-. rewrite Hw in Hstr.
  destruct (datagram_parse_fits _ _ IPv4Datagram.default_ b Hf Hb Hstr) as (b' & Hp & Hwb & Hb').
  eexists. split.
  - rewrite Hh, recv_frame_for_us by done. change (EthernetHeader.TYPE_IPv4 =? EthernetHeader.TYPE_IPv4) with true.
    cbv iota. rewrite Hp. reflexivity.
  - split; [| by exists b']. eexists. split; [| reflexivity]. exact (wf_cksum _ (proj1 Hf)).
Qed.

Lemma carries_ip_small dst src d f :
  carries_ip dst src d f -> sendable d -> Zlen (BufferList.concatenate (EthernetFrame.payload f)) < 2 ^ 32.
Proof.
  intros [Hh Hs] [Hwf Hl]. destruct (datagram_serialize d Hwf Hl) as (l & Hl' & Hw & Hf).
  rewrite Hs in Hl'. apply (inj Ret) in Hl' as <-. rewrite Hw, Zlen_app, Zlen_wire by apply Hf.
  pose proof (wf_hlen _ Hwf). pose proof (wf_len _ Hwf). unfold in_bits in *. cbn. lia.
Qed.

Lemma recv_ip_wire src d f n :
  carries_ip (_ethernet_address n) src d f -> sendable d -> length (_ethernet_address n) = 6%nat -> length src = 6%nat ->
  exists f' d', on_wire f = Ret (NoError, f') /\ recv_frame f' n = Ret (Some d', n) /\ arrives d d'.
Proof.
  intros Hc Hd Hm Hsrc. destruct (on_wire_ok f) as (b & Hon & Hb & Hstr).
  - rewrite (proj1 Hc). by split.
  - by apply (carries_ip_small _ _ d f Hc).
  - destruct (recv_ip_buffer _ src d f b n Hc Hd) as (d' & Hr & Ha); [by right | done | done |]. by eexists _, d'.
Qed.

(** The queued frames handed to the device. *)
Definition transmitted (n : t) : t := with_frames_out [] n.

Lemma transmitted_inv n : ni_inv n -> ni_inv (transmitted n).
Proof. intros []. by split. Qed.

(** [d], sent by [a] to a next hop it does not know, reaches [b]: a request,
    the reply and the datagram cross the wire, one frame each; both interfaces
    have learnt the other's address, and nothing waits at [a]. *)
Definition resolution (a b : t) (ipA ipB : Z) (d : InternetDatagram) (hop : Address.t) : Prop :=
  exists a1 req req' b1 rep rep' a2 fr fr' d',
    (send_datagram d hop a = Ret a1 /\ frames_out a1 = frames_out a ++ [req] /\ on_wire req = Ret (NoError, req')) /\
    (recv_frame req' b = Ret (None, b1) /\ frames_out b1 = frames_out b ++ [rep] /\ on_wire rep = Ret (NoError, rep')) /\
    (recv_frame rep' (transmitted a1) = Ret (None, a2) /\ frames_out a2 = [fr] /\ on_wire fr = Ret (NoError, fr')) /\
    (recv_frame fr' (transmitted b1) = Ret (Some d', transmitted b1) /\ arrives d d') /\
    cache a2 !! ipB = Some (_ethernet_address b) /\ cache b1 !! ipA = Some (_ethernet_address a) /\
    datagrams a2 !! ipB = None.

Lemma resolution_ok a b ipA ipB d hop :
  ni_inv a -> ni_inv b ->
  Address.ipv4_numeric (_ip_address a) = Ret ipA -> Address.ipv4_numeric (_ip_address b) = Ret ipB ->
  sendable d -> Address.ipv4_numeric hop = Ret ipB ->
  cache a !! ipB = None -> may_request ipB a = true -> datagrams a !! ipB = None -> datagrams b !! ipA = None ->
  resolution a b ipA ipB d hop.
Proof.
  intros Ha Hb HipA HipB Hd Hhop Hc Hreq Hwa Hwb. pose proof (ni_mac a Ha) as HmA. pose proof (ni_mac b Hb) as HmB.
  destruct (ni_ip b Hb) as (ipB' & HbB & HB). rewrite HipB in HB. apply (inj Ret) in HB as <-.
  (* the request *)
  destruct (send_datagram_inv d hop ipB a Ha Hd Hhop HbB) as (a1 & Hs & Ha1).
  pose proof (send_datagram_ok d hop ipB a Ha Hd Hhop HbB) as Hsend. rewrite Hc, Hreq, Hwa in Hsend.
  destruct Hsend as (req & ipA' & HA & HbA & Hs' & Hreqf). rewrite HipA in HA. apply (inj Ret) in HA as <-.
  rewrite Hs in Hs'. apply (inj Ret) in Hs' as Ea1.
  set (m := arp_message ARPMessage.OPCODE_REQUEST _ _ _ _) in Hreqf.
  assert (Hm : arp_wf m) by (apply arp_message_wf; [by left | done..]).
  destruct (recv_arp_wire _ _ m req b Hreqf Hm) as (req' & Hw1 & Hr1); [done | done | by left |].
  (* the reply *)
  destruct (recv_arp_ok m b ipB Hb Hm HipB HbB) as (fs1 & reps & Hb1 & Hfs1 & Hrep).
  change (ARPMessage.sender_ip_address m) with ipA in *. change (ARPMessage.sender_ethernet_address m) with (_ethernet_address a) in *.
  rewrite Hwb in Hfs1. apply Forall2_nil_inv_l in Hfs1 as ->. cbn [app] in Hb1.
  assert (Hask : asks_me m ipB = true) by apply Z.eqb_refl. rewrite Hask in Hrep. destruct Hrep as (rep & -> & Hrep).
  set (r := arp_message ARPMessage.OPCODE_REPLY _ _ _ _) in Hrep.
  assert (Hr : arp_wf r) by (apply arp_message_wf; [by right | done..]).
  destruct (recv_arp_wire _ _ r rep (transmitted a1) Hrep Hr) as (rep' & Hw2 & Hr2); [done | done | right; by rewrite Ea1 |].
  (* the datagram *)
  destruct (recv_arp_ok r (transmitted a1) ipA (transmitted_inv a1 Ha1) Hr) as (fs2 & none & Ha2 & Hfs2 & Hnone); [by rewrite Ea1 | done |].
  change (ARPMessage.sender_ip_address r) with ipB in *. change (ARPMessage.sender_ethernet_address r) with (_ethernet_address b) in *.
  change (none = []) in Hnone. subst none. rewrite app_nil_r in Ha2.
  assert (Hw : datagrams (transmitted a1) !! ipB = Some [d]) by (rewrite Ea1; apply lookup_insert_eq).
  rewrite Hw in Hfs2. cbn [default] in Hfs2. apply Forall2_cons_inv_l in Hfs2 as (fr & [|] & Hfr & Hnil & ->); [| by inversion Hnil].
  destruct (recv_ip_wire (_ethernet_address a) d fr (transmitted (learn m [rep] b))) as (fr' & d' & Hw3 & Hr3 & Hp).
  { assert (E : _ethernet_address (transmitted a1) = _ethernet_address a) by (by rewrite Ea1). by rewrite <- E. }
  { done. } { done. } { done. }
  rewrite Hb1 in Hr1. rewrite Ha2 in Hr2. cbn [mbind outcome_bind] in Hr1, Hr2.
  exists a1, req, req', (learn m [rep] b), rep, rep', (learn r [fr] (transmitted a1)), fr, fr', d'.
  split_and!; try done; [by rewrite Ea1 | apply lookup_insert_eq | apply lookup_insert_eq | apply lookup_delete_eq].
Qed.

(** C16: two interfaces on a link resolve each other: a datagram for an
    unknown next hop makes [a] broadcast a request; over the wire, [b] answers
    it; over the wire, the answer makes [a] send the datagram, which [b]
    hands up with its payload and header unchanged but for the checksum.
    Each then knows the other's Ethernet address, and nothing waits. *)
Theorem arp_resolution (a b : t) (ipA ipB : Z) (d : InternetDatagram) (hop : Address.t) :
  ni_inv a -> ni_inv b ->
  Address.ipv4_numeric (_ip_address a) = Ret ipA -> Address.ipv4_numeric (_ip_address b) = Ret ipB ->
  sendable d -> Address.ipv4_numeric hop = Ret ipB ->
  cache a !! ipB = None -> may_request ipB a = true -> datagrams a !! ipB = None -> datagrams b !! ipA = None ->
  resolution a b ipA ipB d hop.
Proof. apply resolution_ok. Qed.

(** A datagram handed over while the request for its next hop is
    pending is lost: a second [send_datagram] to an unknown hop leaves the
    interface exactly as the first one did, so the datagram is neither sent
    nor queued. *)
Theorem send_drops_while_pending (n n1 : t) (d1 d2 : InternetDatagram) (hop : Address.t) (ip : Z) :
  ni_inv n -> sendable d1 -> Address.ipv4_numeric hop = Ret ip -> in_bits 32 ip ->
  cache n !! ip = None -> may_request ip n = true ->
  send_datagram d1 hop n = Ret n1 -> send_datagram d2 hop n1 = Ret n1.
Proof.
  intros Hn Hd Hhop Hip Hc Hreq Hs. pose proof (send_datagram_ok d1 hop ip n Hn Hd Hhop Hip) as Hsend.
  rewrite Hc, Hreq in Hsend. destruct Hsend as (f & my_ip & _ & _ & Hs' & _). rewrite Hs in Hs'. apply (inj Ret) in Hs' as ->.
  unfold send_datagram. rewrite Hhop. cbn [mbind outcome_bind cache with_datagrams push_frame with_frames_out with_since_last_sent].
  rewrite Hc. unfold may_request. cbn [since_last_sent with_datagrams push_frame with_frames_out with_since_last_sent].
  by rewrite lookup_insert_eq.
Qed.

(** ** Concrete runs *)

Definition host_a : t := make (replicate 6 Byte.x02) (inet 0 0x0a000001).
Definition host_b : t := make (replicate 6 Byte.x03) (inet 0 0x0a000002).

Lemma host_a_inv : ni_inv host_a.
Proof. apply ni_inv_make; [done | unfold in_bits; cbn; lia]. Qed.
Lemma host_b_inv : ni_inv host_b.
Proof. apply ni_inv_make; [done | unfold in_bits; cbn; lia]. Qed.
Lemma sample_sendable : sendable sample_datagram.
Proof. split; [apply sample_header_wf | reflexivity]. Qed.
Lemma sample_arp_wf : arp_wf sample_arp.
Proof. split; [reflexivity | reflexivity | unfold in_bits; cbn; lia | reflexivity | unfold in_bits; cbn; lia]. Qed.

Lemma tick_correct_witness :
  exists n', tick 30000 (learn sample_arp [] host_b) = Ret n' /\ cache n' = ∅ /\
    cache (learn sample_arp [] host_b) !! 0x0a000001 = Some (replicate 6 Byte.x02).
Proof.
  destruct (tick_correct (learn sample_arp [] host_b) 30000
    (map_to_list (cache_time (learn sample_arp [] host_b))) (map_to_list (since_last_sent (learn sample_arp [] host_b))))
    as (n' & Ht & _ & Ha).
  - apply learn_inv; [apply host_b_inv | apply sample_arp_wf | constructor].
  - lia.
  - reflexivity.
  - reflexivity.
  - exists n'. split_and!; [exact Ht | | vm_compute; reflexivity].
    revert Ht. vm_compute. by intros [= <-].
Defined.

Lemma interface_safe_witness :
  ni_inv host_a /\
  exists d n', perform (Send sample_datagram (inet 0 0x0a000002)) host_a = Ret (d, n') /\ ni_inv n'.
Proof.
  apply (interface_safe (replicate 6 Byte.x02) 0x0a000001); [done | unfold in_bits; cbn; lia | apply ni_reach_make |].
  split; [apply sample_sendable |]. exists 0x0a000002. split; [unfold in_bits; cbn; lia | vm_compute; reflexivity].
Defined.

Lemma arp_resolution_witness :
  resolution host_a host_b 0x0a000001 0x0a000002 sample_datagram (inet 0 0x0a000002).
Proof.
  apply (arp_resolution host_a host_b 0x0a000001 0x0a000002);
    [apply host_a_inv | apply host_b_inv | vm_compute; reflexivity | vm_compute; reflexivity | apply sample_sendable
    | vm_compute; reflexivity..].
Defined.

Lemma send_drops_while_pending_witness :
  exists n1, send_datagram sample_datagram (inet 0 0x0a000002) host_a = Ret n1 /\
    send_datagram IPv4Datagram.default_ (inet 0 0x0a000002) n1 = Ret n1.
Proof.
  eexists. split; [vm_compute; reflexivity |].
  eapply (send_drops_while_pending host_a _ sample_datagram _ _ 0x0a000002);
    [apply host_a_inv | apply sample_sendable | vm_compute; reflexivity | unfold in_bits; cbn; lia
    | vm_compute; reflexivity..].
Defined.

End InterfaceFacts.
