(* ===== verification/router.v ===== *)
(** * libsponge/router: longest-prefix-match forwarding

    [Router.route_one_datagram] walks [len_map], an [unordered_map], in the
    container's order: the order is an argument, and the theorems hold for
    every order.  [32 - it->second] is not a valid shift amount for a prefix
    of length 0 (or above 32); C++ leaves the result undefined, and the model
    takes the value the compiled code produces as the argument [wild_shift]. *)

From S2P Require Import Prelude buffer parser util codec ethernet ipv4 address network_interface.

Module AsyncNetworkInterface.

Record t := mk {
  base : NetworkInterface.t;
  _datagrams_out : list InternetDatagram;
}.

Definition of_interface (n : NetworkInterface.t) : t := mk n [].
Definition datagrams_out (a : t) : list InternetDatagram := _datagrams_out a.
Definition with_base (n : NetworkInterface.t) (a : t) : t := mk n (_datagrams_out a).
Definition with_datagrams_out (q : list InternetDatagram) (a : t) : t := mk (base a) q.

Definition recv_frame (frame : EthernetFrame.t) (a : t) : outcome t :=
  '(optional_dgram, n) ← NetworkInterface.recv_frame frame (base a);
  Ret (match optional_dgram with
       | Some dgram => mk n (_datagrams_out a ++ [dgram])
       | None => mk n (_datagrams_out a)
       end).

Definition send_datagram (dgram : InternetDatagram) (next_hop : Address.t) (a : t) : outcome t :=
  n ← NetworkInterface.send_datagram dgram next_hop (base a);
  Ret (with_base n a).

End AsyncNetworkInterface.

Module Router.

Record t := mk {
  _interfaces : list AsyncNetworkInterface.t;
  len_map : gmap Z Z;
  gw_map : gmap Z Z;
  itf_map : gmap Z Z;
}.

Definition make : t := mk [] ∅ ∅ ∅.
Definition with_interfaces (l : list AsyncNetworkInterface.t) (r : t) : t := mk l (len_map r) (gw_map r) (itf_map r).
Definition with_itf_map (m : gmap Z Z) (r : t) : t := mk (_interfaces r) (len_map r) (gw_map r) m.

Definition add_interface (i : AsyncNetworkInterface.t) (r : t) : Z * t :=
  let r := with_interfaces (_interfaces r ++ [i]) r in
  (u64 (Zlen (_interfaces r) - 1), r).

(** [_interfaces.at(N)]. *)
Definition interface (N : Z) (r : t) : outcome AsyncNetworkInterface.t :=
  match _interfaces r !! Z.to_nat N with
  | Some i => Ret i
  | None => Raise (out_of_range "vector::_M_range_check")
  end.

Definition add_route (route_prefix prefix_length : Z) (next_hop : option Address.t) (interface_num : Z) (r : t) : outcome t :=
  let r := mk (_interfaces r) (<[route_prefix := prefix_length]> (len_map r)) (gw_map r)
              (<[route_prefix := interface_num]> (itf_map r)) in
  match next_hop with
  | Some a =>
      ip ← Address.ipv4_numeric a;
      Ret (mk (_interfaces r) (len_map r) (<[route_prefix := ip]> (gw_map r)) (itf_map r))
  | None => Ret r
  end.

(** [itf_map[k]], which inserts 0 for a missing key. *)
Definition itf_at (k : Z) (r : t) : Z * t :=
  match itf_map r !! k with
  | Some v => (v, r)
  | None => (0, with_itf_map (<[k := 0]> (itf_map r)) r)
  end.

Section Forwarding.
Context (wild_shift : Z -> Z -> Z).

(** [x >> n] for a [uint32_t] and an [int]. *)
Definition shr (x n : Z) : Z := if (0 <=? n) && (n <? 32) then Z.shiftr x n else wild_shift x n.

(** The [while] loop over the entries of [len_map]: [m_length], [itf] and
    [next_hop] are the local variables. *)
Fixpoint select (entries : list (Z * Z)) (addr m_length itf next_hop : Z) (r : t) : (Z * Z * Z) * t :=
  match entries with
  | [] => ((m_length, itf, next_hop), r)
  | (first, second) :: entries =>
      let prefix := shr first (32 - second) in
      let addr_mask := shr addr (32 - second) in
      if (addr_mask =? prefix) && (second >? m_length) then
        let '(itf, r) := itf_at first r in
        let next_hop := match gw_map r !! first with None => addr | Some gw => gw end in
        select entries addr second itf next_hop r
      else select entries addr m_length itf next_hop r
  end.

(** 171.67.76.1, where datagrams no route matches go (on interface 0). *)
Definition default_router : Z := 2873314305.

Definition route_one_datagram (order : list (Z * Z)) (dgram : InternetDatagram) (r : t) : outcome t :=
  let addr := IPv4Header.dst (IPv4Datagram.header dgram) in
  let '((_, itf, next_hop), r) := select order addr 0 0 default_router r in
  let ttl := IPv4Header.ttl (IPv4Datagram.header dgram) in
  if ttl - 1 <=? 0 then Ret r
  else
    let dgram := IPv4Datagram.mk (IPv4Header.set_ttl (u8 (ttl - 1)) (IPv4Datagram.header dgram))
                   (IPv4Datagram.payload dgram) in
    i ← interface itf r;
    hop ← Address.from_ipv4_numeric next_hop;
    i ← AsyncNetworkInterface.send_datagram dgram hop i;
    Ret (with_interfaces (<[Z.to_nat itf := i]> (_interfaces r)) r).

(** The [while] loop of [route] on the queue of interface [k]: the datagram
    is routed while it is at the front of the queue, then popped. *)
Fixpoint drain (fuel : nat) (order : list (Z * Z)) (k : nat) (r : t) : outcome t :=
  match fuel with
  | O => Diverge
  | S fuel =>
      match _interfaces r !! k with
      | None => Ret r
      | Some i =>
          match AsyncNetworkInterface._datagrams_out i with
          | [] => Ret r
          | dgram :: _ =>
              r ← route_one_datagram order dgram r;
              drain fuel order k
                (with_interfaces
                   (alter (fun i => AsyncNetworkInterface.with_datagrams_out
                                      (tail (AsyncNetworkInterface._datagrams_out i)) i) k (_interfaces r)) r)
          end
      end
  end.

(** The [for] loop over the interfaces from the [k]-th on. *)
Fixpoint route_from (order : list (Z * Z)) (k count : nat) (r : t) : outcome t :=
  match count with
  | O => Ret r
  | S count =>
      let fuel := match _interfaces r !! k with
                  | Some i => S (length (AsyncNetworkInterface._datagrams_out i)) | None => 1%nat end in
      r ← drain fuel order k r;
      route_from order (S k) count r
  end.

Definition route (order : list (Z * Z)) (r : t) : outcome t :=
  route_from order 0 (length (_interfaces r)) r.

End Forwarding.

End Router.
