(* ===== verification/router_proofs.v ===== *)
(** * Router: longest-prefix match, forwarding and the tables' limits

    [forwards] is the routing decision the tables describe; the walk over
    [len_map] makes that decision whatever the container's order, and [route]
    empties every queue.  The last section states what the representation of
    the tables (one entry per prefix value, no entry for length 0) loses. *)

From S2P Require Import Prelude buffer parser util codec ethernet ipv4 address network_interface network_interface_proofs router.

Module RouterFacts.
Import AddressFacts IPv4Facts InterfaceFacts Router.

(** ** The routing decision *)

(** The first [len] bits of the address are those of the prefix. *)
Definition matches (addr p len : Z) : Prop := Z.shiftr addr (32 - len) = Z.shiftr p (32 - len).
#[global] Instance matches_decision addr p len : Decision (matches addr p len).
Proof. unfold matches. apply _. Defined.

(** Interface and next hop for an address. *)
Inductive forwards (r : t) (addr : Z) : Z -> Z -> Prop :=
| by_route p len itf :
    len_map r !! p = Some len -> 0 < len -> matches addr p len ->
    (forall p' len', len_map r !! p' = Some len' -> matches addr p' len' -> len' <= len) ->
    itf_map r !! p = Some itf -> forwards r addr itf (default addr (gw_map r !! p))
| by_default :
    (forall p len, len_map r !! p = Some len -> 0 < len -> ~ matches addr p len) ->
    forwards r addr 0 default_router.

Record router_inv (r : t) : Prop := {
  ri_routes : map_Forall (fun p len => in_bits 32 p /\ 0 <= len <= 32) (len_map r);
  ri_dom : dom (itf_map r) = dom (len_map r);
  ri_itf : map_Forall (fun _ itf => 0 <= itf < Zlen (_interfaces r)) (itf_map r);
  ri_gw : map_Forall (fun _ ip => in_bits 32 ip) (gw_map r);
  ri_some : _interfaces r <> [];
  ri_interfaces : Forall (fun i => ni_inv (AsyncNetworkInterface.base i) /\
    Forall sendable (AsyncNetworkInterface._datagrams_out i)) (_interfaces r);
}.

(** ** The walk over [len_map] *)

Section Walk.
Context (wild_shift : Z -> Z -> Z).

Lemma select_spec entries addr m itf nh r :
  router_inv r -> 0 <= m ->
  Forall (fun e => len_map r !! e.1 = Some e.2) entries ->
  exists m' itf' nh', select wild_shift entries addr m itf nh r = ((m', itf', nh'), r) /\ m <= m' /\
    ((m' = m /\ itf' = itf /\ nh' = nh) \/
     exists p, len_map r !! p = Some m' /\ m < m' /\ matches addr p m' /\ itf_map r !! p = Some itf' /\
       nh' = default addr (gw_map r !! p)) /\
    Forall (fun e => matches addr e.1 e.2 -> e.2 <= m') entries.
Proof.
  intros Hr. revert m itf nh. induction entries as [|[p l] es IH]; intros m itf nh Hm Hall; cbn [select].
  { exists m, itf, nh. split_and!; [done | lia | by left | constructor]. }
  apply Forall_cons in Hall as [Hp Hall]. cbn in Hp. destruct (ri_routes r Hr p l Hp) as [_ Hl].
  destruct (decide (matches addr p l /\ m < l)) as [[Hmt Hlt] | Hno].
  - assert (Hc : (shr wild_shift addr (32 - l) =? shr wild_shift p (32 - l)) && (l >? m) = true).
    { unfold shr. destruct (Z.leb_spec 0 (32 - l)), (Z.ltb_spec (32 - l) 32); try lia. cbn [andb].
      rewrite Hmt, Z.eqb_refl. cbn. lia. }
    rewrite Hc. assert (Hi : is_Some (itf_map r !! p)).
    { apply elem_of_dom. rewrite (ri_dom r Hr). apply elem_of_dom. by exists l. }
    destruct Hi as [i Hi]. unfold itf_at. rewrite Hi.
    destruct (IH l i (default addr (gw_map r !! p))) as (m' & itf' & nh' & Hs & Hle & Hd & Hmax); [lia | done |].
    exists m', itf', nh'. split_and!; [by destruct (gw_map r !! p) | lia | | constructor; [cbn; lia | done]].
    right. destruct Hd as [(-> & -> & ->) | (q & Hq & Hlt' & Hrest)].
    + exists p. by split_and!.
    + exists q. split; [done |]. split; [lia | done].
  - assert (Hc : (shr wild_shift addr (32 - l) =? shr wild_shift p (32 - l)) && (l >? m) = false).
    { destruct (Z.gtb_spec l m); [| apply andb_false_r]. apply andb_false_intro1.
      unfold shr. destruct (Z.leb_spec 0 (32 - l)), (Z.ltb_spec (32 - l) 32); try lia. cbn [andb].
      apply Z.eqb_neq. intros E. apply Hno. split; [exact E | lia]. }
    rewrite Hc. destruct (IH m itf nh Hm Hall) as (m' & itf' & nh' & Hs & Hle & Hd & Hmax).
    exists m', itf', nh'. split_and!; [done | done | done |]. constructor; [| done]. cbn. intros Hmt.
    destruct (decide (m < l)); [by destruct Hno | lia].
Qed.

(** The walk makes the decision of the tables, whatever its order. *)
Lemma select_forwards order addr r :
  router_inv r -> order ≡ₚ map_to_list (len_map r) ->
  exists m itf nh, select wild_shift order addr 0 0 default_router r = ((m, itf, nh), r) /\ forwards r addr itf nh.
Proof.
  intros Hr Hp. assert (Hin : forall p l, (p, l) ∈ order <-> len_map r !! p = Some l).
  { intros p l. by rewrite Hp, elem_of_map_to_list. }
  destruct (select_spec order addr 0 0 default_router r Hr) as (m & itf & nh & Hs & Hm & Hd & Hmax); [lia | |].
  { apply Forall_forall. intros [p l] Hpl. by apply Hin. }
  exists m, itf, nh. split; [done |]. rewrite Forall_forall in Hmax.
  assert (Hle : forall p l, len_map r !! p = Some l -> matches addr p l -> l <= m).
  { intros p l Hpl%Hin Hmt. by apply (Hmax (p, l)). }
  destruct Hd as [(-> & -> & ->) | (p & Hpl & Hlt & Hmt & Hi & ->)].
  - apply by_default. intros p l Hpl Hpos Hmt. specialize (Hle p l Hpl Hmt). lia.
  - by apply (by_route r addr p m).
Qed.

End Walk.

Lemma shiftr_split x k : 0 <= k -> x = Z.shiftr x k * 2 ^ k + x mod 2 ^ k.
Proof. intros Hk. rewrite Z.shiftr_div_pow2 by done. pose proof (Z.div_mod x (2 ^ k)). lia. Qed.

(** When the routes are written without host bits, the decision is
    unique, so forwarding does not depend on the iteration order of the hash
    map. *)
Theorem forwards_unique (r : t) (addr i1 h1 i2 h2 : Z) :
  router_inv r -> map_Forall (fun p len => p mod 2 ^ (32 - len) = 0) (len_map r) ->
  forwards r addr i1 h1 -> forwards r addr i2 h2 -> i1 = i2 /\ h1 = h2.
Proof.
  intros Hr Hn H1 H2.
  destruct H1 as [p1 l1 i1 Hp1 Hl1 Hm1 Hx1 Hi1 | Hd1], H2 as [p2 l2 i2 Hp2 Hl2 Hm2 Hx2 Hi2 | Hd2];
    [| by destruct (Hd2 p1 l1) | by destruct (Hd1 p2 l2) | done].
  assert (l1 = l2) as <- by (pose proof (Hx1 _ _ Hp2 Hm2); pose proof (Hx2 _ _ Hp1 Hm1); lia).
  assert (p1 = p2) as <-; [| split; congruence].
  destruct (ri_routes r Hr p1 l1 Hp1) as [_ Hl]. unfold matches in *.
  rewrite (shiftr_split p1 (32 - l1)), (shiftr_split p2 (32 - l1)) by lia.
  rewrite (Hn p1 l1 Hp1), (Hn p2 l1 Hp2). congruence.
Qed.

(** ** Forwarding *)

(** The datagram as it is sent on. *)
Definition hop_on (d : InternetDatagram) : InternetDatagram :=
  IPv4Datagram.mk (IPv4Header.set_ttl (u8 (IPv4Header.ttl (IPv4Datagram.header d) - 1)) (IPv4Datagram.header d))
    (IPv4Datagram.payload d).

Lemma hop_on_sendable d : sendable d -> sendable (hop_on d).
Proof. intros [[] Hl]. split; [split; cbn; try done; apply u8_range | done]. Qed.

Lemma forwards_range r addr itf hop :
  router_inv r -> in_bits 32 addr -> forwards r addr itf hop -> 0 <= itf < Zlen (_interfaces r) /\ in_bits 32 hop.
Proof.
  intros Hr Ha [p len i Hp Hl Hm Hx Hi | _].
  - split; [by apply (ri_itf r Hr p) |]. destruct (gw_map r !! p) as [gw|] eqn:Hg; cbn; [| done]. by apply (ri_gw r Hr p).
  - pose proof (ri_some r Hr). split; [| unfold in_bits, default_router; cbn; lia]. destruct (_interfaces r); [done |]. zlen.
    pose proof (Zlen_nonneg l). lia.
Qed.

(** The interfaces replaced by others that keep the invariant. *)
Lemma with_interfaces_inv l r :
  router_inv r -> length l = length (_interfaces r) ->
  Forall (fun i => ni_inv (AsyncNetworkInterface.base i) /\ Forall sendable (AsyncNetworkInterface._datagrams_out i)) l ->
  router_inv (with_interfaces l r).
Proof.
  intros [] Hl Hall. split; cbn; try done.
  - intros p i Hp. unfold Zlen. rewrite Hl. by apply (ri_itf0 p).
  - intros ->. by destruct (_interfaces r).
Qed.

Section Forward.
Context (wild_shift : Z -> Z -> Z).

(** What forwarding one datagram does. *)
Definition forwarded (d : InternetDatagram) (r r' : t) : Prop :=
  exists itf hop i n', forwards r (IPv4Header.dst (IPv4Datagram.header d)) itf hop /\
    _interfaces r !! Z.to_nat itf = Some i /\
    NetworkInterface.send_datagram (hop_on d) (inet 0 hop) (AsyncNetworkInterface.base i) = Ret n' /\
    r' = with_interfaces (<[Z.to_nat itf := AsyncNetworkInterface.with_base n' i]> (_interfaces r)) r.

Lemma route_one_ok order d r :
  router_inv r -> order ≡ₚ map_to_list (len_map r) -> sendable d ->
  exists r', route_one_datagram wild_shift order d r = Ret r' /\ router_inv r' /\
    if IPv4Header.ttl (IPv4Datagram.header d) <=? 1 then r' = r else forwarded d r r'.
Proof.
  intros Hr Hp Hd. set (addr := IPv4Header.dst (IPv4Datagram.header d)).
  destruct (select_forwards wild_shift order addr r Hr Hp) as (m & itf & hop & Hs & Hf).
  unfold route_one_datagram. fold addr. rewrite Hs.
  assert (Haddr : in_bits 32 addr) by (destruct Hd as [[] _]; done).
  destruct (forwards_range r addr itf hop Hr Haddr Hf) as [Hitf Hhop].
  set (ttl := IPv4Header.ttl _). replace (ttl - 1 <=? 0) with (ttl <=? 1) by (repeat case_cmp; done || lia).
  destruct (ttl <=? 1); [by exists r |]. fold (hop_on d).
  assert (exists i, _interfaces r !! Z.to_nat itf = Some i) as [i Hi] by (apply lookup_lt_is_Some; unfold Zlen in *; lia).
  unfold interface. rewrite Hi, from_numeric. cbn [mbind outcome_bind]. unfold AsyncNetworkInterface.send_datagram.
  destruct (proj1 (Forall_lookup _ _) (ri_interfaces r Hr) _ i Hi) as [Hni Hq].
  destruct (send_datagram_inv (hop_on d) (inet 0 hop) hop _ Hni (hop_on_sendable d Hd) (inet_numeric 0 hop Hhop) Hhop)
    as (n' & Hsend & Hn'). unfold ttl, hop_on in *. rewrite Hsend. cbn [mbind outcome_bind].
  eexists. split; [reflexivity |]. split.
  - apply with_interfaces_inv; [done | apply length_insert |]. by apply Forall_insert; [apply (ri_interfaces r Hr) |].
  - by exists itf, hop, i, n'.
Qed.


(** ** Draining the queues *)

Definition queues (r : t) : list (list InternetDatagram) := map AsyncNetworkInterface._datagrams_out (_interfaces r).

Definition same_tables (r r' : t) : Prop :=
  len_map r' = len_map r /\ gw_map r' = gw_map r /\ itf_map r' = itf_map r.

Lemma route_one_queues order d r :
  router_inv r -> order ≡ₚ map_to_list (len_map r) -> sendable d ->
  exists r', route_one_datagram wild_shift order d r = Ret r' /\ router_inv r' /\ queues r' = queues r /\ same_tables r r'.
Proof.
  intros Hr Hp Hd. destruct (route_one_ok order d r Hr Hp Hd) as (r' & Hro & Hr' & Hcase).
  exists r'. split_and!; [done | done | |]; destruct (_ <=? 1); try (by subst r');
    destruct Hcase as (itf & hop & i & n' & _ & Hi & _ & ->); [| done].
  unfold queues. cbn. rewrite list_fmap_insert. apply list_insert_id. by rewrite list_lookup_fmap, Hi.
Qed.

Lemma drain_ok order k q r fuel :
  router_inv r -> order ≡ₚ map_to_list (len_map r) -> queues r !! k = Some q -> (length q < fuel)%nat ->
  exists r', drain wild_shift fuel order k r = Ret r' /\ router_inv r' /\ queues r' = <[k := []]> (queues r) /\ same_tables r r'.
Proof.
  revert r q. induction fuel as [|fuel IH]; intros r q Hr Hp Hk Hfuel; [lia |]. cbn [drain].
  unfold queues in Hk. rewrite list_lookup_fmap in Hk. apply fmap_Some in Hk as (i & Hi & ->). rewrite Hi.
  destruct (proj1 (Forall_lookup _ _) (ri_interfaces r Hr) _ i Hi) as [Hni Hq].
  destruct (AsyncNetworkInterface._datagrams_out i) as [|d q] eqn:Hqi.
  { exists r. split_and!; [done | done | | done]. symmetry. apply list_insert_id. unfold queues. by rewrite list_lookup_fmap, Hi, <- Hqi. }
  apply Forall_cons in Hq as [Hd Hq].
  destruct (route_one_queues order d r Hr Hp Hd) as (r1 & -> & Hr1 & Hqs & Ht). cbn [mbind outcome_bind].
  set (pop := fun i => AsyncNetworkInterface.with_datagrams_out _ i). set (r2 := with_interfaces _ r1).
  assert (Hq1 : queues r1 !! k = Some (d :: q)) by (rewrite Hqs; unfold queues; by rewrite list_lookup_fmap, Hi, <- Hqi).
  assert (Hq2 : queues r2 = <[k := q]> (queues r1)).
  { unfold queues. cbn. unfold queues in Hq1. rewrite list_lookup_fmap in Hq1. apply fmap_Some in Hq1 as (i1 & Hi1 & E).
    rewrite (list_fmap_alter _ pop tail) by (by apply Forall_true). apply list_eq. intros j. destruct (decide (j = k)) as [-> | Hne].
    - rewrite list_lookup_alter_eq, list_lookup_insert_eq, list_lookup_fmap, Hi1 by (rewrite length_fmap; by eapply lookup_lt_Some).
      cbn. by rewrite <- E.
    - by rewrite list_lookup_alter_ne, list_lookup_insert_ne by done. }
  assert (Hr2 : router_inv r2).
  { apply with_interfaces_inv; [done | apply length_alter |]. apply Forall_alter; [apply (ri_interfaces r1 Hr1) |].
    intros i1 _ [Hn1 Hs1]. split; [done |]. cbn. destruct Hs1; done. }
  destruct (IH r2 q Hr2) as (r' & Hdr & Hr' & Hqr & Ht').
  - cbn. by destruct Ht as [-> _].
  - rewrite Hq2. apply list_lookup_insert_eq. by eapply lookup_lt_Some.
  - cbn in Hfuel. lia.
  - exists r'. split_and!; [done | done | |].
    + by rewrite Hqr, Hq2, list_insert_insert_eq, Hqs.
    + destruct Ht as (? & ? & ?), Ht' as (? & ? & ?). cbn in *. split_and!; congruence.
Qed.

Lemma route_from_ok order count k r :
  router_inv r -> order ≡ₚ map_to_list (len_map r) -> length (queues r) = (k + count)%nat ->
  exists r', route_from wild_shift order k count r = Ret r' /\ router_inv r' /\
    queues r' = take k (queues r) ++ replicate count [] /\ same_tables r r'.
Proof.
  revert k r. induction count as [|count IH]; intros k r Hr Hp Hl; cbn [route_from].
  { exists r. split_and!; [done | done | | done]. rewrite take_ge by lia. by rewrite app_nil_r. }
  destruct (lookup_lt_is_Some_2 (queues r) k) as [q Hq]; [lia |].
  pose proof Hq as Hk. unfold queues in Hk. rewrite list_lookup_fmap in Hk. apply fmap_Some in Hk as (i & Hi & Eq). rewrite Hi.
  destruct (drain_ok order k q r _ Hr Hp Hq (Nat.lt_succ_diag_r _)) as (r1 & Hd & Hr1 & Hq1 & Ht). rewrite <- Eq, Hd.
  cbn [mbind outcome_bind]. destruct (IH (S k) r1 Hr1) as (r' & -> & Hr' & Hq' & Ht').
  - by destruct Ht as [-> _].
  - rewrite Hq1, length_insert. lia.
  - exists r'. split_and!; [done | done | |].
    + rewrite Hq', Hq1. rewrite (take_S_r _ k []) by (apply list_lookup_insert_eq; lia).
      rewrite take_insert_ge by lia. rewrite <- app_assoc. done.
    + destruct Ht as (? & ? & ?), Ht' as (? & ? & ?). split_and!; congruence.
Qed.

(** C19: [route] returns with every interface's queue of received datagrams
    empty, the tables unchanged and the invariant kept, also when a datagram
    leaves on the interface it arrived on. *)
Theorem route_drains (order : list (Z * Z)) (r : t) :
  router_inv r -> order ≡ₚ map_to_list (len_map r) ->
  exists r', route wild_shift order r = Ret r' /\ router_inv r' /\
    queues r' = replicate (length (_interfaces r)) [] /\ same_tables r r'.
Proof.
  intros Hr Hp. apply (route_from_ok order (length (_interfaces r)) 0 r Hr Hp). unfold queues. by rewrite length_fmap.
Qed.

(** Routing with nothing received, and with one datagram received. *)

Lemma route_from_app order k c1 c2 r :
  route_from wild_shift order k (c1 + c2) r = (r ← route_from wild_shift order k c1 r; route_from wild_shift order (k + c1) c2 r).
Proof.
  revert k r. induction c1 as [|c1 IH]; intros k r; cbn [route_from Nat.add].
  { by rewrite Nat.add_0_r. }
  destruct (drain _ _ _ k r); cbn [mbind outcome_bind]; try done. rewrite IH. by replace (S k + c1)%nat with (k + S c1)%nat by lia.
Qed.

Lemma route_from_idle order k c r :
  (forall j i, (k <= j < k + c)%nat -> _interfaces r !! j = Some i -> AsyncNetworkInterface._datagrams_out i = []) ->
  route_from wild_shift order k c r = Ret r.
Proof.
  revert k. induction c as [|c IH]; intros k Hq; cbn [route_from]; [done |].
  assert (Hd : forall fuel, drain wild_shift (S fuel) order k r = Ret r).
  { intros fuel. cbn [drain]. destruct (_interfaces r !! k) as [i|] eqn:Hi; [| done]. by rewrite (Hq k i) by (done || lia). }
  destruct (_interfaces r !! k); rewrite Hd; cbn [mbind outcome_bind]; apply IH; intros j ? Hj; apply Hq; lia.
Qed.

(** The datagram at the front of interface [k]'s queue popped. *)
Definition popped (k : nat) (r : t) : t :=
  with_interfaces (alter (fun i => AsyncNetworkInterface.with_datagrams_out (tail (AsyncNetworkInterface._datagrams_out i)) i) k
    (_interfaces r)) r.

Lemma route_single order k d r r1 :
  router_inv r -> order ≡ₚ map_to_list (len_map r) -> sendable d ->
  queues r !! k = Some [d] -> (forall j q, j <> k -> queues r !! j = Some q -> q = []) ->
  route_one_datagram wild_shift order d r = Ret r1 -> route wild_shift order r = Ret (popped k r1).
Proof.
  intros Hr Hp Hd Hk Hq Hone. destruct (route_one_queues order d r Hr Hp Hd) as (r1' & Hone' & _ & Hqs & _).
  rewrite Hone in Hone'. apply (inj Ret) in Hone' as <-.
  assert (Hi : forall r' j i, _interfaces r' !! j = Some i -> queues r' !! j = Some (AsyncNetworkInterface._datagrams_out i)).
  { intros r' j i H. unfold queues. by rewrite list_lookup_fmap, H. }
  pose proof Hk as Hl. apply lookup_lt_Some in Hl. unfold queues in Hl at 1. rewrite length_fmap in Hl.
  destruct (lookup_lt_is_Some_2 _ _ Hl) as [i Hik]. pose proof (Hi r k i Hik) as Hiq. rewrite Hk in Hiq. apply (inj Some) in Hiq.
  assert (Hpk : exists i', _interfaces (popped k r1) !! k = Some i' /\ AsyncNetworkInterface._datagrams_out i' = []).
  { rewrite <- Hqs in Hk. unfold queues in Hk. rewrite list_lookup_fmap in Hk. apply fmap_Some in Hk as (i1 & Hi1 & E1).
    eexists. split; [cbn; rewrite list_lookup_alter_eq, Hi1; reflexivity |]. cbn. by rewrite <- E1. }
  unfold route. replace (length (_interfaces r)) with (k + (1 + (length (_interfaces r) - S k)))%nat by lia.
  rewrite route_from_app, route_from_idle by (intros j i' Hj Hj'; apply (Hq j); [lia | by apply Hi]).
  cbn [mbind outcome_bind]. rewrite route_from_app. cbn [route_from Nat.add]. rewrite Hik, <- Hiq. cbn [length drain].
  rewrite Hik, <- Hiq, Hone. cbn [mbind outcome_bind]. fold (popped k r1). destruct Hpk as (i' & -> & ->). cbn [mbind outcome_bind].
  apply route_from_idle. intros j ij Hj Hij. apply (Hq j); [lia |]. rewrite <- Hqs. apply Hi.
  cbn in Hij. by rewrite list_lookup_alter_ne in Hij by lia.
Qed.

End Forward.

(** ** Building a router *)

Lemma add_route_ok p len hop itf r :
  router_inv r -> in_bits 32 p -> 0 <= len <= 32 -> 0 <= itf < Zlen (_interfaces r) ->
  (forall a, hop = Some a -> exists ip, in_bits 32 ip /\ Address.ipv4_numeric a = Ret ip) ->
  exists r', add_route p len hop itf r = Ret r' /\ router_inv r' /\ _interfaces r' = _interfaces r.
Proof.
  intros [] Hp Hlen Hitf Hhop. unfold add_route. cbn [_interfaces len_map gw_map itf_map].
  destruct hop as [a|].
  - destruct (Hhop a eq_refl) as (ip & Hip & ->). cbn [mbind outcome_bind]. eexists. split_and!; [reflexivity | | done].
    split; cbn; try done; [by apply map_Forall_insert_2 | by rewrite !dom_insert_L, ri_dom0 | by apply map_Forall_insert_2..].
  - eexists. split_and!; [reflexivity | | done].
    split; cbn; try done; [by apply map_Forall_insert_2 | by rewrite !dom_insert_L, ri_dom0 | by apply map_Forall_insert_2].
Qed.

(** ** What the tables cannot express *)

(** A default route is never used: when every route has length 0, every
    datagram goes to the built-in router 171.67.76.1 on interface 0, whatever
    gateway and interface were configured. *)
Theorem default_route_unused (wild_shift : Z -> Z -> Z) (order : list (Z * Z)) (addr : Z) (r : t) :
  router_inv r -> order ≡ₚ map_to_list (len_map r) -> map_Forall (fun _ len => len = 0) (len_map r) ->
  select wild_shift order addr 0 0 default_router r = ((0, 0, default_router), r).
Proof.
  intros Hr Hp Hz. assert (Hall : Forall (fun e => e.2 = 0) order).
  { apply Forall_forall. intros [p l] Hin. rewrite Hp, elem_of_map_to_list in Hin. by apply (Hz p). }
  clear Hp. induction Hall as [|[p l] es Hl _ IH]; [done |]. cbn in Hl. subst l. cbn [select].
  change (0 >? 0) with false. rewrite andb_false_r. exact IH.
Qed.

(** The tables have one entry per prefix value: after a route for [p/l1]
    through a gateway, a direct route for the same value with length [l2]
    replaces it, so addresses that only the first one covers fall back to the
    built-in router, and the direct route is not direct: its datagrams still
    go to the gateway of the first. *)
Theorem add_route_overwrites (wild_shift : Z -> Z -> Z) (p l1 l2 i1 i2 gw addr : Z) (a : Address.t)
    (order : list (Z * Z)) (r r1 r2 : t) :
  len_map r = ∅ -> 0 < l2 <= 32 -> Address.ipv4_numeric a = Ret gw ->
  add_route p l1 (Some a) i1 r = Ret r1 -> add_route p l2 None i2 r1 = Ret r2 ->
  order ≡ₚ map_to_list (len_map r2) ->
  select wild_shift order addr 0 0 default_router r2 =
    (if decide (matches addr p l2) then (l2, i2, gw) else (0, 0, default_router), r2).
Proof.
  unfold add_route. intros He Hl ->. cbn [mbind outcome_bind]. intros [= <-] [= <-]. cbn [len_map gw_map itf_map].
  rewrite He, insert_insert_eq, insert_empty, map_to_list_singleton. intros ->%Permutation_singleton_r.
  cbn [select gw_map itf_map]. unfold itf_at. cbn [itf_map gw_map]. rewrite !lookup_insert_eq.
  assert (Hs : forall x, shr wild_shift x (32 - l2) = Z.shiftr x (32 - l2)).
  { intros x. unfold shr. destruct (Z.leb_spec 0 (32 - l2)), (Z.ltb_spec (32 - l2) 32); done || lia. }
  rewrite !Hs. case_decide as Hm; unfold matches in Hm.
  - rewrite Hm, Z.eqb_refl. replace (l2 >? 0) with true by (case_cmp; done || lia).
    cbn [andb gw_map]. by rewrite lookup_insert_eq.
  - apply Z.eqb_neq in Hm. by rewrite Hm.
Qed.

(** ** Concrete runs *)

(** A router with two interfaces, the first of which knows the built-in
    default router, and routes for 10.0.0.0/8 (through 10.0.0.9, interface 1)
    and 10.1.0.0/16 (directly, interface 0). *)
Definition knows_default : NetworkInterface.t :=
  learn (NetworkInterface.arp_message 2 (replicate 6 Byte.x09) default_router (replicate 6 Byte.x02) 0x0a000001) [] host_a.
Definition router0 : t :=
  mk [AsyncNetworkInterface.mk knows_default [sample_datagram; sample_datagram]; AsyncNetworkInterface.of_interface host_b] ∅ ∅ ∅.
Definition router1 : t :=
  mk (_interfaces router0) (<[0x0a000000 := 8]> {[0x0a010000 := 16]}) {[0x0a000000 := 0x0a000009]}
    (<[0x0a000000 := 1]> {[0x0a010000 := 0]}).
Definition no_shift (x n : Z) : Z := x.

Lemma knows_default_inv : ni_inv knows_default.
Proof.
  apply learn_inv; [apply host_a_inv | | constructor].
  apply arp_message_wf; [by right | done | | done |]; unfold in_bits, default_router; cbn; lia.
Qed.

Lemma router_interfaces r : _interfaces r = _interfaces router0 ->
  Forall (fun i => ni_inv (AsyncNetworkInterface.base i) /\
    Forall sendable (AsyncNetworkInterface._datagrams_out i)) (_interfaces r).
Proof.
  intros ->. pose proof sample_sendable. pose proof knows_default_inv. pose proof host_b_inv.
  constructor; [split; [done |] | constructor; [by split | done]]. by do 2 (constructor; [done |]).
Qed.

Lemma router1_inv : router_inv router1.
Proof.
  split; [| done | | | done | by apply router_interfaces].
  - apply map_Forall_insert_2; [| apply map_Forall_singleton]; split; unfold in_bits; cbn; lia.
  - apply map_Forall_insert_2; [| apply map_Forall_singleton]; change (Zlen _) with 2; lia.
  - apply map_Forall_singleton. unfold in_bits; cbn; lia.
Qed.


Lemma forwards_unique_witness : exists itf hop, forwards router1 0x0a010203 itf hop /\ itf = 0 /\ hop = 0x0a010203.
Proof.
  destruct (select_forwards no_shift (map_to_list (len_map router1)) 0x0a010203 router1 router1_inv (Permutation_refl _))
    as (m & itf & hop & Hs & Hf).
  exists itf, hop. split; [done |]. apply (forwards_unique router1 0x0a010203); [apply router1_inv | | exact Hf |].
  - apply map_Forall_insert_2; [| apply map_Forall_singleton]; reflexivity.
  - revert Hf. vm_compute in Hs. by injection Hs as <- <- <-.
Defined.

Lemma route_drains_witness :
  exists r', route no_shift (map_to_list (len_map router1)) router1 = Ret r' /\ router_inv r' /\
    queues r' = [[]; []] /\ same_tables router1 r'.
Proof. apply (route_drains no_shift); [apply router1_inv | reflexivity]. Defined.

(** A router with the default route 0.0.0.0/0 through 10.0.0.9, interface 1. *)
Definition router_default : t := mk (_interfaces router0) {[0 := 0]} {[0 := 0x0a000009]} {[0 := 1]}.

Lemma default_route_unused_witness :
  select no_shift (map_to_list (len_map router_default)) 0x08080808 0 0 default_router router_default =
  ((0, 0, default_router), router_default).
Proof.
  apply default_route_unused; [| reflexivity | by apply map_Forall_singleton].
  split; [| done | | | done | by apply router_interfaces]; apply map_Forall_singleton; change (Zlen _) with 2 || idtac; unfold in_bits; cbn; lia.
Defined.

Lemma add_route_overwrites_witness :
  exists r1 r2, add_route 0x0a000000 8 (Some (inet 0 0x0a000009)) 1 router0 = Ret r1 /\
    add_route 0x0a000000 16 None 0 r1 = Ret r2 /\
    (* 10.1.0.1, in 10.0.0.0/8 only *)
    select no_shift (map_to_list (len_map r2)) 0x0a010001 0 0 default_router r2 = ((0, 0, default_router), r2).
Proof.
  eexists _, _. split; [vm_compute; reflexivity |]. split; [vm_compute; reflexivity |].
  apply (add_route_overwrites no_shift 0x0a000000 8 16 1 0 0x0a000009 0x0a010001 (inet 0 0x0a000009) _ router0
    (mk (_interfaces router0) {[0x0a000000 := 8]} {[0x0a000000 := 0x0a000009]} {[0x0a000000 := 1]}));
    [reflexivity | lia | vm_compute; reflexivity | vm_compute; reflexivity | vm_compute; reflexivity | reflexivity].
Defined.

(** An IPv4 frame whose datagram has version 6. *)
Definition version6 : bytes :=
  [Byte.x65; Byte.x00; Byte.x00; Byte.x15; Byte.x00; Byte.x00; Byte.x00; Byte.x00; Byte.x40; Byte.x06] ++ replicate 11 Byte.x00.
Definition version6_frame : EthernetFrame.t :=
  EthernetFrame.mk (EthernetHeader.mk ETHERNET_BROADCAST (replicate 6 Byte.x07) EthernetHeader.TYPE_IPv4)
    (BufferList.of_string version6).

(** What [IPv4Datagram::parse] makes of it. *)
Definition version6_datagram : InternetDatagram :=
  IPv4Datagram.mk (IPv4Header.mk 6 5 0 21 0 false false 0 64 6 0 0 0) [Buffer.mk (Some version6) 20].

(** A received datagram with a wrong version is queued like any other
    (its header's parse result is ignored), and [route] then throws instead of
    discarding it. *)
Theorem bad_version_stops_router (wild_shift : Z -> Z -> Z) :
  let i := AsyncNetworkInterface.mk knows_default [version6_datagram] in
  AsyncNetworkInterface.recv_frame version6_frame (AsyncNetworkInterface.of_interface knows_default) = Ret i /\
  route wild_shift [] (mk [i] ∅ ∅ ∅) = Raise (runtime_error "wrong IP version").
Proof. split; vm_compute; reflexivity. Qed.

End RouterFacts.
