(* ===== verification/fd_adapter.v ===== *)
(** * libsponge/tcp_helpers: the adapters between TCP and a device

    fd_adapter.{hh,cc}, tcp_over_ip.cc, lossy_fd_adapter.hh and
    tuntap_adapter.{hh,cc}.  The devices (UDP socket, TUN, TAP) are outside
    the repository's model: [read] takes what the device delivered, and what
    is written to it is returned.  [FdAdapter] is the interface the adapters
    implement and [LossyFdAdapter] is written against, the [AdapterT] of the
    C++ template. *)

From S2P Require Import Prelude wrapping_integers buffer parser util codec tcp_segment ethernet ipv4 address network_interface.

Module FdAdapterConfig.

Record t := mk {
  source : Address.t;
  destination : Address.t;
  loss_rate_dn : Z;
  loss_rate_up : Z;
}.

(** The default member initialisers: the addresses are [{"0", 0}]. *)
Definition default_ `{Address.NetDB} : outcome t :=
  s ← Address.of_ip_port 0 0;
  d ← Address.of_ip_port 0 0;
  Ret (mk s d 0 0).

Definition set_peers (s d : Address.t) (c : t) : t := mk s d (loss_rate_dn c) (loss_rate_up c).

End FdAdapterConfig.

Module FdAdapterBase.

Record t := mk {
  _cfg : FdAdapterConfig.t;
  _listen : bool;
}.

Definition make (c : FdAdapterConfig.t) : t := mk c false.
Definition set_listening (l : bool) (a : t) : t := mk (_cfg a) l.
Definition listening (a : t) : bool := _listen a.
Definition config (a : t) : FdAdapterConfig.t := _cfg a.
Definition with_config (c : FdAdapterConfig.t) (a : t) : t := mk c (_listen a).
(** [void tick(const size_t) {}]. *)
Definition tick (ms : Z) (a : t) : t := a.

Definition source (a : t) : Address.t := FdAdapterConfig.source (_cfg a).
Definition destination (a : t) : Address.t := FdAdapterConfig.destination (_cfg a).

End FdAdapterBase.

(** What [TCPConnection]'s owner uses of an adapter: [In] is what the device
    delivers for one [read], [Out] one write to the device. *)
Class FdAdapter (A In Out : Type) := {
  ad_config : A -> FdAdapterConfig.t;
  (** [config_mut() = c] *)
  ad_set_config : FdAdapterConfig.t -> A -> A;
  ad_set_listening : bool -> A -> A;
  ad_read : In -> A -> outcome (option TCPSegment.t * A * list Out);
  ad_write : TCPSegment.t -> A -> outcome (A * list Out);
  ad_tick : Z -> A -> outcome (A * list Out);
}.

(** ** TCPOverIPv4Adapter *)

Module TCPOverIPv4Adapter.

Section NetDB.
Context `{Address.NetDB}.

(** [seg.header().sport = ...; seg.header().dport = ...;]. *)
Definition with_ports (a : FdAdapterBase.t) (seg : TCPSegment.t) : outcome TCPSegment.t :=
  sp ← Address.port (FdAdapterBase.source a);
  dp ← Address.port (FdAdapterBase.destination a);
  Ret (TCPSegment.mk (TCPHeader.set_ports sp dp (TCPSegment.header seg)) (TCPSegment.payload seg)).

(** The filter on the IPv4 addresses, when not listening. *)
Definition for_us (ip_dgram : InternetDatagram) (a : FdAdapterBase.t) : outcome bool :=
  if FdAdapterBase.listening a then Ret true
  else
    s ← Address.ipv4_numeric (FdAdapterBase.source a);
    if negb (IPv4Header.dst (IPv4Datagram.header ip_dgram) =? s) then Ret false
    else
      d ← Address.ipv4_numeric (FdAdapterBase.destination a);
      Ret (IPv4Header.src (IPv4Datagram.header ip_dgram) =? d).

Definition unwrap_tcp_in_ip (ip_dgram : InternetDatagram) (a : FdAdapterBase.t) :
    outcome (option TCPSegment.t * FdAdapterBase.t) :=
  let ih := IPv4Datagram.header ip_dgram in
  b ← for_us ip_dgram a;
  if negb b then Ret (None, a)
  else if negb (IPv4Header.proto ih =? IPv4Header.PROTO_TCP) then Ret (None, a)
  else
    buffer ← BufferList.to_buffer (IPv4Datagram.payload ip_dgram);
    '(pr, tcp_seg) ← TCPSegment.parse buffer (IPv4Header.pseudo_cksum ih) TCPSegment.default_;
    if negb (bool_decide (pr = NoError)) then Ret (None, a)
    else
      let th := TCPSegment.header tcp_seg in
      sport ← Address.port (FdAdapterBase.source a);
      if negb (TCPHeader.dport th =? sport) then Ret (None, a)
      else
        if FdAdapterBase.listening a && negb (TCPHeader.syn th && negb (TCPHeader.rst th)) then Ret (None, a)
        else
          a ← (if FdAdapterBase.listening a then
                 s ← Address.of_ip_port (IPv4Header.dst ih) sport;
                 d ← Address.of_ip_port (IPv4Header.src ih) (TCPHeader.sport th);
                 Ret (FdAdapterBase.set_listening false
                        (FdAdapterBase.with_config (FdAdapterConfig.set_peers s d (FdAdapterBase.config a)) a))
               else Ret a);
          dport ← Address.port (FdAdapterBase.destination a);
          if negb (TCPHeader.sport th =? dport) then Ret (None, a)
          else Ret (Some tcp_seg, a).

(** The segment is changed in place: it is returned with its ports. *)
Definition wrap_tcp_in_ip (seg : TCPSegment.t) (a : FdAdapterBase.t) : outcome (TCPSegment.t * InternetDatagram) :=
  seg ← with_ports a seg;
  let h := IPv4Datagram.header IPv4Datagram.default_ in
  s ← Address.ipv4_numeric (FdAdapterBase.source a);
  d ← Address.ipv4_numeric (FdAdapterBase.destination a);
  let h := IPv4Header.set_addresses s d
             (u16 (IPv4Header.hlen h * 4 + TCPHeader.doff (TCPSegment.header seg) * 4 +
                   Buffer.size (TCPSegment.payload seg))) h in
  payload ← TCPSegment.serialize (IPv4Header.pseudo_cksum h) seg;
  Ret (seg, IPv4Datagram.mk h payload).

End NetDB.

End TCPOverIPv4Adapter.

(** ** TCPOverUDPSocketAdapter *)

Module TCPOverUDPSocketAdapter.
Import TCPOverIPv4Adapter.

Section NetDB.
Context `{Address.NetDB}.

Definition read (datagram : Address.t * bytes) (a : FdAdapterBase.t) : outcome (option TCPSegment.t * FdAdapterBase.t) :=
  let '(source_address, payload) := datagram in
  if negb (FdAdapterBase.listening a) && negb (Address.eqb source_address (FdAdapterBase.destination a)) then Ret (None, a)
  else
    '(pr, seg) ← TCPSegment.parse (Buffer.of_string payload) 0 TCPSegment.default_;
    if negb (bool_decide (pr = NoError)) then Ret (None, a)
    else if FdAdapterBase.listening a then
      if TCPHeader.syn (TCPSegment.header seg) && negb (TCPHeader.rst (TCPSegment.header seg)) then
        let c := FdAdapterBase.config a in
        Ret (Some seg, FdAdapterBase.set_listening false
          (FdAdapterBase.with_config (FdAdapterConfig.set_peers (FdAdapterConfig.source c) source_address c) a))
      else Ret (None, a)
    else Ret (Some seg, a).

(** The destination and the payload handed to [sendto]. *)
Definition write (seg : TCPSegment.t) (a : FdAdapterBase.t) : outcome (TCPSegment.t * (Address.t * BufferList.t)) :=
  seg ← with_ports a seg;
  payload ← TCPSegment.serialize 0 seg;
  Ret (seg, (FdAdapterBase.destination a, payload)).

End NetDB.

End TCPOverUDPSocketAdapter.

(** ** TCPOverIPv4OverTunFdAdapter *)

Module TCPOverIPv4OverTunFdAdapter.
Import TCPOverIPv4Adapter.

Section NetDB.
Context `{Address.NetDB}.

Definition read (packet : bytes) (a : FdAdapterBase.t) : outcome (option TCPSegment.t * FdAdapterBase.t) :=
  '(pr, ip_dgram) ← IPv4Datagram.parse (Buffer.of_string packet) IPv4Datagram.default_;
  if negb (bool_decide (pr = NoError)) then Ret (None, a) else unwrap_tcp_in_ip ip_dgram a.

Definition write (seg : TCPSegment.t) (a : FdAdapterBase.t) : outcome (TCPSegment.t * BufferList.t) :=
  '(seg, ip_dgram) ← wrap_tcp_in_ip seg a;
  out ← IPv4Datagram.serialize ip_dgram;
  Ret (seg, out).

End NetDB.

End TCPOverIPv4OverTunFdAdapter.

(** ** TCPOverIPv4OverEthernetAdapter *)

Module TCPOverIPv4OverEthernetAdapter.
Import TCPOverIPv4Adapter.

Section NetDB.
Context `{Address.NetDB}.

Record t := mk {
  base : FdAdapterBase.t;
  _interface : NetworkInterface.t;
  _next_hop : Address.t;
}.

(** The constructor, and the dummy frame it writes. *)
Definition make (c : FdAdapterConfig.t) (eth_address : EthernetAddress) (ip_address next_hop : Address.t) : t * list BufferList.t :=
  (mk (FdAdapterBase.make c) (NetworkInterface.make eth_address ip_address) next_hop,
   [EthernetFrame.serialize EthernetFrame.default_]).

Definition send_pending (a : t) : t * list BufferList.t :=
  (mk (base a) (NetworkInterface.with_frames_out [] (_interface a)) (_next_hop a),
   map EthernetFrame.serialize (NetworkInterface.frames_out (_interface a))).

Definition read (raw : bytes) (a : t) : outcome (option TCPSegment.t * t * list BufferList.t) :=
  '(pr, frame) ← EthernetFrame.parse (Buffer.of_string raw) EthernetFrame.default_;
  if negb (bool_decide (pr = NoError)) then Ret (None, a, [])
  else
    '(ip_dgram, n) ← NetworkInterface.recv_frame frame (_interface a);
    let '(a, out) := send_pending (mk (base a) n (_next_hop a)) in
    match ip_dgram with
    | Some d =>
        '(seg, b) ← unwrap_tcp_in_ip d (base a);
        Ret (seg, mk b (_interface a) (_next_hop a), out)
    | None => Ret (None, a, out)
    end.

Definition tick (ms : Z) (a : t) : outcome (t * list BufferList.t) :=
  n ← NetworkInterface.tick ms (_interface a);
  Ret (send_pending (mk (base a) n (_next_hop a))).

Definition write (seg : TCPSegment.t) (a : t) : outcome (TCPSegment.t * t * list BufferList.t) :=
  '(seg, d) ← wrap_tcp_in_ip seg (base a);
  n ← NetworkInterface.send_datagram d (_next_hop a) (_interface a);
  let '(a, out) := send_pending (mk (base a) n (_next_hop a)) in
  Ret (seg, a, out).

End NetDB.

End TCPOverIPv4OverEthernetAdapter.

(** ** The adapters as instances *)

Section Instances.
Context `{Address.NetDB}.

#[global] Instance udp_adapter : FdAdapter FdAdapterBase.t (Address.t * bytes) (Address.t * BufferList.t) := {|
  ad_config := FdAdapterBase.config;
  ad_set_config := FdAdapterBase.with_config;
  ad_set_listening := FdAdapterBase.set_listening;
  ad_read i a := '(s, a) ← TCPOverUDPSocketAdapter.read i a; Ret (s, a, []);
  ad_write seg a := '(_, o) ← TCPOverUDPSocketAdapter.write seg a; Ret (a, [o]);
  ad_tick ms a := Ret (FdAdapterBase.tick ms a, []);
|}.

#[global] Instance tun_adapter : FdAdapter FdAdapterBase.t bytes BufferList.t := {|
  ad_config := FdAdapterBase.config;
  ad_set_config := FdAdapterBase.with_config;
  ad_set_listening := FdAdapterBase.set_listening;
  ad_read i a := '(s, a) ← TCPOverIPv4OverTunFdAdapter.read i a; Ret (s, a, []);
  ad_write seg a := '(_, o) ← TCPOverIPv4OverTunFdAdapter.write seg a; Ret (a, [o]);
  ad_tick ms a := Ret (FdAdapterBase.tick ms a, []);
|}.

#[global] Instance ethernet_adapter : FdAdapter TCPOverIPv4OverEthernetAdapter.t bytes BufferList.t := {|
  ad_config a := FdAdapterBase.config (TCPOverIPv4OverEthernetAdapter.base a);
  ad_set_config c a := TCPOverIPv4OverEthernetAdapter.mk
    (FdAdapterBase.with_config c (TCPOverIPv4OverEthernetAdapter.base a))
    (TCPOverIPv4OverEthernetAdapter._interface a) (TCPOverIPv4OverEthernetAdapter._next_hop a);
  ad_set_listening l a := TCPOverIPv4OverEthernetAdapter.mk
    (FdAdapterBase.set_listening l (TCPOverIPv4OverEthernetAdapter.base a))
    (TCPOverIPv4OverEthernetAdapter._interface a) (TCPOverIPv4OverEthernetAdapter._next_hop a);
  ad_read := TCPOverIPv4OverEthernetAdapter.read;
  ad_write seg a := '(_, a, o) ← TCPOverIPv4OverEthernetAdapter.write seg a; Ret (a, o);
  ad_tick := TCPOverIPv4OverEthernetAdapter.tick;
|}.

End Instances.

(** ** LossyFdAdapter *)

Module LossyFdAdapter.

Section Lossy.
Context {A In Out : Type} `{FdAdapter A In Out}.
(** The generator [std::mt19937]: one 32-bit draw. *)
Context {Rng : Type} (draw : Rng -> Z * Rng).

Record t := mk {
  _rand : Rng;
  _adapter : A;
}.

Definition _should_drop (uplink : bool) (l : t) : bool * t :=
  let cfg := ad_config (_adapter l) in
  let loss := if uplink then FdAdapterConfig.loss_rate_up cfg else FdAdapterConfig.loss_rate_dn cfg in
  if negb (loss =? 0) then
    let '(x, g) := draw (_rand l) in (u16 x <? loss, mk g (_adapter l))
  else (false, l).

Definition read (i : In) (l : t) : outcome (option TCPSegment.t * t * list Out) :=
  '(ret, a, out) ← ad_read i (_adapter l);
  let '(drop, l) := _should_drop false (mk (_rand l) a) in
  if drop then Ret (None, l, out) else Ret (ret, l, out).

Definition write (seg : TCPSegment.t) (l : t) : outcome (t * list Out) :=
  let '(drop, l) := _should_drop true l in
  if drop then Ret (l, [])
  else '(a, out) ← ad_write seg (_adapter l); Ret (mk (_rand l) a, out).

Definition config (l : t) : FdAdapterConfig.t := ad_config (_adapter l).
Definition set_config (c : FdAdapterConfig.t) (l : t) : t := mk (_rand l) (ad_set_config c (_adapter l)).
Definition set_listening (b : bool) (l : t) : t := mk (_rand l) (ad_set_listening b (_adapter l)).
Definition tick (ms : Z) (l : t) : outcome (t * list Out) :=
  '(a, out) ← ad_tick ms (_adapter l); Ret (mk (_rand l) a, out).

#[global] Instance lossy_adapter : FdAdapter t In Out := {|
  ad_config := config;
  ad_set_config := set_config;
  ad_set_listening := set_listening;
  ad_read := read;
  ad_write := write;
  ad_tick := tick;
|}.

End Lossy.

End LossyFdAdapter.
