(* ===== verification/fd_adapter_proofs.v ===== *)
(** * The adapters: round trips, filtering, listening and loss

    Everything is proved from [NetDBLaws], the documented behaviour of the
    address functions of the C library on IPv4 addresses. *)

From S2P Require Import Prelude wrapping_integers buffer parser util codec tcp_segment ethernet ipv4 address network_interface network_interface_proofs fd_adapter.

Module AdapterFacts.
Import AddressFacts TCPSegmentFacts IPv4Facts InterfaceFacts TCPOverIPv4Adapter.

Section NetDB.
Context `{Address.NetDBLaws}.

Lemma port_inet p ip : in_bits 16 p -> in_bits 32 ip -> Address.port (inet p ip) = Ret p.
Proof. apply Address.port_in. Qed.

(** An IPv4 endpoint: address and port. *)
Record endpoint := { e_ip : Z; e_port : Z; e_ip_ok : in_bits 32 e_ip; e_port_ok : in_bits 16 e_port }.
Definition addr (e : endpoint) : Address.t := inet (e_port e) (e_ip e).

Lemma addr_port e : Address.port (addr e) = Ret (e_port e).
Proof. exact (port_inet _ _ (e_port_ok e) (e_ip_ok e)). Qed.
Lemma addr_numeric e : Address.ipv4_numeric (addr e) = Ret (e_ip e).
Proof. exact (inet_numeric _ _ (e_ip_ok e)). Qed.

Lemma of_addr e : Address.of_ip_port (e_ip e) (e_port e) = Ret (addr e).
Proof. exact (Address.of_ip_port_in _ _ (e_port_ok e) (e_ip_ok e)). Qed.

(** The adapter talks from [l] to [r]. *)
Definition connected (l r : endpoint) (a : FdAdapterBase.t) : Prop :=
  FdAdapterBase.source a = addr l /\ FdAdapterBase.destination a = addr r.

(** A segment that fits one datagram. *)
Record seg_fits (seg : TCPSegment.t) : Prop := {
  sf_header : forall sp dp, in_bits 16 sp -> in_bits 16 dp -> header_wf (TCPHeader.set_ports sp dp (TCPSegment.header seg));
  sf_size : 20 + 4 * TCPHeader.doff (TCPSegment.header seg) + Zlen (Buffer.str (TCPSegment.payload seg)) < 2 ^ 16;
}.

(** The segment as [l] sends it to [r]. *)
Definition addressed_seg (l r : endpoint) (seg : TCPSegment.t) : TCPSegment.t :=
  TCPSegment.mk (TCPHeader.set_ports (e_port l) (e_port r) (TCPSegment.header seg)) (TCPSegment.payload seg).

(** [seg'] is [seg] but for the checksum and the buffer holding the payload. *)
Definition same_segment (seg seg' : TCPSegment.t) : Prop :=
  exists c, TCPSegment.header seg' = TCPHeader.set_cksum c (TCPSegment.header seg) /\
    TCPSegment.payload seg' ≡ TCPSegment.payload seg.

Lemma with_ports_ok l r a seg : connected l r a -> with_ports a seg = Ret (addressed_seg l r seg).
Proof. intros [Hs Hd]. unfold with_ports. by rewrite Hs, addr_port, Hd, addr_port. Qed.

Lemma pseudo_range h : ip_wf h -> in_bits 24 (IPv4Header.pseudo_cksum h).
Proof.
  intros []. unfold IPv4Header.pseudo_cksum, IPv4Header.payload_length, in_bits in *.
  set (pl := u16 _). assert (Hpl : 0 <= pl < 2 ^ 16) by apply u16_range.
  change 0xffff with (Z.ones 16). rewrite !Z.land_ones, !Z.shiftr_div_pow2 by lia.
  pose proof (Z.mod_pos_bound (IPv4Header.src h) (2 ^ 16)). pose proof (Z.mod_pos_bound (IPv4Header.dst h) (2 ^ 16)).
  assert (0 <= IPv4Header.src h / 2 ^ 16 < 2 ^ 16) by (split; [apply Z.div_pos | apply Z.div_lt_upper_bound]; lia).
  assert (0 <= IPv4Header.dst h / 2 ^ 16 < 2 ^ 16) by (split; [apply Z.div_pos | apply Z.div_lt_upper_bound]; lia).
  repeat match goal with |- context [u32 ?x] =>
    lazymatch x with context [u32 _] => fail | _ => rewrite (u32_small x) by lia end end.
  lia.
Qed.

(** ** Wrapping *)

(** [wrap_tcp_in_ip] makes a datagram that can be sent, between the right
    addresses, whose payload verifies. *)
Lemma wrap_ok l r a seg :
  connected l r a -> seg_fits seg ->
  exists d c hs, wrap_tcp_in_ip seg a = Ret (addressed_seg l r seg, d) /\ sendable d /\
    let ih := IPv4Datagram.header d in
    IPv4Header.src ih = e_ip l /\ IPv4Header.dst ih = e_ip r /\ IPv4Header.proto ih = IPv4Header.PROTO_TCP /\
    header_wf (TCPHeader.set_cksum c (TCPSegment.header (addressed_seg l r seg))) /\
    TCPHeader.serialize (TCPHeader.set_cksum c (TCPSegment.header (addressed_seg l r seg))) = Ret hs /\
    BufferList.concatenate (IPv4Datagram.payload d) = hs ++ Buffer.str (TCPSegment.payload seg) /\
    verifies (IPv4Header.pseudo_cksum ih) (hs ++ Buffer.str (TCPSegment.payload seg)).
Proof.
  intros Hc [Hh Hsz]. unfold wrap_tcp_in_ip. rewrite (with_ports_ok l r) by done. destruct Hc as [-> ->].
  cbn [mbind outcome_bind]. rewrite !addr_numeric. cbn [mbind outcome_bind].
  set (h' := TCPHeader.set_ports (e_port l) (e_port r) (TCPSegment.header seg)). set (pay := TCPSegment.payload seg).
  specialize (Hh (e_port l) (e_port r) (e_port_ok l) (e_port_ok r)). fold h' in Hh. pose proof (wf_doff _ Hh) as Hd.
  change (TCPHeader.doff h') with (TCPHeader.doff (TCPSegment.header seg)) in Hd. fold pay in Hsz.
  pose proof (Zlen_nonneg (Buffer.str pay)).
  set (n := u16 _). assert (Hn : n = 20 + 4 * TCPHeader.doff (TCPSegment.header seg) + Zlen (Buffer.str pay)).
  { change n with (u16 (5 * 4 + TCPHeader.doff (TCPSegment.header seg) * 4 + Zlen (Buffer.str pay))). rewrite u16_small; lia. }
  set (ih := IPv4Header.set_addresses (e_ip l) (e_ip r) n _).
  assert (Hih : ip_wf ih).
  { split; cbn; try apply e_ip_ok; unfold in_bits; try lia; done. }
  destruct (segment_serialize (IPv4Header.pseudo_cksum ih) h' pay Hh (pseudo_range ih Hih)) as (w & c & hs & Hw & Hcb & Hhs & Hlen & Hcat & Hv);
    [lia |].
  change (addressed_seg l r seg) with (TCPSegment.mk h' pay). rewrite Hw. cbn [mbind outcome_bind].
  exists (IPv4Datagram.mk ih w), c, hs. cbv zeta. split_and!; try done; [| by apply tcp_set_cksum_wf].
  split; [done |]. cbn [IPv4Datagram.header IPv4Datagram.payload IPv4Datagram._header IPv4Datagram._payload].
  rewrite Hcat, Zlen_app, Hlen. change (IPv4Header.len ih) with n. change (IPv4Header.hlen ih) with 5. rewrite Hn. change (TCPHeader.doff h') with (TCPHeader.doff (TCPSegment.header seg)). lia.
Qed.

(** ** Unwrapping *)

(** Who the adapter accepts segments from: its peer, or anyone when it is
    listening on this port. *)
Definition accepts (l r : endpoint) (seg : TCPSegment.t) (b : FdAdapterBase.t) : Prop :=
  if FdAdapterBase.listening b
  then (exists ip, in_bits 32 ip /\ FdAdapterBase.source b = inet (e_port r) ip) /\
    TCPHeader.syn (TCPSegment.header seg) = true /\ TCPHeader.rst (TCPSegment.header seg) = false
  else connected r l b.

(** The adapter once it has accepted a segment from [l] to [r]. *)
Definition accepted (l r : endpoint) (b : FdAdapterBase.t) : FdAdapterBase.t :=
  if FdAdapterBase.listening b
  then FdAdapterBase.mk (FdAdapterConfig.set_peers (addr r) (addr l) (FdAdapterBase.config b)) false
  else b.

Lemma accepted_connected l r seg b : accepts l r seg b -> connected r l (accepted l r b) /\ FdAdapterBase.listening (accepted l r b) = false.
Proof. unfold accepts, accepted. destruct (FdAdapterBase.listening b) eqn:Hl; by intros. Qed.

(** A datagram from [l] to [r] carrying [seg], received by an adapter that
    accepts it. *)
Lemma unwrap_ok l r seg ih pay b c hs buf :
  accepts l r seg b ->
  IPv4Header.src ih = e_ip l -> IPv4Header.dst ih = e_ip r -> IPv4Header.proto ih = IPv4Header.PROTO_TCP ->
  header_wf (TCPHeader.set_cksum c (TCPSegment.header (addressed_seg l r seg))) ->
  TCPHeader.serialize (TCPHeader.set_cksum c (TCPSegment.header (addressed_seg l r seg))) = Ret hs ->
  pay = [buf] -> Buffer.wf buf -> Buffer.str buf = hs ++ Buffer.str (TCPSegment.payload seg) ->
  verifies (IPv4Header.pseudo_cksum ih) (hs ++ Buffer.str (TCPSegment.payload seg)) ->
  exists seg', unwrap_tcp_in_ip (IPv4Datagram.mk ih pay) b = Ret (Some seg', accepted l r b) /\
    same_segment (addressed_seg l r seg) seg'.
Proof.
  intros Hacc Hsrc Hdst Hproto Hh Hhs -> Hwf Hbuf Hv.
  destruct (segment_parse (IPv4Header.pseudo_cksum ih) _ hs _ buf TCPSegment.default_ Hh Hhs Hwf Hbuf Hv) as (b' & Hp & _ & Hs).
  unfold unwrap_tcp_in_ip. cbn [IPv4Datagram.header IPv4Datagram.payload IPv4Datagram._header IPv4Datagram._payload].
  assert (Hus : for_us (IPv4Datagram.mk ih [buf]) b = Ret true).
  { unfold for_us, accepts in *. destruct (FdAdapterBase.listening b); [done |]. destruct Hacc as [-> ->].
    rewrite addr_numeric. cbn. rewrite addr_numeric, Hdst, Hsrc, !Z.eqb_refl. cbn. by rewrite Z.eqb_refl. }
  assert (Hport : Address.port (FdAdapterBase.source b) = Ret (e_port r)).
  { unfold accepts in Hacc. destruct (FdAdapterBase.listening b).
    - destruct Hacc as [(ip & Hip & ->) _]. by apply port_inet; [apply e_port_ok |].
    - destruct Hacc as [-> _]. apply addr_port. }
  rewrite Hus. cbn [mbind outcome_bind negb]. rewrite Hproto. change (IPv4Header.PROTO_TCP =? IPv4Header.PROTO_TCP) with true.
  cbn [negb BufferList.to_buffer mbind outcome_bind]. rewrite Hp. cbn [mbind outcome_bind].
  change (bool_decide (NoError = NoError)) with true. cbn [negb]. rewrite Hport. cbn [mbind outcome_bind TCPSegment.header TCPSegment._header].
  cbn [addressed_seg TCPSegment.header TCPSegment._header TCPHeader.set_ports TCPHeader.set_cksum TCPHeader.dport TCPHeader.sport TCPHeader.syn TCPHeader.rst].
  rewrite Z.eqb_refl. cbn [negb].
  exists (TCPSegment.mk (TCPHeader.set_cksum c (TCPSegment.header (addressed_seg l r seg))) b').
  split; [| exists c; by split].
  unfold accepts, accepted in *. destruct (FdAdapterBase.listening b) eqn:Hl.
  - destruct Hacc as (_ & -> & ->). cbn [andb negb]. rewrite Hdst, Hsrc.
    rewrite !of_addr. cbn [mbind outcome_bind].
    change (FdAdapterBase.destination _) with (addr l). rewrite addr_port. cbn [mbind outcome_bind]. by rewrite Z.eqb_refl.
  - destruct Hacc as [_ Hd]. cbn [andb mbind outcome_bind]. rewrite Hd, addr_port. cbn [mbind outcome_bind]. by rewrite Z.eqb_refl.
Qed.

(** ** Delivery *)

Import TCPOverIPv4OverTunFdAdapter.

(** A segment written to a TUN adapter and read from the wire by the
    adapter of the other end arrives with its header (ports filled in,
    checksum computed) and its payload: at a connected peer, which is
    unchanged, and, for a SYN, at a listening one, which then is connected to
    the sender. *)
Theorem tun_delivers (l r : endpoint) (a b : FdAdapterBase.t) (seg : TCPSegment.t) :
  connected l r a -> seg_fits seg -> accepts l r seg b ->
  exists out seg' b', TCPOverIPv4OverTunFdAdapter.write seg a = Ret (addressed_seg l r seg, out) /\
    TCPOverIPv4OverTunFdAdapter.read (BufferList.concatenate out) b = Ret (Some seg', b') /\
    same_segment (addressed_seg l r seg) seg' /\
    connected r l b' /\ FdAdapterBase.listening b' = false.
Proof.
  intros Ha Hf Hb. destruct (wrap_ok l r a seg Ha Hf) as (d & c & hs & Hw & [Hih Hlen] & Hsrc & Hdst & Hproto & Hh & Hhs & Hcat & Hv).
  destruct (datagram_serialize d Hih Hlen) as (out & Hout & Hbytes & Hfits).
  set (ih := IPv4Header.set_cksum _ _) in Hbytes, Hfits.
  destruct (datagram_parse_fits ih _ IPv4Datagram.default_ (Buffer.of_string (BufferList.concatenate out)) Hfits)
    as (buf & Hp & Hbuf & Hstr).
  { apply Buffer.wf_of_string. rewrite Hbytes, Zlen_app, Zlen_wire by apply Hfits. pose proof (wf_len _ Hih).
    unfold in_bits in *. cbn. lia. }
  { by rewrite Buffer.str_of_string. }
  destruct (unwrap_ok l r seg ih (BufferList.of_buffer buf) b c hs buf) as (seg' & Hu & Hsame); try done.
  { by rewrite Hstr, Hcat. }
  exists out, seg', (accepted l r b). split_and!; [| | done | |].
  - unfold write. rewrite Hw. cbn [mbind outcome_bind]. by rewrite Hout.
  - unfold read. rewrite Hp. cbn [mbind outcome_bind]. exact Hu.
  - by apply (accepted_connected l r seg).
  - by apply (accepted_connected l r seg).
Qed.

Lemma address_eqb_refl x : Address.eqb x x = true.
Proof. unfold Address.eqb. rewrite Z.eqb_refl. cbn. by apply bool_decide_eq_true_2. Qed.

(** A segment written to a UDP adapter and read by the adapter of the other
    end arrives with its header and payload; a listening adapter takes the
    sender of the SYN as its destination. *)
Theorem udp_delivers (l r : endpoint) (a b : FdAdapterBase.t) (seg : TCPSegment.t) :
  connected l r a -> seg_fits seg -> accepts l r seg b ->
  exists out seg' b', TCPOverUDPSocketAdapter.write seg a = Ret (addressed_seg l r seg, (addr r, out)) /\
    TCPOverUDPSocketAdapter.read (addr l, BufferList.concatenate out) b = Ret (Some seg', b') /\
    same_segment (addressed_seg l r seg) seg' /\
    FdAdapterBase.destination b' = addr l /\ FdAdapterBase.listening b' = false.
Proof.
  intros Ha [Hh Hsz] Hb. unfold TCPOverUDPSocketAdapter.write. rewrite (with_ports_ok l r) by done.
  cbn [mbind outcome_bind]. pose proof (Hh (e_port l) (e_port r) (e_port_ok l) (e_port_ok r)) as Hh'.
  pose proof (wf_doff _ Hh') as Hd. cbn in Hd.
  destruct (segment_serialize 0 _ (TCPSegment.payload seg) Hh') as (w & c & hs & Hw & Hc & Hhs & Hl & Hcat & Hv);
    [unfold in_bits; lia | lia |].
  fold (addressed_seg l r seg) in Hw. rewrite Hw. cbn [mbind outcome_bind]. destruct Ha as [_ ->].
  destruct (segment_parse 0 _ hs (Buffer.str (TCPSegment.payload seg)) (Buffer.of_string (BufferList.concatenate w))
    TCPSegment.default_ (tcp_set_cksum_wf c _ Hh' Hc) Hhs) as (buf & Hp & _ & Hs).
  { apply Buffer.wf_of_string. rewrite Hcat, Zlen_app, Hl. cbn. lia. }
  { by rewrite Buffer.str_of_string. }
  { done. }
  exists w, (TCPSegment.mk (TCPHeader.set_cksum c (TCPHeader.set_ports (e_port l) (e_port r) (TCPSegment.header seg))) buf).
  unfold TCPOverUDPSocketAdapter.read, accepts in *. rewrite Hp. cbn [mbind outcome_bind].
  change (bool_decide (NoError = NoError)) with true.
  cbn [negb TCPSegment.header TCPSegment._header TCPHeader.set_cksum TCPHeader.set_ports TCPHeader.syn TCPHeader.rst].
  assert (Hsame : same_segment (addressed_seg l r seg)
    (TCPSegment.mk (TCPHeader.set_cksum c (TCPHeader.set_ports (e_port l) (e_port r) (TCPSegment.header seg))) buf))
    by (exists c; by split).
  destruct (FdAdapterBase.listening b) eqn:Hl'; cbn [negb andb].
  - destruct Hb as (_ & -> & ->). cbn [andb negb]. eexists. by split_and!.
  - destruct Hb as [_ Hdst]. rewrite Hdst, address_eqb_refl. cbn [negb]. eexists. by split_and!.
Qed.

(** ** Filtering *)

(** A [Ret] of a sequence comes from a [Ret] of its first part. *)
Lemma bind_Ret_inv {A B} (m : outcome A) (k : A -> outcome B) y : m ≫= k = Ret y -> exists x, m = Ret x /\ k x = Ret y.
Proof. destruct m as [x| |]; [| done..]. by exists x. Qed.

Ltac inv_bind H := let x := fresh "x" in let Hx := fresh "Hx" in apply bind_Ret_inv in H as (x & Hx & H).

(** What the adapter hands to TCP is for this connection: the checksum
    over the pseudo-header verifies, the ports are those of the adapter's
    addresses, and it is no longer listening; a connected adapter has also
    checked both IP addresses and is unchanged, a listening one only accepts
    a SYN without RST. *)
Theorem unwrap_filters (d : InternetDatagram) (a a' : FdAdapterBase.t) (seg : TCPSegment.t) :
  unwrap_tcp_in_ip d a = Ret (Some seg, a') ->
  let ih := IPv4Datagram.header d in
  let th := TCPSegment.header seg in
  IPv4Header.proto ih = IPv4Header.PROTO_TCP /\
  verifies (IPv4Header.pseudo_cksum ih) (BufferList.concatenate (IPv4Datagram.payload d)) /\
  Address.port (FdAdapterBase.source a) = Ret (TCPHeader.dport th) /\
  Address.port (FdAdapterBase.destination a') = Ret (TCPHeader.sport th) /\
  FdAdapterBase.listening a' = false /\
  if FdAdapterBase.listening a then TCPHeader.syn th = true /\ TCPHeader.rst th = false
  else a' = a /\ Address.ipv4_numeric (FdAdapterBase.source a) = Ret (IPv4Header.dst ih) /\
    Address.ipv4_numeric (FdAdapterBase.destination a) = Ret (IPv4Header.src ih).
Proof.
  intros Hu ih th. unfold unwrap_tcp_in_ip in Hu. fold ih in Hu. inv_bind Hu. destruct x; [| done]. cbn [negb] in Hu.
  destruct (IPv4Header.proto ih =? IPv4Header.PROTO_TCP) eqn:Hproto; [| done]. apply Z.eqb_eq in Hproto. cbn [negb] in Hu.
  inv_bind Hu. rename x into buffer. inv_bind Hu. destruct x as [pr tcp_seg].
  destruct (bool_decide (pr = NoError)) eqn:Hpr; [| done]. apply bool_decide_eq_true in Hpr as ->. cbn [negb] in Hu.
  inv_bind Hu. rename x into sp, Hx2 into Hsp.
  destruct (TCPHeader.dport (TCPSegment.header tcp_seg) =? sp) eqn:Hdp; [| done]. apply Z.eqb_eq in Hdp. subst sp. cbn [negb] in Hu.
  destruct (FdAdapterBase.listening a && _) eqn:Hsyn; [done |]. inv_bind Hu. rename x into a1, Hx2 into Ha1.
  inv_bind Hu. rename x into dp, Hx2 into Hdst.
  destruct (TCPHeader.sport (TCPSegment.header tcp_seg) =? dp) eqn:Hspt; [| done]. apply Z.eqb_eq in Hspt. subst dp.
  cbn [negb] in Hu. injection Hu as -> ->. split_and!; [done | | done | done | |].
  - unfold verifies. rewrite <- (BufferList.to_buffer_str _ _ Hx0). unfold TCPSegment.parse in Hx1.
    destruct (Z.eqb_spec (InternetChecksum.value (InternetChecksum.add (Buffer.str buffer)
      (InternetChecksum.make (IPv4Header.pseudo_cksum ih)))) 0) as [E | E]; [done |]. done.
  - destruct (FdAdapterBase.listening a) eqn:Hl.
    + inv_bind Ha1. inv_bind Ha1. by injection Ha1 as <-.
    + by injection Ha1 as <-.
  - unfold for_us in Hx. fold ih in Hx. destruct (FdAdapterBase.listening a).
    + fold th in Hsyn. by destruct (TCPHeader.syn th), (TCPHeader.rst th).
    + injection Ha1 as <-. inv_bind Hx. destruct (IPv4Header.dst ih =? x) eqn:E; [| done]. apply Z.eqb_eq in E. subst x.
      cbn [negb] in Hx. inv_bind Hx. injection Hx as E. apply Z.eqb_eq in E. subst x. done.
Qed.

(** ** Loss *)

(** A lossy adapter only drops: the device sees exactly what the inner
    adapter writes or nothing, a read consumes the same input and leaves the
    inner adapter in the same state whether or not its segment is dropped, and
    with a loss rate of zero nothing is dropped and no random number drawn. *)
Theorem lossy_only_drops {A In Out Rng : Type} `{FdAdapter A In Out} (draw : Rng -> Z * Rng)
    (i : In) (seg : TCPSegment.t) (lossy : LossyFdAdapter.t) (s : option TCPSegment.t) (ar aw : A) (outr outw : list Out) :
  ad_read i (LossyFdAdapter._adapter lossy) = Ret (s, ar, outr) ->
  ad_write seg (LossyFdAdapter._adapter lossy) = Ret (aw, outw) ->
  (exists s' g, LossyFdAdapter.read draw i lossy = Ret (s', LossyFdAdapter.mk g ar, outr) /\ (s' = s \/ s' = None) /\
     (FdAdapterConfig.loss_rate_dn (ad_config ar) = 0 -> s' = s /\ g = LossyFdAdapter._rand lossy)) /\
  (exists g a' out, LossyFdAdapter.write draw seg lossy = Ret (LossyFdAdapter.mk g a', out) /\
     ((a' = aw /\ out = outw) \/ (a' = LossyFdAdapter._adapter lossy /\ out = [])) /\
     (FdAdapterConfig.loss_rate_up (ad_config (LossyFdAdapter._adapter lossy)) = 0 ->
        a' = aw /\ out = outw /\ g = LossyFdAdapter._rand lossy)).
Proof.
  intros Hr Hw. split.
  - unfold LossyFdAdapter.read. rewrite Hr. cbn [mbind outcome_bind]. unfold LossyFdAdapter._should_drop.
    cbn [LossyFdAdapter._adapter LossyFdAdapter._rand]. destruct (Z.eqb_spec (FdAdapterConfig.loss_rate_dn (ad_config ar)) 0) as [E | E]; cbn [negb].
    { eexists _, _. split_and!; [reflexivity | by left | done]. }
    destruct (draw (LossyFdAdapter._rand lossy)) as [x g]. destruct (u16 x <? _); eexists _, _; split_and!; try reflexivity; try done; by (left + right).
  - unfold LossyFdAdapter.write, LossyFdAdapter._should_drop.
    destruct (Z.eqb_spec (FdAdapterConfig.loss_rate_up (ad_config (LossyFdAdapter._adapter lossy))) 0) as [E | E]; cbn [negb].
    { rewrite Hw. cbn [mbind outcome_bind]. eexists _, _, _. split_and!; [reflexivity | by left | done]. }
    destruct (draw (LossyFdAdapter._rand lossy)) as [x g]. destruct (u16 x <? _).
    { eexists _, _, _. split_and!; [reflexivity | by right | done]. }
    cbn [LossyFdAdapter._adapter LossyFdAdapter._rand]. rewrite Hw. cbn [mbind outcome_bind].
    eexists _, _, _. split_and!; [reflexivity | by left | done].
Qed.

(** ** The Ethernet adapter *)

Lemma unwrap_total l r d b buf :
  connected l r b -> addressed (IPv4Datagram.header d) -> IPv4Datagram.payload d = [buf] -> Buffer.wf buf ->
  exists s b' l' r', unwrap_tcp_in_ip d b = Ret (s, b') /\ connected l' r' b'.
Proof.
  intros Hc [Hsrc Hdst] Hpay Hwf. unfold unwrap_tcp_in_ip. set (ih := IPv4Datagram.header d) in *.
  assert (exists x, for_us d b = Ret x) as [x ->].
  { unfold for_us. destruct (FdAdapterBase.listening b); [by eexists |]. destruct Hc as [-> ->]. rewrite !addr_numeric.
    cbn [mbind outcome_bind]. destruct (negb _); by eexists. }
  cbn [mbind outcome_bind]. destruct (negb x); [by eexists _, _, l, r |]. destruct (negb _); [by eexists _, _, l, r |].
  rewrite Hpay. cbn [BufferList.to_buffer mbind outcome_bind].
  destruct (segment_parse_total buf (IPv4Header.pseudo_cksum ih) TCPSegment.default_ Hwf) as (pr & seg & -> & Hsp); [done |].
  cbn [mbind outcome_bind]. destruct (negb _); [by eexists _, _, l, r |].
  destruct Hc as [Hs Hd]. rewrite Hs, addr_port. cbn [mbind outcome_bind]. destruct (negb _); [by eexists _, _, l, r |].
  destruct (_ && _); [by eexists _, _, l, r |].
  destruct (FdAdapterBase.listening b); cbn [mbind outcome_bind].
  - set (l' := {| e_ip := IPv4Header.dst ih; e_port := e_port l; e_ip_ok := Hdst; e_port_ok := e_port_ok l |}).
    set (r' := {| e_ip := IPv4Header.src ih; e_port := TCPHeader.sport (TCPSegment.header seg); e_ip_ok := Hsrc; e_port_ok := Hsp |}).
    change (Address.of_ip_port (IPv4Header.dst ih) (e_port l)) with (Address.of_ip_port (e_ip l') (e_port l')).
    change (Address.of_ip_port (IPv4Header.src ih) _) with (Address.of_ip_port (e_ip r') (e_port r')).
    rewrite !of_addr. cbn [mbind outcome_bind]. change (FdAdapterBase.destination _) with (addr r').
    rewrite addr_port. cbn [mbind outcome_bind]. destruct (negb _); by eexists _, _, l', r'.
  - rewrite Hd, addr_port. cbn [mbind outcome_bind]. destruct (negb _); by eexists _, _, l, r.
Qed.

Import TCPOverIPv4OverEthernetAdapter.

Record eth_inv (a : t) : Prop := {
  ea_interface : ni_inv (_interface a);
  ea_flushed : NetworkInterface.frames_out (_interface a) = [];
  ea_config : exists l r, connected l r (base a);
  ea_next_hop : exists ip, in_bits 32 ip /\ Address.ipv4_numeric (_next_hop a) = Ret ip;
}.

Lemma send_pending_inv b n hop l r :
  ni_inv n -> connected l r b -> (exists ip, in_bits 32 ip /\ Address.ipv4_numeric hop = Ret ip) ->
  eth_inv (send_pending (mk b n hop)).1.
Proof.
  intros Hn Hc Hh. split; cbn; [| done | by exists l, r | done]. destruct Hn. by split.
Qed.

(** What is written to a device is a few bytes. *)
Definition small (o : BufferList.t) : Prop := Zlen (BufferList.concatenate o) < 2 ^ 32.

Lemma datagram_small d : sendable d -> exists out, IPv4Datagram.serialize d = Ret out /\ Zlen (BufferList.concatenate out) < 2 ^ 16.
Proof.
  intros [Hih Hlen]. destruct (datagram_serialize d Hih Hlen) as (out & Hout & Hbytes & Hfits). exists out. split; [done |].
  rewrite Hbytes, Zlen_app, Zlen_wire by apply Hfits. pose proof (wf_len _ Hih). unfold in_bits in *. cbn. lia.
Qed.

Lemma frame_small src f : length src = 6%nat -> frame_ok src f -> small (EthernetFrame.serialize f).
Proof.
  intros Hs (dst & Hd & Hc). unfold small. rewrite EthernetFacts.frame_bytes, Zlen_app.
  assert (Hh : Zlen (EthernetHeader.serialize (EthernetFrame.header f)) = EthernetHeader.LENGTH).
  { apply EthernetFacts.Zlen_eth_serialize. destruct Hc as [(d & _ & -> & _) | (m & _ & -> & _)]; by split. }
  rewrite Hh. unfold EthernetHeader.LENGTH. destruct Hc as [(d & Hd' & _ & Hp) | (m & Hm & _ & Hp)].
  - destruct (datagram_small d Hd') as (out & Ho & Hl). rewrite Hp in Ho. injection Ho as ->. lia.
  - rewrite (EthernetFacts.Zlen_arp m _ Hm Hp). unfold ARPMessage.LENGTH. lia.
Qed.

Lemma pending_small b n hop : ni_inv n -> Forall small (send_pending (mk b n hop)).2.
Proof.
  intros [Hmac _ _ _ _ _ _ _ Hf]. cbn. apply Forall_map. eapply Forall_impl; [exact Hf |].
  intros f. by apply frame_small.
Qed.

Lemma eth_read_total a raw :
  eth_inv a -> Zlen raw < 2 ^ 32 ->
  exists s a' out, TCPOverIPv4OverEthernetAdapter.read raw a = Ret (s, a', out) /\ eth_inv a' /\ Forall small out.
Proof.
  intros [Hn Hfl (l & r & Hc) Hhop] Hraw. unfold TCPOverIPv4OverEthernetAdapter.read.
  assert (Hwf : Buffer.wf (Buffer.of_string raw)) by (apply Buffer.wf_of_string; lia).
  destruct (EthernetFacts.frame_parse_total (Buffer.of_string raw) EthernetFrame.default_ Hwf) as (pr & f & buf & -> & Hpay & Hb).
  cbn [mbind outcome_bind]. destruct (negb _); [eexists _, _, _; split_and!; [reflexivity | by split; eauto | done] |].
  destruct (recv_frame_inv f _ Hn (ex_intro _ buf (conj Hpay Hb))) as (d & n' & -> & Hn' & Hd). cbn [mbind outcome_bind].
  pose proof (send_pending_inv (base a) n' (_next_hop a) l r Hn' Hc Hhop) as Hp.
  pose proof (pending_small (base a) n' (_next_hop a) Hn') as Hsm. destruct (send_pending _) as [a1 out] eqn:Esp.
  destruct d as [d|]; [| by eexists _, _, _].
  destruct (Hd d eq_refl) as [Had (b & Hpb & Hwb)]. injection Esp as <- <-. cbn [base].
  destruct (unwrap_total l r d (base a) b Hc Had Hpb Hwb) as (s & b' & l' & r' & -> & Hc').
  cbn [mbind outcome_bind]. eexists _, _, _. split_and!; [reflexivity | | done]. destruct Hp. split; [done | done | by exists l', r' | done].
Qed.

Lemma eth_write_total a seg :
  eth_inv a -> seg_fits seg ->
  exists seg' a' out, TCPOverIPv4OverEthernetAdapter.write seg a = Ret (seg', a', out) /\ eth_inv a' /\ Forall small out.
Proof.
  intros [Hn Hfl (l & r & Hc) (hop & Hhop & Hnum)] Hseg. unfold TCPOverIPv4OverEthernetAdapter.write.
  destruct (wrap_ok l r (base a) seg Hc Hseg) as (d & c & hs & -> & Hd & _). cbn [mbind outcome_bind].
  destruct (send_datagram_inv d (_next_hop a) hop _ Hn Hd Hnum Hhop) as (n' & -> & Hn'). cbn [mbind outcome_bind].
  eexists _, _, _. split_and!; [reflexivity | | by apply (pending_small (base a) n' (_next_hop a))].
  apply (send_pending_inv _ _ _ l r); [done | done | by exists hop].
Qed.

Lemma eth_tick_total a ms :
  eth_inv a -> 0 <= ms < 2 ^ 63 ->
  exists a' out, TCPOverIPv4OverEthernetAdapter.tick ms a = Ret (a', out) /\ eth_inv a' /\ Forall small out.
Proof.
  intros [Hn Hfl (l & r & Hc) (hop & Hhop & Hnum)] Hms. unfold TCPOverIPv4OverEthernetAdapter.tick, NetworkInterface.tick.
  destruct (ni_tick_ok (_interface a) ms _ _ Hn Hms (Permutation_refl _) (Permutation_refl _)) as (n' & -> & Hab).
  cbn [mbind outcome_bind]. assert (Hn' : ni_inv n') by (by eapply aged_by_inv).
  eexists _, _. split_and!; [reflexivity | | by apply (pending_small (base a) n' (_next_hop a))].
  apply (send_pending_inv _ _ _ l r); [done | done | by exists hop].
Qed.


(** *** The same for the TUN and UDP adapters *)

Lemma tun_read_total a raw l r :
  connected l r a -> Zlen raw < 2 ^ 32 ->
  exists s a' l' r', TCPOverIPv4OverTunFdAdapter.read raw a = Ret (s, a') /\ connected l' r' a'.
Proof.
  intros Hc Hraw. unfold TCPOverIPv4OverTunFdAdapter.read.
  assert (Hwf : Buffer.wf (Buffer.of_string raw)) by (apply Buffer.wf_of_string; lia).
  destruct (datagram_parse_total (Buffer.of_string raw) IPv4Datagram.default_ Hwf) as (pr & d & b & -> & Hp & Hb & Had); [done |].
  cbn [mbind outcome_bind]. destruct (negb _); [by exists None, a, l, r |]. by apply (unwrap_total l r d a b).
Qed.

Lemma tun_write_total a seg l r :
  connected l r a -> seg_fits seg ->
  exists out, TCPOverIPv4OverTunFdAdapter.write seg a = Ret (addressed_seg l r seg, out) /\ small out.
Proof.
  intros Hc Hseg. unfold TCPOverIPv4OverTunFdAdapter.write.
  destruct (wrap_ok l r a seg Hc Hseg) as (d & c & hs & -> & Hd & _). cbn [mbind outcome_bind].
  destruct (datagram_small d Hd) as (out & -> & Hl). exists out. split; [done |]. unfold small. lia.
Qed.

(** The ports the UDP adapter writes are those of the two addresses; the
    destination may be any address whose port is known. *)
Definition udp_ready (a : FdAdapterBase.t) : Prop :=
  exists p q, Address.port (FdAdapterBase.source a) = Ret p /\ Address.port (FdAdapterBase.destination a) = Ret q /\
    in_bits 16 p /\ in_bits 16 q.

Lemma udp_read_total a src payload :
  udp_ready a -> Zlen payload < 2 ^ 32 -> (exists q, Address.port src = Ret q /\ in_bits 16 q) ->
  exists s a', TCPOverUDPSocketAdapter.read (src, payload) a = Ret (s, a') /\ udp_ready a'.
Proof.
  intros Ha Hl (q & Hq & Hqb). unfold TCPOverUDPSocketAdapter.read. destruct (_ && _); [by exists None, a |].
  assert (Hwf : Buffer.wf (Buffer.of_string payload)) by (apply Buffer.wf_of_string; lia).
  destruct (segment_parse_total (Buffer.of_string payload) 0 TCPSegment.default_ Hwf) as (pr & seg & -> & _); [done |].
  cbn [mbind outcome_bind]. destruct (negb _); [by exists None, a |].
  destruct (FdAdapterBase.listening a); [| by exists (Some seg), a]. destruct (_ && _); [| by exists None, a].
  eexists _, _. split; [reflexivity |]. destruct Ha as (p & q' & Hp & _ & Hpb & _). by exists p, q.
Qed.

Lemma udp_write_total a seg :
  udp_ready a -> seg_fits seg -> exists seg' o, TCPOverUDPSocketAdapter.write seg a = Ret (seg', o).
Proof.
  intros (p & q & Hp & Hq & Hpb & Hqb) [Hh Hsz]. unfold TCPOverUDPSocketAdapter.write, with_ports. rewrite Hp, Hq.
  cbn [mbind outcome_bind]. specialize (Hh p q Hpb Hqb). pose proof (wf_doff _ Hh) as Hd. cbn in Hd.
  destruct (segment_serialize 0 _ (TCPSegment.payload seg) Hh) as (w & c & hs & Hw & _); [unfold in_bits; lia | lia |].
  rewrite Hw. by eexists _, _.
Qed.

Lemma eth_read_none a f f' n' :
  on_wire f = Ret (NoError, f') -> NetworkInterface.recv_frame f' (_interface a) = Ret (None, n') ->
  TCPOverIPv4OverEthernetAdapter.read (BufferList.concatenate (EthernetFrame.serialize f)) a =
    Ret (None, mk (base a) (transmitted n') (_next_hop a), map EthernetFrame.serialize (NetworkInterface.frames_out n')).
Proof.
  intros Hw Hr. unfold TCPOverIPv4OverEthernetAdapter.read. unfold on_wire in Hw. rewrite Hw. cbn [mbind outcome_bind].
  change (bool_decide (NoError = NoError)) with true. cbn [negb]. by rewrite Hr.
Qed.

Lemma eth_read_some a f f' n' d s b' :
  on_wire f = Ret (NoError, f') -> NetworkInterface.recv_frame f' (_interface a) = Ret (Some d, n') ->
  unwrap_tcp_in_ip d (base a) = Ret (s, b') ->
  TCPOverIPv4OverEthernetAdapter.read (BufferList.concatenate (EthernetFrame.serialize f)) a =
    Ret (s, mk b' (transmitted n') (_next_hop a), map EthernetFrame.serialize (NetworkInterface.frames_out n')).
Proof.
  intros Hw Hr Hu. unfold TCPOverIPv4OverEthernetAdapter.read. unfold on_wire in Hw. rewrite Hw. cbn [mbind outcome_bind].
  change (bool_decide (NoError = NoError)) with true. cbn [negb]. rewrite Hr. cbn [mbind outcome_bind send_pending base]. by rewrite Hu.
Qed.

(** C12: the whole path: a TCP segment written to an Ethernet adapter whose
    next hop is not yet resolved makes it broadcast one ARP request; the other
    adapter, reading it, writes one reply; reading that, the first writes one
    IPv4 frame; reading that, the other delivers the segment to TCP, header
    and payload intact.  The four calls exchange raw bytes only. *)
Theorem ethernet_delivers (l r : endpoint) (a b : t) (ipA ipB : Z) (seg : TCPSegment.t) :
  eth_inv a -> eth_inv b -> connected l r (base a) -> accepts l r seg (base b) -> seg_fits seg ->
  let na := _interface a in let nb := _interface b in
  Address.ipv4_numeric (NetworkInterface._ip_address na) = Ret ipA ->
  Address.ipv4_numeric (NetworkInterface._ip_address nb) = Ret ipB ->
  Address.ipv4_numeric (_next_hop a) = Ret ipB ->
  NetworkInterface.cache na !! ipB = None -> NetworkInterface.may_request ipB na = true ->
  NetworkInterface.datagrams na !! ipB = None -> NetworkInterface.datagrams nb !! ipA = None ->
  exists a1 req b1 rep a2 fr b2 seg',
    TCPOverIPv4OverEthernetAdapter.write seg a = Ret (addressed_seg l r seg, a1, [req]) /\
    TCPOverIPv4OverEthernetAdapter.read (BufferList.concatenate req) b = Ret (None, b1, [rep]) /\
    TCPOverIPv4OverEthernetAdapter.read (BufferList.concatenate rep) a1 = Ret (None, a2, [fr]) /\
    TCPOverIPv4OverEthernetAdapter.read (BufferList.concatenate fr) b1 = Ret (Some seg', b2, []) /\
    same_segment (addressed_seg l r seg) seg' /\ connected r l (base b2) /\ FdAdapterBase.listening (base b2) = false.
Proof.
  intros [Hna Hfa _ _] [Hnb Hfb _ _] Hc Hacc Hf na nb HipA HipB Hhop Hcache Hreq Hwa Hwb.
  destruct (wrap_ok l r (base a) seg Hc Hf) as (d & c & hs & Hw & Hd & Hsrc & Hdst & Hproto & Hh & Hhs & Hcat & Hv).
  destruct (resolution_ok na nb ipA ipB d (_next_hop a) Hna Hnb HipA HipB Hd Hhop Hcache Hreq Hwa Hwb)
    as (a1 & req & req' & b1 & rep & rep' & a2 & fr & fr' & d' &
        (Hs & Hq1 & Hw1) & (Hr1 & Hq2 & Hw2) & (Hr2 & Hq3 & Hw3) & (Hr3 & (c' & _ & Hhd) & buf & Hpay & Hwb' & Hstr) & _).
  unfold na, nb in *. rewrite Hfa in Hq1. rewrite Hfb in Hq2. cbn [app] in Hq1, Hq2.
  destruct (unwrap_ok l r seg (IPv4Datagram.header d') (IPv4Datagram.payload d') (base b) c hs buf) as (seg' & Hu & Hsame);
    [done | by rewrite Hhd | by rewrite Hhd | by rewrite Hhd | done | done | done | done | by rewrite Hstr | by rewrite Hhd |].
  assert (Hu' : unwrap_tcp_in_ip d' (base b) = Ret (Some seg', accepted l r (base b))) by (by destruct d').
  exists (mk (base a) (transmitted a1) (_next_hop a)), (EthernetFrame.serialize req),
    (mk (base b) (transmitted b1) (_next_hop b)), (EthernetFrame.serialize rep),
    (mk (base a) (transmitted a2) (_next_hop a)), (EthernetFrame.serialize fr),
    (mk (accepted l r (base b)) (transmitted b1) (_next_hop b)), seg'.
  destruct (accepted_connected l r seg (base b) Hacc) as [Hcon Hlis]. split_and!; [| | | | done | done | done].
  - unfold TCPOverIPv4OverEthernetAdapter.write. rewrite Hw. cbn [mbind outcome_bind]. rewrite Hs. cbn [mbind outcome_bind].
    unfold send_pending. cbn [_interface]. by rewrite Hq1.
  - rewrite (eth_read_none b req req' b1 Hw1 Hr1). by rewrite Hq2.
  - rewrite (eth_read_none (mk (base a) (transmitted a1) (_next_hop a)) rep rep' a2 Hw2 Hr2). by rewrite Hq3.
  - exact (eth_read_some (mk (base b) (transmitted b1) (_next_hop b)) fr fr' _ d' _ _ Hw3 Hr3 Hu').
Qed.

End NetDB.

(** ** Concrete runs

    with the C library's functions instantiated by [byte_netdb]. *)

Import TCPOverIPv4OverEthernetAdapter.

Program Definition client : endpoint := {| e_ip := 0x0a000001; e_port := 1234 |}.
Solve All Obligations with (unfold in_bits; cbn; lia).
Program Definition server : endpoint := {| e_ip := 0x0a000002; e_port := 80 |}.
Solve All Obligations with (unfold in_bits; cbn; lia).

Definition client_base : FdAdapterBase.t := FdAdapterBase.mk (FdAdapterConfig.mk (addr client) (addr server) 0 0) false.
Definition server_base : FdAdapterBase.t := FdAdapterBase.mk (FdAdapterConfig.mk (addr server) (addr client) 0 0) false.
(** Listening on port 80 of any address. *)
Definition listener : FdAdapterBase.t := FdAdapterBase.mk (FdAdapterConfig.mk (inet 80 0) (inet 0 0) 0 0) true.
Definition syn_segment : TCPSegment.t := TCPSegment.mk (TCPHeader.set_syn true TCPHeader.default_) (Buffer.of_string [Byte.x61]).

Lemma syn_fits : seg_fits syn_segment.
Proof. split; [| vm_compute; reflexivity]. intros sp dp Hsp Hdp. split; cbn; unfold in_bits in *; lia || done. Qed.

Lemma listener_accepts : accepts client server syn_segment listener.
Proof. split; [| by split]. exists 0. split; [unfold in_bits; cbn; lia | done]. Qed.

Lemma tun_delivers_witness :
  exists out seg' b', TCPOverIPv4OverTunFdAdapter.write syn_segment client_base = Ret (addressed_seg client server syn_segment, out) /\
    TCPOverIPv4OverTunFdAdapter.read (BufferList.concatenate out) listener = Ret (Some seg', b') /\
    same_segment (addressed_seg client server syn_segment) seg' /\
    connected server client b' /\ FdAdapterBase.listening b' = false.
Proof. apply tun_delivers; [done | apply syn_fits | apply listener_accepts]. Defined.

Lemma udp_delivers_witness :
  exists out seg' b', TCPOverUDPSocketAdapter.write syn_segment client_base =
      Ret (addressed_seg client server syn_segment, (addr server, out)) /\
    TCPOverUDPSocketAdapter.read (addr client, BufferList.concatenate out) listener = Ret (Some seg', b') /\
    same_segment (addressed_seg client server syn_segment) seg' /\
    FdAdapterBase.destination b' = addr client /\ FdAdapterBase.listening b' = false.
Proof. apply udp_delivers; [done | apply syn_fits | apply listener_accepts]. Defined.

(** The datagram the client's adapter makes of the SYN, as the server
    receives it. *)
Definition syn_datagram : InternetDatagram :=
  match wrap_tcp_in_ip syn_segment client_base with
  | Ret (_, d) => IPv4Datagram.mk (IPv4Datagram.header d)
                    [Buffer.of_string (BufferList.concatenate (IPv4Datagram.payload d))]
  | _ => IPv4Datagram.default_
  end.
Definition syn_received : option TCPSegment.t * FdAdapterBase.t :=
  match unwrap_tcp_in_ip syn_datagram server_base with Ret x => x | _ => (None, server_base) end.

Lemma unwrap_filters_witness :
  exists seg a', unwrap_tcp_in_ip syn_datagram server_base = Ret (Some seg, a') /\
    a' = server_base /\ Address.port (FdAdapterBase.destination a') = Ret (TCPHeader.sport (TCPSegment.header seg)).
Proof.
  assert (Hr : unwrap_tcp_in_ip syn_datagram server_base =
    Ret (Some (default TCPSegment.default_ (fst syn_received)), snd syn_received)) by (vm_compute; reflexivity).
  eexists _, _. split; [exact Hr |].
  destruct (unwrap_filters syn_datagram server_base _ _ Hr) as (_ & _ & _ & Hp & _ & Ha & _).
  split; [exact Ha | exact Hp].
Defined.

(** A generator that always draws 7. *)
Definition seven (g : unit) : Z * unit := (7, g).
Definition lossy_client : LossyFdAdapter.t :=
  LossyFdAdapter.mk tt (FdAdapterBase.mk (FdAdapterConfig.mk (addr client) (addr server) 0 100) false).

Lemma lossy_only_drops_witness :
  exists out, ad_write syn_segment (LossyFdAdapter._adapter lossy_client) = Ret (LossyFdAdapter._adapter lossy_client, [out]) /\
    exists g a' (out' : list BufferList.t), LossyFdAdapter.write seven syn_segment lossy_client = Ret (LossyFdAdapter.mk g a', out') /\
      (out' = [out] \/ out' = []).
Proof.
  eexists. split; [vm_compute; reflexivity |].
  edestruct (lossy_only_drops seven ([] : bytes) syn_segment lossy_client) as [_ (g & a' & out' & Hw & Hout & _)].
  - vm_compute. reflexivity.
  - vm_compute. reflexivity.
  - exists g, a', out'. split; [exact Hw |]. destruct Hout as [[_ ->] | [_ ->]]; [left | right]; reflexivity.
Defined.

Definition client_eth : t := mk client_base host_a (inet 0 0x0a000002).
Definition server_eth : t := mk listener host_b (inet 0 0x0a000001).

Lemma client_eth_inv : eth_inv client_eth.
Proof.
  split; [apply host_a_inv | done | by exists client, server |]. exists 0x0a000002.
  split; [unfold in_bits; cbn; lia | vm_compute; reflexivity].
Qed.

Program Definition anyone (p : Z) (Hp : in_bits 16 p) : endpoint := {| e_ip := 0; e_port := p |}.
Solve All Obligations with (unfold in_bits; cbn; lia).

Lemma server_eth_inv : eth_inv server_eth.
Proof.
  assert (H80 : in_bits 16 80) by (unfold in_bits; lia). assert (H0 : in_bits 16 0) by (unfold in_bits; lia).
  split; [apply host_b_inv | done | by exists (anyone 80 H80), (anyone 0 H0) |]. exists 0x0a000001.
  split; [unfold in_bits; cbn; lia | vm_compute; reflexivity].
Qed.


Lemma ethernet_delivers_witness :
  exists a1 req b1 rep a2 fr b2 seg',
    TCPOverIPv4OverEthernetAdapter.write syn_segment client_eth = Ret (addressed_seg client server syn_segment, a1, [req]) /\
    TCPOverIPv4OverEthernetAdapter.read (BufferList.concatenate req) server_eth = Ret (None, b1, [rep]) /\
    TCPOverIPv4OverEthernetAdapter.read (BufferList.concatenate rep) a1 = Ret (None, a2, [fr]) /\
    TCPOverIPv4OverEthernetAdapter.read (BufferList.concatenate fr) b1 = Ret (Some seg', b2, []) /\
    same_segment (addressed_seg client server syn_segment) seg' /\
    connected server client (base b2) /\ FdAdapterBase.listening (base b2) = false.
Proof.
  apply (ethernet_delivers client server client_eth server_eth 0x0a000001 0x0a000002 syn_segment);
    [apply client_eth_inv | apply server_eth_inv | done | apply listener_accepts | apply syn_fits | vm_compute; reflexivity..].
Defined.

End AdapterFacts.
