(* ===== verification/kernel.v ===== *)
(** * The operating system, as the library uses it

    [Kernel K] lists the system calls the library makes, as operations on a
    kernel state [K]; each returns its value or an error number.  Nothing is
    assumed about them here: the components check or trust their results as
    the code does, and theorems that need documented behaviour name it.
    [SystemCall] (util/util.cc) turns an error into an exception. *)

From S2P Require Import Prelude.

Inductive sysret (A : Type) :=
| SysOk (a : A)
| SysErr (errno : Z).
Arguments SysOk {A} a.
Arguments SysErr {A} errno.

(** One entry of the argument of [poll]: descriptor and requested events. *)
Definition pollfd : Type := Z * Z.

Class Kernel (K : Type) := {
  (** descriptor and size of the buffer: the bytes stored there *)
  sys_read : Z -> Z -> K -> sysret bytes * K;
  (** descriptor and [iovec]s: the number of bytes written *)
  sys_writev : Z -> list (bytes * Z) -> K -> sysret N * K;
  sys_close : Z -> K -> sysret unit * K;
  sys_shutdown : Z -> Z -> K -> sysret unit * K;
  (** [F_GETFL] and [F_SETFL] *)
  sys_getfl : Z -> K -> sysret Z * K;
  sys_setfl : Z -> Z -> K -> sysret unit * K;
  (** the return value, and [revents] of each entry *)
  sys_poll : list pollfd -> Z -> K -> sysret (N * list Z) * K;
  (** descriptor and buffer size, with [MSG_TRUNC]: the return value, the
      bytes stored, the source address and its length *)
  sys_recvfrom : Z -> Z -> K -> sysret (N * bytes * bytes * Z) * K;
  (** destination (if any) and payload: the number of bytes sent *)
  sys_sendmsg : Z -> option (bytes * Z) -> list (bytes * Z) -> K -> sysret N * K;
  (** milliseconds of the steady clock *)
  sys_now : K -> Z * K;
}.

(** [SystemCall(attempt, return_value)], with the default [errno_mask] of 0,
    which no failing call leaves in [errno]. *)
Definition SystemCall {A K : Type} (attempt : string) (r : sysret A * K) : outcome (A * K) :=
  match r with
  | (SysOk a, k) => Ret (a, k)
  | (SysErr e, _) => Raise (unix_error attempt e)
  end.

(** ** What the calls do to the data

    [kin fd] and [kout fd] are the bytes read from and written to [fd] so
    far: [read] returns the next bytes, [writev] takes the bytes of the
    buffers in order, no other call moves any. *)

Class KernelLaws (K : Type) `{Kernel K} := {
  kin : Z -> K -> bytes;
  kout : Z -> K -> bytes;
  read_kin fd n k d k' : sys_read fd n k = (SysOk d, k') -> kin fd k' = kin fd k ++ d;
  read_others fd n k d k' fd' : sys_read fd n k = (SysOk d, k') ->
    (fd' <> fd -> kin fd' k' = kin fd' k) /\ kout fd' k' = kout fd' k;
  writev_kout fd iov k n k' : sys_writev fd iov k = (SysOk n, k') ->
    kout fd k' = kout fd k ++ take (N.to_nat n) (concat (map fst iov));
  writev_others fd iov k n k' fd' : sys_writev fd iov k = (SysOk n, k') ->
    (fd' <> fd -> kout fd' k' = kout fd' k) /\ kin fd' k' = kin fd' k;
  close_quiet fd k r k' fd' : sys_close fd k = (r, k') -> kin fd' k' = kin fd' k /\ kout fd' k' = kout fd' k;
  shutdown_quiet fd how k r k' fd' : sys_shutdown fd how k = (r, k') ->
    kin fd' k' = kin fd' k /\ kout fd' k' = kout fd' k;
  getfl_quiet fd k r k' fd' : sys_getfl fd k = (r, k') -> kin fd' k' = kin fd' k /\ kout fd' k' = kout fd' k;
  setfl_quiet fd flags k r k' fd' : sys_setfl fd flags k = (r, k') -> kin fd' k' = kin fd' k /\ kout fd' k' = kout fd' k;
  poll_quiet fds ms k r k' fd' : sys_poll fds ms k = (r, k') -> kin fd' k' = kin fd' k /\ kout fd' k' = kout fd' k;
  recvfrom_quiet fd n k r k' fd' : sys_recvfrom fd n k = (r, k') ->
    kin fd' k' = kin fd' k /\ kout fd' k' = kout fd' k;
  sendmsg_quiet fd dst iov k r k' fd' : sys_sendmsg fd dst iov k = (r, k') ->
    kin fd' k' = kin fd' k /\ kout fd' k' = kout fd' k;
  now_quiet k t k' fd' : sys_now k = (t, k') -> kin fd' k' = kin fd' k /\ kout fd' k' = kout fd' k;
}.

(** What went wrong is a failing system call, or one that broke its
    documented contract where the code checks it. *)
Definition kernel_fault (e : exn) : Prop :=
  match e with
  | unix_error _ _ => True
  | runtime_error what =>
      what ∈ ["read() read more than requested"; "write returned 0 given non-empty input buffer";
              "write wrote more than length of input buffer"; "recvfrom (oversized datagram)";
              "datagram payload too big for sendmsg()"; "invalid sockaddr size";
              "EventLoop: error on polled file descriptor"]%string
  | _ => False
  end.

(** The outcome is a result with [P], does not end, or is the kernel's fault. *)
Definition safe {A} (P : A -> Prop) (m : outcome A) : Prop :=
  match m with
  | Ret a => P a
  | Raise e => kernel_fault e
  | Diverge => True
  end.

(** The same, and it does end. *)
Definition ends {A} (P : A -> Prop) (m : outcome A) : Prop := safe P m /\ m <> Diverge.

Lemma safe_bind {A B} (P : A -> Prop) (Q : B -> Prop) (m : outcome A) (k : A -> outcome B) :
  safe P m -> (forall a, P a -> safe Q (k a)) -> safe Q (m ≫= k).
Proof. destruct m; cbn; auto. Qed.

Lemma safe_impl {A} (P Q : A -> Prop) (m : outcome A) : safe P m -> (forall a, P a -> Q a) -> safe Q m.
Proof. destruct m; cbn; auto. Qed.

Lemma ends_bind {A B} (P : A -> Prop) (Q : B -> Prop) (m : outcome A) (k : A -> outcome B) :
  ends P m -> (forall a, P a -> ends Q (k a)) -> ends Q (m ≫= k).
Proof. intros [Hs Hd] Hk. destruct m; cbn in *; [by apply Hk | by split | done]. Qed.

Lemma ends_impl {A} (P Q : A -> Prop) (m : outcome A) : ends P m -> (forall a, P a -> Q a) -> ends Q m.
Proof. intros [Hs Hd] H. split; [by eapply safe_impl | done]. Qed.

Lemma ends_and {A} (P Q : A -> Prop) (m : outcome A) :
  ends P m -> (forall a, m = Ret a -> Q a) -> ends (fun a => P a /\ Q a) m.
Proof. intros [Hs Hd] H. split; [| done]. destruct m; cbn in *; auto. Qed.

Lemma ends_Ret {A} (P : A -> Prop) (a : A) : P a -> ends P (Ret a).
Proof. by split. Qed.

Lemma ends_Raise {A} (P : A -> Prop) (e : exn) : kernel_fault e -> ends P (Raise e).
Proof. by split. Qed.

Lemma ends_SystemCall {A K B} (Q : B -> Prop) attempt (r : sysret A * K) (f : A * K -> outcome B) :
  (forall a k, r = (SysOk a, k) -> ends Q (f (a, k))) -> ends Q (SystemCall attempt r ≫= f).
Proof. destruct r as [[a | e] k]; cbn; intros H; [auto | by apply ends_Raise]. Qed.

Lemma SystemCall_Ret {A K} attempt (r : sysret A * K) a k : SystemCall attempt r = Ret (a, k) -> r = (SysOk a, k).
Proof. destruct r as [[|] ?]; cbn; [by intros [= -> ->] | done]. Qed.
