(* ===== verification/file_descriptor.v ===== *)
(** * libsponge/util/file_descriptor: reference-counted descriptors

    A [FileDescriptor] is a handle on a shared [FDWrapper]; duplicates share
    the wrapper, so the model passes the wrapper itself.  The kernel is the
    class of kernel.v; a method takes and returns its state. *)

From stdpp Require Import pretty.
From S2P Require Import Prelude buffer kernel.

Module FDWrapper.

Record t := mk {
  _fd : Z;
  _eof : bool;
  _closed : bool;
  _read_count : Z;    (* unsigned *)
  _write_count : Z;   (* unsigned *)
}.

Definition make (fd : Z) : outcome t :=
  if fd <? 0 then Raise (runtime_error ("invalid fd number:" +:+ pretty fd))
  else Ret (mk fd false false 0 0).

Definition set_eof (w : t) : t := mk (_fd w) true (_closed w) (_read_count w) (_write_count w).

Definition close {K} `{Kernel K} (w : t) (k : K) : outcome (t * K) :=
  '(_, k) ← SystemCall "close" (sys_close (_fd w) k);
  Ret (mk (_fd w) true true (_read_count w) (_write_count w), k).

(** The destructor: an exception is caught and reported. *)
Definition destruct_ {K} `{Kernel K} (w : t) (k : K) : K :=
  if _closed w then k
  else match close w k with Ret (_, k) => k | _ => snd (sys_close (_fd w) k) end.

End FDWrapper.

Module FileDescriptor.

Definition fd_num (w : FDWrapper.t) : Z := FDWrapper._fd w.
Definition eof (w : FDWrapper.t) : bool := FDWrapper._eof w.
Definition closed (w : FDWrapper.t) : bool := FDWrapper._closed w.
Definition read_count (w : FDWrapper.t) : Z := FDWrapper._read_count w.
Definition write_count (w : FDWrapper.t) : Z := FDWrapper._write_count w.

Definition register_read (w : FDWrapper.t) : FDWrapper.t :=
  FDWrapper.mk (fd_num w) (eof w) (closed w) (u32 (read_count w + 1)) (write_count w).
Definition register_write (w : FDWrapper.t) : FDWrapper.t :=
  FDWrapper.mk (fd_num w) (eof w) (closed w) (read_count w) (u32 (write_count w + 1)).

(** [duplicate]: another handle on the same wrapper. *)
Definition duplicate (w : FDWrapper.t) : FDWrapper.t := w.

Definition BUFFER_SIZE : Z := 1024 * 1024.

Section Kernel.
Context {K : Type} `{Kernel K}.

Definition read (limit : Z) (w : FDWrapper.t) (k : K) : outcome (bytes * FDWrapper.t * K) :=
  let size_to_read := Z.min BUFFER_SIZE limit in
  '(data, k) ← SystemCall "read" (sys_read (fd_num w) size_to_read k);
  let w := if (limit >? 0) && (Zlen data =? 0) then FDWrapper.set_eof w else w in
  if Zlen data >? size_to_read then Raise (runtime_error "read() read more than requested")
  else Ret (data, register_read w, k).

(** One round of the loop of [write]: the rest of the buffer and the bytes
    written. *)
Definition write_once (buffer : BufferViewList.t) (w : FDWrapper.t) (k : K) :
    outcome (Z * BufferViewList.t * FDWrapper.t * K) :=
  '(n, k) ← SystemCall "writev" (sys_writev (fd_num w) (BufferViewList.as_iovecs buffer) k);
  let n := Z.of_N n in
  if (n =? 0) && negb (BufferViewList.size buffer =? 0) then
    Raise (runtime_error "write returned 0 given non-empty input buffer")
  else if n >? BufferViewList.size buffer then
    Raise (runtime_error "write wrote more than length of input buffer")
  else
    let w := register_write w in
    buffer ← BufferViewList.remove_prefix n buffer;
    Ret (n, buffer, w, k).

(** [do ... while (write_all and buffer.size())]. *)
Fixpoint write_loop (fuel : nat) (write_all : bool) (buffer : BufferViewList.t) (total_bytes_written : Z)
    (w : FDWrapper.t) (k : K) : outcome (Z * FDWrapper.t * K) :=
  match fuel with
  | O => Diverge
  | S fuel =>
      '(n, buffer, w, k) ← write_once buffer w k;
      let total_bytes_written := u64 (total_bytes_written + n) in
      if write_all && negb (BufferViewList.size buffer =? 0)
      then write_loop fuel write_all buffer total_bytes_written w k
      else Ret (total_bytes_written, w, k)
  end.

(** Every round but the last writes at least one byte. *)
Definition write (buffer : BufferViewList.t) (write_all : bool) (w : FDWrapper.t) (k : K) : outcome (Z * FDWrapper.t * K) :=
  write_loop (S (Z.to_nat (BufferViewList.size buffer))) write_all buffer 0 w k.

Definition close (w : FDWrapper.t) (k : K) : outcome (FDWrapper.t * K) := FDWrapper.close w k.

Definition O_NONBLOCK : Z := 0x800.

Definition set_blocking (blocking_state : bool) (w : FDWrapper.t) (k : K) : outcome K :=
  '(flags, k) ← SystemCall "fcntl" (sys_getfl (fd_num w) k);
  let flags := if blocking_state then Z.lxor flags (Z.land flags O_NONBLOCK) else Z.lor flags O_NONBLOCK in
  '(_, k) ← SystemCall "fcntl" (sys_setfl (fd_num w) flags k);
  Ret k.

End Kernel.

End FileDescriptor.

(** ** What the methods promise *)

Module FileDescriptorFacts.
Import FileDescriptor.

Lemma size_concat (l : BufferViewList.t) : Zlen (concat l) < 2 ^ 64 -> BufferViewList.size l = Zlen (concat l).
Proof.
  unfold BufferViewList.size. intros Hb.
  enough (Hg : forall n, 0 <= n -> n + Zlen (concat l) < 2 ^ 64 ->
    foldl (fun ret buf => u64 (ret + Zlen buf)) n l = n + Zlen (concat l)) by (rewrite Hg; lia).
  clear Hb. induction l as [|b l IH]; intros n Hn Hb; cbn in *; [zlen; lia |].
  zlen. pose proof (Zlen_nonneg b). pose proof (Zlen_nonneg (concat l)).
  rewrite (u64_small (n + Zlen b)) by lia. rewrite IH by lia. lia.
Qed.

Lemma view_remove_prefix n (l : BufferViewList.t) :
  0 <= n <= Zlen (concat l) ->
  exists l', BufferViewList.remove_prefix n l = Ret l' /\ concat l' = drop (Z.to_nat n) (concat l).
Proof.
  revert n. induction l as [|b l IH]; intros n Hn; cbn in *.
  - zlen. assert (n = 0) as -> by lia. by exists [].
  - zlen. destruct (Z.gtb_spec n 0); cycle 1.
    { assert (n = 0) as -> by lia. eexists. by split. }
    case_cmp.
    + eexists. split; [done |]. cbn. rewrite drop_app_le by (unfold Zlen in *; lia). done.
    + destruct (IH (n - Zlen b)) as (l' & -> & Hs); [lia |]. eexists. split; [done |].
      rewrite Hs, drop_app_ge by (unfold Zlen in *; lia). f_equal. unfold Zlen. lia.
Qed.

Lemma iovecs_fst (l : BufferViewList.t) : map fst (BufferViewList.as_iovecs l) = l.
Proof. unfold BufferViewList.as_iovecs. rewrite map_map. cbn. apply map_id. Qed.

(** Same descriptor, open as before. *)
Definition same_fd (w w' : FDWrapper.t) : Prop := fd_num w' = fd_num w /\ closed w' = closed w.

#[export] Instance same_fd_preorder : PreOrder same_fd.
Proof. split; unfold same_fd; [by intros ? | intros x y z [] []; split; congruence]. Qed.

Section Laws.
Context {K : Type} `{KernelLaws K}.

(** Histories agree on every descriptor but [fd]. *)
Definition quiet_but (fd : Z) (k k' : K) : Prop :=
  forall fd', fd' <> fd -> kin fd' k' = kin fd' k /\ kout fd' k' = kout fd' k.

Lemma quiet_trans fd k1 k2 k3 : quiet_but fd k1 k2 -> quiet_but fd k2 k3 -> quiet_but fd k1 k3.
Proof. intros H1 H2 fd' Hn. destruct (H1 fd' Hn), (H2 fd' Hn). split; congruence. Qed.

(** [read] hands over the next bytes, at most [limit]; nothing, when
    something was asked for, is the end of the file. *)
Lemma fd_read_ok limit w k :
  ends (fun '(data, w', k') =>
    sys_read (fd_num w) (Z.min BUFFER_SIZE limit) k = (SysOk data, k') /\ Zlen data <= Z.min BUFFER_SIZE limit /\
    kin (fd_num w) k' = kin (fd_num w) k ++ data /\ kout (fd_num w) k' = kout (fd_num w) k /\
    quiet_but (fd_num w) k k' /\ same_fd w w' /\ write_count w' = write_count w /\
    read_count w' = u32 (read_count w + 1) /\ eof w' = eof w || (limit >? 0) && (Zlen data =? 0))
    (read limit w k).
Proof.
  unfold read. apply ends_SystemCall. intros data k' E. cbv beta iota zeta.
  destruct (Z.gtb_spec (Zlen data) (Z.min BUFFER_SIZE limit)); [apply ends_Raise; cbn; set_solver |].
  apply ends_Ret. cbv beta iota. split_and!; [exact E | lia | exact (read_kin _ _ _ _ _ E) | | | | | |].
  - by destruct (read_others _ _ _ _ _ (fd_num w) E).
  - intros fd' Hn. destruct (read_others _ _ _ _ _ fd' E) as [? ?]. auto.
  - by destruct ((limit >? 0) && (Zlen data =? 0)).
  - by destruct ((limit >? 0) && (Zlen data =? 0)).
  - by destruct ((limit >? 0) && (Zlen data =? 0)).
  - destruct ((limit >? 0) && (Zlen data =? 0)); cbn; [by rewrite orb_true_r | by rewrite orb_false_r].
Qed.

(** What one [writev] took. *)
Definition wrote (data : bytes) (w : FDWrapper.t) (k : K) (w' : FDWrapper.t) (k' : K) : Prop :=
  kout (fd_num w) k' = kout (fd_num w) k ++ data /\ kin (fd_num w) k' = kin (fd_num w) k /\
  quiet_but (fd_num w) k k' /\ same_fd w w' /\ eof w' = eof w /\ read_count w' = read_count w.

Lemma write_once_ok buffer w k :
  Zlen (concat buffer) < 2 ^ 64 ->
  ends (fun '(n, buffer', w', k') =>
    0 <= n <= Zlen (concat buffer) /\ (Zlen (concat buffer) <> 0 -> 0 < n) /\
    concat buffer' = drop (Z.to_nat n) (concat buffer) /\ wrote (take (Z.to_nat n) (concat buffer)) w k w' k' /\
    write_count w' = u32 (write_count w + 1)) (write_once buffer w k).
Proof.
  intros Hb. unfold write_once. apply ends_SystemCall. intros n k' E. cbv beta iota zeta. rewrite !(size_concat _ Hb).
  destruct (Z.eqb_spec (Z.of_N n) 0) as [Hn|Hn], (Z.eqb_spec (Zlen (concat buffer)) 0) as [Hz|Hz];
    cbn [andb negb]; try (apply ends_Raise; cbn; set_solver);
    (destruct (Z.gtb_spec (Z.of_N n) (Zlen (concat buffer))); [apply ends_Raise; cbn; set_solver |]);
    (destruct (view_remove_prefix (Z.of_N n) buffer) as (b' & -> & Hb'); [lia |]);
    cbn [mbind outcome_bind]; apply ends_Ret; cbv beta iota;
    (split_and!; [lia | lia | lia | exact Hb' | | reflexivity]);
    (pose proof (writev_kout _ _ _ _ _ E) as Ho; rewrite iovecs_fst in Ho;
     replace (Z.to_nat (Z.of_N n)) with (N.to_nat n) by lia);
    (split_and!; [exact Ho | by destruct (writev_others _ _ _ _ _ (fd_num w) E) | | done | done | done]);
    intros fd' Hne; destruct (writev_others _ _ _ _ _ fd' E) as [? ?]; auto.
Qed.

Lemma wrote_trans d1 d2 w1 k1 w2 k2 w3 k3 :
  wrote d1 w1 k1 w2 k2 -> wrote d2 w2 k2 w3 k3 -> wrote (d1 ++ d2) w1 k1 w3 k3.
Proof.
  intros (H1 & H2 & H3 & H4 & H5 & H6) (G1 & G2 & G3 & G4 & G5 & G6). pose proof H4 as [E _].
  rewrite E in G1, G2, G3. unfold wrote. split_and!; try congruence.
  - by rewrite G1, H1, app_assoc.
  - by eapply quiet_trans.
  - by etransitivity.
Qed.

Lemma write_loop_ok fuel buffer total w k :
  (Z.to_nat (Zlen (concat buffer)) < fuel)%nat -> 0 <= total -> total + Zlen (concat buffer) < 2 ^ 64 ->
  ends (fun '(n, w', k') => n = total + Zlen (concat buffer) /\ wrote (concat buffer) w k w' k')
    (write_loop fuel true buffer total w k).
Proof.
  revert buffer total w k. induction fuel as [|fuel IH]; intros buffer total w k Hf Ht Hb; [lia |].
  cbn [write_loop]. eapply ends_bind; [apply write_once_ok; lia |].
  intros [[[n b'] w'] k'] (Hn & Hpos & Hb' & Hw & _). rewrite u64_small by lia.
  assert (Hl : Zlen (concat b') = Zlen (concat buffer) - n) by (rewrite Hb'; zlen; lia).
  rewrite size_concat by lia. cbn [andb]. case_cmp; cbn [negb].
  - apply ends_Ret. split; [lia |]. rewrite <- (take_drop (Z.to_nat n) (concat buffer)).
    rewrite <- Hb'. destruct (concat b') as [|x l]; [by rewrite app_nil_r |]. rewrite Zlen_cons in e. pose proof (Zlen_nonneg l). lia.
  - eapply ends_impl; [apply IH; lia |]. intros [[m w''] k''] (-> & Hw'). split; [lia |].
    pose proof (wrote_trans _ _ _ _ _ _ _ _ Hw Hw') as Hr. by rewrite Hb', take_drop in Hr.
Qed.

End Laws.

(** C22: [write] with [write_all] returns, and then the descriptor has received
    the whole buffer in order, however the kernel split it. *)
Theorem write_all_writes_all {K} `{KernelLaws K} (buffer : BufferViewList.t) (w : FDWrapper.t) (k : K) :
  Zlen (concat buffer) < 2 ^ 64 ->
  ends (fun '(n, w', k') => n = Zlen (concat buffer) /\ wrote (concat buffer) w k w' k') (write buffer true w k).
Proof.
  intros Hb. unfold write. rewrite (size_concat _ Hb). eapply ends_impl; [apply write_loop_ok; lia |].
  intros [[n w'] k'] [-> ?]. by split.
Qed.

Section Laws.
Context {K : Type} `{KernelLaws K}.

(** Without it, a prefix has been written, of at least one byte. *)
Lemma write_some_ok buffer w k :
  Zlen (concat buffer) < 2 ^ 64 ->
  ends (fun '(n, w', k') => 0 <= n <= Zlen (concat buffer) /\ (Zlen (concat buffer) <> 0 -> 0 < n) /\
    wrote (take (Z.to_nat n) (concat buffer)) w k w' k' /\ write_count w' = u32 (write_count w + 1))
    (write buffer false w k).
Proof.
  intros Hb. unfold write. cbn [write_loop]. eapply ends_bind; [by apply write_once_ok |].
  intros [[[n b'] w'] k'] (Hn & Hpos & _ & Hw & Hc). cbn [andb]. apply ends_Ret. rewrite u64_small by lia.
  split_and!; (lia || done).
Qed.

(** What every [writev] on the descriptor keeps, [write] keeps. *)
Lemma write_loop_keeps (P : K -> Prop) fuel all buffer total w k n w' k' :
  (forall iov k n k', P k -> sys_writev (fd_num w) iov k = (SysOk n, k') -> P k') ->
  P k -> write_loop fuel all buffer total w k = Ret (n, w', k') -> P k'.
Proof.
  intros HP. revert buffer total w k HP. induction fuel as [|fuel IH]; intros buffer total w k HP Hk; [done |].
  cbn [write_loop]. unfold write_once. intros ([[[m b] w1] k1] & Ho & Hr)%bind_Ret.
  apply bind_Ret in Ho as ([x k2] & Hs%SystemCall_Ret & Ho). apply (HP _ _ _ _ Hk) in Hs.
  destruct (_ && _); [done |]. destruct (_ >? _); [done |]. apply bind_Ret in Ho as (b' & _ & [= <- <- <- <-]).
  destruct (_ && _); [by eapply IH in Hr | by injection Hr as <- <- <-].
Qed.

End Laws.

End FileDescriptorFacts.
