(* ===== verification/socket.v ===== *)
(** * libsponge/util/socket and libsponge/util/tun

    Sockets and TUN/TAP devices are file descriptors with more calls; a
    method that reads or writes counts it in the shared wrapper, which is
    what the event loop watches. *)

From S2P Require Import Prelude buffer address kernel file_descriptor.

(** The calls that create and configure sockets and devices; a descriptor is
    a non-negative number, and [getsockopt] stores an [int] and its length. *)
Class SocketKernel (K : Type) := {
  sys_socket : Z -> Z -> K -> sysret N * K;
  sys_socketpair : Z -> Z -> K -> sysret (N * N) * K;
  sys_getsockopt : Z -> Z -> Z -> K -> sysret (Z * Z) * K;
  sys_setsockopt : Z -> Z -> Z -> Z -> K -> sysret unit * K;
  sys_getsockname : Z -> Z -> K -> sysret (bytes * Z) * K;
  sys_getpeername : Z -> Z -> K -> sysret (bytes * Z) * K;
  sys_bind : Z -> bytes -> Z -> K -> sysret unit * K;
  sys_connect : Z -> bytes -> Z -> K -> sysret unit * K;
  sys_listen : Z -> Z -> K -> sysret unit * K;
  sys_accept : Z -> K -> sysret N * K;
  sys_open : string -> Z -> K -> sysret N * K;
  (** [TUNSETIFF] with the name and the flags of the request *)
  sys_tunsetiff : Z -> bytes -> Z -> K -> sysret unit * K;
}.

Module Socket.

Definition SHUT_RD : Z := 0.
Definition SHUT_WR : Z := 1.
Definition SHUT_RDWR : Z := 2.
Definition SOL_SOCKET : Z := 1.
Definition SO_REUSEADDR : Z := 2.
Definition SO_TYPE : Z := 3.
Definition SO_DOMAIN : Z := 39.
Definition AF_UNIX : Z := 1.
Definition SOCK_STREAM : Z := 1.
Definition SOCK_DGRAM : Z := 2.

Section Kernel.
Context {K : Type} `{Kernel K} `{SocketKernel K}.

Definition make (domain type : Z) (k : K) : outcome (FDWrapper.t * K) :=
  '(fd, k) ← SystemCall "socket" (sys_socket domain type k);
  w ← FDWrapper.make (Z.of_N fd);
  Ret (w, k).

(** One of the two checks of the constructor from a descriptor. *)
Definition verify (option actual : Z) (what : string) (w : FDWrapper.t) (k : K) : outcome K :=
  '((actual_value, len), k) ← SystemCall "getsockopt" (sys_getsockopt (FileDescriptor.fd_num w) SOL_SOCKET option k);
  if negb (len =? 4) || negb (actual_value =? actual) then Raise (runtime_error what) else Ret k.

Definition of_fd (w : FDWrapper.t) (domain type : Z) (k : K) : outcome K :=
  k ← verify SO_DOMAIN domain "socket domain mismatch" w k;
  verify SO_TYPE type "socket type mismatch" w k.

(** [size] starts as the size of the storage. *)
Definition get_address (name_of_function : string) (function : Z -> Z -> K -> sysret (bytes * Z) * K)
    (w : FDWrapper.t) (k : K) : outcome (Address.t * K) :=
  '((address, size), k) ← SystemCall name_of_function (function (FileDescriptor.fd_num w) Address.sizeof_storage k);
  a ← Address.of_sockaddr address size;
  Ret (a, k).

Definition local_address : FDWrapper.t -> K -> outcome (Address.t * K) := get_address "getsockname" sys_getsockname.
Definition peer_address : FDWrapper.t -> K -> outcome (Address.t * K) := get_address "getpeername" sys_getpeername.

Definition bind (address : Address.t) (w : FDWrapper.t) (k : K) : outcome K :=
  '(_, k) ← SystemCall "bind" (sys_bind (FileDescriptor.fd_num w) (Address._address address) (Address._size address) k);
  Ret k.

Definition connect (address : Address.t) (w : FDWrapper.t) (k : K) : outcome K :=
  '(_, k) ← SystemCall "connect"
              (sys_connect (FileDescriptor.fd_num w) (Address._address address) (Address._size address) k);
  Ret k.

Definition shutdown (how : Z) (w : FDWrapper.t) (k : K) : outcome (FDWrapper.t * K) :=
  '(_, k) ← SystemCall "shutdown" (sys_shutdown (FileDescriptor.fd_num w) how k);
  if how =? SHUT_RD then Ret (FileDescriptor.register_read w, k)
  else if how =? SHUT_WR then Ret (FileDescriptor.register_write w, k)
  else if how =? SHUT_RDWR then Ret (FileDescriptor.register_write (FileDescriptor.register_read w), k)
  else Raise (runtime_error "Socket::shutdown() called with invalid `how`").

Definition setsockopt (level option option_value : Z) (w : FDWrapper.t) (k : K) : outcome K :=
  '(_, k) ← SystemCall "setsockopt" (sys_setsockopt (FileDescriptor.fd_num w) level option option_value k);
  Ret k.

Definition set_reuseaddr : FDWrapper.t -> K -> outcome K := setsockopt SOL_SOCKET SO_REUSEADDR 1.

End Kernel.

End Socket.

Module UDPSocket.

Section Kernel.
Context {K : Type} `{Kernel K} `{SocketKernel K}.

Definition make : K -> outcome (FDWrapper.t * K) := Socket.make Address.AF_INET Socket.SOCK_DGRAM.
Definition of_fd (w : FDWrapper.t) : K -> outcome K := Socket.of_fd w Address.AF_INET Socket.SOCK_DGRAM.

(** The payload was resized to [mtu] and is resized to what arrived. *)
Definition recv (mtu : Z) (w : FDWrapper.t) (k : K) : outcome (Address.t * bytes * FDWrapper.t * K) :=
  '((recv_len, stored, from, fromlen), k) ← SystemCall "recvfrom" (sys_recvfrom (FileDescriptor.fd_num w) mtu k);
  let recv_len := Z.of_N recv_len in
  if recv_len >? mtu then Raise (runtime_error "recvfrom (oversized datagram)")
  else
    let w := FileDescriptor.register_read w in
    source_address ← Address.of_sockaddr from fromlen;
    Ret (source_address, resize (resize stored mtu) recv_len, w, k).

Definition sendmsg_helper (fd_num : Z) (destination : option (bytes * Z)) (payload : BufferViewList.t) (k : K) : outcome K :=
  let iovecs := BufferViewList.as_iovecs payload in
  '(bytes_sent, k) ← SystemCall "sendmsg" (sys_sendmsg fd_num destination iovecs k);
  if negb (Z.of_N bytes_sent =? BufferViewList.size payload)
  then Raise (runtime_error "datagram payload too big for sendmsg()") else Ret k.

Definition sendto (destination : Address.t) (payload : BufferViewList.t) (w : FDWrapper.t) (k : K) : outcome (FDWrapper.t * K) :=
  k ← sendmsg_helper (FileDescriptor.fd_num w) (Some (Address._address destination, Address._size destination)) payload k;
  Ret (FileDescriptor.register_write w, k).

Definition send (payload : BufferViewList.t) (w : FDWrapper.t) (k : K) : outcome (FDWrapper.t * K) :=
  k ← sendmsg_helper (FileDescriptor.fd_num w) None payload k;
  Ret (FileDescriptor.register_write w, k).

End Kernel.

End UDPSocket.

Module TCPSocket.

Section Kernel.
Context {K : Type} `{Kernel K} `{SocketKernel K}.

Definition make : K -> outcome (FDWrapper.t * K) := Socket.make Address.AF_INET Socket.SOCK_STREAM.
Definition of_fd (w : FDWrapper.t) : K -> outcome K := Socket.of_fd w Address.AF_INET Socket.SOCK_STREAM.

Definition listen (backlog : Z) (w : FDWrapper.t) (k : K) : outcome K :=
  '(_, k) ← SystemCall "listen" (sys_listen (FileDescriptor.fd_num w) backlog k); Ret k.

(** The listening socket's wrapper and the accepted one's. *)
Definition accept (w : FDWrapper.t) (k : K) : outcome (FDWrapper.t * FDWrapper.t * K) :=
  let w := FileDescriptor.register_read w in
  '(fd, k) ← SystemCall "accept" (sys_accept (FileDescriptor.fd_num w) k);
  w' ← FDWrapper.make (Z.of_N fd);
  k ← of_fd w' k;
  Ret (w, w', k).

End Kernel.

End TCPSocket.

Module TunTapFD.

Definition O_RDWR : Z := 2.
Definition IFF_TUN : Z := 1.
Definition IFF_TAP : Z := 2.
Definition IFF_NO_PI : Z := 0x1000.
Definition IFNAMSIZ : Z := 16.

(** [strncpy]: up to the first NUL, padded with NULs. *)
Fixpoint strncpy (src : bytes) (n : nat) : bytes :=
  match n, src with
  | O, _ => []
  | S n, c :: src => if bool_decide (c = Byte.x00) then replicate (S n) Byte.x00 else c :: strncpy src n
  | S n, [] => replicate (S n) Byte.x00
  end.

Definition make {K} `{SocketKernel K} (devname : bytes) (is_tun : bool) (k : K) : outcome (FDWrapper.t * K) :=
  '(fd, k) ← SystemCall "open" (sys_open "/dev/net/tun" O_RDWR k);
  w ← FDWrapper.make (Z.of_N fd);
  let ifr_flags := Z.lor (if is_tun then IFF_TUN else IFF_TAP) IFF_NO_PI in
  let ifr_name := strncpy devname (Z.to_nat (IFNAMSIZ - 1)) ++ [Byte.x00] in
  '(_, k) ← SystemCall "ioctl" (sys_tunsetiff (FileDescriptor.fd_num w) ifr_name ifr_flags k);
  Ret (w, k).

End TunTapFD.

Module SocketFacts.
Import FileDescriptorFacts.

(** Shutting down the writing side counts as a write. *)
Lemma shutdown_writes {K} `{Kernel K} how w (k : K) :
  (how =? Socket.SHUT_WR) || (how =? Socket.SHUT_RDWR) = true ->
  ends (fun '(w', k') => (exists u, sys_shutdown (FileDescriptor.fd_num w) how k = (SysOk u, k')) /\ same_fd w w' /\
    FileDescriptor.eof w' = FileDescriptor.eof w /\
    FileDescriptor.write_count w' = u32 (FileDescriptor.write_count w + 1)) (Socket.shutdown how w k).
Proof.
  intros Hh. unfold Socket.shutdown. apply ends_SystemCall. intros u k' Hs.
  apply orb_true_iff in Hh as [->%Z.eqb_eq | ->%Z.eqb_eq]; apply ends_Ret; (split; [by exists u | by split_and!]).
Qed.

End SocketFacts.
