(* ===== verification/eventloop.v ===== *)
(** * libsponge/util/eventloop: waiting for events on file descriptors

    The rules of a loop share a state [S]: the descriptors they poll, the
    kernel and whatever their callbacks use.  A callback may fail; so may an
    [interest] function, when it reads through an empty [optional]. *)

From S2P Require Import Prelude kernel file_descriptor.

(** The kernel inside a bigger state. *)
Class HasKernel (S K : Type) := {
  kern : S -> K;
  set_kern : K -> S -> S;
}.

Module EventLoop.

Inductive Direction := In | Out.

#[global] Instance direction_eq_decision : EqDecision Direction.
Proof. solve_decision. Defined.

Definition POLLIN : Z := 0x001.
Definition POLLOUT : Z := 0x004.
Definition POLLERR : Z := 0x008.
Definition POLLHUP : Z := 0x010.
Definition POLLNVAL : Z := 0x020.
Definition EINTR : Z := 4.

(** The enumerators are the events. *)
Definition events_of (d : Direction) : Z :=
  match d with In => POLLIN | Out => POLLOUT end.

Inductive Result := Success | Timeout | Exit.

Section Loop.
Context {S K : Type} `{Kernel K} `{HasKernel S K}.

Record Rule := {
  fd : S -> FDWrapper.t;
  direction : Direction;
  callback : S -> outcome S;
  interest : S -> outcome bool;
  cancel : S -> outcome S;
}.

(** [_rules]. *)
Definition t := list Rule.

Definition service_count (r : Rule) (s : S) : Z :=
  match direction r with
  | In => FileDescriptor.read_count (fd r s)
  | Out => FileDescriptor.write_count (fd r s)
  end.

Definition add_rule (r : Rule) (l : t) : t := l ++ [r].

(** The default [cancel]. *)
Definition no_cancel (s : S) : outcome S := Ret s.

(** The first loop: the rules kept, their [pollfd]s, and whether one of them
    is interested. *)
Fixpoint set_up (l : t) (s : S) : outcome (t * list pollfd * bool * S) :=
  match l with
  | [] => Ret ([], [], false, s)
  | r :: l =>
      if bool_decide (direction r = In) && FileDescriptor.eof (fd r s) then
        s ← cancel r s; set_up l s
      else if FileDescriptor.closed (fd r s) then
        s ← cancel r s; set_up l s
      else
        i ← interest r s;
        let p := (FileDescriptor.fd_num (fd r s), if (i : bool) then events_of (direction r) else 0) in
        '(kept, pollfds, something_to_poll, s) ← set_up l s;
        Ret (r :: kept, p :: pollfds, i || something_to_poll, s)
  end.

(** [static_cast<bool>(a & b)]. *)
Definition any (a b : Z) : bool := negb (Z.land a b =? 0).

Definition busy_wait : exn :=
  runtime_error "EventLoop: busy wait detected: callback did not read/write fd and is still interested".

(** The second loop, over the rules, their [events] and their [revents]. *)
Fixpoint dispatch (l : t) (pollfds : list pollfd) (revents : list Z) (s : S) : outcome (t * S) :=
  match l with
  | [] => Ret ([], s)
  | r :: l =>
      let events := snd (hd (0, 0) pollfds) in
      let rev := hd 0 revents in
      if any rev (Z.lor POLLERR POLLNVAL) then Raise (runtime_error "EventLoop: error on polled file descriptor")
      else
        let poll_ready := any rev events in
        let poll_hup := any rev POLLHUP in
        if poll_hup && negb (events =? 0) && negb poll_ready then
          s ← cancel r s; dispatch l (tl pollfds) (tl revents) s
        else
          s ← (if poll_ready then
                 let count_before := service_count r s in
                 s ← callback r s;
                 if count_before =? service_count r s then
                   i ← interest r s;
                   if (i : bool) then Raise busy_wait else Ret s
                 else Ret s
               else Ret s);
          '(kept, s) ← dispatch l (tl pollfds) (tl revents) s;
          Ret (r :: kept, s)
  end.

(** A failing [poll] leaves the [revents] at zero; it is reported only when
    it was interrupted. *)
Definition wait_next_event (timeout_ms : Z) (l : t) (s : S) : outcome (Result * t * S) :=
  '(l, pollfds, something_to_poll, s) ← set_up l s;
  if negb something_to_poll then Ret (Exit, l, s)
  else
    let '(ret, k) := sys_poll pollfds timeout_ms (kern s) in
    let s := set_kern k s in
    match ret with
    | SysOk (0%N, _) => Ret (Timeout, l, s)
    | SysErr e =>
        if e =? EINTR then Ret (Exit, l, s)
        else '(l, s) ← dispatch l pollfds (replicate (length pollfds) 0) s; Ret (Success, l, s)
    | SysOk (_, revents) => '(l, s) ← dispatch l pollfds revents s; Ret (Success, l, s)
    end.

End Loop.
Arguments Rule : clear implicits.
Arguments t : clear implicits.

End EventLoop.

(** ** The contract between the loop and its rules *)

Module EventLoopFacts.
Import EventLoop.

(** A 32-bit counter that is bumped shows it. *)
Lemma u32_shift_neq x n : 0 < n < 2 ^ 32 -> u32 (x + n) <> x.
Proof.
  unfold u32. intros Hn E. assert (Hx : 0 <= x < 2 ^ 32) by (rewrite <- E; apply Z.mod_pos_bound; lia).
  destruct (Z.lt_ge_cases (x + n) (2 ^ 32)); [rewrite Z.mod_small in E; lia |].
  replace (x + n) with (x + n - 2 ^ 32 + 1 * 2 ^ 32) in E by lia. rewrite Z.mod_add, Z.mod_small in E; lia.
Qed.

Lemma u32_succ_neq x : u32 (x + 1) <> x.
Proof. apply u32_shift_neq. lia. Qed.

Lemma u32_succ2_neq x : u32 (u32 (x + 1) + 1) <> x.
Proof.
  pose proof (u32_shift_neq x 2). unfold u32 in *. rewrite Z.add_mod_idemp_l by lia. rewrite <- Z.add_assoc. auto with lia.
Qed.

Lemma Forall_sublist {A} (P : A -> Prop) l l' : Forall P l -> l' `sublist_of` l -> Forall P l'.
Proof.
  rewrite !Forall_forall. intros H Hs x Hx. apply H.
  by eapply elem_of_submseteq; [| apply sublist_submseteq].
Qed.

Section Contract.
Context {S K : Type} `{Kernel K} `{HasKernel S K}.
(** An invariant of the shared state, an order in which every step moves it
    forward, and what is known once nothing more can happen on the
    descriptor of a rule. *)
Context (Inv : S -> Prop) (later : S -> S -> Prop) `{!PreOrder later} (gone : Rule S -> S -> Prop).

(** [rev] reports that the descriptor hung up, and nothing that was asked. *)
Definition hung_up (events rev : Z) : Prop :=
  any rev POLLHUP = true /\ events <> 0 /\ any rev events = false.

(** The callback keeps the invariant, and reads or writes the descriptor or
    loses interest; a rule is cancelled only when its descriptor is gone. *)
Record rule_ok (r : Rule S) : Prop := {
  ro_interest s : Inv s -> exists b, interest r s = Ret b;
  ro_callback s : Inv s -> ends (fun s' => Inv s' /\ later s s' /\
    (service_count r s' <> service_count r s \/ interest r s' = Ret false)) (callback r s);
  ro_cancel s : Inv s -> gone r s -> ends (fun s' => Inv s' /\ later s s') (cancel r s);
  ro_gone s s' : later s s' -> gone r s -> gone r s';
  ro_fd s s' : later s s' -> FileDescriptor.fd_num (fd r s') = FileDescriptor.fd_num (fd r s);
  ro_eof s : Inv s -> direction r = In -> FileDescriptor.eof (fd r s) = true -> gone r s;
  ro_closed s : Inv s -> FileDescriptor.closed (fd r s) = true -> gone r s;
  ro_hup s fds ms n revents k i e rev : Inv s -> sys_poll fds ms (kern s) = (SysOk (n, revents), k) ->
    fds !! i = Some (FileDescriptor.fd_num (fd r s), e) -> e = events_of (direction r) ->
    revents !! i = Some rev -> hung_up e rev -> gone r (set_kern k s);
}.

(** Waiting disturbs nothing. *)
Definition poll_ok : Prop := forall s fds ms ret k,
  Inv s -> sys_poll fds ms (kern s) = (ret, k) -> Inv (set_kern k s) /\ later s (set_kern k s).

(** The [pollfd] that [set_up] makes for a rule. *)
Definition entry (s : S) (r : Rule S) (p : pollfd) : Prop :=
  fst p = FileDescriptor.fd_num (fd r s) /\ (snd p = 0 \/ snd p = events_of (direction r)).

Lemma entry_later s s' l fds :
  Forall rule_ok l -> later s s' -> Forall2 (entry s) l fds -> Forall2 (entry s') l fds.
Proof.
  intros Hl Hs. induction 1 as [|r p l fds [Hp Hq] Hf IH]; inversion Hl; subst; constructor; [| auto].
  split; [| done]. by erewrite ro_fd.
Qed.

Lemma ends_cancel {B} r s (Q : B -> Prop) (f : S -> outcome B) :
  rule_ok r -> Inv s -> gone r s -> (forall s', Inv s' -> later s s' -> ends Q (f s')) -> ends Q (cancel r s ≫= f).
Proof. intros Hr Hi Hg Hf. eapply ends_bind; [by apply ro_cancel |]. intros s' [Hi' Hl]. auto. Qed.

Lemma set_up_ok l s :
  Inv s -> Forall rule_ok l ->
  ends (fun '(l', fds, _, s') => Inv s' /\ later s s' /\ l' `sublist_of` l /\ Forall2 (entry s') l' fds) (set_up l s).
Proof.
  revert s. induction l as [|r l IH]; intros s Hi Hl; cbn [set_up].
  { apply ends_Ret. split_and!; [done | done | done | constructor]. }
  inversion Hl as [|? ? Hr Hl']; subst. clear Hl.
  assert (Hgone : gone r s -> ends (fun '(l', fds, _, s') => Inv s' /\ later s s' /\ l' `sublist_of` r :: l /\
      Forall2 (entry s') l' fds) (s ← cancel r s; set_up l s)).
  { intros Hg. apply ends_cancel; [done | done | done |]. intros s' Hi' Hlt.
    eapply ends_impl; [by apply IH |]. intros [[[l' fds] b] s''] (? & ? & ? & ?).
    split_and!; [done | by etransitivity | by constructor | done]. }
  destruct (bool_decide (direction r = In) && FileDescriptor.eof (fd r s)) eqn:Ee.
  { apply andb_true_iff in Ee as [Hd%bool_decide_eq_true Ee]. apply Hgone. by apply ro_eof. }
  destruct (FileDescriptor.closed (fd r s)) eqn:Ec; [apply Hgone; by apply ro_closed |].
  destruct (ro_interest r Hr s Hi) as [b ->]. cbn [mbind outcome_bind].
  eapply ends_bind; [by apply IH |]. intros [[[l' fds] b'] s'] (Hi' & Hlt & Hsub & Hf). apply ends_Ret.
  split_and!; [done | done | by constructor |]. constructor; [| done].
  split; [symmetry; by apply ro_fd | cbn; destruct b; auto].
Qed.

(** The part of a round that calls the callback. *)
Lemma service_ok r s (ready : bool) :
  rule_ok r -> Inv s ->
  ends (fun s' => Inv s' /\ later s s')
    (if ready then
       s' ← callback r s;
       if service_count r s =? service_count r s' then
         i ← interest r s'; if (i : bool) then Raise busy_wait else Ret s'
       else Ret s'
     else Ret s).
Proof.
  intros Hr Hi. destruct ready; [| by apply ends_Ret].
  eapply ends_bind; [by apply ro_callback |]. intros s' (Hi' & Hlt & Hp).
  destruct (Z.eqb_spec (service_count r s) (service_count r s')) as [E|]; [| by apply ends_Ret].
  destruct Hp as [? | ->]; [congruence |]. by apply ends_Ret.
Qed.

Lemma dispatch_ok l fds revents s :
  Inv s -> Forall rule_ok l -> Forall2 (entry s) l fds ->
  (forall i r e rev, l !! i = Some r -> fds !! i = Some (FileDescriptor.fd_num (fd r s), e) ->
     revents !! i = Some rev -> hung_up e rev -> gone r s) ->
  ends (fun '(l', s') => Inv s' /\ later s s' /\ l' `sublist_of` l) (dispatch l fds revents s).
Proof.
  revert fds revents s. induction l as [|r l IH]; intros fds revents s Hi Hl Hf Hg.
  { apply ends_Ret. by split_and!. }
  inversion Hl as [|? ? Hr Hl']; subst. inversion Hf as [|? p ? fds' [Hp _] Hf']; subst. cbn [dispatch hd tl].
  assert (Hrest : forall s', later s s' -> forall i r' e rev, l !! i = Some r' ->
      fds' !! i = Some (FileDescriptor.fd_num (fd r' s'), e) -> tl revents !! i = Some rev -> hung_up e rev -> gone r' s').
  { intros s' Hlt i r' e rev H1 H2 H3 H4. pose proof (proj1 (Forall_lookup rule_ok l) Hl' _ _ H1) as Hr'.
    rewrite (ro_fd _ Hr' s s' Hlt) in H2. apply (ro_gone _ Hr' s s' Hlt).
    apply (Hg (Datatypes.S i) r' e rev H1 H2); [| done]. by destruct revents. }
  destruct (any (hd 0 revents) (Z.lor POLLERR POLLNVAL)); [apply ends_Raise; cbn; set_solver |].
  destruct (_ && negb (any (hd 0 revents) (snd p))) eqn:Ehup.
  - apply andb_true_iff in Ehup as [[H1 H2]%andb_true_iff H3].
    apply negb_true_iff in H2, H3. apply Z.eqb_neq in H2.
    apply ends_cancel; [done | done | |].
    { destruct revents as [|rev revents]; [done |]. apply (Hg 0%nat r (snd p) rev); [done | | done | done].
      cbn. by rewrite <- Hp, <- surjective_pairing. }
    intros s' Hi' Hlt. eapply ends_impl; [apply IH; [done | done | by eapply entry_later | by apply Hrest] |].
    intros [l' s''] (? & ? & ?). split_and!; [done | by etransitivity | by constructor].
  - eapply ends_bind; [by apply service_ok |]. intros s' [Hi' Hlt].
    eapply ends_bind; [apply IH; [done | done | by eapply entry_later | by apply Hrest] |].
    intros [l' s''] (? & ? & ?). apply ends_Ret. split_and!; [done | by etransitivity | by constructor].
Qed.

(** The loop's promise to its clients. *)
Definition waits (timeout_ms : Z) (l : EventLoop.t S) (s : S) : Prop :=
  ends (fun '(_, l', s') => Inv s' /\ later s s' /\ l' `sublist_of` l) (wait_next_event timeout_ms l s).

Lemma wait_next_event_ok timeout_ms l s :
  poll_ok -> Inv s -> Forall rule_ok l -> waits timeout_ms l s.
Proof.
  intros Hpoll Hi Hl. unfold waits, wait_next_event.
  eapply ends_bind; [by apply set_up_ok |]. intros [[[l' fds] b] s'] (Hi' & Hlt & Hsub & Hf).
  destruct b; cbn [negb]; [| by apply ends_Ret].
  destruct (sys_poll fds timeout_ms (kern s')) as [ret k] eqn:Ep.
  destruct (Hpoll _ _ _ _ _ Hi' Ep) as [Hi2 Hlt2].
  assert (Hl' : Forall rule_ok l') by (by eapply Forall_sublist).
  pose proof (entry_later _ _ _ _ Hl' Hlt2 Hf) as Hf2.
  assert (Hd : forall revents, (forall i r e rev, l' !! i = Some r -> fds !! i = Some (FileDescriptor.fd_num (fd r (set_kern k s')), e) ->
     revents !! i = Some rev -> hung_up e rev -> gone r (set_kern k s')) ->
     ends (fun '(_, l0, s0) => Inv s0 /\ later s s0 /\ l0 `sublist_of` l)
       ('(l, s) ← dispatch l' fds revents (set_kern k s'); Ret (Success, l, s))).
  { intros revents Hh. eapply ends_bind; [by apply dispatch_ok |]. intros [l2 s2] (? & ? & ?). apply ends_Ret.
    split_and!; [done | by do 2 (etransitivity; [done |]) | by etransitivity]. }
  assert (Hquit : forall res : Result, ends (fun '(_, l0, s0) => Inv s0 /\ later s s0 /\ l0 `sublist_of` l)
    (Ret (res, l', set_kern k s'))) by (intros; apply ends_Ret; split_and!; [done | by etransitivity | done]).
  destruct ret as [[n revents] | e].
  - destruct n as [|n]; [apply Hquit |]. apply Hd. intros i r e rev H1 H2 H3 H4.
    pose proof (proj1 (Forall_lookup rule_ok l') Hl' _ _ H1) as Hr.
    destruct (Forall2_lookup_l _ _ _ _ _ Hf2 H1) as (p & Hp & Hp1 & Hp2).
    pose proof (eq_trans (eq_sym Hp) H2) as [= ->]. cbn [fst snd] in Hp2.
    rewrite (ro_fd _ Hr _ _ Hlt2) in Hp. destruct H4 as (? & ? & ?).
    eapply (ro_hup _ Hr s' fds); [done | done | exact Hp | by destruct Hp2 | done | done].
  - destruct (e =? EINTR); [apply Hquit |]. apply Hd. intros i r e' rev H1 H2 H3 (H4 & _).
    apply lookup_replicate in H3 as [-> _]. done.
Qed.

End Contract.

(** C21: the contract of the event loop.  If every rule keeps the invariant and
    reads, writes or loses interest whenever it is called, then one round of
    the loop ends, keeps the invariant, only drops rules, and throws nothing
    of its own: in particular no busy wait is ever detected. *)
Theorem event_loop_contract {S K : Type} `{Kernel K} `{HasKernel S K} (Inv : S -> Prop) (later : S -> S -> Prop)
    `{!PreOrder later} (gone : Rule S -> S -> Prop) (timeout_ms : Z) (l : EventLoop.t S) (s : S) :
  poll_ok Inv later -> Inv s -> Forall (rule_ok Inv later gone) l ->
  ends (fun '(_, l', s') => Inv s' /\ later s s' /\ l' `sublist_of` l) (wait_next_event timeout_ms l s).
Proof. intros Hp Hi Hl. exact (wait_next_event_ok Inv later gone timeout_ms l s Hp Hi Hl). Qed.

(** A rule that is called and neither uses its descriptor nor loses
    interest is caught. *)
Theorem busy_wait_caught {S : Type} (r : Rule S) (l : EventLoop.t S) (fds : list pollfd) (revents : list Z)
    (p : pollfd) (rev : Z) (s s' : S) :
  any rev (Z.lor POLLERR POLLNVAL) = false -> any rev (snd p) = true ->
  callback r s = Ret s' -> service_count r s' = service_count r s -> interest r s' = Ret true ->
  dispatch (r :: l) (p :: fds) (rev :: revents) s = Raise busy_wait.
Proof.
  intros H1 H2 H3 H4 H5. cbn [dispatch hd tl]. rewrite H1, H2, andb_false_r, H3. cbn [mbind outcome_bind].
  by rewrite H4, Z.eqb_refl, H5.
Qed.

(** A [poll] that fails for a reason other than a signal is not reported:
    the round is a [Success] in which no callback was called. *)
Theorem poll_error_ignored {S K : Type} `{Kernel K} `{HasKernel S K} (timeout_ms e : Z) (l l' : EventLoop.t S)
    (fds : list pollfd) (s s' : S) (k : K) :
  set_up l s = Ret (l', fds, true, s') -> sys_poll fds timeout_ms (kern s') = (SysErr e, k) -> e <> EINTR ->
  wait_next_event timeout_ms l s = Ret (Success, l', set_kern k s').
Proof.
  intros H1 H2 H3. unfold wait_next_event. rewrite H1. cbn [mbind outcome_bind negb]. rewrite H2.
  destruct (Z.eqb_spec e EINTR) as [|_]; [done |].
  enough (Hd : forall l' fds s, dispatch l' fds (replicate (length fds) 0) s = Ret (l', s)) by by rewrite Hd.
  clear. induction l' as [|r l' IH]; intros fds s; [done |]. cbn [dispatch].
  assert (E : hd 0 (replicate (length fds) 0) = 0 /\ tl (replicate (length fds) 0) = replicate (length (tl fds)) 0)
    by (by destruct fds).
  destruct E as [-> ->]. cbn [mbind outcome_bind andb any Z.land Z.eqb negb].
  change (any 0 (Z.lor POLLERR POLLNVAL)) with false. change (any 0 POLLHUP) with false. cbn [andb].
  unfold any. rewrite Z.land_0_l. cbn [negb Z.eqb mbind outcome_bind]. by rewrite IH.
Qed.

End EventLoopFacts.
