(* ===== verification/sim_kernel.v ===== *)
(** * A concrete kernel

    An executable kernel on which the theorems about code that makes system
    calls are instantiated: each descriptor has chunks waiting to be read (a
    stream's data, or packets), takes at most [d_chunk] bytes per write, and
    may be hung up.  It satisfies [KernelLaws]. *)

From S2P Require Import Prelude kernel eventloop.

Module SimKernel.

Record desc := Desc {
  d_chunks : list bytes;
  d_hung : bool;
  d_chunk : N;
  d_peer : bytes;
  d_in : bytes;
  d_out : bytes;
  d_sent : list bytes;
}.

Record t := Sim {
  descs : gmap Z desc;
  clock : Z;
  last : Z;       (* the time shown last *)
  abort : bool;   (* the owner's [_abort] *)
}.

Definition EAGAIN : Z := 11.
Definition EBADF : Z := 9.

Definition none : desc := Desc [] true 0 [] [] [] [].
Definition at_ (fd : Z) (k : t) : desc := default none (descs k !! fd).
Definition update (fd : Z) (d : desc) (k : t) : t := Sim (<[fd := d]> (descs k)) (clock k) (last k) (abort k).

Definition read (fd n : Z) (k : t) : sysret bytes * t :=
  let d := at_ fd k in
  match d_chunks d with
  | [] => if d_hung d then (SysOk [], k) else (SysErr EAGAIN, k)
  | c :: cs =>
      let data := take (Z.to_nat n) c in
      let rest := drop (Z.to_nat n) c in
      (SysOk data, update fd (Desc (match rest with [] => cs | _ => rest :: cs end) (d_hung d) (d_chunk d) (d_peer d)
                                (d_in d ++ data) (d_out d) (d_sent d)) k)
  end.

Definition writev (fd : Z) (iov : list (bytes * Z)) (k : t) : sysret N * t :=
  let d := at_ fd k in
  let data := take (N.to_nat (d_chunk d)) (concat (map fst iov)) in
  (SysOk (N.of_nat (length data)), update fd (Desc (d_chunks d) (d_hung d) (d_chunk d) (d_peer d)
     (d_in d) (d_out d ++ data) (d_sent d ++ [data])) k).

Definition recvfrom (fd n : Z) (k : t) : sysret (N * bytes * bytes * Z) * t :=
  let d := at_ fd k in
  match d_chunks d with
  | [] => (SysErr EAGAIN, k)
  | c :: cs => (SysOk (N.of_nat (length c), take (Z.to_nat n) c, d_peer d, Zlen (d_peer d)),
                update fd (Desc cs (d_hung d) (d_chunk d) (d_peer d) (d_in d) (d_out d) (d_sent d)) k)
  end.

Definition sendmsg (fd : Z) (dst : option (bytes * Z)) (iov : list (bytes * Z)) (k : t) : sysret N * t :=
  let d := at_ fd k in
  let data := concat (map fst iov) in
  (SysOk (N.of_nat (length data)), update fd (Desc (d_chunks d) (d_hung d) (d_chunk d) (d_peer d)
     (d_in d) (d_out d) (d_sent d ++ [data])) k).

Definition revents (p : pollfd) (k : t) : Z :=
  let d := at_ (fst p) k in
  let readable := match d_chunks d with [] => d_hung d | _ => true end in
  Z.land (snd p) (Z.lor (if readable then EventLoop.POLLIN else 0) EventLoop.POLLOUT).

(** With nothing ready, the time passes (until the far future). *)
Definition poll (fds : list pollfd) (ms : Z) (k : t) : sysret (N * list Z) * t :=
  let revs := map (fun p => revents p k) fds in
  let n := length (filter (fun z => z <> 0) revs) in
  (SysOk (N.of_nat n, revs), if Nat.eqb n 0 then Sim (descs k) (Z.min (Z.max (clock k) (clock k + ms)) (2 ^ 62)) (last k) (abort k) else k).

#[global] Instance sim_kernel : Kernel t := {|
  sys_read := read;
  sys_writev := writev;
  sys_close fd k := (SysOk (), k);
  sys_shutdown fd how k := (SysOk (), k);
  sys_getfl fd k := (SysOk 0, k);
  sys_setfl fd flags k := (SysOk (), k);
  sys_poll := poll;
  sys_recvfrom := recvfrom;
  sys_sendmsg := sendmsg;
  sys_now k := (clock k, Sim (descs k) (clock k) (clock k) (abort k));
|}.

Lemma at_update fd fd' d k : at_ fd' (update fd d k) = if decide (fd = fd') then d else at_ fd' k.
Proof.
  unfold at_, update. cbn. case_decide as E; [by rewrite E, lookup_insert_eq | by rewrite lookup_insert_ne].
Qed.

Lemma take_length_le_min {A} n (l : list A) : take n l = take (length l `min` n) l.
Proof. destruct (decide (n <= length l)%nat); [by rewrite Nat.min_r | by rewrite Nat.min_l, !take_ge by lia]. Qed.

Ltac sim_solve :=
  repeat match goal with
  | H : (_, _) = (_, _) |- _ => injection H as ? ?; subst
  | H : context [match d_chunks ?d with _ => _ end] |- _ => destruct (d_chunks d)
  | H : context [if d_hung ?d then _ else _] |- _ => destruct (d_hung d)
  | H : SysErr _ = SysOk _ |- _ => discriminate H
  | H : SysOk _ = SysOk _ |- _ => injection H as ?; subst
  | |- context [at_ _ (update _ _ _)] => rewrite at_update
  | |- context [decide (?x = ?y)] => destruct (decide (x = y)); subst
  | |- _ /\ _ => split
  end; try done; try (by rewrite ?app_nil_r).

#[global] Instance sim_laws : KernelLaws t.
Proof.
  refine {| kin fd k := d_in (at_ fd k); kout fd k := d_out (at_ fd k) |}; cbn;
    unfold read, writev, recvfrom, sendmsg, poll; intros; sim_solve.
  - cbn. rewrite Nat2N.id, length_take, Nat.min_comm. by rewrite <- take_length_le_min.
  - by destruct (Nat.eqb _ 0).
  - by destruct (Nat.eqb _ 0).
Defined.

End SimKernel.
