(* ===== verification/tcp_sponge_socket.v ===== *)
(** * libsponge/tcp_helpers/tcp_sponge_socket: a TCP connection as a socket

    The owner's thread and the TCP thread share a pair of connected
    descriptors; everything the owner does there, and its [_abort] flag, is
    part of the kernel state [K] of the TCP thread, which this file models.
    [Device] is what an adapter does with its descriptor, [FdAdapter] the
    adapter.  Debugging output is left out. *)

From S2P Require Import Prelude byte_stream wrapping_integers buffer tcp_segment tcp_config tcp_receiver tcp_sender tcp_state tcp_connection address network_interface fd_adapter kernel file_descriptor socket eventloop.

(** How an adapter reads its device, and writes to it. *)
Class Device (K In Out : Type) := {
  dev_read : FDWrapper.t -> K -> outcome (In * FDWrapper.t * K);
  dev_write : Out -> FDWrapper.t -> K -> outcome (FDWrapper.t * K);
}.

(** Several writes, in order. *)
Fixpoint dev_writes {K In Out} `{Device K In Out} (out : list Out) (w : FDWrapper.t) (k : K) : outcome (FDWrapper.t * K) :=
  match out with
  | [] => Ret (w, k)
  | o :: out => '(w, k) ← dev_write o w k; dev_writes out w k
  end.

(** [_sock.recv()] and [_sock.sendto(destination, payload)]. *)
#[global] Instance udp_device {K} `{Kernel K} : Device K (Address.t * bytes) (Address.t * BufferList.t) := {|
  dev_read := UDPSocket.recv 65536;
  dev_write o := UDPSocket.sendto (fst o) (BufferViewList.of_bufferlist (snd o));
|}.

(** [_tun.read()] and [_tun.write(data)] (or [_tap]). *)
#[global] Instance fd_device {K} `{Kernel K} : Device K bytes BufferList.t := {|
  dev_read := FileDescriptor.read (2 ^ 64 - 1);
  dev_write o w k := '(_, w, k) ← FileDescriptor.write (BufferViewList.of_bufferlist o) true w k; Ret (w, k);
|}.

(** The owner's [_abort.store(true)], seen by [_abort] in the TCP thread. *)
Class OwnerThread (K : Type) := {
  aborted : K -> bool;
  store_abort : K -> K;
}.

Module TCPSpongeSocket.

Definition TCP_TICK_MS : Z := 10.

Section Socket.
Context {A In Out K : Type} {AdI : FdAdapter A In Out} `{Kernel K} `{SocketKernel K} {DvI : Device K In Out} `{OwnerThread K}.

Record t := mk {
  main : FDWrapper.t;              (* the LocalStreamSocket itself *)
  _thread_data : FDWrapper.t;
  _datagram_adapter : A;
  _adapter_fd : FDWrapper.t;       (* the descriptor of the adapter *)
  _tcp : option TCPConnection.t;
  _inbound_shutdown : bool;
  _outbound_shutdown : bool;
  _fully_acked : bool;
  kernel : K;
}.

#[global] Instance socket_kernel : HasKernel t K := {|
  kern := kernel;
  set_kern k s := mk (main s) (_thread_data s) (_datagram_adapter s) (_adapter_fd s) (_tcp s)
    (_inbound_shutdown s) (_outbound_shutdown s) (_fully_acked s) k;
|}.

Definition with_main (w : FDWrapper.t) (k : K) (s : t) : t :=
  mk w (_thread_data s) (_datagram_adapter s) (_adapter_fd s) (_tcp s)
    (_inbound_shutdown s) (_outbound_shutdown s) (_fully_acked s) k.
Definition with_thread_data (w : FDWrapper.t) (k : K) (s : t) : t :=
  mk (main s) w (_datagram_adapter s) (_adapter_fd s) (_tcp s)
    (_inbound_shutdown s) (_outbound_shutdown s) (_fully_acked s) k.
Definition with_adapter (a : A) (s : t) : t :=
  mk (main s) (_thread_data s) a (_adapter_fd s) (_tcp s)
    (_inbound_shutdown s) (_outbound_shutdown s) (_fully_acked s) (kernel s).
Definition with_adapter_fd (w : FDWrapper.t) (k : K) (s : t) : t :=
  mk (main s) (_thread_data s) (_datagram_adapter s) w (_tcp s)
    (_inbound_shutdown s) (_outbound_shutdown s) (_fully_acked s) k.
Definition with_tcp (c : option TCPConnection.t) (s : t) : t :=
  mk (main s) (_thread_data s) (_datagram_adapter s) (_adapter_fd s) c
    (_inbound_shutdown s) (_outbound_shutdown s) (_fully_acked s) (kernel s).
Definition shut_inbound (s : t) : t :=
  mk (main s) (_thread_data s) (_datagram_adapter s) (_adapter_fd s) (_tcp s)
    true (_outbound_shutdown s) (_fully_acked s) (kernel s).
Definition shut_outbound (s : t) : t :=
  mk (main s) (_thread_data s) (_datagram_adapter s) (_adapter_fd s) (_tcp s)
    (_inbound_shutdown s) true (_fully_acked s) (kernel s).
Definition set_fully_acked (s : t) : t :=
  mk (main s) (_thread_data s) (_datagram_adapter s) (_adapter_fd s) (_tcp s)
    (_inbound_shutdown s) (_outbound_shutdown s) true (kernel s).

(** [_tcp->] and [_tcp.value()]. *)
Definition tcp (s : t) : outcome TCPConnection.t :=
  match _tcp s with Some c => Ret c | None => Raise (undefined_behaviour "operator-> of an empty optional") end.
Definition tcp_value (s : t) : outcome TCPConnection.t :=
  match _tcp s with Some c => Ret c | None => Raise bad_optional_access end.

(** What the adapter writes to its device. *)
Definition write_device (out : list Out) (s : t) : outcome t :=
  '(w, k) ← dev_writes out (_adapter_fd s) (kernel s); Ret (with_adapter_fd w k s).

(** [_datagram_adapter.read()], [.write(seg)] and [.tick(ms)]. *)
Definition adapter_read (s : t) : outcome (option TCPSegment.t * t) :=
  '(i, w, k) ← dev_read (_adapter_fd s) (kernel s);
  let s := with_adapter_fd w k s in
  '(seg, a, out) ← ad_read i (_datagram_adapter s);
  s ← write_device out (with_adapter a s);
  Ret (seg, s).

Definition adapter_write (seg : TCPSegment.t) (s : t) : outcome t :=
  '(a, out) ← ad_write seg (_datagram_adapter s);
  write_device out (with_adapter a s).

Definition adapter_tick (ms : Z) (s : t) : outcome t :=
  '(a, out) ← ad_tick ms (_datagram_adapter s);
  write_device out (with_adapter a s).

(** ** The four rules *)

(** Rule 1: from the device into the connection. *)
Definition segment_in (s : t) : outcome t :=
  '(seg, s) ← adapter_read s;
  s ← match seg with
      | Some seg => c ← tcp s; c ← TCPConnection.segment_received seg c; Ret (with_tcp (Some c) s)
      | None => Ret s
      end;
  if FileDescriptor.eof (_thread_data s) then
    c ← tcp_value s;
    if (TCPConnection.bytes_in_flight c =? 0) && negb (_fully_acked s) then Ret (set_fully_acked s) else Ret s
  else Ret s.

Definition connection_active (s : t) : outcome bool := c ← tcp s; Ret (TCPConnection.active c).

(** Rule 2: from the owner into the connection. *)
Definition end_outbound (s : t) : outcome t :=
  c ← tcp s;
  c ← TCPConnection.end_input_stream c;
  Ret (shut_outbound (with_tcp (Some c) s)).

Definition outbound_bytes (s : t) : outcome t :=
  c ← tcp s;
  '(data, w, k) ← FileDescriptor.read (TCPConnection.remaining_outbound_capacity c) (_thread_data s) (kernel s);
  let s := with_thread_data w k s in
  let len := Zlen data in
  '(amount_written, c) ← TCPConnection.write data c;
  let s := with_tcp (Some c) s in
  if negb (amount_written =? len)
  then Raise (runtime_error "TCPConnection::write() accepted less than advertised length")
  else if FileDescriptor.eof (_thread_data s) then end_outbound s
  else Ret s.

Definition outbound_interest (s : t) : outcome bool :=
  c ← tcp s;
  Ret (TCPConnection.active c && negb (_outbound_shutdown s) && (TCPConnection.remaining_outbound_capacity c >? 0)).

(** Rule 3: from the connection to the owner. *)
Definition inbound_bytes (s : t) : outcome t :=
  c ← tcp s;
  let inbound := TCPConnection.inbound_stream c in
  let amount_to_write := Z.min 65536 (ByteStream.buffer_size inbound) in
  buffer ← ByteStream.peek_output amount_to_write inbound;
  '(bytes_written, w, k) ← FileDescriptor.write (BufferViewList.of_string buffer) false (_thread_data s) (kernel s);
  let s := with_thread_data w k s in
  inbound ← ByteStream.pop_output bytes_written inbound;
  let c := TCPConnection.with_receiver (TCPReceiver.with_stream inbound (TCPConnection._receiver c)) c in
  let s := with_tcp (Some c) s in
  if ByteStream.eof inbound || ByteStream.error inbound then
    '(w, k) ← Socket.shutdown Socket.SHUT_WR (_thread_data s) (kernel s);
    Ret (shut_inbound (with_thread_data w k s))
  else Ret s.

Definition inbound_interest (s : t) : outcome bool :=
  c ← tcp s;
  let inbound := TCPConnection.inbound_stream c in
  Ret (negb (ByteStream.buffer_empty inbound) ||
       ((ByteStream.eof inbound || ByteStream.error inbound) && negb (_inbound_shutdown s))).

(** Rule 4: from the connection to the device; [q] is the connection's queue. *)
Fixpoint send_queue (q : list TCPSegment.t) (s : t) : outcome t :=
  match q with
  | [] => Ret s
  | seg :: q =>
      s ← adapter_write seg s;
      c ← tcp s;
      send_queue q (with_tcp (Some (TCPConnection.with_segments_out q c)) s)
  end.

Definition segments_out (s : t) : outcome t := c ← tcp s; send_queue (TCPConnection.segments_out c) s.

Definition segments_interest (s : t) : outcome bool :=
  c ← tcp s;
  Ret (match TCPConnection.segments_out c with [] => false | _ => true end).

Definition rule1 : EventLoop.Rule t := {|
  EventLoop.fd := _adapter_fd; EventLoop.direction := EventLoop.In;
  EventLoop.callback := segment_in; EventLoop.interest := connection_active; EventLoop.cancel := EventLoop.no_cancel;
|}.
Definition rule2 : EventLoop.Rule t := {|
  EventLoop.fd := _thread_data; EventLoop.direction := EventLoop.In;
  EventLoop.callback := outbound_bytes; EventLoop.interest := outbound_interest; EventLoop.cancel := end_outbound;
|}.
Definition rule3 : EventLoop.Rule t := {|
  EventLoop.fd := _thread_data; EventLoop.direction := EventLoop.Out;
  EventLoop.callback := inbound_bytes; EventLoop.interest := inbound_interest; EventLoop.cancel := EventLoop.no_cancel;
|}.
Definition rule4 : EventLoop.Rule t := {|
  EventLoop.fd := _adapter_fd; EventLoop.direction := EventLoop.Out;
  EventLoop.callback := segments_out; EventLoop.interest := segments_interest; EventLoop.cancel := EventLoop.no_cancel;
|}.

(** The event loop and the new connection; [random_device] is the draw for
    the initial sequence number. *)
Definition _initialize_TCP (config : TCPConfig.t) (random_device : Z) (l : EventLoop.t t) (s : t) : EventLoop.t t * t :=
  let s := with_tcp (Some (TCPConnection.make config random_device)) s in
  (EventLoop.add_rule rule4 (EventLoop.add_rule rule3 (EventLoop.add_rule rule2 (EventLoop.add_rule rule1 l))), s).

(** ** The loop *)

(** [timestamp_ms()], a [uint64_t]. *)
Definition timestamp_ms (s : t) : Z * t := let '(now, k) := sys_now (kernel s) in (u64 now, set_kern k s).

(** Telling the connection and the adapter how much time has passed. *)
Definition pass_time (base_time : Z) (s : t) : outcome (Z * t) :=
  c ← tcp_value s;
  if TCPConnection.active c then
    let '(next_time, s) := timestamp_ms s in
    let s := with_tcp (Some (TCPConnection.tick (u64 (next_time - base_time)) c)) s in
    s ← adapter_tick (u64 (next_time - base_time)) s;
    Ret (next_time, s)
  else Ret (base_time, s).

Fixpoint loop (fuel : nat) (condition : t -> outcome bool) (base_time : Z) (l : EventLoop.t t) (s : t) :
    outcome (EventLoop.t t * t) :=
  match fuel with
  | O => Diverge
  | S fuel =>
      b ← condition s;
      if negb b then Ret (l, s)
      else
        '(ret, l, s) ← EventLoop.wait_next_event TCP_TICK_MS l s;
        if (match ret with EventLoop.Exit => true | _ => false end) || aborted (kernel s) then Ret (l, s)
        else
          '(base_time, s) ← pass_time base_time s;
          loop fuel condition base_time l s
  end.

(** The loop may run for ever: [fuel] bounds the rounds that are followed. *)
Definition _tcp_loop (fuel : nat) (condition : t -> outcome bool) (l : EventLoop.t t) (s : t) : outcome (EventLoop.t t * t) :=
  let '(base_time, s) := timestamp_ms s in loop fuel condition base_time l s.

(** ** The public methods *)

Definition in_state (st : TCPState.State) (s : t) : outcome bool :=
  c ← tcp s; Ret (TCPState.eqb (TCPConnection.state c) (TCPState.of_state st)).

Definition connect (fuel : nat) (c_tcp : TCPConfig.t) (c_ad : FdAdapterConfig.t) (random_device : Z)
    (l : EventLoop.t t) (s : t) : outcome (EventLoop.t t * t) :=
  if bool_decide (is_Some (_tcp s)) then Raise (runtime_error "connect() with TCPConnection already initialized")
  else
    let '(l, s) := _initialize_TCP c_tcp random_device l s in
    let s := with_adapter (ad_set_config c_ad (_datagram_adapter s)) s in
    c ← tcp s;
    c ← TCPConnection.connect c;
    let s := with_tcp (Some c) s in
    let expected_state := TCPState.of_state TCPState.SYN_SENT in
    if TCPState.neqb (TCPConnection.state c) expected_state then
      Raise (runtime_error ("After TCPConnection::connect(), state was " +:+ TCPState.name (TCPConnection.state c) +:+
                            " but expected " +:+ TCPState.name expected_state))
    else _tcp_loop fuel (in_state TCPState.SYN_SENT) l s.

(** [s == LISTEN or s == SYN_RCVD or s == SYN_SENT]. *)
Definition accepting (s : t) : outcome bool :=
  c ← tcp s;
  let st := TCPConnection.state c in
  Ret (TCPState.eqb st (TCPState.of_state TCPState.LISTEN) || TCPState.eqb st (TCPState.of_state TCPState.SYN_RCVD) ||
       TCPState.eqb st (TCPState.of_state TCPState.SYN_SENT)).

Definition listen_and_accept (fuel : nat) (c_tcp : TCPConfig.t) (c_ad : FdAdapterConfig.t) (random_device : Z)
    (l : EventLoop.t t) (s : t) : outcome (EventLoop.t t * t) :=
  if bool_decide (is_Some (_tcp s)) then Raise (runtime_error "listen_and_accept() with TCPConnection already initialized")
  else
    let '(l, s) := _initialize_TCP c_tcp random_device l s in
    let s := with_adapter (ad_set_config c_ad (_datagram_adapter s)) s in
    let s := with_adapter (ad_set_listening true (_datagram_adapter s)) s in
    _tcp_loop fuel accepting l s.

(** The body of [_tcp_thread], started by both. *)
Definition _tcp_main (fuel : nat) (l : EventLoop.t t) (s : t) : outcome (EventLoop.t t * t) :=
  if negb (bool_decide (is_Some (_tcp s))) then Raise (runtime_error "no TCP")
  else
    '(l, s) ← _tcp_loop fuel (fun _ => Ret true) l s;
    '(w, k) ← Socket.shutdown Socket.SHUT_RDWR (main s) (kernel s);
    let s := with_main w k s in
    _ ← tcp_value s;
    Ret (l, with_tcp None s).

(** The owner's half closes; then the thread runs to its end. *)
Definition wait_until_closed (fuel : nat) (joinable : bool) (l : EventLoop.t t) (s : t) : outcome (EventLoop.t t * t) :=
  '(w, k) ← Socket.shutdown Socket.SHUT_RDWR (main s) (kernel s);
  let s := with_main w k s in
  if joinable then _tcp_main fuel l s else Ret (l, s).

(** ** Construction and destruction *)

(** The members and the base are destroyed in the reverse of their order. *)
Definition close_all (s : t) : K :=
  let k := FDWrapper.destruct_ (_adapter_fd s) (kernel s) in
  let k := FDWrapper.destruct_ (_thread_data s) k in
  FDWrapper.destruct_ (main s) k.

(** The destructor: a thread that still runs is told to stop and joined.  An
    exception in that thread ends the program. *)
Definition destruct_ (fuel : nat) (joinable : bool) (l : EventLoop.t t) (s : t) : outcome K :=
  if joinable then
    let s := set_kern (store_abort (kernel s)) s in
    '(_, s) ← _tcp_main fuel l s;
    Ret (close_all s)
  else Ret (close_all s).

Definition socket_pair_helper (type : Z) (k : K) : outcome (FDWrapper.t * FDWrapper.t * K) :=
  '((fd0, fd1), k) ← SystemCall "socketpair" (sys_socketpair Socket.AF_UNIX type k);
  w0 ← FDWrapper.make (Z.of_N fd0);
  w1 ← FDWrapper.make (Z.of_N fd1);
  Ret (w0, w1, k).

Definition make_with (pair : FDWrapper.t * FDWrapper.t) (datagram_interface : A) (adapter_fd : FDWrapper.t) (k : K) : outcome t :=
  let '(first, second) := pair in
  k ← Socket.of_fd first Socket.AF_UNIX Socket.SOCK_STREAM k;
  k ← Socket.of_fd second Socket.AF_UNIX Socket.SOCK_STREAM k;
  k ← FileDescriptor.set_blocking false second k;
  Ret (mk first second datagram_interface adapter_fd None false false false k).

Definition make (datagram_interface : A) (adapter_fd : FDWrapper.t) (k : K) : outcome t :=
  '(w0, w1, k) ← socket_pair_helper Socket.SOCK_STREAM k;
  make_with (w0, w1) datagram_interface adapter_fd k.

End Socket.
Arguments t : clear implicits.

End TCPSpongeSocket.

(** ** The sockets over TUN and over Ethernet *)

(** The six draws of [random_device], as [uint8_t]s. *)
Definition random_private_ethernet_address (random_device : nat -> Z) : bytes :=
  let b := map (fun i => u8 (random_device i)) (seq 0 6) in
  map byte_of (match b with
               | [] => []
               | x :: rest => Z.land (Z.lor x 0x02) 0xfe :: rest
               end).

Section Sockets.
Context {K : Type} `{Kernel K} `{SocketKernel K} `{OwnerThread K} `{Address.NetDB}.

(** [tcp_config.rt_timeout = 100;]. *)
Definition short_timeout : TCPConfig.t :=
  TCPConfig.mk 100 (TCPConfig.recv_capacity TCPConfig.default_) (TCPConfig.send_capacity TCPConfig.default_)
    (TCPConfig.fixed_isn TCPConfig.default_).

(** A [FdAdapterConfig] with a random source port on [ip]. *)
Definition multiplexer_config (ip random_port : Z) (address : Address.t) : outcome FdAdapterConfig.t :=
  c ← FdAdapterConfig.default_;
  source ← Address.of_ip_port ip (u16 random_port);
  Ret (FdAdapterConfig.set_peers source address c).

Definition tun_name : bytes := String.list_byte_of_string "tun144".
Definition tap_name : bytes := String.list_byte_of_string "tap10".
(** 169.254.144.9, 169.254.10.9 and 169.254.10.1. *)
Definition LOCAL_TUN_IP_ADDRESS : Z := 0xa9fe9009.
Definition LOCAL_TAP_IP_ADDRESS : Z := 0xa9fe0a09.
Definition LOCAL_TAP_NEXT_HOP_ADDRESS : Z := 0xa9fe0a01.

Definition CS144TCPSocket_make (k : K) : outcome (TCPSpongeSocket.t FdAdapterBase.t K) :=
  '(tun, k) ← TunTapFD.make tun_name true k;
  c ← FdAdapterConfig.default_;
  TCPSpongeSocket.make (FdAdapterBase.make c) tun k.

Definition CS144TCPSocket_connect (fuel : nat) (address : Address.t) (random_port random_isn : Z)
    (l : EventLoop.t (TCPSpongeSocket.t FdAdapterBase.t K)) (s : TCPSpongeSocket.t FdAdapterBase.t K) :
    outcome (EventLoop.t (TCPSpongeSocket.t FdAdapterBase.t K) * TCPSpongeSocket.t FdAdapterBase.t K) :=
  c ← multiplexer_config LOCAL_TUN_IP_ADDRESS random_port address;
  TCPSpongeSocket.connect (AdI := tun_adapter) fuel short_timeout c random_isn l s.

Abbreviation eth_socket := (TCPSpongeSocket.t TCPOverIPv4OverEthernetAdapter.t K).

(** The adapter's constructor writes its first frame to the device. *)
Definition FullStackSocket_make (random_device : nat -> Z) (k : K) : outcome eth_socket :=
  '(tap, k) ← TunTapFD.make tap_name false k;
  ip ← Address.of_ip_port LOCAL_TAP_IP_ADDRESS 0;
  next_hop ← Address.of_ip_port LOCAL_TAP_NEXT_HOP_ADDRESS 0;
  c ← FdAdapterConfig.default_;
  let '(a, out) := TCPOverIPv4OverEthernetAdapter.make c (random_private_ethernet_address random_device) ip next_hop in
  '(tap, k) ← dev_writes out tap k;
  TCPSpongeSocket.make a tap k.

Definition FullStackSocket_connect (fuel : nat) (address : Address.t) (random_port random_isn : Z)
    (l : EventLoop.t eth_socket) (s : eth_socket) : outcome (EventLoop.t eth_socket * eth_socket) :=
  c ← multiplexer_config LOCAL_TAP_IP_ADDRESS random_port address;
  TCPSpongeSocket.connect fuel short_timeout c random_isn l s.

End Sockets.
