(* ===== verification/tcp_connection_effects.v ===== *)
(** * tcp_connection: what each call leaves alone

    Facts that hold of every call whatever the peer sends: which counters of
    the two streams it can change, that the segments it queues are the ones
    an adapter can send, and that a queue its owner has not emptied is only
    appended to, or dropped. *)

From S2P Require Import Prelude byte_stream wrapping_integers buffer stream_reassembler stream_reassembler_proofs tcp_segment tcp_config tcp_receiver tcp_sender tcp_sender_proofs tcp_state tcp_connection tcp_connection_proofs.

Module EffectFacts.
Import TCPConnection.

(** ** The streams *)

(** Writing to a stream and ending it; reading from it. *)
Definition fed (s s' : ByteStream.t) : Prop :=
  ByteStream.total_read s' = ByteStream.total_read s /\ ByteStream.error s' = ByteStream.error s /\
  ByteStream.capacity s' = ByteStream.capacity s.
Definition drained (s s' : ByteStream.t) : Prop :=
  ByteStream.written s' = ByteStream.written s /\ ByteStream.input_ended s' = ByteStream.input_ended s /\
  ByteStream.error s' = ByteStream.error s /\ ByteStream.capacity s' = ByteStream.capacity s.

#[export] Instance fed_preorder : PreOrder fed.
Proof. split; [done |]. intros x y z (? & ? & ?) (? & ? & ?). unfold fed. split_and!; congruence. Qed.
#[export] Instance drained_preorder : PreOrder drained.
Proof. split; [done |]. intros x y z (? & ? & ? & ?) (? & ? & ? & ?). unfold drained. split_and!; congruence. Qed.

Lemma write_fed data s n s' : ByteStream.write data s = Ret (n, s') -> fed s s'.
Proof.
  unfold ByteStream.write. destruct (_ <=? _); [by intros [= _ <-] |].
  intros (sub & _ & (w & _ & [= _ <-])%bind_Ret)%bind_Ret. done.
Qed.

Lemma read_drained len s d s' : ByteStream.read len s = Ret (d, s') -> drained s s'.
Proof.
  unfold ByteStream.read. intros (r & _ & (s1 & Hp & [= _ <-])%bind_Ret)%bind_Ret.
  revert Hp. unfold ByteStream.pop_output. intros (rest & _ & [= <-])%bind_Ret. done.
Qed.

(** ** The receiver only feeds its stream *)

Lemma drain_fed l out un l' out' un' :
  StreamReassembler.drain l out un = Ret (l', out', un') -> fed out out'.
Proof.
  revert out un. induction l as [|e l IH]; intros out un; cbn [StreamReassembler.drain]; [by intros [= _ <- _] |].
  destruct (_ =? _); [| by intros [= _ <- _]]. intros ((n & o) & Hw & Hd)%bind_Ret.
  etransitivity; [by eapply write_fed | by eapply IH].
Qed.

Lemma push_fed data i eof r r' :
  StreamReassembler.push_substring data i eof r = Ret r' ->
  fed (StreamReassembler.stream_out r) (StreamReassembler.stream_out r').
Proof.
  unfold StreamReassembler.push_substring. intros (r1 & H1 & [= <-])%bind_Ret. transitivity (StreamReassembler.stream_out r1).
  2: { by destruct (_ =? _). }
  assert (Hsame : forall r2, StreamReassembler.AddTempCash data i r2 = Ret r1 -> fed (StreamReassembler.stream_out r2) (StreamReassembler.stream_out r1)).
  { clear. intros r. unfold StreamReassembler.AddTempCash. destruct (Zlen data =? 0); [by intros [= <-] |].
    intros (cut & _ & H)%bind_Ret. destruct cut as [[d lb]|]; [| by injection H as <-].
    apply bind_Ret in H as (cut & _ & H). destruct cut as [[d' rb]|]; [| by injection H as <-].
    apply bind_Ret in H as ((l & un) & _ & H). apply bind_Ret in H as (((l' & out) & un') & Hd & [= <-]).
    by eapply drain_fed. }
  apply Hsame in H1. by destruct eof.
Qed.

Lemma receive_fed seg r r' :
  TCPReceiver.segment_received seg r = Ret r' -> fed (TCPReceiver.stream_out r) (TCPReceiver.stream_out r').
Proof.
  unfold TCPReceiver.segment_received. destruct (_ && _); [by intros [= <-] |].
  intros (idx & _ & H)%bind_Ret. destruct idx as [i|].
  - apply bind_Ret in H as (ra & Hp & [= <-]). apply push_fed in Hp. by destruct (TCPHeader.syn _).
  - injection H as <-. by destruct (TCPHeader.syn _).
Qed.

(** ** What a sender puts in a segment *)

(** The parts of a segment that decide whether it fits a datagram. *)
Definition plain (seg : TCPSegment.t) : Prop :=
  TCPHeader.doff (TCPSegment.header seg) = 5 /\ TCPHeader.cksum (TCPSegment.header seg) = 0 /\
  TCPHeader.uptr (TCPSegment.header seg) = 0 /\ Buffer.wf (TCPSegment.payload seg) /\
  Zlen (Buffer.str (TCPSegment.payload seg)) <= TCPConfig.MAX_PAYLOAD_SIZE.

Definition plain_sender (s : TCPSender.t) : Prop :=
  Forall plain (TCPSender.outstandings s) /\ Forall plain (TCPSender._segments_out s).

(** A step of a sender that only reads its stream. *)
Definition sends (s s' : TCPSender.t) : Prop :=
  drained (TCPSender.stream_in s) (TCPSender.stream_in s') /\ (plain_sender s -> plain_sender s').

#[export] Instance sends_preorder : PreOrder sends.
Proof.
  split; unfold sends; [done |]. intros x y z [H1 H2] [H3 H4]. split; [by etransitivity | auto].
Qed.

Lemma read_length len s d s' : 0 <= len <= TCPConfig.MAX_PAYLOAD_SIZE -> ByteStream.read len s = Ret (d, s') -> Zlen d <= len.
Proof.
  intros Hl. unfold ByteStream.read, ByteStream.peek_output. intros (r & Hp & (s1 & _ & [= <- _])%bind_Ret)%bind_Ret.
  revert Hp. unfold substr. destruct (_ >? _); [done |]. intros [= <-]. unfold TCPConfig.MAX_PAYLOAD_SIZE in *.
  set (l := if (len >? Zlen (ByteStream.buffer s)) then _ else _).
  assert (Hl' : 0 <= l <= len).
  { unfold l. pose proof (Zlen_nonneg (ByteStream.buffer s)).
    destruct (Z.gtb_spec len (Zlen (ByteStream.buffer s))); rewrite i32_small by lia; lia. }
  rewrite u64_small by lia. zlen. lia.
Qed.

Lemma sent_sends seg st next n fin s :
  drained (TCPSender.stream_in s) st -> plain seg -> sends s (TCPSender.sent seg st next n fin s).
Proof.
  intros Hd Hp. split; [done |]. intros [H1 H2]. split; cbn; apply Forall_app; by split; [| constructor].
Qed.

Lemma plain_new h d :
  TCPHeader.doff h = 5 -> TCPHeader.cksum h = 0 -> TCPHeader.uptr h = 0 -> Zlen d <= TCPConfig.MAX_PAYLOAD_SIZE ->
  plain (TCPSegment.mk h (Buffer.of_string d)).
Proof.
  intros H1 H2 H3 Hl. split_and!; [done | done | done | |]; cbn [TCPSegment.payload TCPSegment._payload].
  - apply Buffer.wf_of_string. unfold TCPConfig.MAX_PAYLOAD_SIZE in *. lia.
  - by rewrite Buffer.str_of_string.
Qed.

Lemma send_next_only_sends s s' : TCPSender.send_next s = Ret s' -> sends s s'.
Proof.
  unfold TCPSender.send_next.
  destruct (if TCPSender.next_seqno_absolute s =? 0 then _ else _) as [hd syn] eqn:Ehd.
  assert (Hh : TCPHeader.doff hd = 5 /\ TCPHeader.cksum hd = 0 /\ TCPHeader.uptr hd = 0)
    by (destruct (_ =? 0); by injection Ehd as <- <-).
  clear Ehd. destruct Hh as (H1 & H2 & H3). intros ((data & st) & Hr & Hs)%bind_Ret. revert Hs.
  apply read_length in Hr as Hl.
  2: { unfold u64, TCPConfig.MAX_PAYLOAD_SIZE. match goal with |- context [Z.modulo ?x ?y] => pose proof (Z.mod_pos_bound x y) end. lia. }
  apply read_drained in Hr.
  assert (Hmax : Zlen data <= TCPConfig.MAX_PAYLOAD_SIZE) by (unfold TCPConfig.MAX_PAYLOAD_SIZE in *; lia).
  destruct (_ && _ && _); intros [= <-]; apply sent_sends; try done; by apply plain_new.
Qed.

Lemma fill_loop_sends fuel s s' : TCPSender.fill_loop fuel s = Ret s' -> sends s s'.
Proof.
  revert s. induction fuel as [|fuel IH]; intros s; cbn [TCPSender.fill_loop];
    (destruct (_ <=? _); [| by intros [= <-]]); (destruct (_ && _ && _); [by intros [= <-] |]); [done |].
  intros (s1 & H1 & H2)%bind_Ret. apply send_next_only_sends in H1. apply IH in H2. by transitivity s1.
Qed.

Lemma probe_only_sends f b s s' : TCPSender.send_one_byte_segment f (TCPSender.with_probing b s) = Ret s' -> sends s s'.
Proof.
  unfold TCPSender.send_one_byte_segment. intros ((seg & st) & Hs & [= <-])%bind_Ret.
  assert (Hp : drained (TCPSender.stream_in s) st /\ plain seg).
  { destruct f; [injection Hs as <- <-; split; [done |]; by split_and! |].
    apply bind_Ret in Hs as ((data & st') & Hr & [= <- <-]).
    apply read_length in Hr as Hl; [| unfold TCPConfig.MAX_PAYLOAD_SIZE; lia]. apply read_drained in Hr.
    split; [done |]. apply plain_new; [done | done | done |]. unfold TCPConfig.MAX_PAYLOAD_SIZE; lia. }
  destruct Hp as [H1 H2]. destruct (sent_sends seg st (u64 (TCPSender._next_seqno s + 1)) 1 (TCPSender.fin_sent s) s H1 H2).
  by split.
Qed.

Lemma fill_sends s s' : TCPSender.fill_window s = Ret s' -> sends s s'.
Proof.
  unfold TCPSender.fill_window. destruct (_ && _); [| apply fill_loop_sends].
  destruct (negb _); [apply probe_only_sends |].
  destruct (TCPSender.ReadyToFin s); [apply probe_only_sends | apply fill_loop_sends].
Qed.

Lemma remove_acked_suffix isn cp a q fl rm q' fl' rm' :
  TCPSender.remove_acked isn cp a q fl rm = Ret (q', fl', rm') -> q' `suffix_of` q.
Proof.
  revert fl rm. induction q as [|seg q IH]; intros fl rm; cbn [TCPSender.remove_acked]; [by intros [= <- _ _] |].
  intros (x & _ & H)%bind_Ret. revert H. destruct (_ <? _); [| by intros [= <- _ _]].
  intros H%IH. by apply suffix_cons_r.
Qed.

Lemma ack_sends ackno w s s' : TCPSender.ack_received ackno w s = Ret s' -> sends s s'.
Proof.
  unfold TCPSender.ack_received. intros (ackabs & _ & Hs)%bind_Ret.
  destruct (ackabs >? _); [by injection Hs as <- |].
  apply bind_Ret in Hs as (((q & fl) & rm) & Hq & [= <-]). split; [done |]. intros [H1 H2]. split; [| done]. cbn.
  apply remove_acked_suffix in Hq as [pre Hq]. rewrite Hq in H1. by apply Forall_app in H1 as [_ ?].
Qed.

Lemma tick_sends ms s : sends s (TCPSender.tick ms s).
Proof.
  unfold TCPSender.tick. destruct (TCPSender.outstandings s) as [|front q] eqn:Eo; [done |].
  destruct (_ >=? _); (split; [done |]); intros [H1 H2]; (split; cbn; [by rewrite <- Eo |]); [| done].
  apply Forall_app. split; [done |]. constructor; [| done]. rewrite Eo in H1. by inversion H1.
Qed.

Lemma plain_header h :
  TCPHeader.doff h = 5 -> TCPHeader.cksum h = 0 -> TCPHeader.uptr h = 0 -> plain (TCPSegment.mk h Buffer.empty).
Proof. intros H1 H2 H3. split_and!; [exact H1 | exact H2 | exact H3 | exact I |]. by vm_compute. Qed.

Lemma empty_sends s : sends s (TCPSender.send_empty_segment s).
Proof.
  split; [done |]. intros [H1 H2]. split; [done |]. cbn. apply Forall_app. split; [done |].
  constructor; [by apply plain_header | done].
Qed.

Lemma rst_sends s : sends s (TCPSender.send_empty_segment_RST s).
Proof.
  split; [done |]. intros [H1 H2]. split; [done |]. cbn. apply Forall_app. split; [done |].
  constructor; [by apply plain_header | done].
Qed.

Lemma reply_sends (b : bool) s : sends s (if b then ensure_reply s else s).
Proof.
  destruct b; [| done]. unfold ensure_reply. destruct (TCPSender.segments_out s); [apply empty_sends | done].
Qed.

Lemma stamp_plain r seg : plain seg -> plain (stamp r seg).
Proof. unfold plain, stamp. by destruct (TCPReceiver.ackno r). Qed.

(** ** The calls of a connection *)

Definition plain_conn (c : t) : Prop := plain_sender (_sender c) /\ Forall plain (_segments_out c).

(** What a call other than [write], [end_input_stream] and the owner's reads
    leaves alone: how much was written to the outbound stream, whether it
    ended, and how much was read from the inbound stream; an error stays. *)
Record undisturbed (c c' : t) : Prop := {
  ud_written : ByteStream.bytes_written (TCPSender.stream_in (_sender c')) = ByteStream.bytes_written (TCPSender.stream_in (_sender c));
  ud_ended : ByteStream.input_ended (TCPSender.stream_in (_sender c')) = ByteStream.input_ended (TCPSender.stream_in (_sender c));
  ud_read : ByteStream.bytes_read (inbound_stream c') = ByteStream.bytes_read (inbound_stream c);
  ud_error : ByteStream.error (inbound_stream c) = true -> ByteStream.error (inbound_stream c') = true;
}.

#[export] Instance undisturbed_preorder : PreOrder undisturbed.
Proof. split; [done |]. intros x y z [] []. constructor; try congruence; auto. Qed.

(** A call with that effect that queues only segments that fit. *)
Definition harmless (c c' : t) : Prop := undisturbed c c' /\ (plain_conn c -> plain_conn c').

#[export] Instance harmless_preorder : PreOrder harmless.
Proof. split; unfold harmless; [done |]. intros x y z [H1 H2] [H3 H4]. split; [by etransitivity | auto]. Qed.

Lemma sender_harmless s c : sends (_sender c) s -> harmless c (with_sender s c).
Proof.
  intros [(H1 & H2 & H3 & _) H4]. split; [| intros [H5 H6]; by split; [apply H4 |]].
  constructor; cbn; [| done | done | done]. unfold ByteStream.bytes_written. by rewrite H1.
Qed.

Lemma seg_2_seg_harmless c : harmless c (seg_2_seg c).
Proof.
  split; [done |]. intros [[H1 H2] H3]. split; [by split |]. cbn. apply Forall_app. split; [done |].
  apply Forall_map. eapply Forall_impl; [exact H2 |]. intros seg. apply stamp_plain.
Qed.

Lemma receiver_harmless r c : fed (inbound_stream c) (TCPReceiver.stream_out r) -> harmless c (with_receiver r c).
Proof.
  intros (H1 & H2 & _). split; [| done]. constructor; [done | done | |];
    change (inbound_stream (with_receiver r c)) with (TCPReceiver.stream_out r).
  - unfold ByteStream.bytes_read. by rewrite H1.
  - by rewrite H2.
Qed.

Lemma set_errors_harmless c : harmless c (set_errors c).
Proof. by split. Qed.

Lemma segment_received_harmless seg c c' : segment_received seg c = Ret c' -> harmless c c'.
Proof.
  unfold segment_received. destruct (_ && TCPHeader.ack _); [by intros [= <-] |].
  destruct (TCPHeader.rst _); [intros [= <-]; by transitivity (set_errors c) |].
  set (c1 := if (TCPHeader.fin _ && _ : bool) then _ else _).
  assert (Hc1 : harmless c c1) by (unfold c1; by destruct (TCPHeader.fin _ && _)). clearbody c1.
  intros (r & Hr & (s1 & H1 & (s2 & H2 & [= <-])%bind_Ret)%bind_Ret)%bind_Ret.
  apply receive_fed, receiver_harmless in Hr. cbn [_sender with_receiver] in H1.
  assert (Hs1 : sends (_sender c1) s1).
  { destruct (TCPHeader.ack _); [| by injection H1 as <-]. apply bind_Ret in H1 as (s0 & H0 & H1).
    etransitivity; [by eapply ack_sends | by apply fill_sends]. }
  assert (Hs2 : sends s1 s2).
  { destruct ((TCPSender.next_seqno_absolute s1 =? 0) && _); [by apply fill_sends | by injection H2 as <-]. }
  set (s3 := match TCPReceiver.ackno r with Some _ => _ | None => _ end).
  assert (Hs3 : sends (_sender (with_receiver r c1)) s3).
  { unfold s3. etransitivity; [exact Hs1 |]. etransitivity; [exact Hs2 |].
    destruct (TCPReceiver.ackno r); [etransitivity; [| apply reply_sends] |]; apply reply_sends. }
  etransitivity; [exact Hc1 |]. etransitivity; [exact Hr |].
  etransitivity; [by apply sender_harmless | apply seg_2_seg_harmless].
Qed.

Lemma connect_harmless c c' : connect c = Ret c' -> harmless c c'.
Proof.
  unfold connect. intros (s & Hs & [= <-])%bind_Ret.
  etransitivity; [by apply sender_harmless, fill_sends | apply seg_2_seg_harmless].
Qed.

Lemma tick_harmless ms c : harmless c (tick ms c).
Proof.
  unfold tick. set (c1 := with_time _ (with_sender _ c)).
  assert (Hc1 : harmless c c1) by (transitivity (with_sender (TCPSender.tick ms (_sender c)) c);
    [apply sender_harmless, tick_sends | done]).
  etransitivity; [exact Hc1 |]. clearbody c1.
  destruct (TCPState.eqb _ _); [by destruct (_ >=? _) |]. destruct (_ && _).
  - unfold abort. set (c2 := with_segments_out [] _).
    assert (Hc2 : harmless c1 c2) by (split; [done |]; intros [[H1 H2] H3]; by split).
    etransitivity; [exact Hc2 |]. clearbody c2.
    etransitivity; [apply sender_harmless, rst_sends |].
    etransitivity; [apply seg_2_seg_harmless |]. by etransitivity; [apply set_errors_harmless |].
  - etransitivity; [apply seg_2_seg_harmless |]. by destruct (finished _).
Qed.

(** ** A queue that was not emptied *)

(** The same result, with [q] still in front of the queue. *)
Definition behind (q : list TCPSegment.t) (c : t) : t := with_segments_out (q ++ _segments_out c) c.

Lemma segment_received_behind seg q c :
  segment_received seg (with_segments_out q c) =
    (c' ← segment_received seg (with_segments_out [] c); Ret (behind q c')).
Proof.
  unfold segment_received. cbn [_sender with_time with_segments_out].
  destruct (_ && TCPHeader.ack _); [unfold behind; cbn; by rewrite app_nil_r |].
  destruct (TCPHeader.rst _); [unfold behind; cbn; by rewrite app_nil_r |].
  set (b := TCPHeader.fin _ && _).
  replace (_receiver (if b then _ else _)) with (_receiver c) by (by destruct b).
  replace (_receiver (if b then _ else _)) with (_receiver c) by (by destruct b).
  destruct (TCPReceiver.segment_received seg (_receiver c)) as [r | |]; [| done | done]. cbn [mbind outcome_bind].
  cbn [_sender with_receiver].
  replace (_sender (if b then _ else _)) with (_sender c) by (by destruct b).
  replace (_sender (if b then _ else _)) with (_sender c) by (by destruct b).
  destruct (if TCPHeader.ack _ then _ else _) as [s1 | |]; [| done | done]. cbn [mbind outcome_bind].
  destruct (if (TCPSender.next_seqno_absolute s1 =? 0) && _ then _ else _) as [s2 | |]; [| done | done].
  cbn [mbind outcome_bind]. f_equal. by destruct b.
Qed.

Lemma fill_behind (f : TCPSender.t -> outcome TCPSender.t) q c :
  (s ← f (_sender c); Ret (seg_2_seg (with_sender s (with_segments_out q c)))) =
    (c' ← (s ← f (_sender c); Ret (seg_2_seg (with_sender s (with_segments_out [] c)))); Ret (behind q c')).
Proof. by destruct (f (_sender c)). Qed.

Lemma connect_behind q c :
  connect (with_segments_out q c) = (c' ← connect (with_segments_out [] c); Ret (behind q c')).
Proof. exact (fill_behind TCPSender.fill_window q c). Qed.

Lemma end_input_behind q c :
  end_input_stream (with_segments_out q c) = (c' ← end_input_stream (with_segments_out [] c); Ret (behind q c')).
Proof.
  exact (fill_behind (fun s => TCPSender.fill_window (TCPSender.with_stream (ByteStream.end_input (TCPSender.stream_in s)) s)) q c).
Qed.

(** Giving up drops the queue. *)
Lemma tick_behind ms q c :
  tick ms (with_segments_out q c) = behind q (tick ms (with_segments_out [] c)) \/
  tick ms (with_segments_out q c) = tick ms (with_segments_out [] c).
Proof.
  unfold tick. set (c1 := with_time _ (with_sender _ (with_segments_out q c))).
  set (c2 := with_time _ (with_sender _ (with_segments_out [] c))).
  assert (E : c1 = with_segments_out q c2) by done. assert (Eq : _segments_out c2 = []) by done.
  rewrite E. clearbody c2. clear E c1.
  change (state (with_segments_out q c2)) with (state c2).
  destruct (TCPState.eqb _ _); [left; destruct (_ >=? _); unfold behind; cbn; by rewrite Eq, app_nil_r |].
  cbn [_active _sender with_segments_out]. destruct (_active c2 && _); [by right |].
  left. set (d1 := seg_2_seg _). set (d2 := seg_2_seg _). assert (E : d1 = behind q d2) by (unfold d1, d2, seg_2_seg, behind; cbn; by rewrite Eq). rewrite E.
  change (finished (behind q d2)) with (finished d2). by destruct (finished d2).
Qed.

(** ** A connection and its owner's view *)

Section Owner.
Import ReassemblerFacts ReceiverFacts SenderFacts ConnectionFacts.
Context (fo fi : flow) (cp : nat).
Hypothesis isn_o : in_bits 32 (isn_of fo).
Hypothesis isn_i : in_bits 32 (isn_of fi).
Hypothesis bounds_o : 0 <= total_of fo /\ total_of fo + 2 < 2 ^ 31.
Hypothesis bounds_i : 0 <= total_of fi /\ total_of fi + Z.of_nat cp + 2 < 2 ^ 31.

(** The invariant of a connection whose owner lets the queue grow: every
    segment in it is part of the outbound stream and fits a datagram. *)
Definition conn_ok (c : t) : Prop :=
  (exists out, cinv fo fi cp (with_segments_out [] c) out) /\
  Forall (genuine_of fo) (_segments_out c) /\ plain_conn c.

Lemma cinv_genuine c out : cinv fo fi cp c out -> Forall (genuine_of fo) out.
Proof. intros [(a & fin & una & _ & (Hg & _)) _ _]. by apply Forall_app in Hg as [? _]. Qed.

Lemma result_behind q c' out :
  result_ok fo fi cp out c' -> Forall (genuine_of fo) q -> plain_conn (behind q c') -> conn_ok (behind q c').
Proof.
  intros [Hc _] Hq Hp. split; [by exists (out ++ _segments_out c') |]. split; [| done].
  apply Forall_app. split; [done |]. by apply cinv_genuine, Forall_app in Hc as [_ ?].
Qed.

(** A call that succeeds with an empty queue succeeds with any. *)
Lemma call_ok (f : t -> outcome t) c :
  conn_ok c ->
  (forall out, cinv fo fi cp (with_segments_out [] c) out ->
     exists c', f (with_segments_out [] c) = Ret c' /\ result_ok fo fi cp out c') ->
  (forall q, f (with_segments_out q c) = (c' ← f (with_segments_out [] c); Ret (behind q c'))) ->
  (forall c', f c = Ret c' -> plain_conn c -> plain_conn c') ->
  exists c', f c = Ret c' /\ conn_ok c'.
Proof.
  intros ((out & Hc) & Hg & Hp) Hf Hq Hpl. destruct (Hf out Hc) as (c' & Hr & Hok).
  assert (E : f c = Ret (behind (_segments_out c) c')).
  { rewrite Hr in Hq. specialize (Hq (_segments_out c)). by destruct c. }
  exists (behind (_segments_out c) c'). split; [done |]. eapply result_behind; [done | done |]. by apply Hpl.
Qed.

Lemma conn_segment_received c seg :
  conn_ok c -> genuine_of fi seg -> exists c', segment_received seg c = Ret c' /\ conn_ok c' /\ undisturbed c c'.
Proof.
  intros Hc Hg. destruct (call_ok (segment_received seg) c) as (c' & Hr & Hok); [done | | | |].
  - intros out Ho. by apply segment_received_ok.
  - intros q. apply segment_received_behind.
  - intros c' Hr. by apply segment_received_harmless in Hr as [_ ?].
  - exists c'. split_and!; [done | done |]. by apply segment_received_harmless in Hr as [? _].
Qed.

Lemma conn_connect c : conn_ok c -> exists c', connect c = Ret c' /\ conn_ok c' /\ undisturbed c c'.
Proof.
  intros Hc. destruct (call_ok connect c) as (c' & Hr & Hok); [done | | | |].
  - intros out Ho. by apply connect_ok.
  - intros q. apply connect_behind.
  - intros c' Hr. by apply connect_harmless in Hr as [_ ?].
  - exists c'. split_and!; [done | done |]. by apply connect_harmless in Hr as [? _].
Qed.

Lemma conn_tick c ms : conn_ok c -> conn_ok (tick ms c) /\ undisturbed c (tick ms c).
Proof.
  intros ((out & Hc) & Hg & Hp). destruct (tick_harmless ms c) as [Hu Hpl]. split; [| done].
  specialize (Hpl Hp).
  assert (Hok : result_ok fo fi cp out (tick ms (with_segments_out [] c))) by (by apply tick_ok).
  assert (E : c = with_segments_out (_segments_out c) c) by (by destruct c).
  destruct (tick_behind ms (_segments_out c) c) as [Et | Et]; rewrite <- E in Et; rewrite Et in *.
  - by eapply result_behind.
  - assert (Eb : tick ms (with_segments_out [] c) = behind [] (tick ms (with_segments_out [] c)))
      by (unfold behind; by destruct (tick ms (with_segments_out [] c))).
    rewrite Eb in *. by eapply result_behind.
Qed.

(** *** The outbound stream *)

Lemma outbound_counts c : conn_ok c ->
  let st := TCPSender.stream_in (_sender c) in
  ByteStream.written st = ByteStream.bytes_written st /\ 0 <= ByteStream.bytes_written st <= total_of fo /\
  (ByteStream.input_ended st = true -> ByteStream.bytes_written st = total_of fo) /\
  0 <= ByteStream.remaining_capacity st < 2 ^ 31.
Proof.
  intros ((out & [(a & fin & una & H & _) _ _]) & _). cbn [_sender with_segments_out] in H. cbv zeta.
  destruct (sinv_bytes_read _ _ _ bounds_o _ _ _ _ H) as [_ Hw]. rewrite Hw.
  pose proof (si_hist _ _ _ _ _ _ _ H). pose proof (Zlen_nonneg (ByteStreamSpec.hist a)).
  pose proof (si_repr _ _ _ _ _ _ _ H) as Hr. split_and!; [| lia | lia | | |].
  - unfold TCPSender.stream_in. rewrite (ByteStreamFacts.repr_written _ _ Hr). apply i32_small. lia.
  - unfold ByteStream.input_ended, TCPSender.stream_in. rewrite (ByteStreamFacts.repr_ended _ _ Hr).
    apply (si_ended _ _ _ _ _ _ _ H).
  - unfold ByteStream.remaining_capacity, u64. apply Z.mod_pos_bound. lia.
  - destruct (ByteStreamFacts.repr_buffer_len _ _ Hr). unfold ByteStream.remaining_capacity, TCPSender.stream_in.
    rewrite u64_small by lia. pose proof (Zlen_nonneg (ByteStream.buffer (TCPSender._stream (_sender c)))). lia.
Qed.

(** Reading nothing more, or the next bytes of the stream. *)
Lemma write_stream c data :
  conn_ok c -> Zlen data <= remaining_outbound_capacity c ->
  exists st, ByteStream.write data (TCPSender.stream_in (_sender c)) = Ret (Zlen data, st) /\
    (ByteStream.bytes_written (TCPSender.stream_in (_sender c)) + Zlen data <= total_of fo ->
     ByteStream.bytes_written st = ByteStream.bytes_written (TCPSender.stream_in (_sender c)) + Zlen data) /\
    ByteStream.input_ended st = ByteStream.input_ended (TCPSender.stream_in (_sender c)) /\
    (data = [] -> st = TCPSender.stream_in (_sender c)).
Proof.
  intros Hc Hl. destruct (outbound_counts c Hc) as (Hw & Hb & _ & Hr). unfold remaining_outbound_capacity in Hl.
  set (s := TCPSender.stream_in (_sender c)) in *. unfold ByteStream.write.
  destruct (Z.leb_spec (Zlen data) (ByteStream.remaining_capacity s)); [| lia].
  eexists. split_and!; [reflexivity | | done |].
  - intros Ht. pose proof (Zlen_nonneg data). unfold ByteStream.bytes_written at 1. cbn [ByteStream.written].
    rewrite i32_small, u64_small by lia. lia.
  - intros ->. destruct s. cbn in *. rewrite Z.add_0_r, app_nil_r. f_equal. apply i32_small. lia.
Qed.

Lemma conn_write c data :
  conn_ok c -> Zlen data <= remaining_outbound_capacity c ->
  (data <> [] -> ByteStream.input_ended (TCPSender.stream_in (_sender c)) = false) ->
  agrees (bytes_of fo) (ByteStream.bytes_written (TCPSender.stream_in (_sender c))) data ->
  ByteStream.bytes_written (TCPSender.stream_in (_sender c)) + Zlen data <= total_of fo ->
  exists c', write data c = Ret (Zlen data, c') /\ conn_ok c' /\ inbound_stream c' = inbound_stream c /\
    ByteStream.bytes_written (TCPSender.stream_in (_sender c')) =
      ByteStream.bytes_written (TCPSender.stream_in (_sender c)) + Zlen data /\
    ByteStream.input_ended (TCPSender.stream_in (_sender c')) = ByteStream.input_ended (TCPSender.stream_in (_sender c)).
Proof.
  intros Hc Hl Hend Hd Ht. destruct (write_stream c data Hc Hl) as (st & Hw & Hb & He & Hn). specialize (Hb Ht).
  assert (Hs : forall out, cinv fo fi cp (with_segments_out [] c) out ->
    sok (bytes_of fo) (total_of fo) (isn_of fo) (TCPSender.with_stream st (_sender c)) out).
  { intros out [Hs _ _]. cbn [_sender with_segments_out] in Hs. destruct (decide (data = [])) as [->|Hne].
    - rewrite Hn by done. by destruct (_sender c).
    - destruct (sok_write _ _ _ bounds_o _ _ data Hs (Hend Hne) Hd Ht) as (n & st' & Hw' & Hs').
      change (TCPSender._stream (_sender c)) with (TCPSender.stream_in (_sender c)) in Hw'.
      rewrite Hw in Hw'. by injection Hw' as <- <-. }
  set (f := fun c => s ← TCPSender.fill_window (TCPSender.with_stream st (_sender c)); Ret (seg_2_seg (with_sender s c))).
  destruct (call_ok f c Hc) as (c' & Hr & Hok).
  - intros out Ho. destruct (sok_fill _ _ _ bounds_o _ _ (Hs out Ho)) as (s' & Hf & Hs'). unfold f.
    cbn [_sender with_segments_out]. rewrite Hf. eexists. split; [reflexivity |]. apply seg_2_seg_ok; [done | done |].
    apply Ho.
  - intros q. exact (fill_behind (fun s => TCPSender.fill_window (TCPSender.with_stream st s)) q c).
  - intros c' (s & Hf & [= <-])%bind_Ret [Hp Hq]. apply seg_2_seg_harmless. split; [| done]. cbn [_sender with_sender].
    by apply fill_sends in Hf as [_ Hf]; apply Hf.
  - exists c'. unfold write. rewrite Hw. cbn [mbind outcome_bind]. revert Hr. unfold f.
    intros (s & Hf & [= <-])%bind_Ret. rewrite Hf. cbn [mbind outcome_bind].
    apply fill_sends in Hf as [(H1 & H2 & _) _]. split_and!; [done | done | done | |];
      change (TCPSender.stream_in (_sender (seg_2_seg (with_sender s c)))) with (TCPSender.stream_in s).
    + rewrite <- Hb. unfold ByteStream.bytes_written. by rewrite H1.
    + by rewrite <- He.
Qed.

Lemma conn_end_input c :
  conn_ok c -> ByteStream.bytes_written (TCPSender.stream_in (_sender c)) = total_of fo ->
  exists c', end_input_stream c = Ret c' /\ conn_ok c' /\ inbound_stream c' = inbound_stream c /\
    ByteStream.bytes_written (TCPSender.stream_in (_sender c')) = total_of fo /\
    ByteStream.input_ended (TCPSender.stream_in (_sender c')) = true.
Proof.
  intros Hc Ht. destruct (call_ok end_input_stream c Hc) as (c' & Hr & Hok).
  - intros out Ho. by apply end_input_stream_ok.
  - intros q. apply end_input_behind.
  - intros c' (s & Hf & [= <-])%bind_Ret [Hp Hq]. apply seg_2_seg_harmless. split; [| done]. cbn [_sender with_sender].
    by apply fill_sends in Hf as [_ Hf]; apply Hf.
  - exists c'. split; [done |]. split; [done |]. revert Hr. unfold end_input_stream.
    intros (s & Hf & [= <-])%bind_Ret. apply fill_sends in Hf as [(H1 & H2 & _) _]. split_and!; [done | |];
      change (TCPSender.stream_in (_sender (seg_2_seg (with_sender s c)))) with (TCPSender.stream_in s).
    + rewrite <- Ht. unfold ByteStream.bytes_written. by rewrite H1.
    + done.
Qed.

(** *** The inbound stream *)

(** Unread: the bytes of the peer after those that were read, the rest of
    its stream once the stream has ended. *)
Lemma inbound_counts c : conn_ok c ->
  let st := inbound_stream c in
  agrees (bytes_of fi) (ByteStream.bytes_read st) (ByteStream.buffer st) /\
  0 <= ByteStream.bytes_read st /\ ByteStream.bytes_read st + Zlen (ByteStream.buffer st) <= total_of fi /\
  (ByteStream.input_ended st = true -> ByteStream.bytes_read st + Zlen (ByteStream.buffer st) = total_of fi).
Proof.
  intros ((out & [_ _ (a & Hi & _)]) & _). cbn [_receiver with_segments_out] in Hi. cbv zeta.
  pose proof (invl_inv _ _ _ _ _ Hi) as I. pose proof (inv_repr _ _ _ I) as Hr.
  assert (Hh : Zlen (ByteStreamSpec.hist a) <= total_of fi) by (eapply (invl_hist (bytes_of fi) cp (total_of fi)); [lia | exact Hi]). destruct (ByteStreamFacts.repr_buffer_len _ _ Hr) as (Hbl & Hb1 & Hb2).
  change (StreamReassembler._output (TCPReceiver._reassembler (_receiver c))) with (inbound_stream c) in *.
  assert (Hrd : ByteStream.bytes_read (inbound_stream c) = Z.of_nat (ByteStreamSpec.nread a)).
  { apply ByteStreamFacts.repr_bytes_read; [done |]. lia. }
  rewrite Hrd, Hbl. split_and!; [| lia | lia |].
  - rewrite (ByteStreamFacts.repr_buffer _ _ Hr). unfold ByteStreamSpec.unread.
    pose proof (agrees_drop _ _ (ByteStreamSpec.nread a) _ (inv_prefix _ _ _ I)) as Hd. by rewrite Z.add_0_l in Hd.
  - unfold ByteStream.input_ended. rewrite (ByteStreamFacts.repr_ended _ _ Hr). intros He.
    apply (invl_ended _ _ _ _ _ Hi) in He as [_ He]. lia.
Qed.

Lemma conn_pop c n :
  conn_ok c -> 0 <= n <= Zlen (ByteStream.buffer (inbound_stream c)) ->
  exists st, ByteStream.pop_output n (inbound_stream c) = Ret st /\
    conn_ok (with_receiver (TCPReceiver.with_stream st (_receiver c)) c) /\
    ByteStream.bytes_read st = ByteStream.bytes_read (inbound_stream c) + n /\
    ByteStream.error st = ByteStream.error (inbound_stream c) /\
    ByteStream.input_ended st = ByteStream.input_ended (inbound_stream c) /\
    ByteStream.buffer st = drop (Z.to_nat n) (ByteStream.buffer (inbound_stream c)).
Proof.
  intros Hc Hn. destruct (inbound_counts c Hc) as (_ & H0 & Ht & _). pose proof Hc as ((out & [Hs Hq Hr]) & Hg & Hp).
  destruct (rcv_ok_read _ _ _ _ bounds_i _ n Hr) as (d & st & Hrd & Hr'); [unfold in_bits; lia |].
  change (TCPReceiver.stream_out _) with (inbound_stream c) in Hrd. revert Hrd. unfold ByteStream.read.
  destruct (Z.gtb_spec n (Zlen (ByteStream.buffer (inbound_stream c)))); [lia |].
  rewrite i32_small, u64_small by lia. intros (r & _ & (s' & Hpop & [= _ <-])%bind_Ret)%bind_Ret.
  exists s'. split; [done |]. split; [by split; [exists out; constructor |] |].
  revert Hpop. unfold ByteStream.pop_output. rewrite substr_suffix by lia. cbn [mbind outcome_bind]. intros [= <-].
  split_and!; [| done | done | done]. unfold ByteStream.bytes_read in *. cbn [ByteStream.total_read].
  set (tr := ByteStream.total_read (inbound_stream c)) in *. rewrite <- i32_u64.
  replace (u64 (tr + n)) with (u64 tr + n).
  - rewrite i32_small, u64_small by lia. done.
  - unfold u64 in *. rewrite <- Z.add_mod_idemp_l by lia. by rewrite (Z.mod_small (_ + n)) by lia.
Qed.

End Owner.

End EffectFacts.
