(* ===== verification/tcp_sponge_socket_proofs.v ===== *)
(** * tcp_sponge_socket: the socket serves its owner

    Three contracts meet here: the event loop's (eventloop.v), the
    connection's (tcp_connection_effects.v), and the one stated below for the
    adapter, its device and the world outside the thread.  From them: no
    round of the socket's loop throws anything but a system call's error, the
    owner reads the peer's stream and nothing else, and what the owner writes
    enters the connection in order. *)

From S2P Require Import Prelude byte_stream wrapping_integers buffer tcp_segment tcp_config tcp_receiver tcp_sender tcp_state tcp_connection tcp_connection_proofs tcp_connection_effects address fd_adapter kernel file_descriptor socket eventloop tcp_sponge_socket.

Module SpongeFacts.
Import ConnectionFacts EffectFacts FileDescriptorFacts EventLoopFacts TCPSpongeSocket.

(** ** Contracts *)

Section Contracts.
Context {A In Out K : Type} {AdI : FdAdapter A In Out} {KeI : Kernel K} {KeL : KernelLaws K}
  {DvI : Device K In Out} {OwI : OwnerThread K}.
(** The streams in both directions; what is known of the world, the last time
    its clock showed, what is known of what the device delivers and takes and
    of the adapter; the descriptor shared with the owner. *)
Context (fo fi : flow) (cp : nat) (E : K -> Prop) (shown : K -> Z) (arrives : In -> Prop) (writable : Out -> Prop) (Aok : A -> Prop) (tfd : Z).

(** The owner writes the stream of [fo] and then shuts down; a descriptor
    reports nothing but a hangup only when all of it was read. *)
Record world_ok : Prop := {
  w_read n k d k' : E k -> sys_read tfd n k = (SysOk d, k') ->
    E k' /\ shown k' = shown k /\ agrees (bytes_of fo) (Zlen (kin tfd k)) d /\ Zlen (kin tfd k) + Zlen d <= total_of fo /\
    (0 < n -> d = [] -> Zlen (kin tfd k) = total_of fo);
  w_writev iov k n k' : E k -> sys_writev tfd iov k = (SysOk n, k') -> E k' /\ shown k' = shown k;
  w_shutdown fd how k u k' : E k -> sys_shutdown fd how k = (SysOk u, k') -> E k' /\ shown k' = shown k;
  w_poll fds ms k r k' : E k -> sys_poll fds ms k = (r, k') -> E k' /\ shown k' = shown k;
  w_hup fds ms k n revents k' i rev : E k -> sys_poll fds ms k = (SysOk (n, revents), k') ->
    fds !! i = Some (tfd, EventLoop.POLLIN) -> revents !! i = Some rev -> hung_up EventLoop.POLLIN rev ->
    Zlen (kin tfd k) = total_of fo;
  w_now k t k' : E k -> sys_now k = (t, k') -> E k' /\ shown k' = t /\ shown k <= t /\ 0 <= t < 2 ^ 63;
}.

(** The owner's descriptor is untouched by the device. *)
Definition apart (k k' : K) : Prop := (kin tfd k' = kin tfd k /\ kout tfd k' = kout tfd k) /\ shown k' = shown k.

Record device_ok : Prop := {
  d_read w k : E k -> FileDescriptor.fd_num w <> tfd ->
    ends (fun '(i, w', k') => E k' /\ arrives i /\ apart k k' /\ same_fd w w' /\
      FileDescriptor.read_count w' = u32 (FileDescriptor.read_count w + 1)) (dev_read w k);
  d_write o w k : E k -> FileDescriptor.fd_num w <> tfd -> writable o ->
    ends (fun '(w', k') => E k' /\ apart k k' /\ same_fd w w' /\
      FileDescriptor.read_count w' = FileDescriptor.read_count w) (dev_write o w k);
}.

(** What arrives is ignored or a segment of the peer; what the connection
    sends can be sent. *)
Record adapter_ok : Prop := {
  a_read i a : Aok a -> arrives i ->
    ends (fun '(seg, a', out) => Aok a' /\ (forall g, seg = Some g -> genuine_of fi g) /\ Forall writable out) (ad_read i a);
  a_write seg a : Aok a -> genuine_of fo seg -> plain seg ->
    ends (fun '(a', out) => Aok a' /\ Forall writable out) (ad_write seg a);
  a_tick ms a : Aok a -> 0 <= ms < 2 ^ 63 -> ends (fun '(a', out) => Aok a' /\ Forall writable out) (ad_tick ms a);
}.

Abbreviation sock := (TCPSpongeSocket.t A K).

(** What the owner and the connection have exchanged. *)
Record served (s : sock) (c : TCPConnection.t) : Prop := {
  sv_in : Zlen (kin tfd (kernel s)) = ByteStream.bytes_written (TCPSender.stream_in (TCPConnection._sender c));
  sv_in_stream : agrees (bytes_of fo) 0 (kin tfd (kernel s));
  sv_eof : FileDescriptor.eof (_thread_data s) = true -> Zlen (kin tfd (kernel s)) = total_of fo;
  sv_out : Zlen (kout tfd (kernel s)) = ByteStream.bytes_read (TCPConnection.inbound_stream c);
  sv_out_stream : agrees (bytes_of fi) 0 (kout tfd (kernel s));
  sv_shut : _inbound_shutdown s = true ->
    ByteStream.error (TCPConnection.inbound_stream c) = true \/ Zlen (kout tfd (kernel s)) = total_of fi;
}.

Record sock_inv (s : sock) : Prop := {
  si_thread : FileDescriptor.fd_num (_thread_data s) = tfd;
  si_open : FileDescriptor.closed (_thread_data s) = false;
  si_adapter_fd : FileDescriptor.fd_num (_adapter_fd s) <> tfd;
  si_world : E (kernel s);
  si_adapter : Aok (_datagram_adapter s);
  si_tcp : exists c, _tcp s = Some c /\ conn_ok fo fi cp c /\ served s c;
}.

(** Histories grow; the owner's stops at the end of its stream. *)
Record later (s s' : sock) : Prop := {
  l_thread : FileDescriptor.fd_num (_thread_data s') = FileDescriptor.fd_num (_thread_data s);
  l_adapter : FileDescriptor.fd_num (_adapter_fd s') = FileDescriptor.fd_num (_adapter_fd s);
  l_in : kin tfd (kernel s) `prefix_of` kin tfd (kernel s');
  l_out : kout tfd (kernel s) `prefix_of` kout tfd (kernel s');
  l_end : Zlen (kin tfd (kernel s)) = total_of fo -> Zlen (kin tfd (kernel s')) = total_of fo;
  l_clock : shown (kernel s') = shown (kernel s);
}.

#[export] Instance later_preorder : PreOrder later.
Proof.
  split; [done |]. intros x y z [] []. constructor; [congruence | congruence | by etransitivity | by etransitivity | auto | congruence].
Qed.

(** Nothing more will come from the owner. *)
Definition gone (r : EventLoop.Rule sock) (s : sock) : Prop :=
  EventLoop.direction r = EventLoop.In -> FileDescriptor.fd_num (EventLoop.fd r s) = tfd ->
  Zlen (kin tfd (kernel s)) = total_of fo.

(** A step that only involves the device and the adapter. *)
Record outside (s s' : sock) : Prop := {
  o_thread : _thread_data s' = _thread_data s;
  o_tcp : _tcp s' = _tcp s;
  o_shut : _inbound_shutdown s' = _inbound_shutdown s;
  o_fd : FileDescriptor.fd_num (_adapter_fd s') = FileDescriptor.fd_num (_adapter_fd s);
  o_apart : apart (kernel s) (kernel s');
  o_world : E (kernel s');
  o_adapter : Aok (_datagram_adapter s');
}.

Lemma outside_later s s' : outside s s' -> later s s'.
Proof. intros [H1 _ _ H4 [[H5 H6] H7] _ _]. constructor; [by rewrite H1 | done | by rewrite H5 | by rewrite H6 | by rewrite H5 | done]. Qed.

Lemma served_outside s s' c : outside s s' -> served s c -> served s' c.
Proof. intros [H1 _ H3 _ [[H5 H6] _] _ _] []. constructor; rewrite ?H1, ?H3, ?H5, ?H6; done. Qed.

Lemma outside_inv s s' : sock_inv s -> outside s s' -> sock_inv s'.
Proof.
  intros [G1 G2 G3 G4 G5 (c & Hc & Hok & Hv)] Ho. pose proof Ho as [H1 H2 H3 H4 _ ? ?].
  constructor; [by rewrite H1 | by rewrite H1 | by rewrite H4 | done | done |].
  exists c. rewrite H2. split_and!; [done | done |]. by eapply served_outside.
Qed.

#[local] Hint Resolve outside_later : core.

Context (W : world_ok) (D : device_ok) (AD : adapter_ok).

Lemma dev_writes_ok out w k :
  Forall writable out -> E k -> FileDescriptor.fd_num w <> tfd ->
  ends (fun '(w', k') => E k' /\ apart k k' /\ same_fd w w' /\
    FileDescriptor.read_count w' = FileDescriptor.read_count w) (dev_writes out w k).
Proof.
  revert w k. induction out as [|o out IH]; intros w k Hw HE Hfd; cbn [dev_writes]; [by apply ends_Ret |].
  inversion Hw; subst. eapply ends_bind; [by apply (d_write D) |].
  intros [w1 k1] (HE1 & [[Ha1 Ha2] Ha3] & Hf & Hr). pose proof Hf as [Hn _].
  eapply ends_impl; [apply IH; [done | done | congruence] |].
  intros [w2 k2] (HE2 & [[Hb1 Hb2] Hb3] & Hf2 & Hr2).
  split_and!; [done | split; [split |]; congruence | by etransitivity | congruence].
Qed.

Lemma write_device_ok out s :
  Forall writable out -> E (kernel s) -> Aok (_datagram_adapter s) -> FileDescriptor.fd_num (_adapter_fd s) <> tfd ->
  ends (fun s' => outside s s' /\
    FileDescriptor.read_count (_adapter_fd s') = FileDescriptor.read_count (_adapter_fd s)) (write_device out s).
Proof.
  intros Hw HE HA Hfd. unfold write_device. eapply ends_bind; [by apply dev_writes_ok |].
  intros [w k] (HE' & Ha & [Hf _] & Hr). apply ends_Ret. split; [by constructor | done].
Qed.

Lemma adapter_read_ok s :
  sock_inv s ->
  ends (fun '(seg, s') => outside s s' /\ (forall g, seg = Some g -> genuine_of fi g) /\
    FileDescriptor.read_count (_adapter_fd s') = u32 (FileDescriptor.read_count (_adapter_fd s) + 1)) (adapter_read s).
Proof.
  intros Hi. unfold adapter_read. eapply ends_bind; [apply (d_read D); apply Hi |].
  intros [[i w] k] (HE & Hi' & [[Ha1 Ha2] Ha3] & [Hf _] & Hr). cbn [_datagram_adapter with_adapter_fd].
  eapply ends_bind; [apply (a_read AD); [apply Hi | done] |]. intros [[seg a] out] (HA & Hg & Hw).
  eapply ends_bind; [apply write_device_ok; [done | done | done | cbn; rewrite Hf; apply Hi] |].
  intros s' [[G1 G2 G3 G4 [[G5 G6] G10] G7 G8] G9]. apply ends_Ret. cbn in *.
  split_and!; [constructor; (done || congruence || (split; [split |]; congruence)) | done | congruence].
Qed.

Lemma adapter_write_ok seg s :
  sock_inv s -> genuine_of fo seg -> plain seg -> ends (fun s' => outside s s') (adapter_write seg s).
Proof.
  intros Hi Hg Hp. unfold adapter_write. eapply ends_bind; [apply (a_write AD); [apply Hi | done | done] |].
  intros [a out] (HA & Hw).
  eapply ends_impl; [apply write_device_ok; [done | apply Hi | done | apply Hi] |].
  intros s' [[G1 G2 G3 G4 G5 G6 G7] _]. by constructor.
Qed.

Lemma adapter_tick_ok ms s : sock_inv s -> 0 <= ms < 2 ^ 63 -> ends (fun s' => outside s s') (adapter_tick ms s).
Proof.
  intros Hi Hms. unfold adapter_tick. eapply ends_bind; [apply (a_tick AD); [apply Hi | done] |]. intros [a out] (HA & Hw).
  eapply ends_impl; [apply write_device_ok; [done | apply Hi | done | apply Hi] |].
  intros s' [[G1 G2 G3 G4 G5 G6 G7] _]. by constructor.
Qed.

(** ** The rules *)

Hypothesis isn_o : in_bits 32 (isn_of fo).
Hypothesis isn_i : in_bits 32 (isn_of fi).
Hypothesis bounds_o : 0 <= total_of fo /\ total_of fo + 2 < 2 ^ 31.
Hypothesis bounds_i : 0 <= total_of fi /\ total_of fi + Z.of_nat cp + 2 < 2 ^ 31.

(** A connection that went one call further. *)
Lemma served_undisturbed s c c' : served s c -> undisturbed c c' -> served (with_tcp (Some c') s) c'.
Proof.
  intros [] [U1 U2 U3 U4]. constructor; cbn; rewrite ?U1, ?U3; try done. intros Hs. destruct (sv_shut0 Hs); auto.
Qed.

Lemma inv_with_tcp s c :
  sock_inv s -> conn_ok fo fi cp c -> served (with_tcp (Some c) s) c -> sock_inv (with_tcp (Some c) s).
Proof. intros [] Hc Hv. constructor; try done. by exists c. Qed.

Lemma later_with_tcp s c : later s (with_tcp c s).
Proof. done. Qed.

Lemma segment_in_ok s :
  sock_inv s -> ends (fun s' => sock_inv s' /\ later s s' /\
    FileDescriptor.read_count (_adapter_fd s') = u32 (FileDescriptor.read_count (_adapter_fd s) + 1)) (segment_in s).
Proof.
  intros Hi. unfold segment_in. eapply ends_bind; [by apply adapter_read_ok |]. intros [seg s1] (Ho & Hg & Hr).
  pose proof (outside_inv _ _ Hi Ho) as Hi1.
  apply (ends_bind (fun s2 => sock_inv s2 /\ later s s2 /\ _adapter_fd s2 = _adapter_fd s1)).
  - destruct seg as [seg|]; [| apply ends_Ret; split_and!; [done | by apply outside_later | done]].
    pose proof Hi1 as [_ _ _ _ _ (c & Hc & Hok & Hv)]. unfold tcp. rewrite Hc. cbn [mbind outcome_bind].
    destruct (conn_segment_received fo fi cp isn_o isn_i bounds_o bounds_i c seg Hok (Hg _ eq_refl)) as (c' & -> & Hok' & Hu).
    apply ends_Ret. split_and!; [apply inv_with_tcp; [done | done |]; by eapply served_undisturbed | | done].
    etransitivity; [by apply outside_later | apply later_with_tcp].
  - intros s2 (Hi2 & Hl & Hfd). rewrite <- Hfd in Hr.
    assert (Hdone : forall b : bool, ends (fun s' => sock_inv s' /\ later s s' /\ FileDescriptor.read_count (_adapter_fd s') =
        u32 (FileDescriptor.read_count (_adapter_fd s) + 1)) (if b then Ret (set_fully_acked s2) else Ret s2)).
    { intros []; apply ends_Ret; [| done]. split_and!; [| by etransitivity; [exact Hl |] | done].
      destruct Hi2 as [? ? ? ? ? (c & ? & ? & [])]. constructor; try done. exists c. by split_and!. }
    destruct (FileDescriptor.eof (_thread_data s2)); [| apply (Hdone false)].
    pose proof Hi2 as [_ _ _ _ _ (c & Hc & _)]. unfold tcp_value. rewrite Hc. apply Hdone.
Qed.

Lemma end_outbound_ok s :
  sock_inv s -> Zlen (kin tfd (kernel s)) = total_of fo ->
  ends (fun s' => sock_inv s' /\ later s s' /\ _thread_data s' = _thread_data s) (end_outbound s).
Proof.
  intros Hi Ht. unfold end_outbound, tcp. pose proof Hi as [H1 H2 H3 H4 H5 (c & Hc & Hok & Hv)]. rewrite Hc. cbn [mbind outcome_bind].
  destruct (conn_end_input fo fi cp bounds_o c Hok) as (c' & -> & Hok' & Hin & Hw & He); [by rewrite <- (sv_in _ _ Hv) |].
  apply ends_Ret. split_and!; [| done | done]. constructor; try done. exists c'. split_and!; [done | done |].
  destruct Hv. constructor; cbn; rewrite ?Hin; try done. by rewrite Hw.
Qed.

Lemma outbound_bytes_ok s :
  sock_inv s -> ends (fun s' => sock_inv s' /\ later s s' /\
    FileDescriptor.read_count (_thread_data s') = u32 (FileDescriptor.read_count (_thread_data s) + 1)) (outbound_bytes s).
Proof.
  intros Hi. pose proof Hi as [H1 H2 H3 H4 H5 (c & Hc & Hok & Hv)].
  unfold outbound_bytes, tcp. rewrite Hc. cbn [mbind outcome_bind].
  destruct (outbound_counts fo fi cp bounds_o c Hok) as (_ & Hb & Hend & Hcap).
  eapply ends_bind; [apply fd_read_ok |]. intros [[data w] k] (Hsys & Hlen & Hkin & Hkout & Hq & [Hsf Hsc] & _ & Hrc & Heof).
  rewrite H1 in Hsys, Hkin, Hkout. destruct (w_read W _ _ _ _ H4 Hsys) as (HE & Hsh & Hag & Htot & Hnil).
  assert (Hdl : Zlen data <= TCPConnection.remaining_outbound_capacity c) by lia.
  rewrite (sv_in _ _ Hv) in Hag, Htot, Hnil.
  destruct (conn_write fo fi cp bounds_o c data Hok Hdl) as (c' & -> & Hok' & Hin & Hw & He); [| done | done |].
  { intros Hne. destruct (ByteStream.input_ended _) eqn:Ee; [| done]. rewrite Hend in Htot by done.
    destruct data as [|x data]; [done |]. rewrite Zlen_cons in Htot. pose proof (Zlen_nonneg data). lia. }
  cbn [mbind outcome_bind]. rewrite Z.eqb_refl. cbn [negb].
  set (s1 := with_tcp (Some c') (with_thread_data w k s)).
  assert (Heof' : FileDescriptor.eof w = true -> Zlen (kin tfd k) = total_of fo).
  { rewrite Heof, Hkin, Zlen_app. intros [Hw0 | [Hl0 Hd0]%andb_true_iff]%orb_true_iff.
    - pose proof (sv_eof _ _ Hv Hw0) as Hfull. rewrite (sv_in _ _ Hv) in Hfull |- *. pose proof (Zlen_nonneg data). lia.
    - apply Z.eqb_eq in Hd0. apply Z.gtb_lt in Hl0. rewrite (sv_in _ _ Hv), Hd0, Hnil; [lia | | by apply Zlen_0_nil].
      unfold FileDescriptor.BUFFER_SIZE. lia. }
  assert (Hi1 : sock_inv s1).
  { constructor; [cbn; congruence | cbn; congruence | done | done | done |]. exists c'. split_and!; [done | done |].
    destruct Hv. constructor; cbn; rewrite ?Hin, ?Hw, ?Hkin, ?Hkout; try done.
    - rewrite Zlen_app. lia.
    - apply agrees_app. split; [done |]. by rewrite Z.add_0_l, sv_in0.
    - intros Hw0. by rewrite <- Hkin, Heof'. }
  assert (Hl1 : later s s1).
  { constructor; cbn; [congruence | done | rewrite Hkin; by apply prefix_app_r | by rewrite Hkout | | done].
    rewrite Hkin, Zlen_app, (sv_in _ _ Hv). pose proof (Zlen_nonneg data). lia. }
  destruct (FileDescriptor.eof (_thread_data s1)) eqn:Ee; [| by apply ends_Ret].
  eapply ends_impl; [apply end_outbound_ok; [done | by apply Heof'] |].
  intros s' (? & ? & Htd). split_and!; [done | by etransitivity | by rewrite Htd].
Qed.

Lemma shutdown_ok how w k :
  E k -> (how =? Socket.SHUT_WR) || (how =? Socket.SHUT_RDWR) = true ->
  ends (fun '(w', k') => E k' /\ apart k k' /\ same_fd w w' /\ FileDescriptor.eof w' = FileDescriptor.eof w /\
    FileDescriptor.write_count w' = u32 (FileDescriptor.write_count w + 1)) (Socket.shutdown how w k).
Proof.
  intros HE Hh. eapply ends_impl; [by apply SocketFacts.shutdown_writes |]. intros [w' k'] ([u Hs] & ? & ? & ?).
  destruct (w_shutdown W _ _ _ _ _ HE Hs). split_and!; try done. split; [exact (shutdown_quiet _ _ _ _ _ tfd Hs) | done].
Qed.

(** Handing [n] bytes of the inbound stream to the owner. *)
Lemma served_pop s c w k n st :
  served s c -> conn_ok fo fi cp c ->
  let buf := ByteStream.buffer (TCPConnection.inbound_stream c) in
  0 <= n <= Zlen buf -> wrote (take (Z.to_nat n) buf) (_thread_data s) (kernel s) w k ->
  FileDescriptor.fd_num (_thread_data s) = tfd ->
  ByteStream.bytes_read st = ByteStream.bytes_read (TCPConnection.inbound_stream c) + n ->
  ByteStream.error st = ByteStream.error (TCPConnection.inbound_stream c) ->
  let c' := TCPConnection.with_receiver (TCPReceiver.with_stream st (TCPConnection._receiver c)) c in
  served (with_tcp (Some c') (with_thread_data w k s)) c'.
Proof.
  intros [] Hok buf Hn (Hko & Hki & _ & [Hf _] & He & _) Hfd Hr Herr c'. rewrite Hfd in Hko, Hki.
  destruct (inbound_counts fo fi cp bounds_i c Hok) as (Hag & H0 & Htot & _). fold buf in Hag, Htot.
  assert (Hl : Zlen (take (Z.to_nat n) buf) = n) by (zlen; lia).
  constructor; cbn; rewrite ?Hki, ?Hko, ?Zlen_app, ?Hl, ?He; try done.
  - change (TCPConnection.inbound_stream c') with st. lia.
  - apply agrees_app. split; [done |]. rewrite Z.add_0_l, sv_out0. by apply agrees_take.
  - intros Hs. change (TCPConnection.inbound_stream c') with st. rewrite Herr.
    destruct (sv_shut0 Hs) as [|Hfull]; [by left | right]. lia.
Qed.

Lemma inbound_bytes_ok s :
  sock_inv s -> ends (fun s' => sock_inv s' /\ later s s' /\
    FileDescriptor.write_count (_thread_data s') <> FileDescriptor.write_count (_thread_data s)) (inbound_bytes s).
Proof.
  intros Hi. pose proof Hi as [H1 H2 H3 H4 H5 (c & Hc & Hok & Hv)].
  unfold inbound_bytes, tcp. rewrite Hc. cbn [mbind outcome_bind].
  set (st := TCPConnection.inbound_stream c). pose proof (Zlen_nonneg (ByteStream.buffer st)) as Hnn.
  unfold ByteStream.peek_output, ByteStream.buffer_size. rewrite substr_prefix by lia. cbn [mbind outcome_bind].
  set (buf := take _ (ByteStream.buffer st)).
  assert (Hbl : Zlen buf = Z.min 65536 (Zlen (ByteStream.buffer st))) by (unfold buf; zlen; lia).
  eapply ends_bind.
  { eapply (ends_and _ (fun '(_, _, k') => E k' /\ shown k' = shown (kernel s))); [apply write_some_ok; cbn; rewrite app_nil_r; lia |].
    intros [[n w] k]. apply (write_loop_keeps (fun k' => E k' /\ shown k' = shown (kernel s))); [| done]. rewrite H1.
    intros iov k1 n1 k2 [HE1 <-]. by apply (w_writev W). }
  intros [[n w] k] [(Hn & _ & Hw & Hwc) [HE Hsh]]. cbn [concat BufferViewList.of_string] in Hn, Hw. rewrite app_nil_r in Hn, Hw.
  assert (Hbuf : take (Z.to_nat n) buf = take (Z.to_nat n) (ByteStream.buffer st))
    by (unfold buf; rewrite take_take; f_equal; lia). rewrite Hbuf in Hw.
  destruct (conn_pop fo fi cp bounds_i c n Hok) as (st' & Hpop & Hok' & Hr & He & Hie & Hb'); [fold st; lia |].
  fold st in Hpop. rewrite Hpop. cbn [mbind outcome_bind].
  set (c' := TCPConnection.with_receiver _ c) in *. set (s1 := with_tcp (Some c') (with_thread_data w k s)).
  assert (Hv1 : served s1 c') by (apply (served_pop s c w k n); try done; fold st; lia).
  pose proof Hw as (Hko & Hki & _ & [Hsf Hsc] & Heof & _). rewrite H1 in Hko, Hki.
  assert (Hi1 : sock_inv s1).
  { constructor; [cbn; congruence | cbn; congruence | done | done | done |]. by exists c'. }
  assert (Hl1 : later s s1).
  { constructor; cbn; [congruence | done | by rewrite Hki | rewrite Hko; by apply prefix_app_r | by rewrite Hki | done]. }
  destruct (ByteStream.eof st' || ByteStream.error st') eqn:Eend.
  - eapply ends_bind; [by apply shutdown_ok |]. intros [w2 k2] (HE2 & [[Ha1 Ha2] Ha3] & [Hf2 Hc2] & He2 & Hwc2).
    apply ends_Ret. cbn in Hf2, Hc2, Ha1, Ha2, Ha3, He2, Hwc2. split_and!; [| | cbn; rewrite Hwc2, Hwc; apply u32_succ2_neq].
    + constructor; [cbn; congruence | cbn; congruence | done | done | done |]. exists c'. split_and!; [done | done |].
      destruct Hv1. constructor; cbn in *; rewrite ?Ha1, ?Ha2, ?He2; try done. intros _.
      apply orb_true_iff in Eend as [[Hie' Hb]%andb_true_iff | Herr]; [right | by left].
      destruct (inbound_counts fo fi cp bounds_i c' Hok') as (_ & _ & _ & Hfull).
      change (TCPConnection.inbound_stream c') with st' in *. rewrite sv_out0, <- Hfull by done.
      apply Z.eqb_eq in Hb. lia.
    + etransitivity; [exact Hl1 |]. constructor; cbn; [congruence | done | by rewrite Ha1 | by rewrite Ha2 | by rewrite Ha1 | done].
  - apply ends_Ret. split_and!; [done | done |]. cbn. rewrite Hwc. apply u32_succ_neq.
Qed.

Lemma send_queue_ok q s :
  sock_inv s -> (exists c, _tcp s = Some c /\ TCPConnection._segments_out c = q) ->
  ends (fun s' => sock_inv s' /\ later s s' /\ segments_interest s' = Ret false) (send_queue q s).
Proof.
  revert s. induction q as [|seg q IH]; intros s Hi (c & Hc & Hq); cbn [send_queue].
  { apply ends_Ret. split_and!; [done | done |]. unfold segments_interest, tcp. rewrite Hc. cbn.
    unfold TCPConnection.segments_out. by rewrite Hq. }
  pose proof Hi as [_ _ _ _ _ (c0 & Hc0 & Hok & Hv)]. rewrite Hc in Hc0. injection Hc0 as <-.
  pose proof Hok as (Hinv & Hg & Hp1 & Hp2). rewrite Hq in Hg, Hp2. inversion Hg; subst. inversion Hp2; subst.
  eapply ends_bind; [by apply adapter_write_ok |]. intros s1 Ho. unfold tcp. rewrite (o_tcp _ _ Ho), Hc. cbn [mbind outcome_bind].
  set (c' := TCPConnection.with_segments_out q c).
  assert (Hok' : conn_ok fo fi cp c') by (split; [exact Hinv | split; [done | by split]]).
  eapply ends_impl; [apply IH; [| by exists c'] |].
  - apply inv_with_tcp; [by eapply outside_inv | done |]. by apply (served_undisturbed _ c); [eapply served_outside |].
  - intros s' (? & ? & ?). split_and!; [done | | done].
    etransitivity; [by apply outside_later |]. by etransitivity; [apply later_with_tcp |].
Qed.

Lemma segments_out_ok s :
  sock_inv s -> ends (fun s' => sock_inv s' /\ later s s' /\ segments_interest s' = Ret false) (segments_out s).
Proof.
  intros Hi. pose proof Hi as [_ _ _ _ _ (c & Hc & _)]. unfold segments_out, tcp. rewrite Hc. cbn [mbind outcome_bind].
  apply send_queue_ok; [done |]. by exists c.
Qed.

(** ** The loop *)

Lemma polling_ok : poll_ok sock_inv later.
Proof.
  intros s fds ms ret k Hi Hp. pose proof (poll_quiet _ _ _ _ _ tfd Hp) as [Ha1 Ha2].
  pose proof (w_poll W _ _ _ _ _ (si_world _ Hi) Hp) as [HE Hsh]. destruct Hi as [? ? ? ? ? (c & ? & ? & [])].
  split; [constructor; try done; exists c; split_and!; try done; constructor; cbn; rewrite ?Ha1, ?Ha2; done |].
  constructor; cbn; by rewrite ?Ha1, ?Ha2.
Qed.

(** Every method that looks through [_tcp] finds a connection. *)
Lemma tcp_there {B} (f : TCPConnection.t -> outcome B) s :
  sock_inv s -> (forall c, exists b, f c = Ret b) -> exists b, (c ← tcp s; f c) = Ret b.
Proof. intros [_ _ _ _ _ (c & Hc & _)] Hf. unfold tcp. rewrite Hc. apply Hf. Qed.

Lemma gone_hup r s fds ms n revents k i e rev :
  sock_inv s -> sys_poll fds ms (kern s) = (SysOk (n, revents), k) ->
  fds !! i = Some (FileDescriptor.fd_num (EventLoop.fd r s), e) -> e = EventLoop.events_of (EventLoop.direction r) ->
  revents !! i = Some rev -> hung_up e rev -> EventLoop.fd r (set_kern k s) = EventLoop.fd r s -> gone r (set_kern k s).
Proof.
  intros Hi Hp Hf He Hr Hh Hfd Hd Ht. cbn. destruct (poll_quiet _ _ _ _ _ tfd Hp) as [-> _].
  rewrite Hfd in Ht. rewrite Hd in He. rewrite Ht, He in Hf. rewrite He in Hh.
  eapply (w_hup W); [apply Hi | exact Hp | exact Hf | exact Hr | exact Hh].
Qed.

Lemma gone_later r s s' :
  (FileDescriptor.fd_num (EventLoop.fd r s') = FileDescriptor.fd_num (EventLoop.fd r s)) ->
  later s s' -> gone r s -> gone r s'.
Proof. intros Hf Hl Hg Hd Ht. apply (l_end _ _ Hl), Hg; [done | congruence]. Qed.

(** What the rules have in common; the callback and what a cancellation may
    assume are their own. *)
Lemma socket_rule_ok (r : EventLoop.Rule sock) :
  (EventLoop.fd r = _adapter_fd \/ EventLoop.fd r = _thread_data) ->
  (forall s, sock_inv s -> exists b, EventLoop.interest r s = Ret b) ->
  (forall s, sock_inv s -> ends (fun s' => sock_inv s' /\ later s s' /\
     (EventLoop.service_count r s' <> EventLoop.service_count r s \/ EventLoop.interest r s' = Ret false)) (EventLoop.callback r s)) ->
  (forall s, sock_inv s -> gone r s -> ends (fun s' => sock_inv s' /\ later s s') (EventLoop.cancel r s)) ->
  rule_ok sock_inv later gone r.
Proof.
  intros Hfd Hint Hcb Hcan.
  assert (Hnum : forall s s', later s s' -> FileDescriptor.fd_num (EventLoop.fd r s') = FileDescriptor.fd_num (EventLoop.fd r s))
    by (intros s s' []; by destruct Hfd as [-> | ->]).
  constructor; [done | done | done | | done | | |].
  - intros s s' Hl. apply gone_later; auto.
  - intros s Hi Hd Heof Hd' Hn. destruct Hfd as [E' | E']; rewrite E' in *; [by destruct (si_adapter_fd _ Hi) |].
    pose proof Hi as [_ _ _ _ _ (c & _ & _ & Hv)]. by apply (sv_eof _ _ Hv).
  - intros s Hi Hcl Hd' Hn. destruct Hfd as [E' | E']; rewrite E' in *; [by destruct (si_adapter_fd _ Hi) |].
    by rewrite (si_open _ Hi) in Hcl.
  - intros. eapply gone_hup; try done. by destruct Hfd as [-> | ->].
Qed.

Lemma no_cancel_ok (r : EventLoop.Rule sock) s :
  sock_inv s -> gone r s -> ends (fun s' => sock_inv s' /\ later s s') (EventLoop.no_cancel s).
Proof. intros Hi _. by apply ends_Ret. Qed.

Lemma rules_ok : Forall (rule_ok sock_inv later gone) [rule1; rule2; rule3; rule4].
Proof.
  rewrite !Forall_cons, Forall_nil. split_and!; [| | | | done]; apply socket_rule_ok;
    cbn [EventLoop.fd EventLoop.interest EventLoop.callback EventLoop.cancel rule1 rule2 rule3 rule4];
    try (by auto); try (intros s Hi; apply tcp_there; [done | by eauto]); try (by apply no_cancel_ok).
  - intros s Hi. eapply ends_impl; [by apply segment_in_ok |]. intros s' (? & ? & Hr). split_and!; [done | done | left].
    unfold EventLoop.service_count. cbn. rewrite Hr. apply u32_succ_neq.
  - intros s Hi. eapply ends_impl; [by apply outbound_bytes_ok |]. intros s' (? & ? & Hr). split_and!; [done | done | left].
    unfold EventLoop.service_count. cbn. rewrite Hr. apply u32_succ_neq.
  - intros s Hi Hg. eapply ends_impl; [apply end_outbound_ok; [done | apply Hg; [done | apply Hi]] |].
    intros s' (? & ? & _). done.
  - intros s Hi. eapply ends_impl; [by apply inbound_bytes_ok |]. intros s' (? & ? & Hr). split_and!; [done | done | by left].
  - intros s Hi. eapply ends_impl; [by apply segments_out_ok |]. intros s' (? & ? & Hr). split_and!; [done | done | by right].
Qed.

Lemma wait_ok l s :
  l `sublist_of` [rule1; rule2; rule3; rule4] -> sock_inv s ->
  ends (fun '(_, l', s') => sock_inv s' /\ later s s' /\ l' `sublist_of` [rule1; rule2; rule3; rule4])
    (EventLoop.wait_next_event TCP_TICK_MS l s).
Proof.
  intros Hl Hi. eapply ends_impl; [apply (wait_next_event_ok sock_inv later gone); [apply polling_ok | done |] |].
  - eapply Forall_sublist; [apply rules_ok | done].
  - intros [[res l'] s'] (? & ? & ?). split_and!; [done | done | by etransitivity].
Qed.

(** Looking at the clock changes nothing else. *)
Lemma timestamp_ok s :
  sock_inv s -> let '(t, s') := timestamp_ms s in
  sock_inv s' /\ _tcp s' = _tcp s /\ t = shown (kernel s') /\ shown (kernel s) <= t /\ 0 <= t < 2 ^ 63 /\
  forall c, served s c -> served s' c.
Proof.
  intros Hi. unfold timestamp_ms. destruct (sys_now (kernel s)) as [now k] eqn:En.
  destruct (now_quiet _ _ _ tfd En) as [H1 H2]. destruct (w_now W _ _ _ (si_world _ Hi) En) as (HE & Hs & Hle & Hb).
  assert (Hsv : forall c, served s c -> served (set_kern k s) c)
    by (intros c []; constructor; cbn; by rewrite ?H1, ?H2).
  rewrite u64_small by lia. split_and!; try done; try lia.
  destruct Hi as [? ? ? ? ? (c & ? & ? & Hv)]. constructor; try done. exists c. auto.
Qed.

Lemma pass_time_ok base s :
  sock_inv s -> base = shown (kernel s) -> 0 <= base ->
  ends (fun '(base', s') => sock_inv s' /\ base' = shown (kernel s') /\ 0 <= base') (pass_time base s).
Proof.
  intros Hi -> Hb0. pose proof Hi as [_ _ _ _ _ (c & Hc & Hok & Hv)]. unfold pass_time, tcp_value. rewrite Hc.
  cbn [mbind outcome_bind]. destruct (TCPConnection.active c); [| by apply ends_Ret].
  pose proof (timestamp_ok s Hi) as Ht. destruct (timestamp_ms s) as [now s1].
  destruct Ht as (Hi1 & Htc & -> & Hle & Hb & Hsv). rewrite (u64_small (_ - _)) by lia.
  set (ms := shown (kernel s1) - shown (kernel s)).
  destruct (conn_tick fo fi cp bounds_o c ms Hok) as [Hok' Hu].
  set (s2 := with_tcp _ s1).
  assert (Hi2 : sock_inv s2) by (apply inv_with_tcp; [done | done |]; apply (served_undisturbed _ c); auto).
  eapply ends_bind; [apply adapter_tick_ok; [done | unfold ms; lia] |]. intros s3 Ho. apply ends_Ret.
  split; [by eapply outside_inv |]. destruct (o_apart _ _ Ho) as [_ Hsh]. cbn in Hsh. split; [done | lia].
Qed.

Lemma loop_ok fuel condition base l s :
  l `sublist_of` [rule1; rule2; rule3; rule4] -> (forall s, sock_inv s -> exists b, condition s = Ret b) ->
  sock_inv s -> base = shown (kernel s) -> 0 <= base ->
  safe (fun '(l', s') => l' `sublist_of` [rule1; rule2; rule3; rule4] /\ sock_inv s') (loop fuel condition base l s).
Proof.
  intros Hl Hcond. revert base l s Hl. induction fuel as [|fuel IH]; intros base l s Hl Hi Hb Hb0; [done |]. cbn [loop].
  destruct (Hcond s Hi) as [b ->]. cbn [mbind outcome_bind]. destruct b; cbn [negb]; [| done].
  eapply safe_bind; [by apply wait_ok |]. intros [[res l1] s1] (Hi1 & Hl1 & Hsub).
  destruct (_ || _); [done |]. eapply safe_bind; [apply pass_time_ok; [done | | exact Hb0] |].
  { by rewrite (l_clock _ _ Hl1). }
  intros [base' s2] (Hi2 & Hb2 & Hb20). by apply IH.
Qed.

Lemma tcp_loop_ok fuel condition l s :
  l `sublist_of` [rule1; rule2; rule3; rule4] -> (forall s, sock_inv s -> exists b, condition s = Ret b) -> sock_inv s ->
  safe (fun '(l', s') => l' `sublist_of` [rule1; rule2; rule3; rule4] /\ sock_inv s') (_tcp_loop fuel condition l s).
Proof.
  intros Hl Hcond Hi. unfold _tcp_loop. pose proof (timestamp_ok s Hi) as Ht. destruct (timestamp_ms s) as [now s1].
  destruct Ht as (Hi1 & _ & Hn & _ & Hb & _). apply loop_ok; try done. lia.
Qed.

(** ** Sessions *)

(** A socket that was just constructed. *)
Record fresh (s : sock) : Prop := {
  fr_tcp : _tcp s = None;
  fr_thread : FileDescriptor.fd_num (_thread_data s) = tfd;
  fr_open : FileDescriptor.closed (_thread_data s) = false;
  fr_eof : FileDescriptor.eof (_thread_data s) = false;
  fr_adapter_fd : FileDescriptor.fd_num (_adapter_fd s) <> tfd;
  fr_world : E (kernel s);
  fr_in : kin tfd (kernel s) = [];
  fr_out : kout tfd (kernel s) = [];
  fr_shut : _inbound_shutdown s = false;
}.

(** The configuration and the draw make the connection of [fo] and [cp]. *)
Definition config_ok (cfg : TCPConfig.t) (random_device : Z) : Prop :=
  TCPConfig.recv_capacity cfg = Z.of_nat cp /\ default random_device (TCPConfig.fixed_isn cfg) = isn_of fo /\
  in_bits 16 (TCPConfig.rt_timeout cfg) /\
  exists scp : nat, TCPConfig.send_capacity cfg = Z.of_nat scp /\ Z.of_nat scp < 2 ^ 31.

Lemma conn_ok_make cfg rnd : config_ok cfg rnd -> conn_ok fo fi cp (TCPConnection.make cfg rnd).
Proof.
  intros (H1 & H2 & H3 & scp & H4 & H5).
  destruct (configured_ok fo fi cp bounds_o bounds_i (TCPConnection.make cfg rnd)) as [_ Hinv]; [by exists cfg, rnd, scp |].
  split; [by exists [] |]. split; [done |]. by split.
Qed.

Lemma initialized_ok cfg rnd a s :
  fresh s -> config_ok cfg rnd -> Aok a ->
  sock_inv (with_adapter a (with_tcp (Some (TCPConnection.make cfg rnd)) s)).
Proof.
  intros [] Hc Ha. constructor; try done. exists (TCPConnection.make cfg rnd).
  split_and!; [done | by apply conn_ok_make |].
  constructor; cbn; rewrite ?fr_in0, ?fr_out0, ?fr_eof0, ?fr_shut0; try done; apply agrees_nil.
Qed.

Lemma in_state_there st s : sock_inv s -> exists b, in_state st s = Ret b.
Proof. intros Hi. by apply tcp_there; eauto. Qed.

Lemma accepting_there s : sock_inv s -> exists b, accepting s = Ret b.
Proof. intros Hi. by apply tcp_there; eauto. Qed.

Definition connected_ok (l' : EventLoop.t sock) (s' : sock) : Prop :=
  l' `sublist_of` [rule1; rule2; rule3; rule4] /\ sock_inv s'.

Lemma socket_connect_ok fuel cfg c_ad rnd s :
  fresh s -> config_ok cfg rnd -> Aok (ad_set_config c_ad (_datagram_adapter s)) ->
  safe (fun '(l', s') => connected_ok l' s') (connect fuel cfg c_ad rnd [] s).
Proof.
  intros Hf Hc Ha. unfold connect. rewrite (fr_tcp _ Hf). cbn [bool_decide]. cbv iota zeta beta.
  rewrite bool_decide_false by (by intros [? ?]). unfold _initialize_TCP. cbv iota zeta beta.
  pose proof (initialized_ok cfg rnd _ s Hf Hc Ha) as Hi. set (s1 := with_adapter _ _) in *.
  change (tcp s1) with (Ret (TCPConnection.make cfg rnd)). cbn [mbind outcome_bind].
  pose proof Hc as (_ & Hisn & _).
  destruct (conn_connect fo fi cp bounds_o (TCPConnection.make cfg rnd)) as (c' & Hcon & Hok & Hu);
    [by apply conn_ok_make |].
  rewrite Hcon. cbn [mbind outcome_bind].
  assert (Hst : TCPConnection.state c' = TCPState.of_state TCPState.SYN_SENT).
  { rewrite (handshake_1 cfg rnd (isn_of fo) isn_o Hisn) in Hcon. by injection Hcon as <-. }
  rewrite Hst. change (TCPState.neqb _ _) with false. cbv iota.
  eapply safe_impl; [apply tcp_loop_ok; [done | apply in_state_there |] |].
  - pose proof Hi as [_ _ _ _ _ (c0 & Hc0 & _ & Hv)]. injection Hc0 as <-.
    apply inv_with_tcp; [done | done |]. by eapply served_undisturbed.
  - intros [l' s'] [? ?]. by split.
Qed.

Lemma socket_listen_ok fuel cfg c_ad rnd s :
  fresh s -> config_ok cfg rnd -> Aok (ad_set_listening true (ad_set_config c_ad (_datagram_adapter s))) ->
  safe (fun '(l', s') => connected_ok l' s') (listen_and_accept fuel cfg c_ad rnd [] s).
Proof.
  intros Hf Hc Ha. unfold listen_and_accept. rewrite (fr_tcp _ Hf), bool_decide_false by (by intros [? ?]).
  unfold _initialize_TCP. cbv iota zeta beta.
  eapply safe_impl; [apply tcp_loop_ok; [done | apply accepting_there |] |].
  - exact (initialized_ok cfg rnd _ s Hf Hc Ha).
  - intros [l' s'] [? ?]. by split.
Qed.

(** What the owner has seen and said. *)
Definition owner_view (s : sock) : Prop :=
  agrees (bytes_of fi) 0 (kout tfd (kernel s)) /\ Zlen (kout tfd (kernel s)) <= total_of fi /\
  agrees (bytes_of fo) 0 (kin tfd (kernel s)) /\ Zlen (kin tfd (kernel s)) <= total_of fo.

Lemma inv_view s : sock_inv s -> owner_view s.
Proof.
  intros [_ _ _ _ _ (c & _ & Hok & [])]. destruct (inbound_counts fo fi cp bounds_i c Hok) as (_ & _ & H1 & _).
  destruct (outbound_counts fo fi cp bounds_o c Hok) as (_ & H2 & _). unfold owner_view. rewrite sv_out0, sv_in0.
  pose proof (Zlen_nonneg (ByteStream.buffer (TCPConnection.inbound_stream c))). split_and!; (done || lia).
Qed.

Lemma tcp_main_ok fuel l s :
  connected_ok l s -> safe (fun '(_, s') => owner_view s' /\ _tcp s' = None) (_tcp_main fuel l s).
Proof.
  intros [Hl Hi]. unfold _tcp_main. pose proof Hi as [_ _ _ _ _ (c & Hc & _)]. rewrite Hc, bool_decide_true by done. cbn [negb].
  eapply safe_bind; [apply tcp_loop_ok; [done | by eauto | done] |]. intros [l1 s1] [_ Hi1].
  eapply safe_bind; [apply shutdown_ok; [apply Hi1 | done] |]. intros [w k] (_ & [[H1 H2] _] & _).
  pose proof Hi1 as [_ _ _ _ _ (c1 & Hc1 & _)]. unfold tcp_value. cbn [_tcp with_main]. rewrite Hc1. cbn.
  apply inv_view in Hi1. unfold owner_view in *. cbn in *. by rewrite H1, H2.
Qed.

(** The socket told its owner that the inbound stream is over only after an
    error or when the owner had all of it. *)
Definition eof_honest (s : sock) : Prop :=
  exists c, _tcp s = Some c /\ (_inbound_shutdown s = true ->
    ByteStream.error (TCPConnection.inbound_stream c) = true \/ Zlen (kout tfd (kernel s)) = total_of fi).

Lemma inv_honest s : sock_inv s -> eof_honest s.
Proof. intros [_ _ _ _ _ (c & Hc & _ & [])]. by exists c. Qed.

End Contracts.


End SpongeFacts.
