(* ===== verification/tcp_sponge_socket_run.v ===== *)
(** * tcp_sponge_socket: a session on the concrete kernel

    A socket over a TUN device on the kernel of sim_kernel.v: the owner writes
    three bytes and hangs up, the peer's SYN/ACK and a segment with two bytes
    and a FIN are waiting on the device.  All contracts hold, and the session
    can be run. *)

From S2P Require Import Prelude byte_stream wrapping_integers buffer stream_reassembler stream_reassembler_proofs parser tcp_segment ipv4 tcp_config tcp_receiver tcp_sender tcp_state tcp_connection tcp_connection_proofs tcp_connection_effects address network_interface fd_adapter fd_adapter_proofs kernel file_descriptor socket eventloop sim_kernel tcp_sponge_socket tcp_sponge_socket_proofs tcp_sponge_socket_contracts.

Module SessionRun.
Import ReassemblerFacts ReceiverFacts ConnectionFacts EffectFacts AdapterFacts EventLoopFacts SpongeFacts TCPSpongeSocket ContractFacts SimKernel.

#[global] Instance sim_owner : OwnerThread SimKernel.t := {|
  aborted := SimKernel.abort;
  store_abort k := Sim (descs k) (clock k) (last k) true;
|}.

(** A segment of the peer, as bytes on the TUN device. *)
Definition peer_segment (seqno ackno : Z) (syn fin : bool) (d : bytes) : TCPSegment.t :=
  TCPSegment.mk (TCPHeader.set_ack ackno 8 (TCPHeader.set_fin fin (TCPHeader.set_syn syn
    (TCPHeader.set_seqno seqno TCPHeader.default_)))) (Buffer.of_string d).
Definition packet (seg : TCPSegment.t) : bytes :=
  match TCPOverIPv4OverTunFdAdapter.write seg server_base with Ret (_, o) => BufferList.concatenate o | _ => [] end.

Definition synack_packet : bytes := Eval vm_compute in packet (peer_segment (2 ^ 32 - 1) 6 true false []).
Definition data_packet : bytes := Eval vm_compute in packet (peer_segment 0 6 false true [sample 0; sample 1]).

Definition abc : bytes := [sample 0; sample 1; sample 2].

Definition world0 : SimKernel.t :=
  Sim {[ 3 := Desc [abc] true 2 [] [] [] []; 4 := Desc [synack_packet; data_packet] false 5000 [] [] [] [] ]} 0 0 false.

Definition descriptor (n : Z) : FDWrapper.t := FDWrapper.mk n false false 0 0.
Definition socket0 : TCPSpongeSocket.t FdAdapterBase.t SimKernel.t :=
  TCPSpongeSocket.mk (descriptor 2) (descriptor 3) client_base (descriptor 4) None false false false world0.
Definition cfg : TCPConfig.t := TCPConfig.mk 20 8 8 (Some 5).

(** The owner's descriptor holds the rest of its stream, every other one only
    what may arrive, and the clock runs forward. *)
Definition world (k : SimKernel.t) : Prop :=
  d_hung (at_ 3 k) = true /\ Forall (fun c => c <> []) (d_chunks (at_ 3 k)) /\
  d_in (at_ 3 k) ++ concat (d_chunks (at_ 3 k)) = abc /\
  (forall fd, fd <> 3 -> Forall (fun c => tun_arrives other_flow c /\ Zlen c <= FileDescriptor.BUFFER_SIZE) (d_chunks (at_ fd k))) /\
  0 <= last k <= clock k /\ clock k <= 2 ^ 62.

(** What an adapter takes from a datagram is the segment in it. *)
Lemma unwrap_parsed d a seg a' :
  TCPOverIPv4Adapter.unwrap_tcp_in_ip d a = Ret (Some seg, a') ->
  exists buf, BufferList.to_buffer (IPv4Datagram.payload d) = Ret buf /\
    TCPSegment.parse buf (IPv4Header.pseudo_cksum (IPv4Datagram.header d)) TCPSegment.default_ = Ret (NoError, seg).
Proof.
  unfold TCPOverIPv4Adapter.unwrap_tcp_in_ip. intros (b & _ & H)%bind_Ret.
  destruct (negb b); [done |]. destruct (negb _); [done |].
  apply bind_Ret in H as (buf & Hbuf & H). exists buf. split; [done |].
  apply bind_Ret in H as ((pr & s) & Hp & H). revert H. case_bool_decide as E; cbn [negb]; [subst pr | done].
  intros (sport & _ & H)%bind_Ret. destruct (negb _); [done |]. destruct (_ && _); [done |].
  apply bind_Ret in H as (a1 & _ & (dport & _ & H)%bind_Ret). by destruct (negb _); [done |]; injection H as -> _.
Qed.

Lemma packet_arrives raw d buf seg :
  Zlen raw < 2 ^ 32 ->
  IPv4Datagram.parse (Buffer.of_string raw) IPv4Datagram.default_ = Ret (NoError, d) ->
  BufferList.to_buffer (IPv4Datagram.payload d) = Ret buf ->
  TCPSegment.parse buf (IPv4Header.pseudo_cksum (IPv4Datagram.header d)) TCPSegment.default_ = Ret (NoError, seg) ->
  genuine_of other_flow seg -> tun_arrives other_flow raw.
Proof.
  intros Hl Hd Hb Hp Hg. split; [done |]. intros a seg' a'. unfold TCPOverIPv4OverTunFdAdapter.read. rewrite Hd.
  cbn [mbind outcome_bind]. rewrite bool_decide_true by done. cbn [negb]. intros (buf' & Hb' & Hp')%unwrap_parsed.
  rewrite Hb in Hb'. apply (inj Ret) in Hb' as <-. rewrite Hp in Hp'. by injection Hp' as <-.
Qed.

(** The segment parsed back from a packet. *)
Definition parsed_datagram (raw : bytes) : IPv4Datagram.t :=
  match IPv4Datagram.parse (Buffer.of_string raw) IPv4Datagram.default_ with Ret (_, d) => d | _ => IPv4Datagram.default_ end.
Definition parsed_buffer (raw : bytes) : Buffer.t :=
  match BufferList.to_buffer (IPv4Datagram.payload (parsed_datagram raw)) with Ret buf => buf | _ => Buffer.empty end.
Definition parsed_segment (raw : bytes) : TCPSegment.t :=
  match TCPSegment.parse (parsed_buffer raw) (IPv4Header.pseudo_cksum (IPv4Datagram.header (parsed_datagram raw)))
          TCPSegment.default_ with
  | Ret (_, seg) => seg | _ => TCPSegment.default_
  end.

Ltac arrives_by_running raw :=
  apply (packet_arrives raw (parsed_datagram raw) (parsed_buffer raw) (parsed_segment raw));
  [vm_compute; reflexivity | vm_compute; reflexivity | vm_compute; reflexivity | vm_compute; reflexivity |].

Lemma synack_genuine : genuine_of other_flow (parsed_segment synack_packet).
Proof.
  split; [| split].
  - vm_compute. repeat split; congruence.
  - intros _. vm_compute. reflexivity.
  - intros i. vm_compute. intros [= <-]. left. repeat split; try congruence.
Qed.

Lemma data_genuine : genuine_of other_flow (parsed_segment data_packet).
Proof.
  split; [| split].
  - vm_compute. repeat split; congruence.
  - vm_compute. congruence.
  - intros i Hi. assert (i = 0) as -> by (vm_compute in Hi; congruence). left.
    change (Buffer.str _) with [sample 0; sample 1]. split_and!; [done | done | | done].
    intros [|[|k]] b; [intros [= <-]; vm_compute; reflexivity | intros [= <-]; vm_compute; reflexivity |]. intros Hk. apply lookup_lt_Some in Hk. cbn in Hk. lia.
Qed.

Lemma packets_arrive : tun_arrives other_flow synack_packet /\ tun_arrives other_flow data_packet.
Proof.
  split; [arrives_by_running synack_packet; exact synack_genuine | arrives_by_running data_packet; exact data_genuine].
Qed.

Lemma nothing_arrives : tun_arrives other_flow [].
Proof.
  split; [done |]. intros a seg a'. unfold TCPOverIPv4OverTunFdAdapter.read.
  assert (Hp : match IPv4Datagram.parse (Buffer.of_string []) IPv4Datagram.default_ with
               | Ret (pr, _) => pr <> NoError | _ => True end) by (vm_compute; congruence).
  destruct (IPv4Datagram.parse _ _) as [[pr d] | |]; cbn [mbind outcome_bind]; [| done | done].
  by rewrite bool_decide_false.
Qed.

Lemma world0_ok : world world0.
Proof.
  split_and!; [done | repeat constructor; discriminate | done | | cbn; lia | cbn; lia | cbn; lia].
  - intros fd Hfd. unfold at_, world0. cbn [descs]. rewrite lookup_insert_ne by done.
    destruct (decide (fd = 4)) as [-> | Hne]; [| by rewrite lookup_singleton_ne].
    rewrite lookup_singleton_eq. cbn [default d_chunks id]. destruct packets_arrive.
    repeat apply Forall_cons_2; [split; [done | by vm_compute] | split; [done | by vm_compute] | done].
Qed.

(** The owner's stream is [abc_flow]'s. *)
Lemma abc_agrees : agrees sample 0 abc.
Proof. intros [|[|[|k]]] b Hk; [by injection Hk as <- ..|]. apply lookup_lt_Some in Hk. cbn in Hk. lia. Qed.

Lemma world_update fd d k :
  world k -> d_in d = d_in (at_ fd k) -> d_hung d = d_hung (at_ fd k) -> d_chunks d = d_chunks (at_ fd k) -> world (update fd d k).
Proof.
  intros (H1 & H2 & H3 & H4 & H5) E1 E2 E3. unfold world. rewrite !at_update. cbn [last clock update].
  split_and!; try lia; try (case_decide as Ed; [subst fd |]; congruence).
  intros fd' Hfd'. rewrite at_update. case_decide as Ed; [subst fd' |]; [rewrite E3 |]; auto.
Qed.

Lemma sim_world : world_ok abc_flow world last 3.
Proof.
  constructor.
  - intros n k d k' Hw. pose proof Hw as (H1 & H2 & H3 & H4 & H5 & H6). cbn [sys_read sim_kernel kin sim_laws bytes_of total_of abc_flow].
    unfold read. destruct (d_chunks (at_ 3 k)) as [|c cs] eqn:Ec.
    { rewrite H1. intros [= <- <-]. cbn in H3. rewrite app_nil_r in H3. rewrite H3. split_and!; done || apply agrees_nil. }
    intros [= <- <-]. inversion H2 as [|? ? Hc Hcs]; subst.
    set (t := take (Z.to_nat n) c). set (r := drop (Z.to_nat n) c).
    assert (Hsplit : abc = d_in (at_ 3 k) ++ t ++ r ++ concat cs)
      by (rewrite <- H3; cbn [concat]; unfold t, r; by rewrite (app_assoc (take _ _)), take_drop).
    pose proof abc_agrees as Hag. rewrite Hsplit in Hag. apply agrees_app in Hag as [_ Hag]. apply agrees_app in Hag as [Hag _].
    assert (Hlen : Zlen abc = 3) by done. rewrite Hsplit, !Zlen_app in Hlen.
    pose proof (Zlen_nonneg r). pose proof (Zlen_nonneg (concat cs)).
    split_and!; [| done | done | lia |].
    + unfold world. rewrite at_update. cbn [last clock update]. rewrite decide_True by done. cbn [d_hung d_chunks d_in].
      split_and!; try done; try lia.
      * destruct r eqn:Er; [done |]. constructor; [done | done].
      * rewrite <- app_assoc. rewrite Hsplit. do 2 f_equal. destruct r; [done |]. done.
      * intros fd Hfd. rewrite at_update, decide_False by done. auto.
    + intros Hn Hnil. exfalso. unfold t in Hnil. destruct c; [done |]. destruct (Z.to_nat n) eqn:En; [lia | done].
  - intros iov k n k' Hw [= _ <-]. split; [by apply world_update | done].
  - intros fd how k u k' Hw [= _ <-]. done.
  - intros fds ms k r k' Hw [= _ <-]. destruct (Nat.eqb _ 0); [| done]. split; [| done].
    destruct Hw as (? & ? & ? & ? & ? & ?). unfold world. cbn [last clock]. split_and!; try done; lia.
  - intros fds ms k n revents k' i rev _ [= _ <- _] Hf Hr (Hh & _). exfalso.
    apply list_lookup_fmap_Some in Hr as (p & -> & Hp). pose proof (eq_trans (eq_sym Hf) Hp) as [= <-]. revert Hh.
    unfold SimKernel.revents. cbn [fst snd]. by destruct (d_chunks (at_ 3 k)), (d_hung (at_ 3 k)).
  - intros k t k' Hw [= <- <-]. destruct Hw as (? & ? & ? & ? & ? & ?). unfold world. cbn [last clock].
    split_and!; try done; lia.
Qed.

Lemma sim_device : device_ok world last (tun_arrives other_flow) small 3.
Proof.
  apply fd_device_ok.
  - intros fd k d k' Hfd Hw. cbn [sys_read sim_kernel]. unfold read. pose proof Hw as (H1 & H2 & H3 & H4 & H5 & H6).
    pose proof (H4 fd Hfd) as Hc. destruct (d_chunks (at_ fd k)) as [|c cs] eqn:Ec.
    { destruct (d_hung (at_ fd k)); intros [= <- <-]. split_and!; [done | done | apply nothing_arrives]. }
    inversion Hc as [|? ? [Ha Hl] Hcs]; subst. unfold FileDescriptor.BUFFER_SIZE in *.
    rewrite take_ge, drop_ge by (unfold Zlen in Hl; lia). intros [= <- <-].
    split_and!; [| done | done]. unfold world. rewrite at_update, decide_False by done. cbn [last clock update].
    split_and!; [done | done | done | | lia | lia | lia].
    intros fd' Hfd'. rewrite at_update. case_decide; [by subst | auto].
  - intros fd iov k n k' Hfd Hw [= _ <-]. split; [by apply world_update | done].
Qed.

Lemma socket0_fresh : fresh world 3 socket0.
Proof. constructor; try done. exact world0_ok. Qed.

(** The session: [connect], then the thread. *)
Definition connect0 : outcome (EventLoop.t (TCPSpongeSocket.t FdAdapterBase.t SimKernel.t) * TCPSpongeSocket.t FdAdapterBase.t SimKernel.t) :=
  connect 10 cfg (FdAdapterBase.config client_base) 0 [] socket0.
Definition session0 : outcome (TCPSpongeSocket.t FdAdapterBase.t SimKernel.t) :=
  '(l, s) ← connect0; '(_, s) ← _tcp_main 3000 l s; Ret s.

(** It ends, with the peer's two bytes at the owner and the owner's three in
    the connection. *)
Lemma session0_runs :
  match session0 with
  | Ret s => kout 3 (kernel s) = [sample 0; sample 1] /\ kin 3 (kernel s) = abc /\ _inbound_shutdown s = true
  | _ => False
  end.
Proof. vm_compute. repeat split. Qed.


(** A round of the loop of the connected socket, by the loop's contract. *)
Definition ready0 : TCPSpongeSocket.t FdAdapterBase.t SimKernel.t :=
  with_adapter client_base (with_tcp (Some (TCPConnection.make cfg 0)) socket0).

Lemma event_loop_contract_witness :
  ends (fun '(_, l', s') => owner_view abc_flow other_flow 3 s' /\ l' `sublist_of` [rule1; rule2; rule3; rule4])
    (EventLoop.wait_next_event 10 [rule1; rule2; rule3; rule4] ready0).
Proof.
  assert (Hcfg : config_ok abc_flow 8 cfg 0).
  { split_and!; [done | done | unfold in_bits; cbn; lia |]. exists 8%nat. split; [done | lia]. }
  assert (Hready : tun_ready client_base) by (exists client, server; split; reflexivity).
  assert (Hbo : 0 <= total_of abc_flow /\ total_of abc_flow + 2 < 2 ^ 31) by (cbn; lia).
  assert (Hbi : 0 <= total_of other_flow /\ total_of other_flow + Z.of_nat 8 + 2 < 2 ^ 31) by (cbn; lia).
  assert (Hio : in_bits 32 (isn_of abc_flow)) by (unfold in_bits; cbn; lia).
  assert (Hii : in_bits 32 (isn_of other_flow)) by (unfold in_bits; cbn; lia).
  eapply ends_impl.
  - apply (event_loop_contract (sock_inv abc_flow other_flow 8 world tun_ready 3) (later abc_flow last 3) (gone abc_flow 3)).
    + exact (polling_ok abc_flow other_flow 8 world last tun_ready 3 sim_world).
    + exact (initialized_ok abc_flow other_flow 8 world tun_ready 3 Hbo Hbi cfg 0 client_base socket0 socket0_fresh Hcfg Hready).
    + eapply rules_ok; [exact sim_world | exact sim_device | apply tun_adapter_ok | exact Hio | exact Hii | exact Hbo | exact Hbi].
  - intros [[res l'] s'] (Hi & _ & Hsub). split; [exact (inv_view _ _ _ _ _ _ Hbo Hbi s' Hi) | exact Hsub].
Defined.

(** Two bytes per call: five bytes take three calls. *)
Lemma write_all_writes_all_witness :
  match FileDescriptor.write [abc; [sample 3; sample 4]] true (descriptor 3) world0 with
  | Ret (n, w, k) => n = 5 /\ kout 3 k = [sample 0; sample 1; sample 2; sample 3; sample 4]
  | _ => False
  end.
Proof.
  pose proof (FileDescriptorFacts.write_all_writes_all [abc; [sample 3; sample 4]] (descriptor 3) world0 ltac:(vm_compute; reflexivity)) as [Hs Hd].
  assert (Hret : match FileDescriptor.write [abc; [sample 3; sample 4]] true (descriptor 3) world0 with Ret _ => True | _ => False end)
    by (vm_compute; exact I).
  destruct (FileDescriptor.write _ _ _ _) as [[[n w] k] | |]; [| done | done]. destruct Hs as (-> & Hw & _). split; [reflexivity |].
  exact Hw.
Defined.

(** Destroying a socket that has a connection. *)
Definition one_rule : EventLoop.t (TCPSpongeSocket.t FdAdapterBase.t SimKernel.t) := [rule4].
Definition connection0 : TCPConnection.t := TCPConnection.make cfg 0.


End SessionRun.
