(* ===== verification/bidirectional_stream_copy.v ===== *)
(** * apps/bidirectional_stream_copy: between standard input/output and a socket

    Two [ByteStream]s and four rules on an event loop.  Nothing bounds the
    number of bytes copied: the counters of the streams wrap, and are not
    used. *)

From S2P Require Import Prelude byte_stream buffer kernel file_descriptor socket eventloop sim_kernel.

Module StreamCopy.

Definition max_copy_length : Z := 65536.
Definition buffer_size : Z := 1048576.
Definition STDIN_FILENO : Z := 0.
Definition STDOUT_FILENO : Z := 1.

Section Copy.
Context {K : Type} `{Kernel K}.

(** The local variables of the function; [socket] is its argument. *)
Record t := mk {
  _input : FDWrapper.t;
  _output : FDWrapper.t;
  socket : FDWrapper.t;
  _outbound : ByteStream.t;
  _inbound : ByteStream.t;
  _outbound_shutdown : bool;
  _inbound_shutdown : bool;
  kernel : K;
}.

#[global] Instance copy_kernel : HasKernel t K := {|
  kern := kernel;
  set_kern k s := mk (_input s) (_output s) (socket s) (_outbound s) (_inbound s) (_outbound_shutdown s) (_inbound_shutdown s) k;
|}.

Definition with_input (w : FDWrapper.t) (k : K) (s : t) : t :=
  mk w (_output s) (socket s) (_outbound s) (_inbound s) (_outbound_shutdown s) (_inbound_shutdown s) k.
Definition with_output (w : FDWrapper.t) (k : K) (s : t) : t :=
  mk (_input s) w (socket s) (_outbound s) (_inbound s) (_outbound_shutdown s) (_inbound_shutdown s) k.
Definition with_socket (w : FDWrapper.t) (k : K) (s : t) : t :=
  mk (_input s) (_output s) w (_outbound s) (_inbound s) (_outbound_shutdown s) (_inbound_shutdown s) k.
Definition with_outbound (b : ByteStream.t) (s : t) : t :=
  mk (_input s) (_output s) (socket s) b (_inbound s) (_outbound_shutdown s) (_inbound_shutdown s) (kernel s).
Definition with_inbound (b : ByteStream.t) (s : t) : t :=
  mk (_input s) (_output s) (socket s) (_outbound s) b (_outbound_shutdown s) (_inbound_shutdown s) (kernel s).
Definition shut_outbound (s : t) : t :=
  mk (_input s) (_output s) (socket s) (_outbound s) (_inbound s) true (_inbound_shutdown s) (kernel s).
Definition shut_inbound (s : t) : t :=
  mk (_input s) (_output s) (socket s) (_outbound s) (_inbound s) (_outbound_shutdown s) true (kernel s).

Definition end_outbound (s : t) : outcome t := Ret (with_outbound (ByteStream.end_input (_outbound s)) s).
Definition end_inbound (s : t) : outcome t := Ret (with_inbound (ByteStream.end_input (_inbound s)) s).

(** Rule 1: from standard input into the outbound stream. *)
Definition read_input (s : t) : outcome t :=
  '(data, w, k) ← FileDescriptor.read (ByteStream.remaining_capacity (_outbound s)) (_input s) (kernel s);
  let s := with_input w k s in
  '(_, b) ← ByteStream.write data (_outbound s);
  let s := with_outbound b s in
  if FileDescriptor.eof (_input s) then end_outbound s else Ret s.

Definition input_interest (s : t) : outcome bool :=
  Ret (negb (ByteStream.error (_outbound s)) && (ByteStream.remaining_capacity (_outbound s) >? 0) &&
       negb (ByteStream.error (_inbound s))).

(** Rule 2: from the outbound stream to the socket. *)
Definition write_socket (s : t) : outcome t :=
  let bytes_to_write := Z.min max_copy_length (ByteStream.buffer_size (_outbound s)) in
  data ← ByteStream.peek_output bytes_to_write (_outbound s);
  '(bytes_written, w, k) ← FileDescriptor.write (BufferViewList.of_string data) false (socket s) (kernel s);
  let s := with_socket w k s in
  b ← ByteStream.pop_output bytes_written (_outbound s);
  let s := with_outbound b s in
  if ByteStream.eof (_outbound s) then
    '(w, k) ← Socket.shutdown Socket.SHUT_WR (socket s) (kernel s);
    Ret (shut_outbound (with_socket w k s))
  else Ret s.

Definition socket_out_interest (s : t) : outcome bool :=
  Ret (negb (ByteStream.buffer_empty (_outbound s)) || (ByteStream.eof (_outbound s) && negb (_outbound_shutdown s))).

(** Rule 3: from the socket into the inbound stream. *)
Definition read_socket (s : t) : outcome t :=
  '(data, w, k) ← FileDescriptor.read (ByteStream.remaining_capacity (_inbound s)) (socket s) (kernel s);
  let s := with_socket w k s in
  '(_, b) ← ByteStream.write data (_inbound s);
  let s := with_inbound b s in
  if FileDescriptor.eof (socket s) then end_inbound s else Ret s.

Definition socket_in_interest (s : t) : outcome bool :=
  Ret (negb (ByteStream.error (_inbound s)) && (ByteStream.remaining_capacity (_inbound s) >? 0) &&
       negb (ByteStream.error (_outbound s))).

(** Rule 4: from the inbound stream to standard output. *)
Definition write_output (s : t) : outcome t :=
  let bytes_to_write := Z.min max_copy_length (ByteStream.buffer_size (_inbound s)) in
  data ← ByteStream.peek_output bytes_to_write (_inbound s);
  '(bytes_written, w, k) ← FileDescriptor.write (BufferViewList.of_string data) false (_output s) (kernel s);
  let s := with_output w k s in
  b ← ByteStream.pop_output bytes_written (_inbound s);
  let s := with_inbound b s in
  if ByteStream.eof (_inbound s) then
    '(w, k) ← FileDescriptor.close (_output s) (kernel s);
    Ret (shut_inbound (with_output w k s))
  else Ret s.

Definition output_interest (s : t) : outcome bool :=
  Ret (negb (ByteStream.buffer_empty (_inbound s)) || (ByteStream.eof (_inbound s) && negb (_inbound_shutdown s))).

Definition rule1 : EventLoop.Rule t := {|
  EventLoop.fd := _input; EventLoop.direction := EventLoop.In;
  EventLoop.callback := read_input; EventLoop.interest := input_interest; EventLoop.cancel := end_outbound;
|}.
Definition rule2 : EventLoop.Rule t := {|
  EventLoop.fd := socket; EventLoop.direction := EventLoop.Out;
  EventLoop.callback := write_socket; EventLoop.interest := socket_out_interest; EventLoop.cancel := end_outbound;
|}.
Definition rule3 : EventLoop.Rule t := {|
  EventLoop.fd := socket; EventLoop.direction := EventLoop.In;
  EventLoop.callback := read_socket; EventLoop.interest := socket_in_interest; EventLoop.cancel := end_inbound;
|}.
Definition rule4 : EventLoop.Rule t := {|
  EventLoop.fd := _output; EventLoop.direction := EventLoop.Out;
  EventLoop.callback := write_output; EventLoop.interest := output_interest; EventLoop.cancel := end_inbound;
|}.

(** [while (true)]: [fuel] bounds the rounds that are followed. *)
Fixpoint loop (fuel : nat) (l : EventLoop.t t) (s : t) : outcome t :=
  match fuel with
  | O => Diverge
  | S fuel =>
      '(ret, l, s) ← EventLoop.wait_next_event (-1) l s;
      match ret with EventLoop.Exit => Ret s | _ => loop fuel l s end
  end.

Definition start (w : FDWrapper.t) (k : K) : outcome t :=
  input ← FDWrapper.make STDIN_FILENO;
  output ← FDWrapper.make STDOUT_FILENO;
  k ← FileDescriptor.set_blocking false w k;
  k ← FileDescriptor.set_blocking false input k;
  k ← FileDescriptor.set_blocking false output k;
  Ret (mk input output w (ByteStream.make buffer_size) (ByteStream.make buffer_size) false false k).

(** The two descriptors of the function are closed when it returns. *)
Definition bidirectional_stream_copy (fuel : nat) (w : FDWrapper.t) (k : K) : outcome (FDWrapper.t * K) :=
  s ← start w k;
  s ← loop fuel (EventLoop.add_rule rule4 (EventLoop.add_rule rule3 (EventLoop.add_rule rule2 (EventLoop.add_rule rule1 [])))) s;
  let k := FDWrapper.destruct_ (_output s) (kernel s) in
  let k := FDWrapper.destruct_ (_input s) k in
  Ret (socket s, k).

End Copy.
Arguments t : clear implicits.

End StreamCopy.

(** ** Nothing is lost, added or reordered *)

Module StreamCopyFacts.
Import StreamCopy FileDescriptorFacts EventLoopFacts.

(** A stream of the function: only its contents matter. *)
Definition holds (b : ByteStream.t) (d : bytes) : Prop :=
  ByteStream.capacity b = buffer_size /\ ByteStream.buffer b = d /\ Zlen d <= buffer_size.

Lemma holds_capacity b d : holds b d -> ByteStream.remaining_capacity b = buffer_size - Zlen d.
Proof.
  intros (H1 & H2 & H3). unfold ByteStream.remaining_capacity. rewrite H1, H2. pose proof (Zlen_nonneg d).
  unfold buffer_size in *. by rewrite u64_small by lia.
Qed.

Lemma holds_write b d data :
  holds b d -> Zlen data <= ByteStream.remaining_capacity b ->
  exists n b', ByteStream.write data b = Ret (n, b') /\ holds b' (d ++ data).
Proof.
  intros Hb Hl. pose proof (holds_capacity _ _ Hb) as Hc. destruct Hb as (H1 & H2 & H3). unfold ByteStream.write.
  destruct (Z.leb_spec (Zlen data) (ByteStream.remaining_capacity b)); [| lia]. eexists _, _. split; [reflexivity |].
  split_and!; cbn; [done | by rewrite H2 | rewrite Zlen_app; lia].
Qed.

Lemma holds_pop b d n :
  holds b d -> 0 <= n <= Zlen d -> exists b', ByteStream.pop_output n b = Ret b' /\ holds b' (drop (Z.to_nat n) d).
Proof.
  intros (H1 & H2 & H3) Hn. unfold ByteStream.pop_output. rewrite H2, substr_suffix by lia. eexists. split; [reflexivity |].
  split_and!; cbn; [done | done |]. zlen. pose proof (Zlen_nonneg d). unfold buffer_size in *. lia.
Qed.

Lemma holds_peek b d : holds b d ->
  ByteStream.peek_output (Z.min max_copy_length (ByteStream.buffer_size b)) b =
    Ret (take (Z.to_nat (Z.min max_copy_length (Zlen d))) d).
Proof.
  intros (_ & H2 & _). unfold ByteStream.peek_output, ByteStream.buffer_size. rewrite H2, substr_prefix; [done |].
  pose proof (Zlen_nonneg d). unfold max_copy_length. lia.
Qed.

Section Copy.
Context {K : Type} {KeI : Kernel K} {KeL : KernelLaws K} (sfd : Z).
Hypothesis apart_fds : sfd <> STDIN_FILENO /\ sfd <> STDOUT_FILENO.

(** What was read and not yet written is in the stream between. *)
Record copy_inv (s : StreamCopy.t K) : Prop := {
  ci_input : FileDescriptor.fd_num (_input s) = STDIN_FILENO;
  ci_output : FileDescriptor.fd_num (_output s) = STDOUT_FILENO;
  ci_socket : FileDescriptor.fd_num (socket s) = sfd;
  ci_outbound : exists d, holds (_outbound s) d /\ kin STDIN_FILENO (kernel s) = kout sfd (kernel s) ++ d;
  ci_inbound : exists d, holds (_inbound s) d /\ kin sfd (kernel s) = kout STDOUT_FILENO (kernel s) ++ d;
}.

Record later (s s' : StreamCopy.t K) : Prop := {
  la_input : FileDescriptor.fd_num (_input s') = FileDescriptor.fd_num (_input s);
  la_output : FileDescriptor.fd_num (_output s') = FileDescriptor.fd_num (_output s);
  la_socket : FileDescriptor.fd_num (socket s') = FileDescriptor.fd_num (socket s);
}.

#[local] Instance later_preorder : PreOrder later.
Proof. split; [done |]. intros x y z [] []. constructor; congruence. Qed.

Lemma inv_later s s' : copy_inv s -> copy_inv s' -> later s s'.
Proof. intros [] []. constructor; congruence. Qed.

Lemma copy_end_outbound s : copy_inv s -> copy_inv (with_outbound (ByteStream.end_input (_outbound s)) s).
Proof. intros []. by constructor. Qed.
Lemma end_inbound_ok s : copy_inv s -> copy_inv (with_inbound (ByteStream.end_input (_inbound s)) s).
Proof. intros []. by constructor. Qed.

(** Descriptors other than the one that was used. *)
Ltac elsewhere Hq fd := let H1 := fresh in let H2 := fresh in
  destruct (Hq fd) as [H1 H2]; [unfold STDIN_FILENO, STDOUT_FILENO in *; lia |]; rewrite ?H1, ?H2.

Lemma read_input_ok s :
  copy_inv s -> ends (fun s' => copy_inv s' /\
    FileDescriptor.read_count (_input s') = u32 (FileDescriptor.read_count (_input s) + 1)) (read_input s).
Proof.
  intros [H1 H2 H3 (d & Hd & Hk) (d' & Hd' & Hk')]. unfold read_input. eapply ends_bind; [apply fd_read_ok |].
  intros [[data w] k] (_ & Hl & Hin & Hout & Hq & [Hf _] & _ & Hrc & _). rewrite H1 in *.
  destruct (holds_write _ _ data Hd) as (n & b & Hw & Hb); [lia |].
  cbn [_outbound _inbound with_input with_socket]. rewrite Hw. cbn [mbind outcome_bind].
  set (s1 := with_outbound b (with_input w k s)).
  assert (Hi : copy_inv s1).
  { constructor; [cbn; congruence | done | done | |]; cbn [_outbound _inbound kernel s1 with_outbound with_input].
    - exists (d ++ data). split; [done |]. rewrite Hin, Hk. elsewhere Hq sfd. by rewrite app_assoc.
    - exists d'. split; [done |]. elsewhere Hq sfd. by elsewhere Hq STDOUT_FILENO. }
  destruct (FileDescriptor.eof _); apply ends_Ret; [| done]. split; [by apply copy_end_outbound | done].
Qed.

Lemma read_socket_ok s :
  copy_inv s -> ends (fun s' => copy_inv s' /\
    FileDescriptor.read_count (socket s') = u32 (FileDescriptor.read_count (socket s) + 1)) (read_socket s).
Proof.
  intros [H1 H2 H3 (d & Hd & Hk) (d' & Hd' & Hk')]. unfold read_socket. eapply ends_bind; [apply fd_read_ok |].
  intros [[data w] k] (_ & Hl & Hin & Hout & Hq & [Hf _] & _ & Hrc & _). rewrite H3 in *.
  destruct (holds_write _ _ data Hd') as (n & b & Hw & Hb); [lia |].
  cbn [_outbound _inbound with_input with_socket]. rewrite Hw. cbn [mbind outcome_bind].
  set (s1 := with_inbound b (with_socket w k s)).
  assert (Hi : copy_inv s1).
  { constructor; [done | done | cbn; congruence | |]; cbn [_outbound _inbound kernel s1 with_inbound with_socket].
    - exists d. split; [done |]. elsewhere Hq STDIN_FILENO. by rewrite Hout.
    - exists (d' ++ data). split; [done |]. rewrite Hin, Hk'. elsewhere Hq STDOUT_FILENO. by rewrite app_assoc. }
  destruct (FileDescriptor.eof _); apply ends_Ret; [| done]. split; [by apply end_inbound_ok | done].
Qed.

(** The bytes one [write] took from the front of a stream. *)
Lemma write_front d w k :
  Zlen d <= buffer_size ->
  ends (fun '(n, w', k') => 0 <= n <= Zlen d /\ wrote (take (Z.to_nat n) d) w k w' k' /\
      FileDescriptor.write_count w' = u32 (FileDescriptor.write_count w + 1))
    (FileDescriptor.write (BufferViewList.of_string (take (Z.to_nat (Z.min max_copy_length (Zlen d))) d)) false w k).
Proof.
  intros Hd. pose proof (Zlen_nonneg d). unfold buffer_size, max_copy_length in *.
  set (t := take _ d). assert (Ht : Zlen t = Z.min 65536 (Zlen d)) by (unfold t; zlen; lia).
  eapply ends_impl; [apply write_some_ok; cbn; rewrite app_nil_r; lia |].
  intros [[n w'] k'] (Hn & _ & Hw & Hc). cbn [concat BufferViewList.of_string] in Hn, Hw. rewrite app_nil_r in Hn, Hw.
  split_and!; [lia | lia | | done]. unfold t in Hw. rewrite take_take in Hw.
  by replace (Z.to_nat n `min` Z.to_nat (65536 `min` Zlen d))%nat with (Z.to_nat n) in Hw by lia.
Qed.

Lemma write_socket_ok s :
  copy_inv s -> ends (fun s' => copy_inv s' /\
    FileDescriptor.write_count (socket s') <> FileDescriptor.write_count (socket s)) (write_socket s).
Proof.
  intros [H1 H2 H3 (d & Hd & Hk) (d' & Hd' & Hk')]. unfold write_socket. rewrite (holds_peek _ _ Hd). cbn [mbind outcome_bind].
  eapply ends_bind; [apply write_front, Hd |]. intros [[n w] k] (Hn & (Hko & Hki & Hq & [Hf _] & _) & Hwc). rewrite H3 in *.
  destruct (holds_pop _ _ n Hd Hn) as (b & Hp & Hb). cbn [_outbound with_socket]. rewrite Hp. cbn [mbind outcome_bind].
  set (s1 := with_outbound b (with_socket w k s)).
  assert (Hi : copy_inv s1).
  { constructor; [done | done | cbn; congruence | |]; cbn [_outbound _inbound kernel s1 with_outbound with_socket].
    - exists (drop (Z.to_nat n) d). split; [done |]. elsewhere Hq STDIN_FILENO. by rewrite Hko, <- app_assoc, take_drop.
    - exists d'. split; [done |]. rewrite Hki. by elsewhere Hq STDOUT_FILENO. }
  destruct (ByteStream.eof _); [| apply ends_Ret; split; [done |]; cbn; rewrite Hwc; apply u32_shift_neq; lia].
  eapply ends_bind; [by apply SocketFacts.shutdown_writes |]. intros [w2 k2] ([u Hs] & [Hf2 _] & _ & Hwc2). apply ends_Ret.
  split; [| cbn in Hwc2 |- *; rewrite Hwc2, Hwc; apply u32_succ2_neq]. cbn [kernel s1 with_outbound with_socket] in Hs.
  destruct Hi as [G1 G2 G3 (e & Ge & Gk) (e' & Ge' & Gk')].
  constructor; [done | done | cbn in *; congruence | |]; cbn [_outbound _inbound kernel shut_outbound with_socket].
  - exists e. split; [done |]. destruct (shutdown_quiet _ _ _ _ _ STDIN_FILENO Hs) as [-> _]. by destruct (shutdown_quiet _ _ _ _ _ sfd Hs) as [_ ->].
  - exists e'. split; [done |]. destruct (shutdown_quiet _ _ _ _ _ sfd Hs) as [-> _]. by destruct (shutdown_quiet _ _ _ _ _ STDOUT_FILENO Hs) as [_ ->].
Qed.

Lemma close_ok w (k : K) :
  ends (fun '(w', k') => (exists u, sys_close (FileDescriptor.fd_num w) k = (SysOk u, k')) /\
    FileDescriptor.fd_num w' = FileDescriptor.fd_num w /\ FileDescriptor.write_count w' = FileDescriptor.write_count w)
    (FileDescriptor.close w k).
Proof.
  unfold FileDescriptor.close, FDWrapper.close. apply ends_SystemCall. intros u k' Hs. apply ends_Ret.
  split; [by exists u | done].
Qed.

Lemma write_output_ok s :
  copy_inv s -> ends (fun s' => copy_inv s' /\
    FileDescriptor.write_count (_output s') <> FileDescriptor.write_count (_output s)) (write_output s).
Proof.
  intros [H1 H2 H3 (d & Hd & Hk) (d' & Hd' & Hk')]. unfold write_output. rewrite (holds_peek _ _ Hd'). cbn [mbind outcome_bind].
  eapply ends_bind; [apply write_front, Hd' |]. intros [[n w] k] (Hn & (Hko & Hki & Hq & [Hf _] & _) & Hwc). rewrite H2 in *.
  destruct (holds_pop _ _ n Hd' Hn) as (b & Hp & Hb). cbn [_inbound with_output]. rewrite Hp. cbn [mbind outcome_bind].
  set (s1 := with_inbound b (with_output w k s)).
  assert (Hi : copy_inv s1).
  { constructor; [done | cbn; congruence | done | |]; cbn [_outbound _inbound kernel s1 with_inbound with_output].
    - exists d. split; [done |]. elsewhere Hq STDIN_FILENO. by elsewhere Hq sfd.
    - exists (drop (Z.to_nat n) d'). split; [done |]. elsewhere Hq sfd. by rewrite Hko, <- app_assoc, take_drop. }
  destruct (ByteStream.eof _); [| apply ends_Ret; split; [done |]; cbn; rewrite Hwc; apply u32_shift_neq; lia].
  eapply ends_bind; [apply close_ok |]. intros [w2 k2] ([u Hs] & Hf2 & Hwc2). apply ends_Ret.
  split; [| cbn in Hwc2 |- *; rewrite Hwc2, Hwc; apply u32_succ_neq]. cbn [kernel s1 with_inbound with_output] in Hs.
  destruct Hi as [G1 G2 G3 (e & Ge & Gk) (e' & Ge' & Gk')].
  constructor; [done | cbn in *; congruence | done | |]; cbn [_outbound _inbound kernel shut_inbound with_output].
  - exists e. split; [done |]. destruct (close_quiet _ _ _ _ STDIN_FILENO Hs) as [-> _]. by destruct (close_quiet _ _ _ _ sfd Hs) as [_ ->].
  - exists e'. split; [done |]. destruct (close_quiet _ _ _ _ sfd Hs) as [-> _]. by destruct (close_quiet _ _ _ _ STDOUT_FILENO Hs) as [_ ->].
Qed.

(** A rule may be cancelled at any time. *)
Definition anytime (r : EventLoop.Rule (StreamCopy.t K)) (s : StreamCopy.t K) : Prop := True.

Lemma copy_rule_ok (r : EventLoop.Rule (StreamCopy.t K)) :
  EventLoop.fd r = _input \/ EventLoop.fd r = _output \/ EventLoop.fd r = socket ->
  (forall s, exists b, EventLoop.interest r s = Ret b) ->
  (forall s, copy_inv s -> ends (fun s' => copy_inv s' /\ EventLoop.service_count r s' <> EventLoop.service_count r s) (EventLoop.callback r s)) ->
  (forall s, copy_inv s -> ends copy_inv (EventLoop.cancel r s)) ->
  rule_ok copy_inv later anytime r.
Proof.
  intros Hfd Hint Hcb Hcan. constructor; try done.
  - intros s Hi. eapply ends_impl; [by apply Hcb |]. intros s' [Hi' Hc]. split_and!; [done | by apply inv_later | by left].
  - intros s Hi _. eapply ends_impl; [by apply Hcan |]. intros s' Hi'. split; [done | by apply inv_later].
  - intros s s' []. by destruct Hfd as [-> | [-> | ->]].
Qed.

Lemma copy_rules_ok : Forall (rule_ok copy_inv later anytime) [rule1; rule2; rule3; rule4].
Proof.
  rewrite !Forall_cons, Forall_nil. split_and!; [| | | | done]; apply copy_rule_ok;
    cbn [EventLoop.fd EventLoop.interest EventLoop.callback EventLoop.cancel rule1 rule2 rule3 rule4];
    try (by auto); try (by intros s; eexists);
    try (by intros s Hi; apply ends_Ret; (apply copy_end_outbound || apply end_inbound_ok)).
  - intros s Hi. eapply ends_impl; [by apply read_input_ok |]. intros s' [? Hr]. split; [done |].
    unfold EventLoop.service_count. cbn. rewrite Hr. apply u32_succ_neq.
  - intros s Hi. by apply write_socket_ok.
  - intros s Hi. eapply ends_impl; [by apply read_socket_ok |]. intros s' [? Hr]. split; [done |].
    unfold EventLoop.service_count. cbn. rewrite Hr. apply u32_succ_neq.
  - intros s Hi. by apply write_output_ok.
Qed.

Lemma copy_poll_ok : poll_ok copy_inv later.
Proof.
  intros s fds ms ret k Hi Hp.
  assert (Hq : forall fd, kin fd k = kin fd (kernel s) /\ kout fd k = kout fd (kernel s)) by (intros; by eapply poll_quiet).
  assert (Hi' : copy_inv (set_kern k s)).
  { destruct Hi as [? ? ? (d & ? & ?) (d' & ? & ?)]. constructor; try done; cbn.
    - exists d. by rewrite (proj1 (Hq _)), (proj2 (Hq _)).
    - exists d'. by rewrite (proj1 (Hq _)), (proj2 (Hq _)). }
  split; [done | by apply inv_later].
Qed.

Lemma copy_loop_ok fuel l s :
  copy_inv s -> l `sublist_of` [rule1; rule2; rule3; rule4] -> safe copy_inv (loop fuel l s).
Proof.
  revert l s. induction fuel as [|fuel IH]; intros l s Hi Hl; [done |]. cbn [loop].
  eapply safe_bind.
  { apply (wait_next_event_ok copy_inv later anytime); [apply copy_poll_ok | done |].
    eapply Forall_sublist; [apply copy_rules_ok | done]. }
  intros [[ret l'] s'] (Hi' & _ & Hl'). destruct ret; [| | done]; (apply IH; [done | by etransitivity]).
Qed.

Lemma set_blocking_quiet b w k :
  ends (fun k' => forall fd, kin fd k' = kin fd k /\ kout fd k' = kout fd k) (FileDescriptor.set_blocking b w k).
Proof.
  unfold FileDescriptor.set_blocking. apply ends_SystemCall. intros fl k1 H1. apply ends_SystemCall. intros u k2 H2.
  apply ends_Ret. intros fd. destruct (getfl_quiet _ _ _ _ fd H1), (setfl_quiet _ _ _ _ _ fd H2). split; congruence.
Qed.

Lemma destruct_quiet w k fd : kin fd (FDWrapper.destruct_ w k) = kin fd k /\ kout fd (FDWrapper.destruct_ w k) = kout fd k.
Proof.
  unfold FDWrapper.destruct_, FDWrapper.close. destruct (FDWrapper._closed w); [done |].
  destruct (sys_close (FDWrapper._fd w) k) as [[u | e] k'] eqn:Hs; cbn; exact (close_quiet _ _ _ _ fd Hs).
Qed.

End Copy.


(** Three bytes one way and two the other, one byte per write. *)
Definition sample_world : SimKernel.t :=
  SimKernel.Sim {[ 0 := SimKernel.Desc [[Byte.x61; Byte.x62]; [Byte.x63]] true 1 [] [] [] [];
                   1 := SimKernel.Desc [] false 1 [] [] [] [];
                   5 := SimKernel.Desc [[Byte.x78; Byte.x79]] true 1 [] [] [] [] ]} 0 0 false.


End StreamCopyFacts.
