(* ===== verification/resolver.v ===== *)
(** * libsponge/util/address: names, numbers and the C library's resolver

    The constructors of [Address] from strings and its accessors go through
    [getaddrinfo] and [getnameinfo], which are the operations of the class
    [Resolver]; [ResolverLaws] is their documented behaviour on numeric IPv4
    hosts.  The constructors discharge the interface [Address.NetDB] the
    adapters are written against, and [NumericResolver] is an executable
    resolver that satisfies the laws. *)

From Stdlib Require Import Ascii.
From stdpp Require Import pretty.
From S2P Require Import Prelude parser address.

(** ** Decimal numbers *)

(** [std::to_string] of an unsigned integer. *)
Definition to_string (n : Z) : string := pretty (Z.to_N n).

Definition digit (c : ascii) : option Z :=
  let d := Z.of_N (N_of_ascii c) - 48 in
  if (0 <=? d) && (d <=? 9) then Some d else None.

Definition isspace (c : ascii) : bool :=
  let v := Z.of_N (N_of_ascii c) in (v =? 32) || ((9 <=? v) && (v <=? 13)).

(** The digits at the front of a string: their value after [acc], and what
    follows them. *)
Fixpoint digits (s : string) (acc : Z) : Z * string :=
  match s with
  | EmptyString => (acc, s)
  | String c s' =>
      match digit c with
      | Some d => digits s' (10 * acc + d)
      | None => (acc, s)
      end
  end.

Fixpoint skip_spaces (s : string) : string :=
  match s with
  | String c s' => if isspace c then skip_spaces s' else s
  | EmptyString => s
  end.

(** An optional sign. *)
Definition sign (s : string) : Z * string :=
  match s with
  | String "-"%char s' => (-1, s')
  | String "+"%char s' => (1, s')
  | _ => (1, s)
  end.

(** [std::stoi]: an [int] at the front of the string. *)
Definition stoi (s : string) : outcome Z :=
  let '(sg, s) := sign (skip_spaces s) in
  match s with
  | EmptyString => Raise (invalid_argument "stoi")
  | String c _ =>
      match digit c with
      | None => Raise (invalid_argument "stoi")
      | Some _ =>
          let v := sg * fst (digits s 0) in
          if (- 2 ^ 31 <=? v) && (v <? 2 ^ 31) then Ret v else Raise (out_of_range "stoi")
      end
  end.

(** [inet_ntoa] of the address in network order: the dotted quad. *)
Definition octet (ip k : Z) : Z := u8 (Z.shiftr ip (8 * k)).
Definition inet_ntoa (ip : Z) : string :=
  (to_string (octet ip 3) +:+ "." +:+ to_string (octet ip 2) +:+ "." +:+
   to_string (octet ip 1) +:+ "." +:+ to_string (octet ip 0))%string.

(** ** The resolver *)

Record addrinfo := Hints {
  ai_flags : Z;
  ai_family : Z;
}.

Definition AI_NUMERICHOST : Z := 0x0004.
Definition AI_ALL : Z := 0x0010.
Definition AI_NUMERICSERV : Z := 0x0400.
Definition NI_NUMERICHOST : Z := 1.
Definition NI_NUMERICSERV : Z := 2.

(** [getaddrinfo(node, service, hints)]: its return value and the list of
    [ai_addr]s with their [ai_addrlen]s; [getnameinfo(addr, len, flags)]: its
    return value, the host and the service. *)
Class Resolver := {
  getaddrinfo : string -> string -> addrinfo -> Z * list (bytes * Z);
  getnameinfo : bytes -> Z -> Z -> Z * (string * string);
}.

Definition make_hints (ai_flags ai_family : Z) : addrinfo := Hints ai_flags ai_family.

Module Names.

Section Names.
Context {RsI : Resolver}.

(** The private constructor. *)
Definition resolve (node service : string) (hints : addrinfo) : outcome Address.t :=
  let '(gai_ret, resolved_address) := getaddrinfo node service hints in
  if negb (gai_ret =? 0)
  then Raise (gai_error ("getaddrinfo(" +:+ node +:+ ", " +:+ service +:+ ")") gai_ret)
  else match resolved_address with
       | [] => Raise (runtime_error "getaddrinfo returned successfully but with no results")
       | (ai_addr, ai_addrlen) :: _ => Address.of_sockaddr ai_addr ai_addrlen
       end.

Definition of_host (hostname service : string) : outcome Address.t :=
  resolve hostname service (make_hints AI_ALL Address.AF_INET).

Definition of_ip (ip : string) (port : Z) : outcome Address.t :=
  resolve ip (to_string port) (make_hints (Z.lor AI_NUMERICHOST AI_NUMERICSERV) Address.AF_INET).

Definition ip_port (a : Address.t) : outcome (string * Z) :=
  let '(gni_ret, (ip, port)) :=
    getnameinfo (Address._address a) (Address._size a) (Z.lor NI_NUMERICHOST NI_NUMERICSERV) in
  if negb (gni_ret =? 0) then Raise (gai_error "getnameinfo" gni_ret)
  else
    p ← stoi port;
    Ret (ip, u16 p).

Definition ip (a : Address.t) : outcome string := p ← ip_port a; Ret (fst p).
Definition port (a : Address.t) : outcome Z := p ← ip_port a; Ret (snd p).

Definition address_to_string (a : Address.t) : outcome string :=
  '(ip, port) ← ip_port a;
  Ret (ip +:+ ":" +:+ to_string port)%string.

End Names.

End Names.

(** The documented behaviour on the numeric IPv4 addresses of a socket. *)
Class ResolverLaws {RsI : Resolver} : Prop := {
  gai_numeric : forall ip p, in_bits 32 ip -> in_bits 16 p ->
    exists rest, getaddrinfo (inet_ntoa ip) (to_string p) (make_hints (Z.lor AI_NUMERICHOST AI_NUMERICSERV) Address.AF_INET)
      = (0, (Address.sockaddr_in p ip, Address.sizeof_sockaddr_in) :: rest);
  (** "0", in the numbers-and-dots notation, is 0.0.0.0. *)
  gai_zero : forall p, in_bits 16 p ->
    exists rest, getaddrinfo "0" (to_string p) (make_hints (Z.lor AI_NUMERICHOST AI_NUMERICSERV) Address.AF_INET)
      = (0, (Address.sockaddr_in p 0, Address.sizeof_sockaddr_in) :: rest);
  gni_numeric : forall ip p, in_bits 32 ip -> in_bits 16 p ->
    getnameinfo (resize (Address.sockaddr_in p ip) Address.sizeof_storage) Address.sizeof_sockaddr_in
      (Z.lor NI_NUMERICHOST NI_NUMERICSERV) = (0, (inet_ntoa ip, to_string p));
}.

Module ResolverFacts.
Import Address AddressFacts ParserFacts.

(** ** Reading back a decimal number *)

Lemma digit_char (m : N) : (m < 10)%N -> digit (pretty_N_char m) = Some (Z.of_N m).
Proof.
  intros Hm. assert (m = 0 \/ m = 1 \/ m = 2 \/ m = 3 \/ m = 4 \/ m = 5 \/ m = 6 \/ m = 7 \/ m = 8 \/ m = 9)%N as Hc by lia.
  by repeat destruct Hc as [-> | Hc]; subst.
Qed.

Lemma digits_go (x : N) (s : string) : digits (pretty_N_go x s) 0 = digits s (Z.of_N x).
Proof.
  revert s. induction (N.lt_wf_0 x) as [x _ IH]. intros s. destruct (decide (x = 0)%N) as [-> | Hx]; [by rewrite pretty_N_go_0 |].
  rewrite pretty_N_go_step by lia. rewrite IH by (apply N.div_lt; lia). cbn [digits].
  rewrite digit_char by (apply N.mod_lt; lia). f_equal. rewrite (N.div_mod x 10) at 3 by done. lia.
Qed.

Lemma pretty_go_app (x : N) (s t : string) : (pretty_N_go x s +:+ t = pretty_N_go x (s +:+ t))%string.
Proof.
  revert s. induction (N.lt_wf_0 x) as [x _ IH]. intros s. destruct (decide (x = 0)%N) as [-> | Hx]; [by rewrite !pretty_N_go_0 |].
  rewrite !(pretty_N_go_step x) by lia. by rewrite IH by (apply N.div_lt; lia).
Qed.

(** What is printed starts with a digit, and reads back whatever follows. *)
Lemma to_string_digit (n : Z) : exists c s d, to_string n = String c s /\ digit c = Some d.
Proof.
  unfold to_string. generalize (Z.to_N n) as x. intros x. unfold pretty, pretty_N. case_decide as Hx; [by eexists _, _, _ |].
  enough (forall s, exists c s' d, pretty_N_go x s = String c s' /\ digit c = Some d) as H by apply H.
  induction (N.lt_wf_0 x) as [x _ IH]. intros s. rewrite pretty_N_go_step by lia.
  destruct (decide (x `div` 10 = 0)%N) as [-> | Hd].
  - rewrite pretty_N_go_0. eexists _, _, _. split; [done |]. by apply digit_char, N.mod_lt.
  - apply IH; [apply N.div_lt; lia | done].
Qed.

Lemma digits_to_string (n : Z) (s : string) : 0 <= n -> digits (to_string n +:+ s) 0 = digits s n.
Proof.
  intros Hn. unfold to_string, pretty, pretty_N. case_decide as Hx; [by replace n with 0 by lia |].
  rewrite pretty_go_app, digits_go. f_equal. lia.
Qed.

Lemma digit_plain (c : ascii) (d : Z) (s : string) :
  digit c = Some d -> isspace c = false /\ sign (String c s) = (1, String c s).
Proof. destruct c as [[] [] [] [] [] [] [] []]; vm_compute; intros Hd; first [discriminate Hd | by split]. Qed.

Lemma string_app_nil (s : string) : (s +:+ "" = s)%string.
Proof. induction s as [| c s IH]; [done |]. change (String c (s +:+ "") = String c s). by rewrite IH. Qed.

Lemma stoi_to_string (n : Z) : 0 <= n < 2 ^ 31 -> stoi (to_string n) = Ret n.
Proof.
  intros Hn. pose proof (digits_to_string n "" (proj1 Hn)) as Hd. rewrite string_app_nil in Hd.
  destruct (to_string_digit n) as (c & s & d & Hs & Hc). rewrite Hs in *. unfold stoi. cbn [skip_spaces].
  destruct (digit_plain c d s Hc) as [-> ->]. rewrite Hc, Hd. cbn [fst digits]. rewrite Z.mul_1_l.
  by replace ((- 2 ^ 31 <=? n) && (n <? 2 ^ 31)) with true by lia.
Qed.

(** ** The adapters' view of the addresses *)

Section Laws.
Context {RsI : Resolver} {RsL : ResolverLaws}.

(** The constructor from a dotted quad and [port()]. *)
Definition resolver_netdb : NetDB :=
  {| Address.port := Names.port; Address.of_ip_port ip p := Names.of_ip (inet_ntoa ip) p |}.

Lemma of_ip_inet ip p : in_bits 32 ip -> in_bits 16 p -> Names.of_ip (inet_ntoa ip) p = Ret (inet p ip).
Proof.
  intros Hip Hp. unfold Names.of_ip, Names.resolve. destruct (gai_numeric ip p Hip Hp) as [rest ->].
  cbn [Z.eqb negb]. by do 3 f_equal.
Qed.

Lemma of_zero p : in_bits 16 p -> Names.of_ip "0" p = Ret (inet p 0).
Proof.
  intros Hp. unfold Names.of_ip, Names.resolve. destruct (gai_zero p Hp) as [rest ->]. cbn [Z.eqb negb]. by do 3 f_equal.
Qed.

Lemma ip_port_inet ip p : in_bits 32 ip -> in_bits 16 p -> Names.ip_port (inet p ip) = Ret (inet_ntoa ip, p).
Proof.
  intros Hip Hp. unfold Names.ip_port, inet. cbn [_address _size]. rewrite gni_numeric by done.
  cbn [Z.eqb negb]. unfold in_bits in Hp. rewrite stoi_to_string by lia. cbn. unfold u16. by rewrite Z.mod_small by lia.
Qed.

Lemma resolver_netdb_laws : @NetDBLaws resolver_netdb.
Proof.
  split; cbn [Address.port Address.of_ip_port resolver_netdb]; intros p ip Hp Hip; [| by apply of_ip_inet].
  unfold Names.port. fold (inet p ip). by rewrite (ip_port_inet ip p Hip Hp).
Qed.

End Laws.

End ResolverFacts.

(** ** A resolver for numeric hosts

    It knows the two forms of a numeric IPv4 host the project uses, a dotted
    quad and a single number, and no names. *)
Module NumericResolver.
Import Address.

Definition EAI_NONAME : Z := -2.
Definition EAI_FAMILY : Z := -6.

(** A number and what follows it. *)
Definition number (s : string) : option (Z * string) :=
  match s with
  | String c _ => match digit c with Some _ => Some (digits s 0) | None => None end
  | EmptyString => None
  end.

(** One part of a quad below 256, and the dot after it. *)
Definition part (s : string) : option (Z * string) :=
  match number s with
  | Some (v, String "."%char rest) => if v <? 256 then Some (v, rest) else None
  | _ => None
  end.

Definition inet_aton (s : string) : option Z :=
  match number s with
  | Some (v, EmptyString) => if v <? 2 ^ 32 then Some v else None
  | _ =>
      match part s with
      | None => None
      | Some (a, s) =>
          match part s with
          | None => None
          | Some (b, s) =>
              match part s with
              | None => None
              | Some (c, s) =>
                  match number s with
                  | Some (d, EmptyString) => if d <? 256 then Some (((a * 256 + b) * 256 + c) * 256 + d) else None
                  | _ => None
                  end
              end
          end
      end
  end.

Definition lookup_numeric (node service : string) (hints : addrinfo) : Z * list (bytes * Z) :=
  match inet_aton node, number service with
  | Some ip, Some (p, EmptyString) =>
      if p <? 65536 then (0, [(sockaddr_in p ip, sizeof_sockaddr_in)]) else (EAI_NONAME, [])
  | _, _ => (EAI_NONAME, [])
  end.

Definition name_numeric (addr : bytes) (size flags : Z) : Z * (string * string) :=
  let a := mk size addr in
  if (ss_family a =? AF_INET) && (sizeof_sockaddr_in <=? size)
  then (0, (inet_ntoa (sin_addr a), to_string (ParserFacts.be_val (take 2 (drop 2 addr)))))
  else (EAI_FAMILY, (EmptyString, EmptyString)).

#[export] Instance numeric_resolver : Resolver := {| getaddrinfo := lookup_numeric; getnameinfo := name_numeric |}.

End NumericResolver.

Module NumericResolverFacts.
Import Address AddressFacts ParserFacts ResolverFacts NumericResolver.

Lemma number_to_string n s :
  0 <= n -> (forall c s', s = String c s' -> digit c = None) -> number (to_string n +:+ s) = Some (n, s).
Proof.
  intros Hn Hs. pose proof (digits_to_string n s Hn) as Hd. destruct (to_string_digit n) as (c & t & d & Ht & Hc).
  rewrite Ht in *. change (String c t +:+ s)%string with (String c (t +:+ s)) in *. unfold number. rewrite Hc, Hd.
  f_equal. destruct s as [| c' s']; [done |]. cbn. by rewrite (Hs c' s' eq_refl).
Qed.

Lemma part_to_string n s : 0 <= n < 256 -> part (to_string n +:+ "." +:+ s) = Some (n, s).
Proof.
  intros Hn. unfold part. change ("." +:+ s)%string with (String "." s). rewrite number_to_string by (try lia; by intros c s' [= <- _]).
  by replace (n <? 256) with true by lia.
Qed.

Lemma octets ip : in_bits 32 ip -> ((octet ip 3 * 256 + octet ip 2) * 256 + octet ip 1) * 256 + octet ip 0 = ip.
Proof.
  unfold in_bits, octet, u8. intros Hip. rewrite !Z.shiftr_div_pow2 by lia.
  change (2 ^ (8 * 3)) with (2 ^ 16 * 2 ^ 8). change (2 ^ (8 * 2)) with (2 ^ 8 * 2 ^ 8). change (2 ^ (8 * 1)) with (2 ^ 8).
  change (2 ^ 16) with (2 ^ 8 * 2 ^ 8). rewrite <- !Z.div_div by lia. change (2 ^ 8) with 256.
  change (ip / 2 ^ (8 * 0)) with (ip / 1). rewrite Z.div_1_r.
  change (2 ^ 32) with (256 * 256 * 256 * 256) in Hip. rewrite (Z.mod_small (ip / 256 / 256 / 256)).
  - pose proof (Z.div_mod ip 256). pose proof (Z.div_mod (ip / 256) 256). pose proof (Z.div_mod (ip / 256 / 256) 256). lia.
  - split; [repeat apply Z.div_pos; lia |]. repeat apply Z.div_lt_upper_bound; lia.
Qed.

Lemma aton_ntoa ip : in_bits 32 ip -> inet_aton (inet_ntoa ip) = Some ip.
Proof.
  intros Hip. unfold inet_aton, inet_ntoa.
  assert (Ho : forall k, 0 <= octet ip k < 256) by (intros k; by apply Z.mod_pos_bound).
  rewrite number_to_string by (try apply Ho; by intros c s' [= <- _]).
  rewrite !part_to_string by apply Ho. rewrite <- (string_app_nil (to_string (octet ip 0))).
  rewrite number_to_string by (try apply Ho; done). rewrite (proj2 (Z.ltb_lt _ _) (proj2 (Ho 0))).
  by rewrite octets.
Qed.

#[export] Instance numeric_resolver_laws : ResolverLaws.
Proof.
  assert (Hlk : forall s ip p h, inet_aton s = Some ip -> in_bits 16 p ->
    lookup_numeric s (to_string p) h = (0, [(sockaddr_in p ip, sizeof_sockaddr_in)])).
  { intros s ip p h Hs Hp. unfold lookup_numeric. rewrite Hs, <- (string_app_nil (to_string p)). unfold in_bits in Hp.
    rewrite number_to_string by (try lia; done). by replace (p <? 65536) with true by lia. }
  split.
  - intros ip p Hip Hp. exists []. apply Hlk; [by apply aton_ntoa | done].
  - intros p Hp. exists []. by apply Hlk.
  - intros ip p Hip Hp. cbn [getnameinfo numeric_resolver]. unfold name_numeric. fold (inet p ip).
    assert (Hport : be_val (take 2 (drop 2 (resize (sockaddr_in p ip) sizeof_storage))) = p).
    { pose proof (@port_in byte_netdb byte_netdb_laws p ip Hp Hip) as H. cbn [Address.port byte_netdb] in H.
      unfold port_of_bytes in H. destruct (negb _); [done |]. by injection H. }
    rewrite Hport. pose proof (inet_numeric p ip Hip) as H. unfold ipv4_numeric in H.
    destruct (negb (ss_family (inet p ip) =? AF_INET)) eqn:Hf; [done |]. cbn [orb negb _size inet] in H.
    change (negb (sizeof_sockaddr_in =? sizeof_sockaddr_in)) with false in H. injection H as H.
    apply negb_false_iff in Hf. change (mk sizeof_sockaddr_in (resize (sockaddr_in p ip) sizeof_storage)) with (inet p ip).
    rewrite Hf, H. by change (sizeof_sockaddr_in <=? sizeof_sockaddr_in) with true.
Qed.

(** C34: an address made from a dotted quad and a port has that number, prints
    as that quad and port, and reads back as the same address. *)
Theorem address_roundtrip {RsI : Resolver} {RsL : ResolverLaws} (ip p : Z) :
  in_bits 32 ip -> in_bits 16 p ->
  exists a, Names.of_ip (inet_ntoa ip) p = Ret a /\ ipv4_numeric a = Ret ip /\
    Names.address_to_string a = Ret (inet_ntoa ip +:+ ":" +:+ to_string p)%string /\
    ('(q, port) ← Names.ip_port a; Names.of_ip q port) = Ret a.
Proof.
  intros Hip Hp. exists (inet p ip). split_and!; [by apply of_ip_inet | by apply inet_numeric | |].
  - unfold Names.address_to_string. by rewrite ip_port_inet.
  - rewrite ip_port_inet by done. by apply of_ip_inet.
Qed.

Lemma address_roundtrip_witness :
  exists a, Names.of_ip "18.243.0.1" 8080 = Ret a /\ ipv4_numeric a = Ret 317915137 /\
    Names.address_to_string a = Ret "18.243.0.1:8080"%string /\
    ('(q, port) ← Names.ip_port a; Names.of_ip q port) = Ret a.
Proof. exact (address_roundtrip 317915137 8080 ltac:(split; [discriminate | reflexivity]) ltac:(split; [discriminate | reflexivity])). Defined.

End NumericResolverFacts.
