(* ===== verification/network_simulator.v ===== *)
(** * apps/network_simulator: the router among six hosts

    The program that exercises the router: seven interfaces, nine routes, six
    hosts on five links, and datagrams that must (or must not) arrive.  What
    it prints is not modelled.  The random numbers come from a generator
    [rd], addresses from the resolver; [_hosts], an [unordered_map], is an
    association list in insertion order, and the router walks [len_map] in
    the order [order] gives its entries. *)

From S2P Require Import Prelude buffer parser util codec ethernet ipv4 address network_interface router resolver.

(** The bytes of a C++ string. *)
Definition bytes_of (s : string) : bytes := String.list_byte_of_string s.

Section Simulator.
Context {R : Type} (rd : R -> Z * R) {RsI : Resolver}.

(** [n] draws, as [uint8_t]s. *)
Fixpoint random_bytes (n : nat) (g : R) : list Z * R :=
  match n with
  | O => ([], g)
  | S n => let '(v, g) := rd g in let '(l, g) := random_bytes n g in (u8 v :: l, g)
  end.

Definition random_host_ethernet_address (g : R) : EthernetAddress * R :=
  let '(addr, g) := random_bytes 6 g in
  (map byte_of (match addr with
                | [] => []
                | b :: rest => Z.land (Z.lor b 0x02) 0xfe :: rest
                end), g).

Definition random_router_ethernet_address (g : R) : EthernetAddress * R :=
  let '(addr, g) := random_bytes 6 g in
  (map byte_of (0x02 :: 0 :: 0 :: drop 3 addr), g).

(** [Address{str}] and [ip(str)]. *)
Definition address_of (str : string) : outcome Address.t := Names.of_ip str 0.
Definition ip (str : string) : outcome Z := a ← address_of str; Address.ipv4_numeric a.

(** [clear(queue1, queue2)]: as many elements leave the second queue as the
    first one has. *)
Fixpoint clear {A} (queue1 queue2 : list A) : outcome (list A) :=
  match queue1, queue2 with
  | [], _ => Ret queue2
  | _ :: queue1, _ :: queue2 => clear queue1 queue2
  | _ :: _, [] => Raise (undefined_behaviour "pop of an empty queue")
  end.

Definition same_datagram (x y : InternetDatagram) : outcome bool :=
  a ← IPv4Datagram.serialize x;
  b ← IPv4Datagram.serialize y;
  Ret (bool_decide (BufferList.concatenate a = BufferList.concatenate b)).

End Simulator.

Module Host.

Record t := mk {
  _name : string;
  _my_address : Address.t;
  _interface : AsyncNetworkInterface.t;
  _next_hop : Address.t;
  _expecting_to_receive : list InternetDatagram;
}.

Definition with_interface (i : AsyncNetworkInterface.t) (h : t) : t :=
  mk (_name h) (_my_address h) i (_next_hop h) (_expecting_to_receive h).
Definition with_expecting (l : list InternetDatagram) (h : t) : t :=
  mk (_name h) (_my_address h) (_interface h) (_next_hop h) l.

(** [expecting] and [remove_expectation], on the list of expectations. *)
Fixpoint expecting (expected : InternetDatagram) (l : list InternetDatagram) : outcome bool :=
  match l with
  | [] => Ret false
  | x :: l =>
      b ← same_datagram x expected;
      if b : bool then Ret true else expecting expected l
  end.

Fixpoint remove_expectation (expected : InternetDatagram) (l : list InternetDatagram) : outcome (list InternetDatagram) :=
  match l with
  | [] => Ret []
  | x :: l =>
      b ← same_datagram x expected;
      if b : bool then Ret l
      else
        l ← remove_expectation expected l;
        Ret (x :: l)
  end.

Definition address (h : t) : Address.t := _my_address h.
Definition interface (h : t) : AsyncNetworkInterface.t := _interface h.
Definition expect (expected : InternetDatagram) (h : t) : t :=
  with_expecting (_expecting_to_receive h ++ [expected]) h.
Definition name (h : t) : string := _name h.

Section Host.
Context {R : Type} (rd : R -> Z * R).

Definition make (name : string) (my_address next_hop : Address.t) (g : R) : t * R :=
  let '(mac, g) := random_host_ethernet_address rd g in
  (mk name my_address (AsyncNetworkInterface.of_interface (NetworkInterface.make mac my_address)) next_hop [], g).

Definition send_to (destination : Address.t) (ttl : Z) (h : t) (g : R) : outcome (InternetDatagram * t * R) :=
  src ← Address.ipv4_numeric (_my_address h);
  dst ← Address.ipv4_numeric destination;
  let '(v, g) := rd g in
  let payload := BufferList.of_string (bytes_of ("random payload: {" +:+ to_string v +:+ "}")) in
  let hd := IPv4Header.default_ in
  let len := u16 (IPv4Header.hlen hd * 4 + BufferList.size payload) in
  let dgram := IPv4Datagram.mk (IPv4Header.set_ttl ttl (IPv4Header.set_addresses src dst len hd)) payload in
  i ← AsyncNetworkInterface.send_datagram dgram (_next_hop h) (_interface h);
  Ret (dgram, with_interface i h, g).

End Host.

(** The [while] loop of [check] over the datagrams received; [l] is
    [_expecting_to_receive].  The text of the exceptions goes on with a
    description of the datagram. *)
Fixpoint check_received (name : string) (datagrams_out l : list InternetDatagram) : outcome (list InternetDatagram) :=
  match datagrams_out with
  | [] => Ret l
  | dgram_received :: datagrams_out =>
      b ← expecting dgram_received l;
      if negb b then Raise (runtime_error ("Host " +:+ name +:+ " received unexpected Internet datagram"))
      else
        l ← remove_expectation dgram_received l;
        check_received name datagrams_out l
  end.

Definition check (h : t) : outcome t :=
  l ← check_received (_name h) (AsyncNetworkInterface.datagrams_out (_interface h)) (_expecting_to_receive h);
  match l with
  | [] => Ret (with_expecting [] (with_interface (AsyncNetworkInterface.with_datagrams_out [] (_interface h)) h))
  | _ :: _ => Raise (runtime_error ("Host " +:+ _name h +:+ " did NOT receive an expected Internet datagram"))
  end.

End Host.

Module Network.

Record t := mk {
  _router : Router.t;
  default_id : Z;
  eth0_id : Z;
  eth1_id : Z;
  eth2_id : Z;
  uun3_id : Z;
  hs4_id : Z;
  mit5_id : Z;
  _hosts : list (string * Host.t);
}.

Definition with_router (r : Router.t) (n : t) : t :=
  mk r (default_id n) (eth0_id n) (eth1_id n) (eth2_id n) (uun3_id n) (hs4_id n) (mit5_id n) (_hosts n).
Definition with_hosts (l : list (string * Host.t)) (n : t) : t :=
  mk (_router n) (default_id n) (eth0_id n) (eth1_id n) (eth2_id n) (uun3_id n) (hs4_id n) (mit5_id n) l.

(** ** Frames on a link *)

Fixpoint deliver (to_send : list EthernetFrame.t) (dst : AsyncNetworkInterface.t) : outcome AsyncNetworkInterface.t :=
  match to_send with
  | [] => Ret dst
  | front :: to_send =>
      let payload := BufferList.of_string (BufferList.concatenate (EthernetFrame.payload front)) in
      dst ← AsyncNetworkInterface.recv_frame (EthernetFrame.mk (EthernetFrame.header front) payload) dst;
      deliver to_send dst
  end.

Definition frames_out (i : AsyncNetworkInterface.t) : list EthernetFrame.t :=
  NetworkInterface.frames_out (AsyncNetworkInterface.base i).

(** [clear(frames, i.frames_out())]. *)
Definition clear_frames (frames : list EthernetFrame.t) (i : AsyncNetworkInterface.t) : outcome AsyncNetworkInterface.t :=
  q ← clear frames (frames_out i);
  Ret (AsyncNetworkInterface.with_base (NetworkInterface.with_frames_out q (AsyncNetworkInterface.base i)) i).

Definition exchange_frames (x y : AsyncNetworkInterface.t) : outcome (AsyncNetworkInterface.t * AsyncNetworkInterface.t) :=
  let x_frames := frames_out x in
  let y_frames := frames_out y in
  y ← deliver x_frames y;
  x ← deliver y_frames x;
  x ← clear_frames x_frames x;
  y ← clear_frames y_frames y;
  Ret (x, y).

Definition exchange_frames3 (x y z : AsyncNetworkInterface.t) :
    outcome (AsyncNetworkInterface.t * AsyncNetworkInterface.t * AsyncNetworkInterface.t) :=
  let x_frames := frames_out x in
  let y_frames := frames_out y in
  let z_frames := frames_out z in
  y ← deliver x_frames y;
  z ← deliver x_frames z;
  x ← deliver y_frames x;
  z ← deliver y_frames z;
  x ← deliver z_frames x;
  y ← deliver z_frames y;
  x ← clear_frames x_frames x;
  y ← clear_frames y_frames y;
  z ← clear_frames z_frames z;
  Ret (x, y, z).

(** ** Hosts by name *)

Fixpoint find (name : string) (hosts : list (string * Host.t)) : option Host.t :=
  match hosts with
  | [] => None
  | (key, h) :: hosts => if bool_decide (key = name) then Some h else find name hosts
  end.

(** [insert] keeps the element a key already has. *)
Definition insert (name : string) (h : Host.t) (hosts : list (string * Host.t)) : list (string * Host.t) :=
  match find name hosts with
  | Some _ => hosts
  | None => hosts ++ [(name, h)]
  end.

Definition host (name : string) (n : t) : outcome Host.t :=
  match find name (_hosts n) with
  | None => Raise (runtime_error ("unknown host: " +:+ name))
  | Some h =>
      if bool_decide (Host.name h = name) then Ret h
      else Raise (runtime_error ("invalid host: " +:+ name))
  end.

(** Through the references [host] and [_router.interface] return. *)
Definition set_host (name : string) (h : Host.t) (n : t) : t :=
  with_hosts (map (fun '(key, h') => (key, if bool_decide (key = name) then h else h')) (_hosts n)) n.
Definition set_host_interface (name : string) (i : AsyncNetworkInterface.t) (h : Host.t) (n : t) : t :=
  set_host name (Host.with_interface i h) n.
Definition set_interface (id : Z) (i : AsyncNetworkInterface.t) (n : t) : t :=
  with_router (Router.with_interfaces (<[Z.to_nat id := i]> (Router._interfaces (_router n))) (_router n)) n.

(** A link between an interface of the router and a host. *)
Definition connect (id : Z) (name : string) (n : t) : outcome t :=
  x ← Router.interface id (_router n);
  h ← host name n;
  '(x, y) ← exchange_frames x (Host.interface h);
  Ret (set_host_interface name y h (set_interface id x n)).

Definition simulate_physical_connections (n : t) : outcome t :=
  n ← connect (default_id n) "default_router" n;
  n ← connect (eth0_id n) "applesauce" n;
  n ← connect (eth2_id n) "cherrypie" n;
  n ← connect (hs4_id n) "hs_router" n;
  x ← Router.interface (uun3_id n) (_router n);
  h42 ← host "dm42" n;
  h43 ← host "dm43" n;
  '(x, y, z) ← exchange_frames3 x (Host.interface h42) (Host.interface h43);
  Ret (set_host_interface "dm43" z h43 (set_host_interface "dm42" y h42 (set_interface (uun3_id n) x n))).

Section Network.
Context {R : Type} (rd : R -> Z * R) {RsI : Resolver}.

(** [_router.add_interface({random_router_ethernet_address(), {str}})]. *)
Definition add_interface (str : string) (r : Router.t) (g : R) : outcome (Z * Router.t * R) :=
  let '(mac, g) := random_router_ethernet_address rd g in
  a ← address_of str;
  let '(id, r) := Router.add_interface (AsyncNetworkInterface.of_interface (NetworkInterface.make mac a)) r in
  Ret (id, r, g).

(** [_hosts.insert({name, {name, {my_address}, {next_hop}}})]. *)
Definition add_host (name my_address next_hop : string) (n : t) (g : R) : outcome (t * R) :=
  a ← address_of my_address;
  hop ← address_of next_hop;
  let '(h, g) := Host.make rd name a hop g in
  Ret (with_hosts (insert name h (_hosts n)) n, g).

(** [_router.add_route(ip(prefix), length, next_hop, id)]. *)
Definition add_route (prefix : string) (length : Z) (next_hop : option Address.t) (id : Z) (n : t) : outcome t :=
  p ← ip prefix;
  r ← Router.add_route p length next_hop id (_router n);
  Ret (with_router r n).

Definition make (g : R) : outcome (t * R) :=
  '(default_id, r, g) ← add_interface "171.67.76.46" Router.make g;
  '(eth0_id, r, g) ← add_interface "10.0.0.1" r g;
  '(eth1_id, r, g) ← add_interface "172.16.0.1" r g;
  '(eth2_id, r, g) ← add_interface "192.168.0.1" r g;
  '(uun3_id, r, g) ← add_interface "198.178.229.1" r g;
  '(hs4_id, r, g) ← add_interface "143.195.0.2" r g;
  '(mit5_id, r, g) ← add_interface "128.30.76.255" r g;
  let n := mk r default_id eth0_id eth1_id eth2_id uun3_id hs4_id mit5_id [] in
  '(n, g) ← add_host "applesauce" "10.0.0.2" "10.0.0.1" n g;
  '(n, g) ← add_host "default_router" "171.67.76.1" "0" n g;
  '(n, g) ← add_host "cherrypie" "192.168.0.2" "192.168.0.1" n g;
  '(n, g) ← add_host "hs_router" "143.195.0.1" "0" n g;
  '(n, g) ← add_host "dm42" "198.178.229.42" "198.178.229.1" n g;
  '(n, g) ← add_host "dm43" "198.178.229.43" "198.178.229.1" n g;
  h ← host "default_router" n;
  n ← add_route "0.0.0.0" 0 (Some (Host.address h)) default_id n;
  n ← add_route "10.0.0.0" 8 None eth0_id n;
  n ← add_route "172.16.0.0" 16 None eth1_id n;
  n ← add_route "192.168.0.0" 24 None eth2_id n;
  n ← add_route "198.178.229.0" 24 None uun3_id n;
  hs ← host "hs_router" n;
  n ← add_route "143.195.0.0" 17 (Some (Host.address hs)) hs4_id n;
  n ← add_route "143.195.128.0" 18 (Some (Host.address hs)) hs4_id n;
  n ← add_route "143.195.192.0" 19 (Some (Host.address hs)) hs4_id n;
  gw ← address_of "128.30.0.1";
  n ← add_route "128.30.76.255" 16 (Some gw) mit5_id n;
  Ret (n, g).

End Network.

Section Simulate.
Context (wild_shift : Z -> Z -> Z) (order : gmap Z Z -> list (Z * Z)).

Definition route (n : t) : outcome t :=
  r ← Router.route wild_shift (order (Router.len_map (_router n))) (_router n);
  Ret (with_router r n).

Fixpoint rounds (count : nat) (n : t) : outcome t :=
  match count with
  | O => Ret n
  | S count =>
      n ← route n;
      n ← simulate_physical_connections n;
      rounds count n
  end.

Fixpoint check_hosts (hosts : list (string * Host.t)) : outcome (list (string * Host.t)) :=
  match hosts with
  | [] => Ret []
  | (name, h) :: hosts =>
      h ← Host.check h;
      hosts ← check_hosts hosts;
      Ret ((name, h) :: hosts)
  end.

Definition simulate (n : t) : outcome t :=
  n ← rounds 256 n;
  hosts ← check_hosts (_hosts n);
  Ret (with_hosts hosts n).

End Simulate.

End Network.

Section Program.
Context {R : Type} (rd : R -> Z * R) {RsI : Resolver}.
Context (wild_shift : Z -> Z -> Z) (order : gmap Z Z -> list (Z * Z)).

(** [network.host(from).send_to(destination, ttl)]. *)
Definition send (from : string) (destination : Address.t) (ttl : Z) (n : Network.t) (g : R) :
    outcome (InternetDatagram * Network.t * R) :=
  h ← Network.host from n;
  '(dgram_sent, h, g) ← Host.send_to rd destination ttl h g;
  Ret (dgram_sent, Network.set_host from h n, g).

(** [dgram_sent.header().ttl--]. *)
Definition decrement_ttl (d : InternetDatagram) : InternetDatagram :=
  let h := IPv4Datagram.header d in
  IPv4Datagram.mk (IPv4Header.set_ttl (u8 (IPv4Header.ttl h - 1)) h) (IPv4Datagram.payload d).

(** One datagram sent with the default TTL and expected at a host. *)
Definition test_delivery (from : string) (destination : Address.t) (at_ : string) (n : Network.t) (g : R) :
    outcome (Network.t * R) :=
  '(dgram_sent, n, g) ← send from destination 64 n g;
  let dgram_sent := decrement_ttl dgram_sent in
  h ← Network.host at_ n;
  n ← Network.simulate wild_shift order (Network.set_host at_ (Host.expect dgram_sent h) n);
  Ret (n, g).

(** One datagram sent with a TTL that expires. *)
Definition test_expiry (from : string) (destination : Address.t) (ttl : Z) (n : Network.t) (g : R) : outcome (Network.t * R) :=
  '(_, n, g) ← send from destination ttl n g;
  n ← Network.simulate wild_shift order n;
  Ret (n, g).

(** The same, between two hosts and to an address written out. *)
Definition test_between (from to : string) (n : Network.t) (g : R) : outcome (Network.t * R) :=
  h ← Network.host to n;
  test_delivery from (Host.address h) to n g.
Definition test_to (from destination at_ : string) (n : Network.t) (g : R) : outcome (Network.t * R) :=
  a ← address_of destination;
  test_delivery from a at_ n g.

Definition network_simulator (g : R) : outcome (Network.t * R) :=
  '(network, g) ← Network.make rd g;
  '(network, g) ← test_between "applesauce" "cherrypie" network g;
  '(network, g) ← test_between "cherrypie" "applesauce" network g;
  '(network, g) ← test_to "applesauce" "1.2.3.4" "default_router" network g;
  '(network, g) ← test_to "applesauce" "143.195.131.17" "hs_router" network g;
  '(network, g) ← test_to "cherrypie" "143.195.193.52" "hs_router" network g;
  '(network, g) ← test_to "cherrypie" "143.195.223.255" "hs_router" network g;
  '(network, g) ← test_to "cherrypie" "143.195.224.0" "default_router" network g;
  '(network, g) ← test_between "dm42" "dm43" network g;
  a ← address_of "1.2.3.4";
  '(network, g) ← test_expiry "applesauce" a 1 network g;
  test_expiry "applesauce" a 0 network g.

End Program.
