(* ===== verification/network_simulator_proofs.v ===== *)
(** * The network simulator: what a host's check accepts

    [Host.check] accepts exactly the datagrams expected, each as often as it
    was expected, compared by their bytes on the wire. *)

From S2P Require Import Prelude buffer parser util codec ethernet ipv4 address network_interface network_interface_proofs router router_proofs resolver network_simulator.

Module SimulatorFacts.
Import ParserFacts CodecFacts EthernetFacts IPv4Facts AddressFacts InterfaceFacts RouterFacts.

(** ** What a host checks *)

(** The bytes of a datagram on the wire. *)
Definition image (d : InternetDatagram) : bytes :=
  match IPv4Datagram.serialize d with Ret l => BufferList.concatenate l | _ => [] end.

Lemma same_datagram_ok x y : sendable x -> sendable y -> same_datagram x y = Ret (bool_decide (image x = image y)).
Proof.
  intros [Hx Hlx] [Hy Hly]. unfold same_datagram, image.
  destruct (datagram_serialize x Hx Hlx) as (lx & -> & _), (datagram_serialize y Hy Hly) as (ly & -> & _). done.
Qed.

Lemma expecting_ok e l : sendable e -> Forall sendable l -> Host.expecting e l = Ret (bool_decide (image e ∈ map image l)).
Proof.
  intros He Hl. induction Hl as [| x l Hx _ IH]; cbn [Host.expecting map].
  { by rewrite bool_decide_eq_false_2 by apply not_elem_of_nil. }
  rewrite same_datagram_ok by done. cbn [mbind outcome_bind]. destruct (bool_decide_reflect (image x = image e)) as [Heq | Heq].
  - rewrite bool_decide_eq_true_2; [done |]. rewrite Heq. apply list_elem_of_here.
  - rewrite IH. f_equal. apply bool_decide_ext. rewrite elem_of_cons. naive_solver.
Qed.

Lemma remove_expectation_ok e l :
  sendable e -> Forall sendable l -> image e ∈ map image l ->
  exists l', Host.remove_expectation e l = Ret l' /\ Forall sendable l' /\ map image l ≡ₚ image e :: map image l'.
Proof.
  intros He Hl. induction Hl as [| x l Hx Hl IH]; cbn [Host.remove_expectation map]; [by intros ?%not_elem_of_nil |].
  rewrite same_datagram_ok by done. cbn [mbind outcome_bind]. intros [Hin | Hin]%elem_of_cons.
  - rewrite bool_decide_eq_true_2 by done. exists l. split_and!; [done | done |]. by rewrite Hin.
  - case_bool_decide as Heq; [exists l; split_and!; [done | done |]; by rewrite Heq |].
    destruct (IH Hin) as (l' & -> & Hl' & Hp). exists (x :: l'). split_and!; [done | by constructor |]. cbn [map]. rewrite Hp.
    apply Permutation_swap.
Qed.

Lemma check_received_ok name q l :
  Forall sendable q -> Forall sendable l ->
  match Host.check_received name q l with
  | Ret l' => map image l ≡ₚ map image q ++ map image l'
  | Raise (runtime_error _) => ~ map image q ⊆+ map image l
  | _ => False
  end.
Proof.
  intros Hq. revert l. induction Hq as [| d q Hd _ IH]; intros l Hl; cbn [Host.check_received map app]; [done |].
  rewrite expecting_ok by done. cbn [mbind outcome_bind]. case_bool_decide as Hin; cbn [negb].
  - destruct (remove_expectation_ok d l Hd Hl Hin) as (l' & -> & Hl' & Hp). cbn [mbind outcome_bind].
    specialize (IH l' Hl'). destruct (Host.check_received name q l') as [l'' | [] |]; try done.
    + by rewrite Hp, IH.
    + rewrite Hp. intros Hsub. apply IH. exact (submseteq_app_inv_l _ _ [image d] Hsub).
  - intros Hsub. apply Hin. by apply (elem_of_submseteq _ _ _ (list_elem_of_here _ _) Hsub).
Qed.

(** The host after a successful check. *)
Definition checked (h : Host.t) : Host.t :=
  Host.with_expecting [] (Host.with_interface (AsyncNetworkInterface.with_datagrams_out [] (Host._interface h)) h).

(** [check] passes exactly when the datagrams the host received are the
    expected ones, each as often as expected and in any order, compared by
    their bytes on the wire; then nothing is left over.  Otherwise it throws. *)
Theorem check_correct (h : Host.t) :
  let received := AsyncNetworkInterface.datagrams_out (Host._interface h) in
  let expected := Host._expecting_to_receive h in
  Forall sendable received -> Forall sendable expected ->
  (map image received ≡ₚ map image expected -> Host.check h = Ret (checked h)) /\
  (~ map image received ≡ₚ map image expected -> exists what, Host.check h = Raise (runtime_error what)).
Proof.
  intros received expected Hr He. pose proof (check_received_ok (Host._name h) received expected Hr He) as Hc.
  unfold Host.check. fold received expected. destruct (Host.check_received _ received expected) as [l | [] |]; try done; cbn [mbind outcome_bind].
  - destruct l as [| d l].
    + split; [done |]. intros []. by rewrite Hc, app_nil_r.
    + split; [| by eexists]. intros Hp. rewrite Hc in Hp. apply Permutation_length in Hp. rewrite length_app in Hp. cbn in Hp. lia.
  - split; [| by eexists]. intros Hp. destruct Hc. by rewrite Hp.
Qed.

(** ** A link *)

(** An interface whose queued datagrams can be sent on. *)
Definition good (i : AsyncNetworkInterface.t) : Prop :=
  ni_inv (AsyncNetworkInterface.base i) /\ Forall sendable (AsyncNetworkInterface._datagrams_out i).

Lemma arrives_sendable d d' : sendable d -> arrives d d' -> sendable d'.
Proof.
  intros [[] Hl] [(c & Hc & Hh) (b & Hp & _ & Hb)]. split; rewrite Hh; [by split |]. rewrite Hp. cbn. by rewrite app_nil_r, Hb.
Qed.

Lemma clear_app {A} (q1 q2 : list A) : clear q1 (q1 ++ q2) = Ret q2.
Proof. by induction q1. Qed.

(** A host that received what it expected, in the other order. *)
Lemma check_correct_witness :
  let d1 := sample_datagram in
  let d2 := decrement_ttl sample_datagram in
  let h := Host.mk "h" (inet 0 1) (AsyncNetworkInterface.mk host_a [d1; d2]) (inet 0 2) [d2; d1] in
  Host.check h = Ret (checked h).
Proof.
  intros d1 d2 h. assert (Hs : sendable d1) by apply sample_sendable.
  assert (Hs2 : sendable d2) by (split; [split; vm_compute; intuition congruence | reflexivity]).
  apply (check_correct h); [by repeat constructor | by repeat constructor |]. apply Permutation_swap.
Defined.

End SimulatorFacts.
