(* ===== verification/tcp_progress.v ===== *)
(** * Two connections make progress

    What it takes for a transfer between two connections to go on when no
    segment is lost: the sender's side of the window (an acknowledgement of
    everything sent makes it send more, or a probe), the receiver's side
    (segments inside the window are taken whole), and the two together, for
    one delivery of all that a connection has queued to its peer. *)

From S2P Require Import Prelude byte_stream wrapping_integers buffer stream_reassembler stream_reassembler_proofs tcp_segment tcp_config tcp_receiver tcp_sender tcp_sender_proofs tcp_state tcp_connection tcp_connection_proofs tcp_connection_effects.

Module ProgressFacts.
Import ReassemblerFacts ReceiverFacts SenderFacts ConnectionFacts EffectFacts.
Import TCPConnection(stamp).

(** ** The sender *)

Section Sender.
Import TCPSender.
Context (f : flow).
Hypothesis isn_ok : in_bits 32 (isn_of f).
Hypothesis bounds : 0 <= total_of f /\ total_of f + 2 < 2 ^ 31.

Abbreviation inv := (sinv (bytes_of f) (total_of f) (isn_of f)).
Abbreviation train_of := (train (bytes_of f) (total_of f) (isn_of f)).

(** The oldest number that is not acknowledged. *)
Definition una (s : t) : Z := next_seqno_absolute s - bytes_in_flight s.

Definition all_sent (s : t) : Prop := _next_seqno s = total_of f + 2.

(** There is something to send, or all is sent. *)
Definition supplied (s : t) : Prop :=
  all_sent s \/ ByteStream.buffer_empty (stream_in s) = false \/ ByteStream.input_ended (stream_in s) = true.

(** A sender that had sent the numbers up to [N] and is getting
    acknowledgements of them from a peer with room for the stream's bytes
    before [E]; [full]: the peer has received them all. *)
Record sending (N E : Z) (full : Prop) (s : t) : Prop := {
  sg_split : exists a fin u q1 q2, inv s a fin u /\ outstandings s = q1 ++ q2 /\
    train_of u q1 N /\ train_of N q2 (_next_seqno s);
  sg_bound : _next_seqno s <= E + 1 \/
    _next_seqno s = E + 2 /\ full /\ (probing s = true /\ window_right s = E \/ all_sent s);
  sg_right : window_right s <= E \/ all_sent s;
  sg_probing : probing s = true -> window_right s < E \/ _next_seqno s = E + 2 \/ all_sent s;
  sg_window : window s = 0 -> probing s = true \/ all_sent s;
  sg_supplied : _next_seqno s = N -> supplied s;
}.

Lemma inv_una s a fin u : inv s a fin u -> una s = u.
Proof. intros H. unfold una, next_seqno_absolute, bytes_in_flight. rewrite (si_flight _ _ _ _ _ _ _ H). lia. Qed.

Lemma inv_ended s a fin u : inv s a fin u -> ByteStream.input_ended (stream_in s) = ByteStreamSpec.ended a.
Proof. intros H. unfold stream_in, ByteStream.input_ended. apply ByteStreamFacts.repr_ended, H. Qed.

Lemma fin_all_sent s a u : inv s a true u -> all_sent s.
Proof.
  intros H. destruct (si_fin _ _ _ _ _ _ _ H eq_refl) as [He Hn]. apply (si_ended _ _ _ _ _ _ _ H) in He.
  destruct (si_next _ _ _ _ _ _ _ H) as [(_ & _ & ? & _) | Hx]; [done |]. unfold all_sent, flag_len, Zlen in *. lia.
Qed.

Lemma all_sent_fin s a fin u : inv s a fin u -> all_sent s -> fin = true.
Proof.
  intros H Hs. destruct fin; [done |]. unfold all_sent in Hs. destruct (sinv_bounds _ _ _ bounds _ _ _ _ H) as (Hn & _).
  pose proof (si_hist _ _ _ _ _ _ _ H). destruct (si_next _ _ _ _ _ _ _ H) as [(? & _) | Hx]; unfold flag_len in *; lia.
Qed.

(** A sender with an ended stream that has nothing to send has sent all. *)
Lemma idle_all_sent s a fin u :
  inv s a fin u -> supplied s -> ByteStream.buffer_empty (stream_in s) = true -> ReadyToFin s = false -> all_sent s.
Proof.
  intros H [? | [? | He]] Hb Hr; [done | congruence |].
  rewrite (inv_ended _ _ _ _ H) in He. rewrite (sinv_ready _ _ _ bounds _ _ _ _ H), He in Hr.
  rewrite (sinv_empty _ _ _ bounds _ _ _ _ H) in Hb. rewrite Hb in Hr. destruct fin; [by eapply fin_all_sent | done].
Qed.

(** Nothing sent: what was there to send still is. *)
Lemma supplied_still s s' a a' fin fin' u u' :
  inv s a fin u -> inv s' a' fin' u' -> only_read a a' -> _next_seqno s' = _next_seqno s -> 0 < _next_seqno s ->
  supplied s -> supplied s'.
Proof.
  intros H H' [Eh Ee] En Hp Hs. destruct fin'; [left; by eapply fin_all_sent |].
  destruct fin; [left; unfold all_sent; rewrite En; by eapply fin_all_sent |].
  assert (Er : ByteStreamSpec.nread a' = ByteStreamSpec.nread a).
  { destruct (si_next _ _ _ _ _ _ _ H) as [(? & _) | Hx]; [lia |].
    destruct (si_next _ _ _ _ _ _ _ H') as [(? & _) | Hx']; unfold flag_len in *; lia. }
  unfold supplied, all_sent in *. rewrite (sinv_empty _ _ _ bounds _ _ _ _ H'), (inv_ended _ _ _ _ H').
  rewrite (sinv_empty _ _ _ bounds _ _ _ _ H), (inv_ended _ _ _ _ H) in Hs. by rewrite Eh, Ee, Er, En.
Qed.

(** An acknowledgement inside the first part of the queue. *)
Lemma acks_split s u k w s1 u1 q1 q2 N :
  acks (bytes_of f) (total_of f) (isn_of f) s u k w s1 u1 -> outstandings s = q1 ++ q2 ->
  train_of u q1 N -> k <= N ->
  exists q1', outstandings s1 = q1' ++ q2 /\ train_of u1 q1' N /\
    (k = N -> u1 = N) /\ (u < u1 -> recount s1 = 0) /\ (recount s1 = recount s \/ recount s1 = 0).
Proof.
  intros [(gone & Hg & Htg & Hyes & Hno) Hfront _ _ _ _ _] Hq Ht Hk.
  assert (Hrc : recount s1 = recount s \/ recount s1 = 0).
  { destruct (decide (gone = [])) as [He | He]; [left; by apply Hno | right; by apply Hyes]. }
  assert (Hr0 : u < u1 -> recount s1 = 0) by (intros Hlt; destruct gone; [cbn in Htg; lia | by apply Hyes]).
  assert (Hpre : exists q1', q1 = gone ++ q1' /\ outstandings s1 = q1' ++ q2).
  { rewrite Hg in Hq. symmetry in Hq. apply app_eq_inv in Hq as [(q & -> & ->) | (q & -> & ->)]; [by exists q |].
    apply train_app in Htg as (mid & H1 & H2). destruct q as [|seg q]; [exists []; by rewrite !app_nil_r |].
    destruct Hyes as [Hle _]; [by destruct q1 |]. pose proof (train_fun _ _ _ _ _ _ _ Ht H1) as <-.
    cbn in H2. destruct H2 as [Hs H2%train_le]. pose proof (at_len _ _ _ _ _ Hs). lia. }
  destruct Hpre as (q1' & -> & Ho). apply train_app in Ht as (mid & H1 & H2).
  pose proof (train_fun _ _ _ _ _ _ _ H1 Htg) as ->. exists q1'. split_and!; [done | done | | done | done].
  intros ->. destruct q1' as [|seg q]; [done |]. cbn in H2. destruct H2 as [Hs H2%train_le].
  rewrite Ho in Hfront. specialize (Hfront seg (q ++ q2) eq_refl). lia.
Qed.

Lemma inv_next_le s a fin u : inv s a fin u -> _next_seqno s <= total_of f + 2.
Proof. intros H. by destruct (sinv_bounds _ _ _ bounds _ _ _ _ H) as (_ & _ & ? & _). Qed.

(** The window after an acknowledgement of [k] that leaves room before [E]
    and the sending that follows. *)
Lemma sending_fill N E full s k w s1 s' a a' fin fin' u u' new :
  sending N E full s -> inv s1 a fin u -> supplied s1 \/ N < _next_seqno s -> 1 <= k <= N -> N <= _next_seqno s -> 0 <= w -> ~ all_sent s ->
  k + w - 1 = E -> (w = 0 -> full) ->
  _next_seqno s1 = _next_seqno s -> window s1 = w -> window_right s1 = E ->
  probing s1 = (if E >? window_right s then false else probing s) ->
  SenderFacts.sends (bytes_of f) (total_of f) (isn_of f) s1 a u' new s' a' fin' -> filled s1 s' ->
  (_next_seqno s' <= E + 1 \/ _next_seqno s' = E + 2 /\ full /\ (probing s' = true /\ window_right s' = E \/ all_sent s')) /\
  window_right s' = E /\
  (probing s' = true -> _next_seqno s' = E + 2) /\
  (w = 0 -> probing s' = true) /\
  (k = N -> N < _next_seqno s' \/ ~ busy s').
Proof.
  intros Hs H1 Hsup Hk HN Hw Hna Hkw Hfull En Ew Er Ep Hsd Hf.
  destruct (sd_env _ _ _ _ _ _ _ _ _ _ Hsd) as (_ & Er' & _). rewrite Er in Er'.
  pose proof (train_le _ _ _ _ _ _ (sd_train _ _ _ _ _ _ _ _ _ _ Hsd)) as Hle. rewrite En in *.
  pose proof (sg_bound _ _ _ _ Hs) as Hb. pose proof (sg_right _ _ _ _ Hs) as Hr. pose proof (sg_probing _ _ _ _ Hs) as Hp.
  destruct Hr as [Hr | ?]; [| done]. unfold filled in Hf. rewrite En, Ew, Er, Ep in Hf.
  destruct Hf as [(Hw0 & Hp1 & Hp' & En') | (Hwhy & Hp' & Hn' & Hdone)].
  - assert (En0 : _next_seqno s = E + 1).
    { destruct Hb as [? | (? & _ & [[Hpr Hri] | ?])]; [lia | | done].
      rewrite Hri, Hpr in Hp1. destruct (Z.gtb_spec E E); [lia | done]. }
    specialize (Hfull Hw0). split_and!; [right | done | intros _; lia | done | left; lia].
    split_and!; [lia | done | by left].
  - assert (Hpt : probing s' = true -> _next_seqno s = E + 2).
    { rewrite Hp'. destruct (Z.gtb_spec E (window_right s)); [done |]. intros Hps. destruct (Hp Hps) as [? | [? | ?]]; [lia | done | done]. }
    assert (Hpb : _next_seqno s = E + 2 -> probing s' = true /\ full).
    { intros E2. destruct Hb as [? | (_ & ? & [[Hpr Hri] | ?])]; [lia | | done]. rewrite Hp', Hri, Hpr.
      destruct (Z.gtb_spec E E); [lia | done]. }
    assert (Hzero : w = 0 -> probing s' = true).
    { intros Hw0. rewrite Hp'. destruct Hwhy as [? | [? | [Hrf Hbe]]]; [done | done |]. rewrite <- Hp'.
      apply Hpb. destruct Hb as [? | [? _]]; [| done]. exfalso. apply Hna.
      destruct Hsup as [Hsup | ?]; [| lia]. pose proof (idle_all_sent s1 a fin u H1 Hsup Hbe Hrf) as Hall.
      unfold all_sent in *. by rewrite En in Hall. }
    split_and!; [| done | intros Hpr; specialize (Hpt Hpr); lia | done |].
    + destruct Hb as [? | [E2 _]]; [left; lia |]. right. destruct (Hpb E2). split_and!; [lia | done | by left].
    + intros ->. destruct Hdone as [Hd | Hd]; [| by right]. left. destruct (Z.eq_dec w 0) as [Hw0 |]; [| lia].
      specialize (Hpt (Hzero Hw0)). lia.
Qed.

(** The acknowledgement is understood and not beyond what was sent. *)
Lemma ack_within s a fin u k w s1 :
  inv s a fin u -> 1 <= k <= _next_seqno s -> in_bits 16 w ->
  ack_received (WrappingInt32.wrap k (isn_of f)) w s = Ret s1 ->
  exists u1, inv s1 a fin u1 /\ acks (bytes_of f) (total_of f) (isn_of f) s u k w s1 u1.
Proof.
  intros H Hk Hw Hr. destruct (sinv_bounds _ _ _ bounds _ _ _ _ H) as (Hn & _ & Hle & _). pose proof (si_hist _ _ _ _ _ _ _ H).
  destruct (ack_received_spec _ _ _ isn_ok bounds s a fin u (WrappingInt32.wrap k (isn_of f)) w H)
    as (k' & s1' & u1 & Hu & Hs & H1 & Ha); [apply WrappingFacts.wrap_range | done | lia |].
  rewrite Hr in Hs. injection Hs as <-.
  rewrite WrappingFacts.unwrap_wrap_near in Hu by (unfold in_bits in *; lia). injection Hu as <-.
  destruct (Z.gtb_spec k (_next_seqno s)); [lia |]. by exists u1.
Qed.

(** An acknowledgement in the first part of what is outstanding; when it is
    of all of it, the sender goes on. *)
Lemma sending_ack N E full s k w s1 s' :
  sending N E full s -> 1 <= k <= N -> in_bits 16 w -> 0 <= E < 2 ^ 32 ->
  k + w - 1 = E + flag_len (k =? total_of f + 2) -> (w = 0 -> k <> total_of f + 2 -> full) ->
  ack_received (WrappingInt32.wrap k (isn_of f)) w s = Ret s1 -> fill_window s1 = Ret s' ->
  exists new, sending N E full s' /\ _segments_out s' = _segments_out s ++ new /\
    train_of (_next_seqno s) new (_next_seqno s') /\
    una s <= una s' <= N /\ (una s < una s' -> recount s' = 0) /\ (recount s' = recount s \/ recount s' = 0) /\
    (k = N -> una s' = N /\ (N < _next_seqno s' \/ all_sent s')).
Proof.
  intros Hs Hk Hw HE Hkw Hfull Hack Hfill. destruct (sg_split _ _ _ _ Hs) as (a & fin & u & q1 & q2 & H & Hq & Ht1 & Ht2).
  pose proof (train_le _ _ _ _ _ _ Ht2). destruct (ack_within s a fin u k w s1 H) as (u1 & H1 & Ha); [lia | done | done |].
  destruct (acks_split s u k w s1 u1 q1 q2 N Ha Hq Ht1) as (q1' & Hq' & Ht1' & Hall & Hr0 & Hrc); [lia |].
  destruct (fill_window_spec _ _ _ bounds s1 a fin u1 H1) as (s2 & a' & fin' & new & Hf & Hsd & Hfd).
  rewrite Hfill in Hf. injection Hf as <-. pose proof Ha as [(gone & _ & Hu%train_le & _) _ _ Ew Er (Eo & En & Est & _) Ep].
  pose proof Hsd as [H' Htn Ho' Hq'' (Ew' & Er' & _ & _ & Erc & _) Hor _]. rewrite En, Eo in *.
  rewrite (inv_una _ _ _ _ H), (inv_una _ _ _ _ H'), Erc. pose proof (train_le _ _ _ _ _ _ Htn) as Hnn.
  assert (Hmore : (_next_seqno s' <= E + 1 \/ _next_seqno s' = E + 2 /\ full /\ (probing s' = true /\ window_right s' = E \/ all_sent s')) /\
    (window_right s' <= E \/ all_sent s') /\ (probing s' = true -> window_right s' < E \/ _next_seqno s' = E + 2 \/ all_sent s') /\
    (window s' = 0 -> probing s' = true \/ all_sent s') /\ (k = N -> N < _next_seqno s' \/ ~ busy s' \/ all_sent s')).
  { destruct (decide (_next_seqno s = total_of f + 2)) as [Hal | Hal].
    - assert (Hal' : all_sent s') by (unfold all_sent; pose proof (inv_next_le _ _ _ _ H'); lia).
      split_and!; auto. unfold all_sent in *. pose proof (sg_bound _ _ _ _ Hs). unfold all_sent in *. intuition lia.
    - assert (Hkl : k <> total_of f + 2) by (pose proof (inv_next_le _ _ _ _ H); lia).
      destruct (Z.eqb_spec k (total_of f + 2)); [done |]. cbn [flag_len] in Hkw. rewrite Z.add_0_r in Hkw.
      rewrite Hkw, u64_small in Er, Ep by lia. pose proof (sg_right _ _ _ _ Hs) as Hr. unfold in_bits in Hw.
      destruct (sending_fill N E full s k w s1 s' a a' fin fin' u1 u1 new Hs H1) as (X1 & X2 & X3 & X4 & X5); try done; try lia.
      + destruct (Z.eq_dec (_next_seqno s) N) as [Hx | Hx]; [left | right; lia]. pose proof (sg_supplied _ _ _ _ Hs Hx) as Hsu.
        unfold supplied, all_sent, stream_in in *. by rewrite En, Est.
      + intros Hw0. by apply Hfull.
      + destruct Hr; [lia | done].
      + split_and!; [exact X1 | left; lia | auto | intros Hw0; left; apply X4; congruence | intros Hx; destruct (X5 Hx); auto]. }
  destruct Hmore as (M1 & M2 & M3 & M4 & M5).
  assert (Hsup : _next_seqno s' = N -> supplied s').
  { intros Hx. assert (Hx0 : _next_seqno s = N) by lia. pose proof (sg_supplied _ _ _ _ Hs Hx0) as Hsu.
    eapply (supplied_still s1 s'); [exact H1 | exact H' | done | lia | lia |]. unfold supplied, all_sent, stream_in in *. by rewrite En, Est. }
  exists new. split_and!; [| done | done | lia | by apply train_le in Ht1' | done | done |].
  - constructor; [| done | done | done | done | done]. exists a', fin', u1, q1', (q2 ++ new).
    split_and!; [done | by rewrite Hq'', Hq', app_assoc | done | apply train_app; by exists (_next_seqno s)].
  - intros Hx. split; [by apply Hall |]. destruct (M5 Hx) as [? | [Hid | ?]]; [by left | | by right].
    destruct (Z.eq_dec (_next_seqno s') N) as [Hx' | Hx']; [right | left; lia].
    unfold busy in Hid. apply (idle_all_sent s' a' fin' u1 H'); [by apply Hsup | |].
    + destruct (ByteStream.buffer_empty _); [done | tauto].
    + destruct (ReadyToFin s'); [tauto | done].
Qed.

(** A sender whose window agrees with a peer that has room before [E]. *)
Record poised (E : Z) (s : t) : Prop := {
  po_bound : _next_seqno s <= E + 1;
  po_right : window_right s <= E \/ all_sent s;
  po_probing : probing s = true -> window_right s < E \/ all_sent s;
  po_window : window s = 0 -> probing s = true \/ all_sent s;
}.

Lemma poised_sending E full s a fin u : inv s a fin u -> poised E s -> supplied s -> sending (_next_seqno s) E full s.
Proof.
  intros H [P1 P2 P3 P4] Hs. constructor; [| by left | done | intros Hp; destruct (P3 Hp); auto | done | done].
  exists a, fin, u, (outstandings s), []. rewrite app_nil_r. split_and!; [done | done | apply H | done].
Qed.

(** Reading at the peer moves [E]. *)
Lemma sending_poised N E E' full s : sending N E full s -> E <= E' -> (full -> E < E') -> poised E' s.
Proof.
  intros [_ P1 P2 P3 P4 _] HE Hf. constructor; [| | | done].
  - destruct P1 as [? | (? & ?%Hf & _)]; lia.
  - destruct P2; [left; lia | by right].
  - intros Hp. destruct (P3 Hp) as [? | [Hn | ?]]; [left; lia | | by right].
    destruct P1 as [? | (_ & ?%Hf & _)]; [lia |]. destruct P2; [left; lia | by right].
Qed.

Lemma poised_fill E s a fin u s' :
  inv s a fin u -> poised E s -> fill_window s = Ret s' ->
  exists a' fin' new, SenderFacts.sends (bytes_of f) (total_of f) (isn_of f) s a u new s' a' fin' /\ poised E s'.
Proof.
  intros H [P1 P2 P3 P4] Hf. destruct (fill_window_spec _ _ _ bounds s a fin u H) as (s2 & a' & fin' & new & Hf' & Hsd & Hfd).
  rewrite Hf in Hf'. injection Hf' as <-. exists a', fin', new. split; [done |].
  pose proof Hsd as [H' Ht%train_le _ _ (Ew & Er & _) _ _]. pose proof (inv_next_le _ _ _ _ H').
  unfold all_sent in *. destruct Hfd as [(Hw & Hp & _ & Hn) | (_ & Ep & Hn & _)].
  - exfalso. destruct (P4 Hw); [congruence | lia].
  - constructor; rewrite ?Ew, ?Er, ?Ep; unfold all_sent.
    + destruct P2; lia.
    + destruct P2; [by left | right; lia].
    + intros Hx. destruct (P3 Hx); [by left | right; lia].
    + intros Hx. destruct (P4 Hx); [by left | right; lia].
Qed.

End Sender.

(** ** The receiver *)

Section Receiver.
Import TCPReceiver.
Context (f : flow) (cp : nat).
Hypothesis isn_ok : in_bits 32 (isn_of f).
Hypothesis bounds : 0 <= total_of f /\ total_of f + Z.of_nat cp + 2 < 2 ^ 31.

Abbreviation ok := (rcv_ok (bytes_of f) cp (total_of f) (isn_of f)).
Abbreviation written r := (ByteStream.bytes_written (stream_out r)).

(** The acknowledgement number, 0 before the SYN. *)
Definition rcvd (r : t) : Z :=
  if syned r then written r + 1 + flag_len (ByteStream.input_ended (stream_out r)) else 0.

(** Where the window ends. *)
Definition edge (r : t) : Z := ByteStream.bytes_read (stream_out r) + Z.of_nat cp.

(** The bytes that have arrived. *)
Definition holds (r : t) (i : Z) : Prop :=
  0 <= i < written r \/ stored (StreamReassembler.m (_reassembler r)) i.

(** Nothing has arrived that was not sent by a sender at [n]. *)
Definition held (n : Z) (r : t) : Prop :=
  (forall i, 0 <= i -> holds r i -> i + 1 < n) /\
  (StreamReassembler.endIdx (_reassembler r) = total_of f -> n = total_of f + 2).

Lemma total_bounds : 0 <= total_of f /\ total_of f + Z.of_nat cp < 2 ^ 31.
Proof. lia. Qed.

Lemma ok_ghost r :
  ok r -> exists a, InvL (bytes_of f) cp (total_of f) (_reassembler r) a /\
    (syned r = false \/ rcv_inv (bytes_of f) cp (total_of f) (isn_of f) r a) /\
    written r = Zlen (ByteStreamSpec.hist a) /\ edge r = window_end (_reassembler r) a /\
    ByteStream.input_ended (stream_out r) = ByteStreamSpec.ended a.
Proof.
  intros (a & Hi & Hs). pose proof (invl_inv _ _ _ _ _ Hi) as I. exists a. split_and!; [done | done | | |].
  - by apply (inv_written (bytes_of f)).
  - unfold edge, window_end, stream_out, StreamReassembler.stream_out. rewrite (inv_read _ _ _ I), (invl_cap _ _ _ _ _ Hi). done.
  - unfold stream_out, StreamReassembler.stream_out, ByteStream.input_ended. apply ByteStreamFacts.repr_ended, I.
Qed.

Lemma ok_counts r : ok r ->
  0 <= ByteStream.bytes_read (stream_out r) <= written r /\ written r <= edge r /\ written r <= total_of f /\
  (ByteStream.input_ended (stream_out r) = true <->
     StreamReassembler.endIdx (_reassembler r) = total_of f /\ written r = total_of f).
Proof.
  intros Hr. destruct (ok_ghost r Hr) as (a & Hi & _ & -> & Hed & ->). pose proof (invl_inv _ _ _ _ _ Hi) as I.
  pose proof (inv_bounds _ _ _ I) as (Hb1 & Hb2 & Hb3). pose proof (invl_hist _ _ _ total_bounds _ _ Hi).
  unfold stream_out, StreamReassembler.stream_out. rewrite (inv_read _ _ _ I), Hed. split_and!; [lia | lia | lia | done | apply Hi].
Qed.

Lemma receive_step r seg r' :
  ok r -> genuine_of f seg -> (syned r = true \/ TCPHeader.syn (TCPSegment.header seg) = true) ->
  segment_received seg r = Ret r' ->
  ok r' /\ syned r' = true /\ edge r' = edge r /\
  StreamReassembler.endIdx (_reassembler r') =
    (if TCPHeader.fin (TCPSegment.header seg) && bool_decide (place (isn_of f) seg <> None)
     then total_of f else StreamReassembler.endIdx (_reassembler r)) /\
  (forall i, 0 <= i -> holds r' i <-> holds r i \/ carries (isn_of f) seg i /\ i < edge r).
Proof.
  intros Hr Hg Hs Heq. destruct (ok_ghost r Hr) as (a & Hi & Hsy & Hw & He & _).
  destruct (receive_genuine _ _ _ _ isn_ok bounds r a seg Hi Hg) as (r1 & a1 & Heq1 & Hi1 & Hn1 & He1 & Hk1).
  { destruct Hs as [Hs | ?]; [left | by right]. destruct Hsy; [congruence | done]. }
  rewrite Heq in Heq1. injection Heq1 as <-.
  assert (Hr' : ok r') by (exists a1; split; [apply Hi1 | by right]).
  pose proof (rcv_reas _ _ _ _ _ _ Hi1) as Hl1. pose proof (inv_written _ _ _ (invl_inv _ _ _ _ _ Hl1)) as Hw1.
  pose proof (inv_read _ _ _ (invl_inv _ _ _ _ _ Hl1)) as Hrd1. pose proof (invl_cap _ _ _ _ _ Hi) as Hc.
  split_and!; [done | apply Hi1 | | done |].
  - rewrite He. unfold edge, window_end, stream_out, StreamReassembler.stream_out. rewrite Hrd1, Hn1, Hc. done.
  - intros i Hi0. specialize (Hk1 i Hi0). unfold known in Hk1. rewrite He. unfold holds, stream_out, StreamReassembler.stream_out in *.
    by rewrite Hw1, Hw.
Qed.

(** A segment that occupies no numbers changes nothing. *)
Lemma receive_bare r seg r' :
  ok r -> genuine_of f seg -> syned r = true -> len seg <= 0 -> segment_received seg r = Ret r' -> r' = r.
Proof.
  intros Hr Hg Hs Hl Heq. destruct (ok_ghost r Hr) as (a & Hi & Hsy & _). destruct Hsy as [? | Hsy]; [congruence |].
  unfold len in Hl. pose proof (Zlen_nonneg (Buffer.str (TCPSegment.payload seg))).
  assert (Hz : TCPHeader.syn (TCPSegment.header seg) = false /\ TCPHeader.fin (TCPSegment.header seg) = false /\
    Buffer.str (TCPSegment.payload seg) = []).
  { destruct (TCPHeader.syn _), (TCPHeader.fin _); try lia. split_and!; [done | done |]. apply nil_length_inv. unfold Zlen in *. lia. }
  destruct Hz as (Hsyn & Hfin & Hp). revert Heq. unfold segment_received. rewrite Hsyn, Hs. cbn [negb andb].
  rewrite (index_of_genuine _ _ _ _ isn_ok bounds r a seg Hsy Hg). cbn [mbind outcome_bind]. destruct (place _ seg) as [k|]; [| by intros [= <-]].
  unfold Buffer.copy. rewrite Hp, Hfin, (invl_push_empty _ _ _ total_bounds _ a) by done. cbn [mbind outcome_bind].
  intros [= <-]. destruct r. cbn in *. by subst.
Qed.

(** *** The acknowledgement number *)

Lemma rcvd_nonneg r : ok r -> 0 <= rcvd r /\ (syned r = true -> 1 <= rcvd r).
Proof.
  intros Hr. destruct (ok_counts r Hr) as (? & _). unfold rcvd, flag_len. destruct (syned r); [| split; [lia | done]].
  destruct (ByteStream.input_ended (stream_out r)); lia.
Qed.

Lemma rcvd_le n r : ok r -> held n r -> 0 < n -> rcvd r <= n.
Proof.
  intros Hr [Hh He] Hn. destruct (ok_counts r Hr) as (Hb & _ & _ & Hend). unfold rcvd. destruct (syned r); [| lia].
  destruct (ByteStream.input_ended (stream_out r)) eqn:Ei; cbn [flag_len].
  - destruct Hend as [Hend _]. destruct (Hend eq_refl) as [Hx Hw]. rewrite (He Hx). lia.
  - destruct (Z.eq_dec (written r) 0) as [-> | Hne]; [lia |]. specialize (Hh (written r - 1)). unfold holds in Hh. lia.
Qed.

Lemma rcvd_ge n r :
  ok r -> syned r = true -> n <= total_of f + 2 -> 0 < n ->
  (forall i, 0 <= i < n - 1 -> i < total_of f -> holds r i) ->
  (n = total_of f + 2 -> StreamReassembler.endIdx (_reassembler r) = total_of f) -> n <= rcvd r.
Proof.
  intros Hr Hs Hle Hn Hh He. destruct (ok_ghost r Hr) as (a & Hi & _ & Hw & _ & Hed).
  assert (Hmax : Z.min (n - 1) (total_of f) <= written r).
  { rewrite Hw. apply (inv_maximal (bytes_of f) (_reassembler r)); [apply Hi | lia |].
    intros i Hi0. specialize (Hh i). unfold holds in Hh. rewrite Hw in Hh. unfold known. apply Hh; lia. }
  destruct (ok_counts r Hr) as (_ & _ & Hwt & Hend). unfold rcvd. rewrite Hs.
  destruct (Z.eq_dec n (total_of f + 2)) as [Hx | Hx].
  - assert (Ht : ByteStream.input_ended (stream_out r) = true) by (apply Hend; split; [by apply He | lia]).
    rewrite Ht. cbn [flag_len]. lia.
  - unfold flag_len. destruct (ByteStream.input_ended (stream_out r)); lia.
Qed.

Lemma rcvd_end r : ok r -> rcvd r <= total_of f + 2 /\ (rcvd r = total_of f + 2 <-> syned r = true /\ ByteStream.input_ended (stream_out r) = true).
Proof.
  intros Hr. destruct (ok_counts r Hr) as (Hb & _ & Hwt & Hend). unfold rcvd, flag_len.
  destruct (syned r); [| split; [lia |]; split; [lia | by intros []]].
  destruct (ByteStream.input_ended (stream_out r)); [| split; [lia |]; split; [lia | by intros []]].
  destruct Hend as [Hend _]. destruct (Hend eq_refl) as [_ Hw]. rewrite Hw. split; [lia |]. by split; [| intros; lia].
Qed.

Lemma ackno_rcvd r : ok r -> ackno r = if syned r then Some (WrappingInt32.wrap (rcvd r) (isn_of f)) else None.
Proof.
  intros Hr. destruct (ok_ghost r Hr) as (a & Hi & Hsy & Hw & _ & Hed). unfold rcvd.
  destruct Hsy as [Hs | Hs]; [unfold ackno; by rewrite Hs |]. rewrite (rcv_syned _ _ _ _ _ _ Hs), Hw, Hed.
  by apply (ackno_eq (bytes_of f) cp (total_of f)).
Qed.

Lemma window_edge r : ok r -> window_size r = edge r - written r /\ 0 <= window_size r <= Z.of_nat cp.
Proof.
  intros Hr. destruct (ok_counts r Hr) as (Hb & Hwe & _). destruct (ok_ghost r Hr) as (a & Hi & _ & Hw & _).
  destruct (window_size_eq _ _ _ r a Hi) as [Hx Hy]. pose proof (inv_read _ _ _ (invl_inv _ _ _ _ _ Hi)) as Hrd.
  unfold edge in *. rewrite Hw in *. unfold stream_out, StreamReassembler.stream_out in *. lia.
Qed.

End Receiver.

(** ** What a connection sends *)

(** A segment of a sender that has sent the numbers below [n]. *)
Definition within (f : flow) (n : Z) (seg : TCPSegment.t) : Prop :=
  (forall i, carries (isn_of f) seg i -> i + 1 < n) /\
  (TCPHeader.fin (TCPSegment.header seg) = true -> n = total_of f + 2) /\
  TCPHeader.rst (TCPSegment.header seg) = false.

(** If it acknowledges anything, then at most [A], with a window up to [E]. *)
Definition acks_upto (f : flow) (E A : Z) (seg : TCPSegment.t) : Prop :=
  TCPHeader.ack (TCPSegment.header seg) = true ->
  exists k, 1 <= k <= A /\ TCPHeader.ackno (TCPSegment.header seg) = WrappingInt32.wrap k (isn_of f) /\
    k + TCPHeader.win (TCPSegment.header seg) - 1 = E + flag_len (k =? total_of f + 2).

Definition acks_at (f : flow) (k : Z) (seg : TCPSegment.t) : Prop :=
  TCPHeader.ack (TCPSegment.header seg) = true /\ TCPHeader.ackno (TCPSegment.header seg) = WrappingInt32.wrap k (isn_of f).

Abbreviation covers f := (covered (bytes_of f) (total_of f) (isn_of f)).

Lemma within_mono f n n' seg : n <= n' <= total_of f + 2 -> within f n seg -> within f n' seg.
Proof.
  intros Hn (H1 & H2 & H3). split_and!; [| | done].
  - intros i Hi. specialize (H1 i Hi). lia.
  - intros Hf. specialize (H2 Hf). lia.
Qed.

Lemma acks_upto_mono f E A A' seg : A <= A' -> acks_upto f E A seg -> acks_upto f E A' seg.
Proof. intros HA H Hack. destruct (H Hack) as (k & Hk & Hrest). exists k. split; [lia | done]. Qed.

Lemma stamp_within f r n seg : within f n seg -> within f n (stamp r seg).
Proof.
  destruct (stamp_fields r seg) as (E1 & E2 & E3 & E4). unfold within, carries, place, abs_seqno. rewrite E1, E2, E3, E4.
  intros (H1 & H2 & H3). split_and!; [done | done |]. unfold stamp. by destruct (TCPReceiver.ackno r).
Qed.

Lemma train_within f x q hi n :
  0 <= total_of f /\ total_of f + 2 < 2 ^ 31 ->
  train (bytes_of f) (total_of f) (isn_of f) x q hi -> hi <= n <= total_of f + 2 -> Forall (within f n) q.
Proof.
  intros Hb. revert x. induction q as [|seg q IH]; intros x Ht Hn; [constructor |]. cbn in Ht. destruct Ht as [Hs Ht].
  pose proof (train_le _ _ _ _ _ _ Ht). constructor; [| by eapply IH].
  destruct (seg_at_place _ _ _ Hb _ _ Hs) as (p & Hp & Hy & (_ & _ & _ & Hf) & Hl).
  pose proof (Zlen_nonneg (Buffer.str (TCPSegment.payload seg))). split_and!; [| | by apply (at_rst _ _ _ _ _ Hs)].
  - intros i (k & Hk & Hi). rewrite Hp in Hk. injection Hk as <-. unfold flag_len in Hl. destruct (TCPHeader.fin _); lia.
  - intros Hfin. rewrite Hfin in *. specialize (Hf eq_refl). cbn [flag_len] in Hl. lia.
Qed.

Lemma bare_within f n s : within f n (TCPSegment.mk (TCPSender.new_segment s) Buffer.empty).
Proof. split_and!; [| done | done]. intros i (k & _ & Hi). change (Zlen _) with 0 in Hi. lia. Qed.

(** What a receiver stamps on a segment. *)
Lemma stamp_acks f cp r seg :
  0 <= total_of f /\ total_of f + Z.of_nat cp + 2 < 2 ^ 31 -> Z.of_nat cp < 2 ^ 16 ->
  rcv_ok (bytes_of f) cp (total_of f) (isn_of f) r -> TCPReceiver.syned r = true ->
  acks_at f (rcvd r) (stamp r seg) /\ acks_upto f (edge cp r) (rcvd r) (stamp r seg).
Proof.
  intros Hb Hcp Hr Hs. pose proof (ackno_rcvd f cp Hb r Hr) as Ha. rewrite Hs in Ha. unfold stamp. rewrite Ha.
  split; [done |]. intros _. exists (rcvd r). destruct (rcvd_nonneg f cp Hb r Hr) as [_ H1]. specialize (H1 Hs).
  split_and!; [lia | lia | done |]. cbn [TCPSegment.header TCPSegment._header TCPHeader.win TCPHeader.set_ack].
  destruct (window_edge f cp Hb r Hr) as [Hw Hw2]. rewrite u16_small by lia. rewrite Hw.
  destruct (rcvd_end f cp Hb r Hr) as [_ Hend]. destruct (ok_counts f cp Hb r Hr) as (_ & _ & Hwt & _). unfold rcvd in *. rewrite Hs in *.
  destruct (ByteStream.input_ended _); cbn [flag_len] in *; case_cmp; cbn [flag_len]; try lia; exfalso; tauto || lia.
Qed.

(** ** One segment arrives *)

Section Conn.
Import TCPConnection.

(** The parts of [segment_received], for a connection that has sent its SYN. *)
Lemma ensure_reply_app s :
  exists rep, ensure_reply s = TCPSender.with_segments_out (TCPSender._segments_out s ++ rep) s /\
    (rep = [] \/ rep = [TCPSegment.mk (TCPSender.new_segment s) Buffer.empty]) /\ TCPSender._segments_out s ++ rep <> [].
Proof.
  unfold ensure_reply, TCPSender.segments_out. destruct (TCPSender._segments_out s) as [|seg q] eqn:Eq.
  - eexists. split_and!; [unfold TCPSender.send_empty_segment; by rewrite Eq | by right | done].
  - exists []. rewrite app_nil_r, <- Eq. split_and!; [by destruct s | by left | by rewrite Eq].
Qed.

Lemma replies_app (b1 b2 : bool) s :
  exists rep, (let s1 := if b1 then ensure_reply s else s in if b2 then ensure_reply s1 else s1) =
      TCPSender.with_segments_out (TCPSender._segments_out s ++ rep) s /\
    (rep = [] \/ rep = [TCPSegment.mk (TCPSender.new_segment s) Buffer.empty]) /\
    (b1 = true -> TCPSender._segments_out s ++ rep <> []).
Proof.
  cbv zeta. destruct (ensure_reply_app s) as (rep & Hr & Hs & Hne).
  assert (Hno : forall s, s = TCPSender.with_segments_out (TCPSender._segments_out s ++ []) s)
    by (intros s0; rewrite app_nil_r; by destruct s0).
  destruct b1, b2.
  - exists rep. split_and!; [| done | done]. rewrite Hr. unfold ensure_reply. cbn [TCPSender.segments_out TCPSender._segments_out TCPSender.with_segments_out].
    by destruct (TCPSender._segments_out s ++ rep).
  - by exists rep.
  - by exists rep.
  - exists []. split_and!; [apply Hno | by left | done].
Qed.

Lemma received_parts seg d d' :
  0 < TCPSender._next_seqno (_sender d) -> TCPHeader.rst (TCPSegment.header seg) = false -> segment_received seg d = Ret d' ->
  exists r s, TCPReceiver.segment_received seg (_receiver d) = Ret r /\
    (if TCPHeader.ack (TCPSegment.header seg) then
       exists s1, TCPSender.ack_received (TCPHeader.ackno (TCPSegment.header seg)) (TCPHeader.win (TCPSegment.header seg)) (_sender d) = Ret s1 /\
         TCPSender.fill_window s1 = Ret s
     else s = _sender d) /\
    (0 < TCPSender._next_seqno s -> exists rep b,
       (rep = [] \/ rep = [TCPSegment.mk (TCPSender.new_segment s) Buffer.empty]) /\
       (0 < len seg -> TCPSender._segments_out s ++ rep <> []) /\
       d' = mk (_cfg d) r (TCPSender.with_segments_out [] s)
              (_segments_out d ++ map (stamp r) (TCPSender._segments_out s ++ rep)) b 0 (_active d) (_since_time_wait d)).
Proof.
  intros Hn Hrst. unfold segment_received. cbn [_sender with_time]. unfold TCPSender.next_seqno_absolute at 1.
  destruct (Z.eqb_spec (TCPSender._next_seqno (_sender d)) 0); [lia |]. cbn [andb]. rewrite Hrst.
  set (b := TCPHeader.fin _ && _). set (c1 := if b then _ else _).
  assert (Hc1 : exists lg, c1 = mk (_cfg d) (_receiver d) (_sender d) (_segments_out d) lg 0 (_active d) (_since_time_wait d))
    by (unfold c1; destruct b; by eexists). destruct Hc1 as (lg & ->). cbn [_receiver].
  intros (r & Hr & (s & Hs & (s2 & H2 & [= <-])%bind_Ret)%bind_Ret)%bind_Ret. cbn [_sender with_receiver] in Hs.
  exists r, s. split; [done |]. split.
  { destruct (TCPHeader.ack _); [| by injection Hs as ->]. by apply bind_Ret in Hs. }
  intros Hn'. unfold TCPSender.next_seqno_absolute in H2. destruct (Z.eqb_spec (TCPSender._next_seqno s) 0); [lia |].
  cbn [andb] in H2. injection H2 as <-.
  set (b1 := TCPSegment.length_in_sequence_space seg >? 0).
  destruct (replies_app b1 match TCPReceiver.ackno r with
    | Some a => (TCPSegment.length_in_sequence_space seg =? 0) &&
        WrappingInt32.eqb (TCPHeader.seqno (TCPSegment.header seg)) (WrappingInt32.sub a 1)
    | None => false end s) as (rep & Heq & Hrep & Hne).
  exists rep, lg. split_and!; [done | |].
  - intros Hl. apply Hne. unfold b1. by apply Z.gtb_lt.
  - cbv zeta in Heq. destruct (TCPReceiver.ackno r); [| cbn match in Heq]; rewrite Heq; done.
Qed.

End Conn.

(** The sender's part of a segment that acknowledges at most [A]. *)
Lemma sender_received f N E full A seg s s' :
  in_bits 32 (isn_of f) -> 0 <= total_of f /\ total_of f + 2 < 2 ^ 31 ->
  sending f N E full s -> acks_upto f E A seg -> A <= N -> in_bits 16 (TCPHeader.win (TCPSegment.header seg)) -> 0 <= E < 2 ^ 32 ->
  (E + 1 <= A -> E <> total_of f + 1 -> full) ->
  (if TCPHeader.ack (TCPSegment.header seg) then
     exists s1, TCPSender.ack_received (TCPHeader.ackno (TCPSegment.header seg)) (TCPHeader.win (TCPSegment.header seg)) s = Ret s1 /\
       TCPSender.fill_window s1 = Ret s'
   else s' = s) ->
  exists new, sending f N E full s' /\ TCPSender._segments_out s' = TCPSender._segments_out s ++ new /\
    train (bytes_of f) (total_of f) (isn_of f) (TCPSender._next_seqno s) new (TCPSender._next_seqno s') /\
    una s <= una s' /\ (una s < una s' -> TCPSender.recount s' = 0) /\
    (TCPSender.recount s' = TCPSender.recount s \/ TCPSender.recount s' = 0) /\
    (acks_at f N seg -> una s' = N /\ (N < TCPSender._next_seqno s' \/ all_sent f s')).
Proof.
  intros Hi Hb Hs Hup HA Hw HE Hfull Hack. unfold acks_at. destruct (TCPHeader.ack _) eqn:Eack.
  - destruct (Hup Eack) as (k & Hk & Hno & Hkw). destruct Hack as (s1 & H1 & H2). rewrite Hno in H1 |- *.
    destruct (sending_ack f Hi Hb N E full s k _ s1 s' Hs ltac:(lia) Hw HE Hkw) as (new & S1 & S2 & S3 & S4 & S5 & S6 & S7); [| done | done |].
    { intros Hw0 Hne. rewrite Hw0 in Hkw. destruct (Z.eqb_spec k (total_of f + 2)); [done |]. cbn [flag_len] in Hkw. apply Hfull; lia. }
    exists new. split_and!; [done | done | done | lia | done | done |]. intros [_ Heq]. apply S7.
    destruct (sg_split _ _ _ _ _ Hs) as (a & fin & u & q1 & q2 & Hv & _ & _ & Hq%train_le). pose proof (inv_next_le f Hb _ _ _ _ Hv).
    rewrite <- (base_wrap (isn_of f) k), <- (base_wrap (isn_of f) N) by lia. by rewrite Heq.
  - subst s'. exists []. rewrite app_nil_r. split_and!; try done; [lia | by left |]. by intros [? _].
Qed.

Section Step.
Import TCPConnection.
Context (fo fi : flow) (cp : nat).
Hypothesis isn_o : in_bits 32 (isn_of fo).
Hypothesis isn_i : in_bits 32 (isn_of fi).
Hypothesis bounds_o : 0 <= total_of fo /\ total_of fo + 2 < 2 ^ 31.
Hypothesis bounds_i : 0 <= total_of fi /\ total_of fi + Z.of_nat cp + 2 < 2 ^ 31.
Hypothesis small : Z.of_nat cp < 2 ^ 16.

Abbreviation next c := (TCPSender._next_seqno (_sender c)).
Abbreviation acked c := (una (_sender c)).
Abbreviation got c := (rcvd (_receiver c)).
Abbreviation room c := (edge cp (_receiver c)).
Abbreviation end_of c := (StreamReassembler.endIdx (TCPReceiver._reassembler (_receiver c))).
Abbreviation error_free c := (ByteStream.error (TCPSender.stream_in (_sender c)) = false /\ ByteStream.error (inbound_stream c) = false).

(** What holds of a connection between any two calls. *)
Record tidy (c : t) : Prop := {
  td_ok : conn_ok fo fi cp c;
  td_next : 0 < next c;
  td_within : Forall (within fo (next c)) (_segments_out c);
  td_acks : Forall (acks_upto fi (room c) (got c)) (_segments_out c);
  td_error : error_free c;
  td_capacity : 0 < ByteStream.capacity (TCPSender.stream_in (_sender c));
}.

(** A connection that is getting segments of a peer that has sent the numbers
    below [n]; [R] were received when it began. *)
Record receiving (n N E : Z) (full : Prop) (R : Z) (c : t) : Prop := {
  rc_tidy : tidy c;
  rc_sending : sending fo N E full (_sender c);
  rc_held : held fi n (_receiver c);
  rc_covered : forall x, N <= x < next c -> covers fo (_segments_out c) x;
  rc_reply : got c = R \/ Exists (acks_at fi (got c)) (_segments_out c);
}.

(** What such a connection does not lose. *)
Record evolves (c c' : t) : Prop := {
  ev_acked : acked c <= acked c';
  ev_next : next c <= next c';
  ev_reset : acked c < acked c' -> TCPSender.recount (_sender c') = 0;
  ev_recount : TCPSender.recount (_sender c') = TCPSender.recount (_sender c) \/ TCPSender.recount (_sender c') = 0;
  ev_room : room c' = room c;
  ev_holds : forall i, 0 <= i -> holds (_receiver c) i -> holds (_receiver c') i;
  ev_end : end_of c = total_of fi -> end_of c' = total_of fi;
  ev_syned : TCPReceiver.syned (_receiver c) = true -> TCPReceiver.syned (_receiver c') = true;
  ev_rest : _cfg c' = _cfg c /\ _active c' = _active c /\ _since_time_wait c' = _since_time_wait c;
  ev_queue : _segments_out c `prefix_of` _segments_out c';
}.

#[local] Instance evolves_preorder : PreOrder evolves.
Proof.
  clear isn_o isn_i bounds_o bounds_i small.
  split; [intros c; constructor; (done || lia || by left) |]. intros c1 c2 c3 [] [].
  constructor; [lia | lia | | intuition congruence | congruence | auto | auto | auto | intuition congruence | by etransitivity].
  intros Hlt. destruct (Z.lt_ge_cases (acked c2) (acked c3)); [auto |]. destruct ev_recount1 as [-> | ->]; [apply ev_reset0; lia | done].
Qed.

Lemma ok_parts c :
  conn_ok fo fi cp c ->
  (exists a fin u, sinv (bytes_of fo) (total_of fo) (isn_of fo) (_sender c) a fin u) /\
  TCPSender._segments_out (_sender c) = [] /\ rcv_ok (bytes_of fi) cp (total_of fi) (isn_of fi) (_receiver c) /\
  Forall (genuine_of fo) (_segments_out c).
Proof. intros ((out & [(a & fin & u & H & _) Hq Hr]) & Hg & _). split_and!; [by exists a, fin, u | done | done | done]. Qed.

Lemma tidy_next_le c : tidy c -> next c <= total_of fo + 2.
Proof. intros Hc. destruct (ok_parts c (td_ok _ Hc)) as ((a & fin & u & H) & _). exact (inv_next_le fo bounds_o _ _ _ _ H). Qed.

Lemma got_holds c i :
  rcv_ok (bytes_of fi) cp (total_of fi) (isn_of fi) (_receiver c) -> 0 <= i -> i + 1 < got c -> i < total_of fi -> holds (_receiver c) i.
Proof.
  intros H Hi Hg Ht. left. destruct (ok_counts fi cp bounds_i _ H) as (Hb & _ & Hwt & Hend). unfold rcvd in *.
  destruct (TCPReceiver.syned _); [| lia].
  destruct (ByteStream.input_ended _); cbn [flag_len] in *; [| lia]. destruct Hend as [Hend _]. destruct (Hend eq_refl) as [_ Hw]. lia.
Qed.

(** The number received grows with what arrived. *)
Lemma got_mono c c' :
  rcv_ok (bytes_of fi) cp (total_of fi) (isn_of fi) (_receiver c) -> rcv_ok (bytes_of fi) cp (total_of fi) (isn_of fi) (_receiver c') ->
  evolves c c' -> got c <= got c'.
Proof.
  intros H H' [_ _ _ _ _ Hh He Hs _ _]. destruct (ok_counts fi cp bounds_i _ H) as (Hb & _ & Hwt & Hend).
  destruct (rcvd_nonneg fi cp bounds_i _ H) as [H0 _]. destruct (rcvd_nonneg fi cp bounds_i _ H') as [H0' _].
  destruct (Z.eq_dec (got c) 0); [lia |]. destruct (rcvd_end fi cp bounds_i _ H) as [Hle Hfin].
  assert (Hsy : TCPReceiver.syned (_receiver c) = true) by (unfold rcvd in *; by destruct (TCPReceiver.syned _)).
  apply (rcvd_ge fi cp bounds_i); [done | by apply Hs | lia | lia | |].
  - intros i Hi Hit. apply Hh; [lia |]. apply got_holds; [done | lia | lia | done].
  - intros [_ Hin]%Hfin. apply He, Hend, Hin.
Qed.

Lemma sending_flushed N E full s : sending fo N E full s -> sending fo N E full (TCPSender.with_segments_out [] s).
Proof.
  intros [(a & fin & u & q1 & q2 & H & Hrest) H1 H2 H3 H4 H5]. constructor; [| done | done | done | done | done].
  exists a, fin, u, q1, q2. split; [by apply with_segments_out_inv | done].
Qed.

(** The queue of a connection after a call that sent [new] and perhaps an
    empty segment. *)
Lemma queue_grown c r s new rep (n0 : Z) :
  rcv_ok (bytes_of fi) cp (total_of fi) (isn_of fi) r -> TCPReceiver.syned r = true ->
  Forall (within fo n0) (_segments_out c) -> Forall (acks_upto fi (room c) (got c)) (_segments_out c) ->
  edge cp r = room c -> got c <= rcvd r -> n0 <= TCPSender._next_seqno s <= total_of fo + 2 ->
  train (bytes_of fo) (total_of fo) (isn_of fo) n0 new (TCPSender._next_seqno s) ->
  (rep = [] \/ rep = [TCPSegment.mk (TCPSender.new_segment s) Buffer.empty]) ->
  Forall (within fo (TCPSender._next_seqno s)) (_segments_out c ++ map (stamp r) (new ++ rep)) /\
  Forall (acks_upto fi (edge cp r) (rcvd r)) (_segments_out c ++ map (stamp r) (new ++ rep)).
Proof.
  intros Hr Hs Hw Ha He Hg Hn Ht Hrep. rewrite !Forall_app, !Forall_map. split_and!.
  - eapply Forall_impl; [exact Hw |]. intros seg. by apply within_mono.
  - eapply Forall_impl; [| intros seg; apply stamp_within]. apply Forall_app. split; [eapply train_within; [done | done | lia] |].
    destruct Hrep as [-> | ->]; [done |]. constructor; [apply bare_within | done].
  - eapply Forall_impl; [exact Ha |]. intros seg. rewrite He. by apply acks_upto_mono.
  - apply Forall_true. intros seg. by apply stamp_acks.
Qed.

(** An acknowledgement only reads the stream. *)
Lemma received_stream seg s s' :
  (if TCPHeader.ack (TCPSegment.header seg) then
     exists s1, TCPSender.ack_received (TCPHeader.ackno (TCPSegment.header seg)) (TCPHeader.win (TCPSegment.header seg)) s = Ret s1 /\
       TCPSender.fill_window s1 = Ret s'
   else s' = s) ->
  ByteStream.error (TCPSender.stream_in s') = ByteStream.error (TCPSender.stream_in s) /\
  ByteStream.capacity (TCPSender.stream_in s') = ByteStream.capacity (TCPSender.stream_in s).
Proof.
  clear isn_o isn_i bounds_o bounds_i small. destruct (TCPHeader.ack _); [| by intros ->].
  intros (s1 & H1%ack_sends & H2%fill_sends). destruct H1 as [(_ & _ & ? & ?) _], H2 as [(_ & _ & ? & ?) _]. split; congruence.
Qed.

(** A segment of the peer leaves a reply unless it leaves everything as it was. *)
Lemma received_reply d seg r q :
  rcv_ok (bytes_of fi) cp (total_of fi) (isn_of fi) (_receiver d) -> genuine_of fi seg ->
  (TCPReceiver.syned (_receiver d) = true \/ TCPHeader.syn (TCPSegment.header seg) = true) ->
  TCPReceiver.segment_received seg (_receiver d) = Ret r ->
  rcv_ok (bytes_of fi) cp (total_of fi) (isn_of fi) r -> TCPReceiver.syned r = true -> (0 < len seg -> q <> []) ->
  Exists (acks_at fi (rcvd r)) (map (stamp r) q) \/ r = _receiver d.
Proof.
  intros Hrok Hg Hsy Hr Hrok' Hsy' Hne. destruct (Z.lt_ge_cases 0 (len seg)) as [Hl | Hl].
  - left. specialize (Hne Hl). destruct q as [|seg' l]; [done |]. apply Exists_cons. left.
    exact (proj1 (stamp_acks fi cp r seg' bounds_i small Hrok' Hsy')).
  - right. apply (receive_bare fi cp isn_i bounds_i _ seg r Hrok Hg); [| done | done].
    destruct Hsy as [? | Hsyn]; [done |]. unfold len in Hl. rewrite Hsyn in Hl.
    pose proof (Zlen_nonneg (Buffer.str (TCPSegment.payload seg))). destruct (TCPHeader.fin _); lia.
Qed.

Lemma receive_one n N E full R A seg d :
  receiving n N E full R d -> 0 <= E < 2 ^ 32 -> A <= N -> (E + 1 <= A -> E <> total_of fo + 1 -> full) ->
  genuine_of fi seg -> within fi n seg -> acks_upto fo E A seg ->
  (TCPReceiver.syned (_receiver d) = true \/ TCPHeader.syn (TCPSegment.header seg) = true) ->
  exists d', segment_received seg d = Ret d' /\ receiving n N E full R d' /\ evolves d d' /\
    TCPReceiver.syned (_receiver d') = true /\
    (forall i, 0 <= i < room d -> carries (isn_of fi) seg i -> holds (_receiver d') i) /\
    (ends_stream (isn_of fi) seg -> end_of d' = total_of fi) /\
    (A <= 0 -> acked d' = acked d) /\
    (acks_at fo N seg -> acked d' = N /\ (N < next d' \/ all_sent fo (_sender d'))).
Proof.
  intros [Htd Hsd Hhd Hcv Hrp] HE HA Hfull Hg Hw Hup Hsy. pose proof Htd as [Hok Hn Hqw Hqa Her Hcap].
  destruct (conn_segment_received fo fi cp isn_o isn_i bounds_o bounds_i d seg Hok Hg) as (d' & Hd & Hok' & _).
  exists d'. split; [done |]. destruct (received_parts seg d d' Hn (proj2 (proj2 Hw)) Hd) as (r & s & Hr & Hs & Hmk).
  destruct (ok_parts d Hok) as (_ & Hq0 & Hrok & _).
  destruct (receive_step fi cp isn_i bounds_i _ seg r Hrok Hg Hsy Hr) as (Hrok' & Hsy' & Hed & Hei & Hho).
  destruct (sender_received fo N E full A seg (_sender d) s isn_o bounds_o Hsd Hup HA (proj2 (proj2 (proj1 Hg))) HE Hfull Hs)
    as (new & Hsd' & Hnew & Htr & Hun & Hrs & Hrc & Hat).
  rewrite Hq0 in Hnew. cbn [app] in Hnew. pose proof (train_le _ _ _ _ _ _ Htr) as Hle.
  destruct Hmk as (rep & b & Hrep & Hne & ->); [lia |]. rewrite Hnew in *. set (d' := mk _ _ _ _ _ _ _ _) in *.
  assert (Hev : evolves d d').
  { constructor; [exact Hun | exact Hle | exact Hrs | exact Hrc | exact Hed | | | done | done | by apply prefix_app_r].
    - intros i Hi0 Hh. apply Hho; [done | by left].
    - intros He. change (end_of d') with (StreamReassembler.endIdx (TCPReceiver._reassembler r)). rewrite Hei, He. by destruct (_ && _). }
  assert (Hgm : got d <= got d') by (by apply got_mono).
  destruct (sg_split _ _ _ _ _ Hsd') as (a & fin & u & _ & _ & Hv & _). pose proof (inv_next_le fo bounds_o _ _ _ _ Hv) as Hmax.
  destruct (queue_grown d r s new rep (next d) Hrok' Hsy' Hqw Hqa Hed Hgm ltac:(lia) Htr Hrep) as [Hqw' Hqa'].
  pose proof (received_stream seg (_sender d) s Hs) as Hst.
  destruct Her as [Her1 Her2], Hst as [Hst1 Hst2]. rewrite <- Hst1 in Her1. rewrite <- Hst2 in Hcap.
  assert (Her' : error_free d') by (split; [exact Her1 | rewrite <- Her2; apply (receive_fed _ _ _ Hr)]).
  split_and!; [| exact Hev | done | | | | exact Hat].
  - constructor; [constructor; [done | exact (Z.lt_le_trans _ _ _ Hn Hle) | exact Hqw' | exact Hqa' | done | exact Hcap] | by apply sending_flushed | | |].
    + destruct Hw as (Hw1 & Hw2 & _), Hhd as [Hh1 Hh2]. split.
      * intros i Hi0 [Hh | [Hc _]]%Hho; [by apply Hh1 | by apply Hw1 | done].
      * change (end_of d') with (StreamReassembler.endIdx (TCPReceiver._reassembler r)). rewrite Hei.
        destruct (TCPHeader.fin _); [intros _; by apply Hw2 | done].
    + intros x Hx. apply Exists_app. change (next d') with (TCPSender._next_seqno s) in Hx.
      destruct (Z.lt_ge_cases x (next d)); [left; apply Hcv; lia | right]. apply covered_stamp, Exists_app. left.
      eapply train_covered; [exact Htr | lia].
    + destruct (received_reply d seg r (new ++ rep) Hrok Hg Hsy Hr Hrok' Hsy' Hne) as [Hex | Hsame]; [right; apply Exists_app; by right |].
      change (got d') with (rcvd r). rewrite Hsame. destruct Hrp as [? | Hex]; [by left | right; apply Exists_app; by left].
  - intros i Hi Hc. apply Hho; [lia |]. right. split; [done | lia].
  - intros [Hf Hp]. change (end_of d') with (StreamReassembler.endIdx (TCPReceiver._reassembler r)).
    by rewrite Hei, Hf, bool_decide_true by done.
  - intros HA0. destruct (TCPHeader.ack _) eqn:Eack; [| by subst s]. destruct (Hup Eack) as (k & Hk & _). lia.
Qed.

(** ** Writing and ending the stream *)

(** What [write] and [end_input_stream] do once the stream is [st]. *)
Definition pushed (c c' : t) : Prop :=
  conn_ok fo fi cp c' /\
  exists st s a fin u, sinv (bytes_of fo) (total_of fo) (isn_of fo) (TCPSender.with_stream st (_sender c)) a fin u /\
    ByteStream.error st = ByteStream.error (TCPSender.stream_in (_sender c)) /\
    ByteStream.capacity st = ByteStream.capacity (TCPSender.stream_in (_sender c)) /\
    TCPSender.fill_window (TCPSender.with_stream st (_sender c)) = Ret s /\ c' = seg_2_seg (with_sender s c).

Lemma write_pushed c data n c' :
  conn_ok fo fi cp c -> conn_ok fo fi cp c' -> ByteStream.input_ended (TCPSender.stream_in (_sender c)) = false ->
  agrees (bytes_of fo) (ByteStream.bytes_written (TCPSender.stream_in (_sender c))) data ->
  ByteStream.bytes_written (TCPSender.stream_in (_sender c)) + Zlen data <= total_of fo ->
  write data c = Ret (n, c') -> pushed c c'.
Proof.
  intros Hc Hc' He Hd Hl Hw. split; [done |]. destruct (ok_parts c Hc) as ((a & fin & u & H) & _).
  destruct (sinv_bytes_read _ _ _ bounds_o _ _ _ _ H) as (_ & Hbw). rewrite Hbw in Hd, Hl. rewrite (inv_ended fo _ _ _ _ H) in He.
  destruct (write_inv _ _ _ bounds_o _ _ _ _ data H He Hd Hl) as (m & st & Hst & H').
  revert Hw. unfold write, TCPSender.stream_in. rewrite Hst. cbn [mbind outcome_bind]. intros (s & Hf & [= _ <-])%bind_Ret.
  exists st, s, (snd (ByteStreamSpec.write data a)), fin, u. apply write_fed in Hst as (_ & ? & ?). by split_and!.
Qed.

Lemma end_pushed c c' :
  conn_ok fo fi cp c -> conn_ok fo fi cp c' ->
  ByteStream.bytes_written (TCPSender.stream_in (_sender c)) = total_of fo -> end_input_stream c = Ret c' -> pushed c c'.
Proof.
  intros Hc Hc' Hl Hw. split; [done |]. destruct (ok_parts c Hc) as ((a & fin & u & H) & _).
  destruct (sinv_bytes_read _ _ _ bounds_o _ _ _ _ H) as (_ & Hbw). rewrite Hbw in Hl.
  destruct (end_input_inv _ _ _ _ _ _ _ H Hl) as (a' & H').
  revert Hw. unfold end_input_stream. intros (s & Hf & [= <-])%bind_Ret. by exists (ByteStream.end_input (TCPSender.stream_in (_sender c))), s, a', fin, u.
Qed.

(** What is not changed by the calls of the owner. *)
Record keeps (c c' : t) : Prop := {
  kp_acked : acked c' = acked c;
  kp_next : next c <= next c';
  kp_receiver : _receiver c' = _receiver c;
  kp_queue : _segments_out c `prefix_of` _segments_out c';
  kp_covered : forall x, next c <= x < next c' -> covers fo (_segments_out c') x;
}.

#[local] Instance keeps_preorder : PreOrder keeps.
Proof.
  clear isn_o isn_i bounds_o bounds_i small. split; [intros c; constructor; (done || lia) |].
  intros c1 c2 c3 [A1 N1 R1 Q1 C1] [A2 N2 R2 Q2 C2]. constructor; [lia | lia | congruence | by etransitivity |].
  intros x Hx. destruct (Z.lt_ge_cases x (next c2)); [| apply C2; lia]. destruct Q2 as [more ->]. apply Exists_app. left. apply C1. lia.
Qed.

Lemma pushed_keeps E c c' :
  tidy c -> TCPReceiver.syned (_receiver c) = true -> poised fo E (_sender c) -> pushed c c' ->
  tidy c' /\ poised fo E (_sender c') /\ keeps c c' /\
  TCPSender.recount (_sender c') = TCPSender.recount (_sender c) /\ _cfg c' = _cfg c /\ _active c' = _active c /\ _since_time_wait c' = _since_time_wait c.
Proof.
  intros Hc Hsy Hp (Hok' & st & s & a & fin & u & H & He & Hca & Hf & ->). pose proof Hc as [Hok Hn Hqw Hqa Her Hcap].
  destruct (ok_parts c Hok) as ((a0 & fin0 & u0 & H0) & Hq0 & Hr & _).
  destruct (poised_fill fo bounds_o E (TCPSender.with_stream st (_sender c)) a fin u s H) as (a' & fin' & new & Hsd & Hp'); [by destruct Hp | done |].
  pose proof Hsd as [H' Htr Hout _ (_ & _ & _ & _ & Hrc & _) _ _]. cbn [TCPSender._segments_out TCPSender._next_seqno TCPSender.recount TCPSender.with_stream] in *.
  rewrite Hq0 in Hout. cbn [app] in Hout. pose proof (train_le _ _ _ _ _ _ Htr) as Hle. pose proof (inv_next_le fo bounds_o _ _ _ _ H') as Hmax.
  destruct (queue_grown c (_receiver c) s new [] (next c) Hr Hsy Hqw Hqa eq_refl ltac:(lia) ltac:(lia) Htr (or_introl eq_refl)) as [Hqw' Hqa'].
  rewrite app_nil_r in Hqw', Hqa'. set (c' := seg_2_seg _) in *.
  assert (Eq : _segments_out c' = _segments_out c ++ map (stamp (_receiver c)) new) by exact (f_equal (fun q => _segments_out c ++ map (stamp (_receiver c)) q) Hout).
  rewrite <- Eq in *. split_and!; [| by destruct Hp' | | exact Hrc | done | done | done].
  - apply fill_sends in Hf as [(_ & _ & Hx & Hy) _]. destruct Her as [E1 E2]. cbn [TCPSender.stream_in TCPSender._stream TCPSender.with_stream] in Hx, Hy.
    rewrite He, <- Hx in *. rewrite Hca, <- Hy in *.
    constructor; [done | exact (Z.lt_le_trans _ _ _ Hn Hle) | exact Hqw' | exact Hqa' | by split | exact Hcap].
  - constructor; [| exact Hle | done | rewrite Eq; by apply prefix_app_r |].
    + change (acked c') with (una s). rewrite (inv_una _ _ _ _ _ H'). rewrite <- (inv_una _ _ _ _ _ H). done.
    + intros x Hx. rewrite Eq. apply Exists_app. right. apply covered_stamp. eapply train_covered; [exact Htr | exact Hx].
Qed.

(** Before the first acknowledgement nothing more is sent. *)
Definition shut (c : t) : Prop := TCPSender.window (_sender c) <> 0 /\ TCPSender.window_right (_sender c) < next c.

Lemma shut_fill s :
  TCPSender.window s <> 0 -> TCPSender.window_right s < TCPSender._next_seqno s -> TCPSender.fill_window s = Ret s.
Proof.
  clear isn_o isn_i bounds_o bounds_i small. intros Hw Hr. unfold TCPSender.fill_window.
  destruct (Z.eqb_spec (TCPSender.window s) 0); [done |]. cbn [andb].
  assert (Hl : forall fuel, TCPSender.fill_loop fuel s = Ret s); [| apply Hl].
  intros fuel. destruct fuel; cbn [TCPSender.fill_loop]; unfold TCPSender.next_seqno_absolute;
    by destruct (Z.leb_spec (TCPSender._next_seqno s) (TCPSender.window_right s)); [lia |].
Qed.

Lemma pushed_shut c c' :
  tidy c -> shut c -> pushed c c' ->
  exists st, c' = with_sender (TCPSender.with_stream st (_sender c)) c /\ tidy c'.
Proof.
  intros Hc [Hw Hr] (Hok' & st & s & a & fin & u & H & He & Hca & Hf & ->). pose proof Hc as [Hok Hn Hqw Hqa Her Hcap].
  destruct (ok_parts c Hok) as (_ & Hq0 & _). rewrite (shut_fill (TCPSender.with_stream st (_sender c))) in Hf by done. injection Hf as <-. exists st.
  assert (Eq : seg_2_seg (with_sender (TCPSender.with_stream st (_sender c)) c) = with_sender (TCPSender.with_stream st (_sender c)) c).
  { unfold seg_2_seg, TCPSender.segments_out. cbn. rewrite Hq0. cbn. rewrite app_nil_r. unfold with_segments_out, with_sender, TCPSender.with_segments_out, TCPSender.with_stream. cbn. by rewrite Hq0. }
  rewrite Eq in *. split; [done |]. destruct Her as [E1 E2]. constructor; [done | done | done | done | | ].
  - split; [| exact E2]. cbn. by rewrite He.
  - cbn. by rewrite Hca.
Qed.

(** In either case. *)
Lemma pushed_any E c c' :
  tidy c -> TCPReceiver.syned (_receiver c) = true \/ shut c -> poised fo E (_sender c) -> pushed c c' ->
  tidy c' /\ poised fo E (_sender c') /\ keeps c c' /\ (shut c -> shut c' /\ _segments_out c' = _segments_out c) /\
  TCPSender.recount (_sender c') = TCPSender.recount (_sender c) /\
  (_cfg c' = _cfg c /\ _active c' = _active c /\ _since_time_wait c' = _since_time_wait c).
Proof.
  intros Hc Hor Hp Hpu. assert (Hsh : shut c -> shut c' /\ _segments_out c' = _segments_out c).
  { intros Hs. destruct (pushed_shut c c' Hc Hs Hpu) as (st & -> & _). done. }
  destruct Hor as [Hsy | Hs].
  - destruct (pushed_keeps E c c' Hc Hsy Hp Hpu) as (? & ? & ? & ? & ? & ? & ?). by split_and!.
  - destruct (pushed_shut c c' Hc Hs Hpu) as (st & -> & Hc'). split_and!; [done | by destruct Hp | | done | done | done | done | done].
    constructor; [done | done | done | done |]. intros x Hx. cbn in Hx. lia.
Qed.

Lemma pushes_any E c c' :
  rtc pushed c c' -> tidy c -> TCPReceiver.syned (_receiver c) = true \/ shut c -> poised fo E (_sender c) ->
  tidy c' /\ poised fo E (_sender c') /\ keeps c c' /\ (shut c -> shut c' /\ _segments_out c' = _segments_out c) /\
  TCPSender.recount (_sender c') = TCPSender.recount (_sender c) /\
  (_cfg c' = _cfg c /\ _active c' = _active c /\ _since_time_wait c' = _since_time_wait c).
Proof.
  induction 1 as [c | c1 c2 c3 H12 _ IH]; intros Hc Hor Hp; [by split_and! |].
  destruct (pushed_any E c1 c2 Hc Hor Hp H12) as (T2 & P2 & K2 & S2 & R2 & X2 & Y2 & Z2).
  destruct IH as (T3 & P3 & K3 & S3 & R3 & X3 & Y3 & Z3); [done | | done |].
  { destruct Hor as [Hs | Hs]; [left; by rewrite (kp_receiver _ _ K2) | right; by apply S2]. }
  split_and!; [done | done | by etransitivity | | congruence | congruence | congruence | congruence].
  intros Hs. destruct (S2 Hs) as [Hs2 E2], (S3 Hs2) as [Hs3 E3]. split; [done | congruence].
Qed.

(** ** Time passes *)

(** The parts of a tick that does not give up. *)
Lemma tick_parts ms c :
  conn_ok fo fi cp c -> TCPSender.recount (TCPSender.tick ms (_sender c)) <= TCPConfig.MAX_RETX_ATTEMPTS ->
  let s := TCPSender.tick ms (_sender c) in
  exists lg ms' act since, tick ms c = mk (_cfg c) (_receiver c) (TCPSender.with_segments_out [] s)
      (_segments_out c ++ map (stamp (_receiver c)) (TCPSender._segments_out s)) lg ms' act since /\
    (let c1 := with_time (u64 (_time_since_last_segment_received c + ms)) (with_sender s c) in
     if TCPState.eqb (state c1) (TCPState.of_state TCPState.TIME_WAIT)
     then since = u64 (_since_time_wait c + ms) /\ act = _active c && negb (since >=? 10 * TCPConfig.rt_timeout (_cfg c))
     else since = _since_time_wait c /\ act = _active c && negb (finished c1)).
Proof.
  intros ((out & [Hs Hq Hr]) & _) Hrc s. cbn [_sender with_segments_out] in *. fold s in Hrc. unfold tick. fold s. set (c1 := with_time _ (with_sender s c)). cbv zeta.
  destruct (TCPState.eqb (state c1) _) eqn:Est.
  - apply StateFacts.eqb_spec, time_wait_flight in Est. pose proof (time_wait_idle fo _ _ ms Hs Hq Est) as Hidle. fold s in Hidle.
    assert (Eq : TCPSender._segments_out s = []) by (by rewrite Hidle).
    assert (Es : s = TCPSender.with_segments_out [] s) by (destruct s; cbn in *; by subst).
    rewrite Eq, <- Es, app_nil_r. change (_since_time_wait c1) with (_since_time_wait c). set (w := u64 (_since_time_wait c + ms)).
    change (_since_time_wait (with_time_wait w c1)) with w. change (_cfg (with_time_wait w c1)) with (_cfg c).
    destruct (w >=? _) eqn:Ege; [eexists _, _, false, w | eexists _, _, (_active c), w]; (split; [reflexivity |]); rewrite Ege;
      cbn [negb]; by rewrite ?andb_true_r, ?andb_false_r.
  - destruct (Z.gtb_spec (TCPSender.consecutive_retransmissions (_sender c1)) TCPConfig.MAX_RETX_ATTEMPTS) as [Hgt | _];
      [change (TCPConfig.MAX_RETX_ATTEMPTS < TCPSender.recount s) in Hgt; lia |].
    rewrite andb_false_r. change (finished (seg_2_seg c1)) with (finished c1).
    destruct (finished c1); [eexists _, _, false, _ | eexists _, _, (_active c), _]; (split; [reflexivity |]); cbn [negb];
      by rewrite ?andb_true_r, ?andb_false_r.
Qed.

Lemma sender_tick ms s a fin u :
  sinv (bytes_of fo) (total_of fo) (isn_of fo) s a fin u -> 0 <= TCPSender.recount s < 2 ^ 31 ->
  let s' := TCPSender.tick ms s in
  TCPSender._stream s' = TCPSender._stream s /\ TCPSender._next_seqno s' = TCPSender._next_seqno s /\ una s' = una s /\
  (forall E, poised fo E s -> poised fo E s') /\
  (exists new, TCPSender._segments_out s' = TCPSender._segments_out s ++ new /\ Forall (within fo (TCPSender._next_seqno s)) new) /\
  0 <= TCPSender.recount s' <= TCPSender.recount s + 1 /\ (una s = TCPSender._next_seqno s -> TCPSender.recount s' = TCPSender.recount s).
Proof.
  intros H Hrc. pose proof (si_train _ _ _ _ _ _ _ H) as Ht. rewrite (inv_una _ _ _ _ _ H). unfold TCPSender.tick.
  destruct (TCPSender.outstandings s) as [|front q] eqn:Eo; cbv zeta.
  { split_and!; try done; [by apply (inv_una fo _ _ _ _ H) | | lia | lia]. exists []. by rewrite app_nil_r. }
  pose proof (train_within _ _ _ _ _ bounds_o Ht (conj (Z.le_refl _) (inv_next_le fo bounds_o _ _ _ _ H))) as Hw. inversion Hw; subst.
  assert (Hlt : u < TCPSender._next_seqno s).
  { cbn in Ht. destruct Ht as [Hat Ht%train_le]. pose proof (at_len _ _ _ _ _ Hat). lia. }
  pose proof (inv_una _ _ _ _ _ H) as Hu. unfold una, TCPSender.next_seqno_absolute, TCPSender.bytes_in_flight in *.
  destruct (_ >=? _); cbn; (split_and!; [done | done | done | by intros E [] | | | | lia]).
  - exists [front]. by split; [| constructor].
  - destruct (_ >? 0); [rewrite u32_small by lia |]; lia.
  - destruct (_ >? 0); [rewrite u32_small by lia |]; lia.
  - exists []. by rewrite app_nil_r.
  - lia.
  - lia.
Qed.

Lemma tick_keeps ms c :
  tidy c -> TCPReceiver.syned (_receiver c) = true -> 0 <= TCPSender.recount (_sender c) < TCPConfig.MAX_RETX_ATTEMPTS ->
  tidy (tick ms c) /\ keeps c (tick ms c) /\ next (tick ms c) = next c /\ (forall E, poised fo E (_sender c) -> poised fo E (_sender (tick ms c))) /\
  0 <= TCPSender.recount (_sender (tick ms c)) <= TCPSender.recount (_sender c) + 1 /\
  (acked c = next c -> TCPSender.recount (_sender (tick ms c)) = TCPSender.recount (_sender c)).
Proof.
  intros Hc Hsy Hrc. pose proof Hc as [Hok Hn Hqw Hqa Her Hcap]. destruct (ok_parts c Hok) as ((a & fin & u & H) & Hq0 & Hr & _).
  unfold TCPConfig.MAX_RETX_ATTEMPTS in *.
  destruct (sender_tick ms _ _ _ _ H ltac:(lia)) as (Est & En & Eu & Hpo & (new & Hnew & Hwn) & Hrc1 & Hrc2).
  destruct (tick_parts ms c Hok) as (lg & ms' & act & since & Heq & _); [unfold TCPConfig.MAX_RETX_ATTEMPTS; lia |].
  destruct (conn_tick fo fi cp bounds_o c ms Hok) as [Hok' _]. rewrite Heq in *. rewrite Hq0 in Hnew. cbn [app] in Hnew. rewrite Hnew in *.
  split_and!; [| | exact En | intros E HE; by destruct (Hpo E HE) | exact (proj1 Hrc1) | exact (proj2 Hrc1) | exact Hrc2].
  - constructor; [done | cbn; lia | | | | by unfold TCPSender.stream_in in *; cbn; rewrite Est]; cbn [_segments_out _sender _receiver TCPSender._next_seqno TCPSender.with_segments_out].
    + rewrite En. apply Forall_app. split; [done |]. apply Forall_map. eapply Forall_impl; [exact Hwn |]. intros seg. apply stamp_within.
    + apply Forall_app. split; [done |]. apply Forall_map, Forall_true. intros seg. by apply (stamp_acks fi cp).
    + destruct Her as [E1 E2]. split; [| exact E2]. unfold TCPSender.stream_in in *. cbn. by rewrite Est.
  - constructor; [exact Eu | cbn; lia | done | by apply prefix_app_r |]. intros x Hx. cbn in Hx. lia.
Qed.

(** ** Both streams over *)

(** All sent and acknowledged, all received. *)
Definition over (c : t) : Prop := acked c = next c /\ all_sent fo (_sender c) /\ got c = total_of fi + 2.

Lemma over_summary c :
  tidy c -> over c ->
  TCPState.sender_summary (_sender c) = TCPSenderStateSummary.FIN_ACKED /\
  TCPState.receiver_summary (_receiver c) = TCPReceiverStateSummary.FIN_RECV /\
  TCPSender.tick 1000 (_sender c) = _sender c /\
  (_linger_after_streams_finish c = false -> finished c = true).
Proof.
  intros Hc (Ha & Hs & Hg). pose proof Hc as [Hok Hn _ _ [Her1 Her2] _]. destruct (ok_parts c Hok) as ((a & fin & u & H) & _ & Hr & _).
  pose proof (all_sent_fin fo bounds_o _ _ _ _ H Hs) as ->. destruct (si_fin _ _ _ _ _ _ _ H eq_refl) as [He Hnr].
  destruct (sinv_bytes_read _ _ _ bounds_o _ _ _ _ H) as (_ & Hbw). rewrite (si_ended _ _ _ _ _ _ _ H He) in Hbw.
  apply (rcvd_end fi cp bounds_i _ Hr) in Hg as [Hsy Hie]. rewrite (inv_una _ _ _ _ _ H) in Ha. subst u.
  assert (Hfl : TCPSender.bytes_in_flight (_sender c) = 0) by (unfold TCPSender.bytes_in_flight; rewrite (si_flight _ _ _ _ _ _ _ H); lia).
  assert (Hout : TCPSender.outstandings (_sender c) = []).
  { pose proof (si_train _ _ _ _ _ _ _ H) as Ht. destruct (TCPSender.outstandings (_sender c)); [done |]. cbn in Ht.
    destruct Ht as [Hat Ht%train_le]. pose proof (at_len _ _ _ _ _ Hat). lia. }
  assert (Heof : ByteStream.eof (TCPSender.stream_in (_sender c)) = true).
  { unfold TCPSender.stream_in. by rewrite (ByteStreamFacts.repr_eof _ _ (si_repr _ _ _ _ _ _ _ H)), He, bool_decide_true. }
  unfold all_sent in Hs. split_and!.
  - unfold TCPState.sender_summary. rewrite Her1, Heof, Hfl, Hbw. unfold TCPSender.next_seqno_absolute. rewrite Hs, u64_small by lia.
    rewrite (proj2 (Z.eqb_neq _ _)) by lia. cbn [negb]. by rewrite Z.ltb_irrefl.
  - unfold TCPState.receiver_summary, inbound_stream in *. rewrite Her2, (ackno_rcvd fi cp bounds_i _ Hr), Hsy, bool_decide_true by done.
    cbn [negb]. by rewrite Hie.
  - unfold TCPSender.tick. by rewrite Hout.
  - intros Hl. unfold finished. rewrite Hl, Hie, Heof, Hfl, Hbw. unfold TCPSender.next_seqno_absolute. rewrite Hs, u64_small by lia.
    by rewrite Z.eqb_refl.
Qed.

Lemma tick_active c :
  tidy c -> 0 <= TCPSender.recount (_sender c) < TCPConfig.MAX_RETX_ATTEMPTS -> TCPConfig.rt_timeout (_cfg c) = 1000 ->
  (_active c = true -> 0 <= _since_time_wait c < 10000) -> let c' := tick 1000 c in
  _cfg c' = _cfg c /\ (_active c' = true -> _active c = true /\ _since_time_wait c <= _since_time_wait c' < 10000 /\
    (over c -> _since_time_wait c' = _since_time_wait c + 1000)).
Proof.
  intros Hc Hrc Hrt Hsi c'. unfold TCPConfig.MAX_RETX_ATTEMPTS in Hrc. destruct (ok_parts c (td_ok _ Hc)) as ((a & fin & u & H) & _).
  destruct (sender_tick 1000 _ _ _ _ H ltac:(lia)) as (_ & _ & _ & _ & _ & Hrc1 & _).
  destruct (tick_parts 1000 c (td_ok _ Hc)) as (lg & ms' & act & since & Heq & Hst); [unfold TCPConfig.MAX_RETX_ATTEMPTS; lia |].
  unfold c'. rewrite Heq. cbn [_cfg _active _since_time_wait]. split; [done |]. intros ->. cbv zeta in Hst.
  destruct (TCPState.eqb _ _) eqn:Est; destruct Hst as [-> Hact]; symmetry in Hact; apply andb_true_iff in Hact as [Hact Hno].
  - specialize (Hsi Hact). rewrite u64_small in Hno |- * by lia. rewrite Hrt in Hno. destruct (Z.geb_spec (_since_time_wait c + 1000) (10 * 1000)); [done |].
    split_and!; [done | lia | lia | done].
  - specialize (Hsi Hact). split_and!; [done | lia | lia |]. intros Hov. exfalso. destruct (over_summary c Hc Hov) as (S1 & S2 & S3 & S4).
    rewrite S3 in Est, Hno. revert Est. unfold state, TCPState.make, active. cbn [_sender _receiver _active _linger_after_streams_finish with_time with_sender].
    rewrite S1, S2, Hact. destruct (_linger_after_streams_finish c) eqn:El; [by vm_compute |]. intros _.
    change (finished _) with (finished c) in Hno. by rewrite S4 in Hno.
Qed.

End Step.

#[export] Existing Instance evolves_preorder.
#[export] Existing Instance keeps_preorder.

End ProgressFacts.
