(* ===== verification/tcp_benchmark.v ===== *)
(** * apps/tcp_benchmark: a bulk transfer between two connections

    The benchmark writes [len] random bytes into one connection, carries the
    segments to the other, in order or in reverse, reads what arrives and
    compares.  The random bytes, and the draws for the two initial sequence
    numbers, are arguments; measuring the time and printing are left out. *)

From S2P Require Import Prelude byte_stream wrapping_integers buffer tcp_segment tcp_config tcp_receiver tcp_sender tcp_state tcp_connection stream_reassembler stream_reassembler_proofs tcp_sender_proofs tcp_connection_proofs tcp_connection_effects tcp_progress.

Module Benchmark.

Definition len : Z := 100 * 1024 * 1024.

(** The local variables of [main_loop]. *)
Record t := mk {
  x : TCPConnection.t;
  y : TCPConnection.t;
  bytes_to_send : Buffer.t;
  x_closed : bool;
  string_received : bytes;
}.

Definition with_x (c : TCPConnection.t) (s : t) : t := mk c (y s) (bytes_to_send s) (x_closed s) (string_received s).
Definition with_y (c : TCPConnection.t) (s : t) : t := mk (x s) c (bytes_to_send s) (x_closed s) (string_received s).

(** The [for] loops over the segments. *)
Fixpoint receive_all (segments : list TCPSegment.t) (c : TCPConnection.t) : outcome TCPConnection.t :=
  match segments with
  | [] => Ret c
  | seg :: segments => c ← TCPConnection.segment_received seg c; receive_all segments c
  end.

Definition move_segments (c d : TCPConnection.t) (reorder : bool) : outcome (TCPConnection.t * TCPConnection.t) :=
  let segments := TCPConnection.segments_out c in
  let c := TCPConnection.with_segments_out [] c in
  d ← receive_all (if reorder then reverse segments else segments) d;
  Ret (c, d).

(** The first loop of [loop]: input into [x]. *)
Fixpoint write_input (fuel : nat) (s : t) : outcome t :=
  match fuel with
  | O => Diverge
  | S fuel =>
      if negb (Buffer.size (bytes_to_send s) =? 0) && negb (TCPConnection.remaining_outbound_capacity (x s) =? 0) then
        let want := Z.min (TCPConnection.remaining_outbound_capacity (x s)) (Buffer.size (bytes_to_send s)) in
        data ← substr (Buffer.str (bytes_to_send s)) 0 want;
        '(written, c) ← TCPConnection.write data (x s);
        if negb (want =? written) then Raise (runtime_error "want, written")
        else
          b ← Buffer.remove_prefix written (bytes_to_send s);
          write_input fuel (mk c (y s) b (x_closed s) (string_received s))
      else Ret s
  end.

Definition close_input (s : t) : outcome t :=
  if (Buffer.size (bytes_to_send s) =? 0) && negb (x_closed s) then
    c ← TCPConnection.end_input_stream (x s);
    Ret (mk c (y s) (bytes_to_send s) true (string_received s))
  else Ret s.

Definition read_output (s : t) : outcome t :=
  let available_output := ByteStream.buffer_size (TCPConnection.inbound_stream (y s)) in
  if available_output >? 0 then
    '(data, st) ← ByteStream.read available_output (TCPConnection.inbound_stream (y s));
    let c := TCPConnection.with_receiver (TCPReceiver.with_stream st (TCPConnection._receiver (y s))) (y s) in
    Ret (mk (x s) c (bytes_to_send s) (x_closed s) (string_received s ++ data))
  else Ret s.

(** Every turn of the first loop sends at least one byte. *)
Definition loop (reorder : bool) (s : t) : outcome t :=
  s ← write_input (S (Z.to_nat (Buffer.size (bytes_to_send s)))) s;
  s ← close_input s;
  '(c, d) ← move_segments (x s) (y s) reorder;
  let s := with_y d (with_x c s) in
  '(d, c) ← move_segments (y s) (x s) false;
  let s := with_y d (with_x c s) in
  s ← read_output s;
  Ret (with_y (TCPConnection.tick 1000 (y s)) (with_x (TCPConnection.tick 1000 (x s)) s)).

Fixpoint while (fuel : nat) (condition : t -> bool) (reorder : bool) (s : t) : outcome t :=
  match fuel with
  | O => Diverge
  | S fuel => if condition s then s ← loop reorder s; while fuel condition reorder s else Ret s
  end.

Definition main_loop (fuel : nat) (string_to_send : bytes) (random_x random_y : Z) (reorder : bool) : outcome t :=
  c ← TCPConnection.connect (TCPConnection.make TCPConfig.default_ random_x);
  d ← TCPConnection.end_input_stream (TCPConnection.make TCPConfig.default_ random_y);
  let s := mk c d (Buffer.of_string string_to_send) false [] in
  s ← while fuel (fun s => negb (ByteStream.eof (TCPConnection.inbound_stream (y s)))) reorder s;
  if negb (bool_decide (string_received s = string_to_send))
  then Raise (runtime_error "strings sent vs. received don't match")
  else while fuel (fun s => TCPConnection.active (x s) || TCPConnection.active (y s)) reorder s.

(** The exit status. *)
Definition main (fuel : nat) (data1 data2 : bytes) (x1 y1 x2 y2 : Z) : outcome Z :=
  match (_ ← main_loop fuel data1 x1 y1 false; main_loop fuel data2 x2 y2 true) with
  | Ret _ => Ret 0
  | Raise (undefined_behaviour why) => Raise (undefined_behaviour why)
  | Raise _ => Ret 1
  | Diverge => Diverge
  end.

End Benchmark.

Module BenchmarkFacts.
Import TCPConnection ReassemblerFacts ReceiverFacts SenderFacts ConnectionFacts EffectFacts ProgressFacts Benchmark.

(** The two streams: the data one way, nothing the other. *)
Definition data_flow (data : bytes) (isn : Z) : flow := Flow (fun i => nth (Z.to_nat i) data Byte.x00) (Zlen data) isn.
Definition empty_flow (isn : Z) : flow := Flow (fun _ => Byte.x00) 0 isn.

Lemma data_agrees data isn : agrees (bytes_of (data_flow data isn)) 0 data.
Proof. intros k b Hk. cbn [bytes_of data_flow]. rewrite Z.add_0_l, Nat2Z.id. rewrite nth_lookup, Hk. done. Qed.

Section Run.
Context (data : bytes) (isn_x isn_y : Z).
Hypothesis in_x : in_bits 32 isn_x.
Hypothesis in_y : in_bits 32 isn_y.
Hypothesis size_ok : Zlen data < 2 ^ 30.

Definition cap : nat := Z.to_nat TCPConfig.DEFAULT_CAPACITY.
Lemma cap_eq : Z.of_nat cap = 64000.
Proof. unfold cap. rewrite Z2Nat.id; [done | discriminate]. Qed.
Abbreviation fx := (data_flow data isn_x).
Abbreviation fy := (empty_flow isn_y).

Lemma bounds_data : 0 <= total_of fx /\ total_of fx + Z.of_nat cap + 2 < 2 ^ 31.
Proof. cbn [total_of data_flow]. pose proof (Zlen_nonneg data). rewrite cap_eq. lia. Qed.
Lemma bounds_data' : 0 <= total_of fx /\ total_of fx + 2 < 2 ^ 31.
Proof. pose proof bounds_data. lia. Qed.
Lemma bounds_none : 0 <= total_of fy /\ total_of fy + Z.of_nat cap + 2 < 2 ^ 31.
Proof. cbn [total_of empty_flow]. rewrite cap_eq. lia. Qed.
Lemma bounds_none' : 0 <= total_of fy /\ total_of fy + 2 < 2 ^ 31.
Proof. pose proof bounds_none. lia. Qed.

Abbreviation written_by c := (ByteStream.bytes_written (TCPSender.stream_in (_sender c))).

(** What is left to send is what has not been written; what was received is
    what was read. *)
Record bench_inv (s : t) : Prop := {
  bi_x : conn_ok fx fy cap (x s);
  bi_y : conn_ok fy fx cap (y s);
  bi_wf : Buffer.wf (bytes_to_send s);
  bi_left : Buffer.str (bytes_to_send s) = drop (Z.to_nat (written_by (x s))) data;
  bi_closed : ByteStream.input_ended (TCPSender.stream_in (_sender (x s))) = x_closed s;
  bi_whole : x_closed s = true -> Buffer.size (bytes_to_send s) = 0;
  bi_received : agrees (bytes_of fx) 0 (string_received s);
  bi_read : Zlen (string_received s) = ByteStream.bytes_read (inbound_stream (y s));
}.

(** ** The parts of the loop *)

Lemma written_range c : conn_ok fx fy cap c -> 0 <= written_by c <= Zlen data /\ 0 <= remaining_outbound_capacity c.
Proof. intros Hc. destruct (outbound_counts fx fy cap bounds_data' c Hc) as (_ & Hw & _ & Hr & _). split; [exact Hw | exact Hr]. Qed.

Lemma write_input_ok fuel s :
  bench_inv s -> Buffer.size (bytes_to_send s) < Z.of_nat fuel ->
  exists s', write_input fuel s = Ret s' /\ bench_inv s' /\ rtc (pushed fx fy cap) (x s) (x s') /\ y s' = y s /\
    (Buffer.size (bytes_to_send s') = 0 \/ remaining_outbound_capacity (x s') = 0).
Proof.
  revert s. induction fuel as [| fuel IH]; intros s Hi Hf; [pose proof (Zlen_nonneg (Buffer.str (bytes_to_send s))); unfold Buffer.size in *; lia |].
  cbn [write_input]. destruct (_ && _) eqn:Hgo.
  2: { exists s. split_and!; [done | done | constructor | done |]. apply andb_false_iff in Hgo as [Hgo | Hgo];
      apply negb_false_iff, Z.eqb_eq in Hgo; auto. }
  apply andb_true_iff in Hgo as [Hb Hr].
  apply negb_true_iff, Z.eqb_neq in Hb, Hr. pose proof Hi as []. destruct (written_range (x s) bi_x0) as [Hw Hc].
  set (want := Z.min _ _). unfold Buffer.size in *. pose proof (Zlen_nonneg (Buffer.str (bytes_to_send s))).
  assert (Hwant : 0 < want <= Zlen (Buffer.str (bytes_to_send s)) /\ want <= remaining_outbound_capacity (x s)) by lia.
  rewrite substr_prefix by lia. cbn [mbind outcome_bind]. set (d := take (Z.to_nat want) _).
  assert (Hd : Zlen d = want) by (unfold d; rewrite Zlen_take; lia).
  assert (Hlen : Zlen (Buffer.str (bytes_to_send s)) = Zlen data - written_by (x s)) by (rewrite bi_left0, Zlen_drop; lia).
  assert (Hopen : ByteStream.input_ended (TCPSender.stream_in (_sender (x s))) = false).
  { rewrite bi_closed0. destruct (x_closed s); [| done]. specialize (bi_whole0 eq_refl). lia. }
  assert (Hag : agrees (bytes_of fx) (written_by (x s)) d).
  { unfold d. rewrite bi_left0. apply agrees_take.
    pose proof (agrees_drop _ 0 (Z.to_nat (written_by (x s))) _ (data_agrees data isn_x)) as Ha.
    rewrite Z2Nat.id in Ha by lia. exact Ha. }
  assert (Hfit : written_by (x s) + Zlen d <= total_of fx) by (cbn [total_of data_flow]; lia).
  destruct (conn_write fx fy cap bounds_data' (x s) d bi_x0) as (c & Hwr & Hok & _ & Hbw & Hend); [lia | done | done | done |].
  pose proof (write_pushed fx fy cap bounds_data' (x s) d _ c bi_x0 Hok Hopen Hag Hfit Hwr) as Hpu.
  rewrite Hwr, Hd. cbn [mbind outcome_bind]. rewrite Z.eqb_refl. cbn [negb].
  destruct (Buffer.remove_prefix_ok want (bytes_to_send s) bi_wf0) as (b & -> & Hwf & Hstr); [unfold Buffer.size; lia |].
  cbn [mbind outcome_bind]. destruct (IH (mk c (y s) b (x_closed s) (string_received s))) as (s' & Hs' & Hi' & Hrt & Hy & Hex).
  - constructor; cbn [x y bytes_to_send x_closed string_received]; try done.
    + rewrite Hstr, bi_left0, Hbw, Hd, drop_drop. f_equal. lia.
    + by rewrite Hend.
    + intros Hcl. specialize (bi_whole0 Hcl). lia.
  - cbn [bytes_to_send]. rewrite Hstr, Zlen_drop. lia.
  - exists s'. split_and!; [done | done | by eapply rtc_l | done | done].
Qed.

Lemma close_input_ok s :
  bench_inv s -> exists s', close_input s = Ret s' /\ bench_inv s' /\ rtc (pushed fx fy cap) (x s) (x s') /\ y s' = y s /\
    (if Buffer.size (bytes_to_send s) =? 0 then x_closed s' = true else s' = s).
Proof.
  intros Hi. unfold close_input. destruct (Buffer.size (bytes_to_send s) =? 0) eqn:Hb; cbn [andb].
  2: { exists s. by split_and!. }
  destruct (x_closed s) eqn:Hcl; cbn [negb]; [exists s; by split_and! |].
  apply Z.eqb_eq in Hb. pose proof Hi as []. destruct (written_range (x s) bi_x0) as [Hw _].
  assert (Hall : written_by (x s) = Zlen data).
  { unfold Buffer.size in Hb. rewrite bi_left0, Zlen_drop in Hb. lia. }
  destruct (conn_end_input fx fy cap bounds_data' (x s) bi_x0 Hall) as (c & Hc & Hok & _ & Hbw & Hend).
  pose proof (end_pushed fx fy cap bounds_data' (x s) c bi_x0 Hok Hall Hc) as Hpu.
  rewrite Hc. cbn [mbind outcome_bind]. eexists. split_and!; [reflexivity | | by apply rtc_once | done | done].
  constructor; cbn [x y bytes_to_send x_closed string_received]; try done. rewrite Hbw. cbn [total_of data_flow]. by rewrite <- Hall.
Qed.

(** Segments carried from one connection to the other. *)
Lemma receive_all_ok fo fi segs c :
  in_bits 32 (isn_of fo) -> in_bits 32 (isn_of fi) -> 0 <= total_of fo /\ total_of fo + 2 < 2 ^ 31 ->
  0 <= total_of fi /\ total_of fi + Z.of_nat cap + 2 < 2 ^ 31 ->
  conn_ok fo fi cap c -> Forall (genuine_of fi) segs ->
  exists c', receive_all segs c = Ret c' /\ conn_ok fo fi cap c' /\ undisturbed c c'.
Proof.
  intros H1 H2 H3 H4 Hc Hs. revert c Hc. induction Hs as [| seg segs Hseg _ IH]; intros c Hc; cbn [receive_all]; [by exists c |].
  destruct (conn_segment_received fo fi cap H1 H2 H3 H4 c seg Hc Hseg) as (c1 & -> & Hc1 & U1). cbn [mbind outcome_bind].
  destruct (IH c1 Hc1) as (c2 & -> & Hc2 & U2). exists c2. split_and!; [done | done |]. by transitivity c1.
Qed.

Lemma emptied_ok fo fi c : conn_ok fo fi cap c -> conn_ok fo fi cap (with_segments_out [] c) /\ undisturbed c (with_segments_out [] c).
Proof. intros (Hc & Hg & [Hp _]). split; [| done]. split; [exact Hc |]. split; [constructor |]. by split; [| constructor]. Qed.

Lemma move_ok fo fi (reorder : bool) c d :
  in_bits 32 (isn_of fo) -> in_bits 32 (isn_of fi) -> 0 <= total_of fi /\ total_of fi + 2 < 2 ^ 31 ->
  0 <= total_of fo /\ total_of fo + Z.of_nat cap + 2 < 2 ^ 31 ->
  conn_ok fo fi cap c -> conn_ok fi fo cap d ->
  exists c' d', move_segments c d reorder = Ret (c', d') /\ conn_ok fo fi cap c' /\ conn_ok fi fo cap d' /\
    undisturbed c c' /\ undisturbed d d'.
Proof.
  intros H1 H2 H3 H4 Hc Hd. unfold move_segments. destruct (emptied_ok fo fi c Hc) as [Hc' U].
  destruct (receive_all_ok fi fo (if reorder then reverse (segments_out c) else segments_out c) d H2 H1 H3 H4 Hd) as (d' & -> & Hd' & Ud).
  { destruct Hc as (_ & Hg & _). destruct reorder; [| exact Hg]. by rewrite Forall_reverse. }
  cbn [mbind outcome_bind]. by eexists _, d'.
Qed.

Lemma conn_read c :
  conn_ok fy fx cap c -> let st := inbound_stream c in
  exists st', ByteStream.read (ByteStream.buffer_size st) st = Ret (ByteStream.buffer st, st') /\
    conn_ok fy fx cap (with_receiver (TCPReceiver.with_stream st' (_receiver c)) c) /\
    ByteStream.bytes_read st' = ByteStream.bytes_read st + Zlen (ByteStream.buffer st) /\ ByteStream.buffer st' = [].
Proof.
  intros Hc st. destruct (inbound_counts fy fx cap bounds_data c Hc) as (_ & H0 & Ht & _). fold st in H0, Ht.
  cbn [total_of data_flow] in Ht. pose proof (Zlen_nonneg (ByteStream.buffer st)). pose proof size_ok.
  destruct (conn_pop fy fx cap bounds_data c (Zlen (ByteStream.buffer st)) Hc) as (st' & Hp & Hok & Hr & _ & _ & Hbuf); [fold st; lia |].
  exists st'. split_and!; [| done | exact Hr | rewrite Hbuf; fold st; apply drop_ge; unfold Zlen; lia]. unfold ByteStream.read, ByteStream.buffer_size.
  destruct (Z.gtb_spec (Zlen (ByteStream.buffer st)) (Zlen (ByteStream.buffer st))); [lia |].
  rewrite i32_small, u64_small by lia. unfold ByteStream.peek_output. rewrite substr_prefix by lia. cbn [mbind outcome_bind].
  fold st in Hp. rewrite Hp. cbn [mbind outcome_bind]. do 2 f_equal. apply take_ge. unfold Zlen. lia.
Qed.

Lemma read_output_ok s : bench_inv s -> exists s', read_output s = Ret s' /\ bench_inv s'.
Proof.
  intros Hi. unfold read_output. destruct (_ >? 0); [| by exists s]. pose proof Hi as [].
  destruct (conn_read (y s) bi_y0) as (st' & Hrd & Hok & Hr & _). cbv zeta in Hrd. rewrite Hrd. cbn [mbind outcome_bind].
  eexists. split; [reflexivity |]. constructor; cbn [x y bytes_to_send x_closed string_received]; try done.
  - apply agrees_app. split; [done |]. rewrite Z.add_0_l, bi_read0. by apply (inbound_counts fy fx cap bounds_data (y s) bi_y0).
  - rewrite Zlen_app, bi_read0. symmetry. exact Hr.
Qed.

(** Nothing the loop does to a connection in between changes the counts. *)
Lemma swap_inv s c d :
  bench_inv s -> conn_ok fx fy cap c -> conn_ok fy fx cap d -> undisturbed (x s) c -> undisturbed (y s) d ->
  bench_inv (with_y d (with_x c s)).
Proof.
  intros [] Hc Hd [W1 E1 _ _] [_ _ R2 _]. constructor; cbn [x y bytes_to_send x_closed string_received with_x with_y]; try done.
  - by rewrite W1.
  - by rewrite E1.
  - by rewrite R2.
Qed.

Lemma bench_loop_ok reorder s : bench_inv s -> exists s', loop reorder s = Ret s' /\ bench_inv s'.
Proof.
  intros Hi. unfold loop. destruct (write_input_ok (S (Z.to_nat (Buffer.size (bytes_to_send s)))) s Hi) as (s1 & -> & H1 & _).
  { unfold Buffer.size. lia. }
  cbn [mbind outcome_bind]. destruct (close_input_ok s1 H1) as (s2 & -> & H2 & _). cbn [mbind outcome_bind].
  destruct (move_ok fx fy reorder (x s2) (y s2) in_x in_y bounds_none' bounds_data (bi_x _ H2) (bi_y _ H2))
    as (c & d & -> & Hc & Hd & Uc & Ud). cbn [mbind outcome_bind].
  pose proof (swap_inv s2 c d H2 Hc Hd Uc Ud) as H3. set (s3 := with_y d (with_x c s2)) in *.
  destruct (move_ok fy fx false (y s3) (x s3) in_y in_x bounds_data' bounds_none (bi_y _ H3) (bi_x _ H3))
    as (d' & c' & -> & Hd' & Hc' & Ud' & Uc'). cbn [mbind outcome_bind].
  pose proof (swap_inv s3 c' d' H3 Hc' Hd' Uc' Ud') as H4.
  destruct (read_output_ok _ H4) as (s5 & -> & H5). cbn [mbind outcome_bind]. eexists. split; [reflexivity |].
  destruct (conn_tick fx fy cap bounds_data' (x s5) 1000 (bi_x _ H5)) as [Hx Ux].
  destruct (conn_tick fy fx cap bounds_none' (y s5) 1000 (bi_y _ H5)) as [Hy Uy]. by apply swap_inv.
Qed.

(** At the end of the stream everything has been read. *)
Lemma received_all s : bench_inv s -> ByteStream.eof (inbound_stream (y s)) = true -> string_received s = data.
Proof.
  intros [] He. apply andb_true_iff in He as [He Hb]. apply Z.eqb_eq in Hb.
  destruct (inbound_counts fy fx cap bounds_data (y s) bi_y0) as (_ & _ & _ & Hall). specialize (Hall He).
  cbn [total_of data_flow] in Hall. eapply agrees_inj; [exact bi_received0 | apply data_agrees |]. unfold Zlen in *. lia.
Qed.

Lemma start_ok :
  exists c d, connect (make TCPConfig.default_ isn_x) = Ret c /\ end_input_stream (make TCPConfig.default_ isn_y) = Ret d /\
    bench_inv (mk c d (Buffer.of_string data) false []).
Proof.
  assert (Hmake : forall fo fi, 0 <= total_of fo /\ total_of fo + 2 < 2 ^ 31 -> 0 <= total_of fi /\ total_of fi + Z.of_nat cap + 2 < 2 ^ 31 ->
    conn_ok fo fi cap (make TCPConfig.default_ (isn_of fo))).
  { intros fo fi Ho Hi. destruct (configured_ok fo fi cap Ho Hi (make TCPConfig.default_ (isn_of fo))) as [_ Hc].
    - exists TCPConfig.default_, (isn_of fo), cap. rewrite cap_eq. split_and!; [reflexivity | reflexivity | reflexivity | lia | reflexivity | split; [discriminate | reflexivity]].
    - split; [by exists [] |]. split; [done |]. by split. }
  destruct (conn_connect fx fy cap bounds_data' _ (Hmake fx fy bounds_data' bounds_none)) as (c & Hc & Hx & Ux).
  destruct (conn_end_input fy fx cap bounds_none' _ (Hmake fy fx bounds_none' bounds_data)) as (d & Hd & Hy & Ed & _); [done |].
  exists c, d. split_and!; [done | done |]. destruct Ux as [W E _ _].
  constructor; cbn [x y bytes_to_send x_closed string_received]; try done.
  - apply Buffer.wf_of_string. lia.
  - rewrite Buffer.str_of_string, W. change (written_by (make TCPConfig.default_ (isn_of fx))) with 0. by rewrite drop_0.
  - rewrite Ed. done.
Qed.

End Run.

End BenchmarkFacts.
