(* ===== verification/tcp_benchmark_liveness.v ===== *)
(** * apps/tcp_benchmark: the transfer ends

    Two connections that exchange all they have queued make progress with
    every exchange: each has received what the other had sent, and is
    acknowledged.  The benchmark does one exchange per turn of its loops, so
    the loops end, and so does the program. *)

From S2P Require Import Prelude byte_stream wrapping_integers buffer stream_reassembler stream_reassembler_proofs tcp_segment tcp_config tcp_receiver tcp_sender tcp_sender_proofs tcp_state tcp_connection tcp_connection_proofs tcp_connection_effects tcp_progress tcp_benchmark.

Module BenchmarkLiveness.
Import TCPConnection ReassemblerFacts ReceiverFacts SenderFacts ConnectionFacts EffectFacts ProgressFacts Benchmark BenchmarkFacts.

Abbreviation next c := (TCPSender._next_seqno (_sender c)).
Abbreviation acked c := (una (_sender c)).
Abbreviation got c := (rcvd (_receiver c)).
Abbreviation room c := (edge cap (_receiver c)).
Abbreviation end_of c := (StreamReassembler.endIdx (TCPReceiver._reassembler (_receiver c))).
Abbreviation recount c := (TCPSender.recount (_sender c)).

(** The first segment of a list is a SYN. *)
Definition opens (segs : list TCPSegment.t) : Prop :=
  exists seg rest, segs = seg :: rest /\ TCPHeader.syn (TCPSegment.header seg) = true.

Lemma exists_delivered (P : TCPSegment.t -> Prop) (reorder : bool) q :
  Exists P (if reorder then reverse q else q) <-> Exists P q.
Proof. destruct reorder; [| done]. rewrite !Exists_exists. by setoid_rewrite elem_of_reverse. Qed.

Lemma forall_delivered (P : TCPSegment.t -> Prop) (reorder : bool) q :
  Forall P q -> Forall P (if reorder then reverse q else q).
Proof. intros H. destruct reorder; [| done]. by rewrite Forall_reverse. Qed.

(** ** One delivery *)

Section Link.
Context (fo fi : flow).
Hypothesis isn_o : in_bits 32 (isn_of fo).
Hypothesis isn_i : in_bits 32 (isn_of fi).
Hypothesis bounds_o : 0 <= total_of fo /\ total_of fo + Z.of_nat cap + 2 < 2 ^ 31.
Hypothesis bounds_i : 0 <= total_of fi /\ total_of fi + Z.of_nat cap + 2 < 2 ^ 31.

Lemma bounds_o' : 0 <= total_of fo /\ total_of fo + 2 < 2 ^ 31.
Proof. lia. Qed.
Lemma cap_small : Z.of_nat cap < 2 ^ 16.
Proof. rewrite cap_eq. lia. Qed.

Abbreviation tidy_o := (tidy fo fi cap).
Abbreviation evolves_o := (evolves fi cap).

Lemma sending_acked_le N E full c : sending fo N E full (_sender c) -> acked c <= N.
Proof. intros [(a & fin & u & q1 & q2 & H & _ & Ht & _) _ _ _ _ _]. rewrite (inv_una fo _ _ _ _ H). by apply train_le in Ht. Qed.

Lemma all_sent_mono c c' : tidy_o c' -> next c <= next c' -> all_sent fo (_sender c) -> all_sent fo (_sender c').
Proof. intros Ht Hn. pose proof (tidy_next_le fo fi cap bounds_o' _ Ht). unfold all_sent. lia. Qed.

Lemma receive_list n N E full R A segs d :
  receiving fo fi cap n N E full R d -> 0 <= E < 2 ^ 32 -> A <= N -> (E + 1 <= A -> E <> total_of fo + 1 -> full) ->
  Forall (genuine_of fi) segs -> Forall (within fi n) segs -> Forall (acks_upto fo E A) segs ->
  (TCPReceiver.syned (_receiver d) = true \/ opens segs) ->
  exists d', receive_all segs d = Ret d' /\ receiving fo fi cap n N E full R d' /\ evolves_o d d' /\
    TCPReceiver.syned (_receiver d') = true /\
    (forall i, 0 <= i < room d -> Exists (fun seg => carries (isn_of fi) seg i) segs -> holds (_receiver d') i) /\
    (Exists (ends_stream (isn_of fi)) segs -> end_of d' = total_of fi) /\
    (A <= 0 -> acked d' = acked d) /\
    (Exists (acks_at fo N) segs -> acked d' = N /\ (N < next d' \/ all_sent fo (_sender d'))).
Proof.
  intros Hr HE HA Hfull Hg Hw Hu Hs. revert d Hr Hs. induction segs as [|seg segs IH]; intros d Hr Hs.
  { exists d. cbn [receive_all]. destruct Hs as [Hs | (? & ? & ? & _)]; [| done].
    split_and!; [done | done | reflexivity | done | intros i _; by intros ?%Exists_nil | by intros ?%Exists_nil | done | by intros ?%Exists_nil]. }
  inversion Hg as [| ? ? Hg1 Hg2]; inversion Hw as [| ? ? Hw1 Hw2]; inversion Hu as [| ? ? Hu1 Hu2]; subst.
  destruct (receive_one fo fi cap isn_o isn_i bounds_o' bounds_i cap_small n N E full R A seg d Hr HE HA Hfull Hg1 Hw1 Hu1)
    as (d1 & H1 & Hr1 & Hv1 & Hs1 & Hh1 & He1 & Ha1 & Hk1).
  { destruct Hs as [? | (? & ? & [= <- <-] & ?)]; [by left | by right]. }
  destruct (IH Hg2 Hw2 Hu2 d1 Hr1 (or_introl Hs1)) as (d2 & H2 & Hr2 & Hv2 & Hs2 & Hh2 & He2 & Ha2 & Hk2).
  exists d2. cbn [receive_all]. rewrite H1. split_and!; [done | done | by etransitivity | done | | | |].
  - intros i Hi [Hc | Hc]%Exists_cons; [apply (ev_holds _ _ _ _ Hv2); [lia | by apply Hh1] | apply Hh2; [| done]].
    by rewrite (ev_room _ _ _ _ Hv1).
  - intros [Hc | Hc]%Exists_cons; [by apply (ev_end _ _ _ _ Hv2), He1 | by apply He2].
  - intros Hz. rewrite Ha2, Ha1; done.
  - intros [Hc | Hc]%Exists_cons; [| by apply Hk2]. destruct (Hk1 Hc) as [Hx Hy].
    pose proof (ev_acked _ _ _ _ Hv2). pose proof (sending_acked_le _ _ _ _ (rc_sending _ _ _ _ _ _ _ _ _ Hr2)).
    pose proof (ev_next _ _ _ _ Hv2). split; [lia |]. destruct Hy as [? | Hy]; [left; lia | right].
    by eapply all_sent_mono; [apply (rc_tidy _ _ _ _ _ _ _ _ _ Hr2) | | exact Hy].
Qed.

End Link.
(** ** One direction, then the other *)

Section Half.
Context (fc fd : flow).
Hypothesis isn_c : in_bits 32 (isn_of fc).
Hypothesis isn_d : in_bits 32 (isn_of fd).
Hypothesis bounds_c : 0 <= total_of fc /\ total_of fc + Z.of_nat cap + 2 < 2 ^ 31.
Hypothesis bounds_d : 0 <= total_of fd /\ total_of fd + Z.of_nat cap + 2 < 2 ^ 31.

(** [c] is about to deliver its queue to [d]: the queue has all that [d] has
    not received; [c] has received all that [d] has sent, and the queue says
    so, except at the beginning, when [c] has received nothing and the queue
    of [d] has it all. *)
Record half (c d : TCPConnection.t) : Prop := {
  hf_c : tidy fc fd cap c;
  hf_d : tidy fd fc cap d;
  hf_got : got d = acked c;
  hf_queue : forall x, acked c <= x < next c -> covers fc (_segments_out c) x;
  hf_held : held fc (next c) (_receiver d);
  hf_held_back : held fd (next d) (_receiver c);
  hf_back : (got c = next d /\ (acked d < next d -> Exists (acks_at fd (next d)) (_segments_out c))) \/
    (got c = 0 /\ acked d = 0 /\ forall x, 0 <= x < next d -> covers fd (_segments_out d) x);
  hf_busy_c : acked c < next c \/ all_sent fc (_sender c);
  hf_busy_d : acked d < next d \/ all_sent fd (_sender d);
}.

Lemma tidy_acked_le f1 f2 c : 0 <= total_of f1 /\ total_of f1 + 2 < 2 ^ 31 -> tidy f1 f2 cap c -> 0 <= acked c <= next c.
Proof.
  intros Hb Hc. destruct (ok_parts _ _ _ _ (td_ok _ _ _ _ Hc)) as ((a & fin & u & H) & _).
  rewrite (inv_una _ _ _ _ _ H). by destruct (sinv_bounds _ _ _ Hb _ _ _ _ H) as (_ & ? & _).
Qed.

Lemma room_range f1 f2 c : 0 <= total_of f2 /\ total_of f2 + Z.of_nat cap + 2 < 2 ^ 31 -> tidy f1 f2 cap c -> 0 <= room c < 2 ^ 32.
Proof.
  intros Hb Hc. destruct (ok_parts _ _ _ _ (td_ok _ _ _ _ Hc)) as (_ & _ & Hr & _).
  destruct (ok_counts _ _ Hb _ Hr) as (? & ? & ? & _). unfold edge in *. lia.
Qed.

(** The peer's window is closed only when its buffer is full. *)
Lemma window_closed c :
  tidy fc fd cap c -> room c + 1 <= got c -> room c <> total_of fd + 1 -> ByteStream.bytes_written (inbound_stream c) = room c.
Proof.
  intros Hc. pose proof (room_range _ _ _ bounds_d Hc) as Hrm. destruct (ok_parts _ _ _ _ (td_ok _ _ _ _ Hc)) as (_ & _ & Hr & _).
  destruct (ok_counts _ _ bounds_d _ Hr) as (_ & Hwe & Hwt & Hend). unfold rcvd. change (TCPReceiver.stream_out (_receiver c)) with (inbound_stream c) in *.
  destruct (TCPReceiver.syned _); [| lia]. destruct (ByteStream.input_ended _); cbn [flag_len]; [| lia].
  destruct Hend as [Hend _]. destruct (Hend eq_refl) as [_ Hw]. lia.
Qed.

(** [d] has received all that [c] has sent. *)
Lemma delivered_all c d d' :
  half c d -> poised fc (room d) (_sender c) -> tidy fd fc cap d' -> evolves fc cap d d' -> held fc (next c) (_receiver d') ->
  TCPReceiver.syned (_receiver d') = true ->
  (forall i, 0 <= i < room d -> Exists (fun seg => carries (isn_of fc) seg i) (_segments_out c) -> holds (_receiver d') i) ->
  (Exists (ends_stream (isn_of fc)) (_segments_out c) -> end_of d' = total_of fc) -> got d' = next c.
Proof.
  intros Hh Hp Ht' Hev Hheld Hsy Hcar Hfin. pose proof (hf_c _ _ Hh) as Hc. pose proof (td_next _ _ _ _ Hc) as Hn.
  assert (Hb' : 0 <= total_of fc /\ total_of fc + 2 < 2 ^ 31) by lia.
  destruct (ok_parts _ _ _ _ (td_ok _ _ _ _ Ht')) as (_ & _ & Hr' & _).
  destruct (ok_parts _ _ _ _ (td_ok _ _ _ _ (hf_d _ _ Hh))) as (_ & _ & Hr & _).
  pose proof (tidy_next_le _ _ _ Hb' _ Hc) as Hmax. pose proof (tidy_acked_le _ _ _ Hb' Hc). pose proof (hf_got _ _ Hh) as Hg.
  apply Z.le_antisymm; [by apply (rcvd_le fc cap bounds_c) |]. apply (rcvd_ge fc cap bounds_c); [done | done | lia | lia | |].
  - intros i Hi Hit. destruct (Z.lt_ge_cases (i + 1) (acked c)).
    + apply (ev_holds _ _ _ _ Hev); [lia |]. apply (got_holds fc cap bounds_c); [done | lia | lia | done].
    + pose proof (po_bound _ _ _ Hp). apply Hcar; [lia |]. apply (covered_byte (bytes_of fc) _ _ Hb'); [lia |]. apply (hf_queue _ _ Hh). lia.
  - intros Hall. destruct (Z.eq_dec (acked c) (total_of fc + 2)) as [Hx | Hx].
    + apply (ev_end _ _ _ _ Hev). rewrite <- Hg in Hx. apply (rcvd_end fc cap bounds_c _ Hr) in Hx as [_ Hx].
      by apply (ok_counts fc cap bounds_c _ Hr) in Hx as [? _].
    + apply Hfin, (covered_fin (bytes_of fc) _ _ Hb'), (hf_queue _ _ Hh). lia.
Qed.

Lemma held_mono f n n' r : n <= n' <= total_of f + 2 -> held f n r -> held f n' r.
Proof.
  intros Hn [H1 H2]. split.
  - intros i Hi Hh. specialize (H1 i Hi Hh). lia.
  - intros He. specialize (H2 He). lia.
Qed.

Lemma tidy_emptied f1 f2 c : tidy f1 f2 cap c -> tidy f1 f2 cap (with_segments_out [] c).
Proof. intros []. constructor; [by apply emptied_ok | done | constructor | constructor | done | done]. Qed.

(** What a delivery from [c] leaves at [d]. *)
Record delivered_to (c d d' : TCPConnection.t) : Prop := {
  dl_got : got d' = next c;
  dl_syned : TCPReceiver.syned (_receiver d') = true;
  dl_evolves : evolves fc cap d d';
  dl_sending : sending fd (next d) (room c) (ByteStream.bytes_written (inbound_stream c) = room c) (_sender d');
  dl_acked : got c = next d -> acked d' = next d /\ (next d < next d' \/ all_sent fd (_sender d'));
}.

End Half.

Section Step.
Context (fc fd : flow).
Hypothesis isn_c : in_bits 32 (isn_of fc).
Hypothesis isn_d : in_bits 32 (isn_of fd).
Hypothesis bounds_c : 0 <= total_of fc /\ total_of fc + Z.of_nat cap + 2 < 2 ^ 31.
Hypothesis bounds_d : 0 <= total_of fd /\ total_of fd + Z.of_nat cap + 2 < 2 ^ 31.

Lemma half_step (reorder : bool) c d :
  half fc fd c d -> poised fc (room d) (_sender c) -> poised fd (room c) (_sender d) -> supplied fd (_sender d) ->
  (TCPReceiver.syned (_receiver d) = true \/ opens (if reorder then reverse (_segments_out c) else _segments_out c)) ->
  exists d', move_segments c d reorder = Ret (with_segments_out [] c, d') /\
    half fd fc d' (with_segments_out [] c) /\ delivered_to fc fd c d d'.
Proof.
  intros Hh Hpc Hpd Hsup Hsy. pose proof Hh as [Hc Hd Hg Hq Hhe Hhb Hback Hbc Hbd].
  assert (Hb' : 0 <= total_of fd /\ total_of fd + 2 < 2 ^ 31) by lia.
  destruct (ok_parts _ _ _ _ (td_ok _ _ _ _ Hc)) as (_ & _ & Hrc & Hgc).
  destruct (ok_parts _ _ _ _ (td_ok _ _ _ _ Hd)) as ((a & fin & u & Hinv) & _).
  assert (HA : got c <= next d) by (apply (rcvd_le fd cap bounds_d); [done | done | apply Hd]).
  set (full := ByteStream.bytes_written (inbound_stream c) = room c).
  assert (H0 : receiving fd fc cap (next c) (next d) (room c) full (got d) d).
  { constructor; [done | by eapply poised_sending | done | lia | by left]. }
  destruct (receive_list fd fc isn_d isn_c bounds_d bounds_c _ _ _ _ _ (got c) (if reorder then reverse (_segments_out c) else _segments_out c) d H0)
    as (d' & Hmv & Hr' & Hev & Hsy' & Hcar & Hfin & Hnone & Hack);
    [by eapply room_range | done | by apply (window_closed fc fd bounds_d) | apply forall_delivered; (done || apply Hc) .. | done |].
  exists d'. pose proof Hr' as [Hd' Hsd' Hhe' Hcv' Hrp'].
  assert (Hgot : got d' = next c).
  { apply (delivered_all fc fd bounds_c c d d'); [done | done | done | done | done | done | |].
    - intros i Hi. rewrite <- (exists_delivered _ reorder). by apply Hcar.
    - by rewrite <- (exists_delivered _ reorder). }
  pose proof (ev_acked _ _ _ _ Hev). pose proof (ev_next _ _ _ _ Hev). pose proof (sending_acked_le _ _ _ _ _ Hsd') as Hle.
  pose proof (tidy_acked_le _ _ _ Hb' Hd). pose proof (tidy_next_le _ _ _ Hb' _ Hd').
  assert (Hyes : got c = next d -> acked d' = next d /\ (next d < next d' \/ all_sent fd (_sender d'))).
  { intros Hx. destruct Hback as [[_ Hex] | (Hz & _)]; [| pose proof (td_next _ _ _ _ Hd); lia].
    destruct (Z.lt_ge_cases (acked d) (next d)) as [Hlt | Hge]; [by apply Hack, exists_delivered, Hex |].
    split; [lia |]. right. destruct Hbd as [? | Hbd]; [lia |]. by eapply all_sent_mono. }
  unfold move_segments, segments_out. rewrite Hmv. split_and!; [done | | by constructor].
  constructor; [done | by apply tidy_emptied | | | | done | | | done].
  - change (got (with_segments_out [] c)) with (got c). destruct Hback as [[Hx _] | (Hz & Hz' & _)]; [by destruct (Hyes Hx) as [-> _] |].
    rewrite Hnone by lia. lia.
  - intros x Hx. destruct (Z.lt_ge_cases x (next d)); [| apply Hcv'; lia].
    destruct Hback as [[Hy _] | (Hz & Hz' & Hcov)]; [destruct (Hyes Hy); lia |].
    destruct (ev_queue _ _ _ _ Hev) as [more ->]. apply Exists_app. left. apply Hcov. lia.
  - eapply held_mono; [| exact Hhb]. lia.
  - left. split; [done |]. intros Hlt. destruct Hrp' as [Hs | Hex]; [change (acked (with_segments_out [] c)) with (acked c) in Hlt; change (next (with_segments_out [] c)) with (next c) in Hlt; lia |].
    by rewrite Hgot in Hex.
  - destruct Hback as [[Hy _] | (Hz & Hz' & _)]; [destruct (Hyes Hy) as [-> ?]; done |]. left. rewrite Hnone by lia. pose proof (td_next _ _ _ _ Hd). lia.
Qed.

End Step.

(** The owner's calls on one side. *)
Section Owners.
Context (fc fd : flow).
Hypothesis bounds_c : 0 <= total_of fc /\ total_of fc + 2 < 2 ^ 31.

Lemma half_keeps_c c c' d : half fc fd c d -> tidy fc fd cap c' -> keeps fc c c' -> half fc fd c' d.
Proof.
  intros [Hc Hd Hg Hq Hhe Hhb Hback Hbc Hbd] Hc' [Ka Kn Kr [more Kq] Kc]. pose proof (tidy_next_le _ _ _ bounds_c _ Hc').
  constructor; rewrite ?Ka, ?Kr; try done.
  - intros z Hz. destruct (Z.lt_ge_cases z (next c)); [| apply Kc; lia]. rewrite Kq. apply Exists_app. left. apply Hq. lia.
  - eapply held_mono; [| exact Hhe]. lia.
  - destruct Hback as [[Hx Hy] | ?]; [left | by right]. split; [done |]. intros Hlt. rewrite Kq. apply Exists_app. left. by apply Hy.
  - destruct Hbc as [? | Hs]; [left; lia | right]. unfold all_sent in *. lia.
Qed.

Lemma half_keeps_d c d d' : half fc fd c d -> tidy fd fc cap d' -> keeps fd d d' -> next d' = next d -> half fc fd c d'.
Proof.
  intros [Hc Hd Hg Hq Hhe Hhb Hback Hbc Hbd] Hd' [Ka _ Kr [more Kq] _] Kn.
  constructor; rewrite ?Ka, ?Kr, ?Kn; try done.
  - destruct Hback as [? | (Hx & Hy & Hz)]; [by left | right]. split_and!; [done | done |]. intros z Hz0. rewrite Kq. apply Exists_app. left. by apply Hz.
  - unfold all_sent in *. by rewrite Kn.
Qed.

(** The inbound stream of [d] is read to the end. *)
Lemma half_read c d st :
  half fc fd c d -> tidy fd fc cap d -> _segments_out d = [] ->
  conn_ok fd fc cap (with_receiver (TCPReceiver.with_stream st (_receiver d)) d) ->
  ByteStream.bytes_written st = ByteStream.bytes_written (inbound_stream d) ->
  ByteStream.input_ended st = ByteStream.input_ended (inbound_stream d) -> ByteStream.error st = ByteStream.error (inbound_stream d) ->
  half fc fd c (with_receiver (TCPReceiver.with_stream st (_receiver d)) d).
Proof.
  intros [Hc Hd Hg Hq Hhe Hhb Hback Hbc Hbd] [T1 T2 T3 T4 [T5 T5'] T6] Hnil Hok Hw He Her. set (d' := with_receiver _ d) in *.
  assert (Eg : got d' = got d).
  { unfold rcvd. change (TCPReceiver.stream_out (_receiver d')) with st. change (TCPReceiver.syned (_receiver d')) with (TCPReceiver.syned (_receiver d)).
    by rewrite Hw, He. }
  constructor; rewrite ?Eg; try done.
  - constructor; [done | done | done | | | done].
    + change (_segments_out d') with (_segments_out d). rewrite Hnil. constructor.
    + split; [done |]. by rewrite <- T5'.
  - destruct Hhe as [H1 H2]. split; [| done]. intros i Hi Hh. apply H1; [done |]. revert Hh. unfold holds.
    change (TCPReceiver.stream_out (_receiver d')) with st. by rewrite Hw.
Qed.

End Owners.

(** ** The start *)

(** A connection that has queued its SYN and heard nothing. *)
Record started (c : TCPConnection.t) : Prop := {
  sd_next : next c = 1;
  sd_acked : acked c = 0;
  sd_window : TCPSender.window (_sender c) = 1 /\ TCPSender.window_right (_sender c) = 0 /\ TCPSender.probing (_sender c) = false;
  sd_recount : recount c = 0;
  sd_queue : exists seg, _segments_out c = [seg] /\ TCPSender.outstandings (_sender c) = [seg] /\
    TCPHeader.syn (TCPSegment.header seg) = true /\ TCPHeader.ack (TCPSegment.header seg) = false;
  sd_receiver : _receiver c = TCPReceiver.make (Z.of_nat cap);
  sd_stream : ByteStream.error (TCPSender.stream_in (_sender c)) = false /\ 0 < ByteStream.capacity (TCPSender.stream_in (_sender c));
  sd_cfg : TCPConfig.rt_timeout (_cfg c) = 1000;
  sd_wait : _since_time_wait c = 0;
}.

Lemma start_started isn :
  exists c d, connect (make TCPConfig.default_ isn) = Ret c /\ end_input_stream (make TCPConfig.default_ isn) = Ret d /\
    started c /\ started d /\ ByteStream.input_ended (TCPSender.stream_in (_sender d)) = true.
Proof.
  eexists _, _. split; [cbv -[WrappingInt32.wrap]; reflexivity |]. split; [cbv -[WrappingInt32.wrap]; reflexivity |].
  split_and!; [| | done]; (constructor;
    [reflexivity | reflexivity | by split_and! | reflexivity | eexists; by split_and! | by rewrite cap_eq | by split | reflexivity | reflexivity]).
Qed.

Lemma started_tidy f1 f2 c :
  0 <= total_of f1 /\ total_of f1 + 2 < 2 ^ 31 -> conn_ok f1 f2 cap c -> started c ->
  tidy f1 f2 cap c /\ got c = 0 /\ room c = Z.of_nat cap /\ (forall z, 0 <= z < 1 -> covers f1 (_segments_out c) z) /\
  (forall n, 0 <= total_of f2 < 2 ^ 31 -> held f2 n (_receiver c)) /\ (forall E, 0 <= E -> poised f1 E (_sender c)).
Proof.
  intros B Hok [Hn Ha (W1 & W2 & W3) _ (seg & Hq & Ho & Hsyn & Hack) Hr [He Hc] _ _].
  destruct (ok_parts _ _ _ _ Hok) as ((a & fin & u & H) & _). pose proof (si_train _ _ _ _ _ _ _ H) as Ht. rewrite Ho in Ht.
  rewrite (inv_una _ _ _ _ _ H) in Ha. subst u. rewrite Hq. unfold inbound_stream, rcvd, edge. rewrite Hr.
  split_and!; [| done | done | | | ].
  - constructor; [done | lia | | | | done]; rewrite ?Hq.
    + eapply train_within; [done | exact Ht |]. lia.
    + constructor; [| done]. intros Hx. congruence.
    + split; [done |]. unfold inbound_stream. by rewrite Hr.
  - intros z Hz. eapply train_covered; [exact Ht | lia].
  - intros n Hb. split.
    + intros i Hi Hh. exfalso. revert Hh. unfold holds. intros [Hh | Hh]; [change (ByteStream.bytes_written _) with 0 in Hh; lia |].
      by destruct Hh as (? & ? & ?%not_elem_of_nil & _).
    + intros Hx. exfalso. change (StreamReassembler.endIdx _) with (2 ^ 64 - 1) in Hx. lia.
  - intros E HE. constructor; rewrite ?W1, ?W2, ?W3; (done || lia || by left || idtac).
Qed.

(** The received string only grows. *)
Lemma write_input_received fuel s s' : write_input fuel s = Ret s' -> string_received s' = string_received s.
Proof.
  revert s. induction fuel as [| fuel IH]; intros s; cbn [write_input]; [done |]. destruct (_ && _); [| by intros [= <-]].
  intros (d & _ & ((n & c) & _ & H)%bind_Ret)%bind_Ret. revert H. destruct (negb _); [done |]. by intros (b & _ & ->%IH)%bind_Ret.
Qed.

Lemma loop_received (reorder : bool) s s' : loop reorder s = Ret s' -> string_received s `prefix_of` string_received s'.
Proof.
  unfold loop. intros (s1 & H1%write_input_received & (s2 & H2 & ((c & d) & _ & ((d' & c') & _ & (s5 & H5 & [= <-])%bind_Ret)%bind_Ret)%bind_Ret)%bind_Ret)%bind_Ret.
  cbn [string_received with_x with_y] in *. rewrite <- H1.
  assert (E2 : string_received s2 = string_received s1).
  { revert H2. unfold close_input. destruct (_ && _); [| by intros [= <-]]. by intros (c0 & _ & [= <-])%bind_Ret. }
  rewrite <- E2. revert H5. unfold read_output. destruct (_ >? 0); [| by intros [= <-]].
  intros ((data & st) & _ & [= <-])%bind_Ret. by apply prefix_app_r.
Qed.

Lemma while_received fuel cond (reorder : bool) s s' :
  while fuel cond reorder s = Ret s' -> string_received s `prefix_of` string_received s'.
Proof.
  revert s. induction fuel as [| fuel IH]; intros s; cbn [while]; [done |]. destruct (cond s); [| by intros [= <-]].
  intros (s1 & H1%loop_received & H2%IH)%bind_Ret. by etransitivity.
Qed.

(** ** A turn of the loop *)

Section Bench.
Context (data : bytes) (isn_x isn_y : Z).
Hypothesis in_x : in_bits 32 isn_x.
Hypothesis in_y : in_bits 32 isn_y.
Hypothesis size_ok : Zlen data < 2 ^ 30.

Abbreviation fx := (data_flow data isn_x).
Abbreviation fy := (empty_flow isn_y).
Abbreviation syned c := (TCPReceiver.syned (_receiver c)).

Let data_ok := bounds_data data isn_x size_ok.
Let data_ok' := bounds_data' data isn_x size_ok.
Let none_ok := bounds_none isn_y.
Let none_ok' := bounds_none' isn_y.

(** Both directions of a turn. *)
Lemma exchange (reorder : bool) c d :
  half fx fy c d -> poised fx (room d) (_sender c) -> poised fy (room c) (_sender d) ->
  supplied fx (_sender c) -> supplied fy (_sender d) ->
  syned c = true /\ syned d = true \/
    (exists seg, _segments_out c = [seg] /\ TCPHeader.syn (TCPSegment.header seg) = true) /\ opens (_segments_out d) ->
  exists c' d', move_segments c d reorder = Ret (with_segments_out [] c, d') /\
    move_segments d' (with_segments_out [] c) false = Ret (with_segments_out [] d', c') /\
    half fx fy c' (with_segments_out [] d') /\ poised fy (room c') (_sender d') /\
    delivered_to fx fy c d d' /\ delivered_to fy fx d' (with_segments_out [] c) c'.
Proof.
  intros Hh Hpc Hpd Hsc Hsd Hopen.
  destruct (half_step fx fy in_x in_y data_ok none_ok reorder c d Hh Hpc Hpd Hsd) as (d' & Hm1 & Hh1 & D1).
  { destruct Hopen as [[_ ?] | [(seg & -> & Hsyn) _]]; [by left | right]. destruct reorder; by exists seg, []. }
  pose proof (dl_evolves _ _ _ _ _ D1) as V1.
  assert (Hpd' : poised fy (room c) (_sender d')).
  { eapply sending_poised; [apply (dl_sending _ _ _ _ _ D1) | lia |]. intros Hfull. exfalso.
    destruct (ok_parts _ _ _ _ (td_ok _ _ _ _ (hf_c _ _ _ _ Hh))) as (_ & _ & Hr & _).
    destruct (ok_counts _ _ none_ok _ Hr) as (Hb & _ & Hwt & _). unfold inbound_stream, edge in *. rewrite cap_eq in *. cbn [total_of empty_flow] in Hwt. lia. }
  destruct (half_step fy fx in_y in_x none_ok data_ok false d' (with_segments_out [] c) Hh1) as (c' & Hm2 & Hh2 & D2);
    [done | by rewrite (ev_room _ _ _ _ V1) | done | |].
  { destruct Hopen as [[? _] | [_ (seg & rest & Hq & Hsyn)]]; [by left | right]. destruct (ev_queue _ _ _ _ V1) as [more ->].
    rewrite Hq. by exists seg, (rest ++ more). }
  exists c', d'. split_and!; [done | done | done | | done | done]. rewrite (ev_room _ _ _ _ (dl_evolves _ _ _ _ _ D2)). done.
Qed.

(** Before a turn. *)
Record stage (s : t) : Prop := {
  st_bench : bench_inv data isn_x isn_y s;
  st_half : half fx fy (x s) (y s);
  st_poised_x : poised fx (room (y s)) (_sender (x s));
  st_poised_y : poised fy (room (x s)) (_sender (y s));
  st_open : syned (x s) = true /\ syned (y s) = true \/
    (shut (x s) /\ (exists seg, _segments_out (x s) = [seg] /\ TCPHeader.syn (TCPSegment.header seg) = true) /\
     opens (_segments_out (y s)) /\ recount (y s) = 0);
  st_recount : 0 <= recount (x s) <= 1 /\ 0 <= recount (y s) <= 1;
  st_ended : ByteStream.input_ended (TCPSender.stream_in (_sender (y s))) = true;
  st_empty : ByteStream.buffer (inbound_stream (y s)) = [];
  st_cfg : TCPConfig.rt_timeout (_cfg (x s)) = 1000 /\ TCPConfig.rt_timeout (_cfg (y s)) = 1000;
  st_wait : (_active (x s) = true -> 0 <= _since_time_wait (x s) < 10000) /\ (_active (y s) = true -> 0 <= _since_time_wait (y s) < 10000);
}.

(** The input: what is not written fills the stream, or the stream ends. *)
Lemma input_stage s :
  stage s -> exists s1 s2, write_input (S (Z.to_nat (Buffer.size (bytes_to_send s)))) s = Ret s1 /\ close_input s1 = Ret s2 /\
    bench_inv data isn_x isn_y s2 /\ y s2 = y s /\ rtc (pushed fx fy cap) (x s) (x s2) /\
    (tidy fx fy cap (x s2) -> supplied fx (_sender (x s2))).
Proof.
  intros Hs. pose proof (st_bench _ Hs) as Hb.
  destruct (write_input_ok data isn_x isn_y size_ok (S (Z.to_nat (Buffer.size (bytes_to_send s)))) s Hb) as (s1 & Hw & H1 & R1 & Y1 & X1).
  { unfold Buffer.size. pose proof (Zlen_nonneg (Buffer.str (bytes_to_send s))). lia. }
  destruct (close_input_ok data isn_x isn_y size_ok s1 H1) as (s2 & Hc & H2 & R2 & Y2 & X2).
  exists s1, s2. split_and!; [done | done | done | congruence | by etransitivity |]. intros Ht. right.
  destruct (Z.eqb_spec (Buffer.size (bytes_to_send s1)) 0) as [Hz | Hz]; [right; by rewrite (bi_closed _ _ _ _ H2) | left].
  subst s2. destruct X1 as [? | X1]; [done |]. destruct (ok_parts _ _ _ _ (td_ok _ _ _ _ Ht)) as ((a & fin & u & H) & _).
  destruct (ByteStreamFacts.repr_buffer_len _ _ (si_repr _ _ _ _ _ _ _ H)) as (_ & Hl & Hc2). pose proof (td_capacity _ _ _ _ Ht) as Hcap.
  revert X1. unfold remaining_outbound_capacity, ByteStream.remaining_capacity, ByteStream.buffer_empty, TCPSender.stream_in in *.
  rewrite u64_small by lia. intros X1. by rewrite (proj2 (Z.eqb_neq _ _)) by lia.
Qed.

(** The output: everything that has arrived is read. *)
Lemma output_stage c d b cl str N :
  half fx fy c d -> _segments_out d = [] -> poised fy (room c) (_sender d) ->
  sending fx N (room d) (ByteStream.bytes_written (inbound_stream d) = room d) (_sender c) ->
  exists d' str', read_output (mk c d b cl str) = Ret (mk c d' b cl str') /\ half fx fy c d' /\
    poised fx (room d') (_sender c) /\ _sender d' = _sender d /\ _segments_out d' = [] /\
    ByteStream.buffer (inbound_stream d') = [] /\ syned d' = syned d /\
    (_cfg d' = _cfg d /\ _active d' = _active d /\ _since_time_wait d' = _since_time_wait d).
Proof.
  intros Hh Hq Hp Hsd. pose proof (hf_d _ _ _ _ Hh) as Hd. pose proof (td_ok _ _ _ _ Hd) as Hok.
  unfold read_output. cbn [y]. destruct (ok_parts _ _ _ _ Hok) as (_ & _ & Hr & _).
  destruct (ok_counts _ _ data_ok _ Hr) as (Hb & Hwe & _). change (TCPReceiver.stream_out (_receiver d)) with (inbound_stream d) in *.
  destruct (inbound_counts fy fx cap data_ok d Hok) as (_ & H0 & Hsum & _). unfold ByteStream.buffer_size.
  assert (Hlen : ByteStream.bytes_read (inbound_stream d) + Zlen (ByteStream.buffer (inbound_stream d)) = ByteStream.bytes_written (inbound_stream d)).
  { destruct Hr as (a & Hi & _). pose proof (invl_inv _ _ _ _ _ Hi) as I. pose proof (inv_written _ _ _ I) as Hw. pose proof (inv_read _ _ _ I) as Hrd.
    destruct (ByteStreamFacts.repr_buffer_len _ _ (inv_repr _ _ _ I)) as (Hbl & _).
    change (StreamReassembler._output (TCPReceiver._reassembler (_receiver d))) with (inbound_stream d) in *. lia. }
  destruct (Z.gtb_spec (Zlen (ByteStream.buffer (inbound_stream d))) 0) as [Hgt | Hle].
  - destruct (conn_read data isn_x isn_y size_ok d Hok) as (st & Hrd & Hok' & Hbr & Hbuf). cbv zeta in Hrd. unfold ByteStream.buffer_size in Hrd.
    rewrite Hrd. cbn [mbind outcome_bind x y bytes_to_send x_closed string_received]. eexists _, _. split; [reflexivity |].
    pose proof (read_drained _ _ _ _ Hrd) as (D1 & D2 & D3 & _).
    assert (Hw : ByteStream.bytes_written st = ByteStream.bytes_written (inbound_stream d)) by (unfold ByteStream.bytes_written; by rewrite D1).
    split_and!; [apply half_read; done | | done | done | exact Hbuf | done | done | done | done].
    set (d' := with_receiver _ d). assert (Er : room d' = ByteStream.bytes_read st + Z.of_nat cap) by done.
    rewrite Er, Hbr. eapply sending_poised; [exact Hsd | |]; unfold edge; change (TCPReceiver.stream_out (_receiver d)) with (inbound_stream d); lia.
  - eexists d, str. split; [reflexivity |]. pose proof (Zlen_nonneg (ByteStream.buffer (inbound_stream d))).
    split_and!; [done | | done | done | apply nil_length_inv; unfold Zlen in *; lia | done | done | done | done].
    eapply sending_poised; [exact Hsd | lia |]. intros Hfull. unfold edge in *. rewrite cap_eq in *.
    change (TCPReceiver.stream_out (_receiver d)) with (inbound_stream d) in *. lia.
Qed.

(** The end of a turn, for either connection. *)
Lemma ticked f1 f2 c :
  0 <= total_of f1 /\ total_of f1 + 2 < 2 ^ 31 -> 0 <= total_of f2 /\ total_of f2 + Z.of_nat cap + 2 < 2 ^ 31 ->
  tidy f1 f2 cap c -> syned c = true -> 0 <= recount c <= 1 -> recount c = 0 \/ acked c = next c ->
  TCPConfig.rt_timeout (_cfg c) = 1000 -> (_active c = true -> 0 <= _since_time_wait c < 10000) ->
  let c' := tick 1000 c in
  tidy f1 f2 cap c' /\ keeps f1 c c' /\ next c' = next c /\ (forall E, poised f1 E (_sender c) -> poised f1 E (_sender c')) /\
  0 <= recount c' <= 1 /\ _cfg c' = _cfg c /\
  (_active c' = true -> _active c = true /\ _since_time_wait c <= _since_time_wait c' < 10000 /\
     (over f1 f2 c' -> _since_time_wait c' = _since_time_wait c + 1000)).
Proof.
  intros B1 B2 Hc Hs Hr Hr0 Hcfg Hw c'. unfold c'. clear c'.
  assert (Hrc : 0 <= recount c < TCPConfig.MAX_RETX_ATTEMPTS) by (unfold TCPConfig.MAX_RETX_ATTEMPTS; lia).
  destruct (tick_keeps f1 f2 cap B1 B2 cap_small 1000 c Hc Hs Hrc) as (T & K & N & P & R1 & R2).
  destruct (tick_active f1 f2 cap B1 B2 c Hc Hrc Hcfg Hw) as (C & A). split_and!; try done.
  - lia.
  - destruct Hr0 as [Hz | Hz]; [lia | rewrite (R2 Hz); lia].
  - intros Ha. destruct (A Ha) as (A1 & A2 & A3). split_and!; [done | lia | lia |]. intros (O1 & O2 & O3). apply A3.
    unfold over, all_sent in *. rewrite (kp_receiver _ _ _ K) in O3. rewrite (kp_acked _ _ _ K) in O1. by rewrite N in O1, O2.
Qed.

(** What a turn changes. *)
Record turned (s s' : t) : Prop := {
  tn_syned : syned (x s') = true /\ syned (y s') = true;
  tn_x : acked (x s) <= acked (x s') /\ (acked (x s) < acked (x s') \/ acked (x s') = Zlen data + 2);
  tn_y : acked (y s) <= acked (y s') /\ next (y s) <= next (y s') /\
    (syned (x s) = true -> acked (y s') = next (y s) /\ (next (y s) < next (y s') \/ next (y s') = 2));
  tn_wait_x : _active (x s') = true -> _active (x s) = true /\ _since_time_wait (x s) <= _since_time_wait (x s') /\
    (over fx fy (x s') -> _since_time_wait (x s') = _since_time_wait (x s) + 1000);
  tn_wait_y : _active (y s') = true -> _active (y s) = true /\ _since_time_wait (y s) <= _since_time_wait (y s') /\
    (over fy fx (y s') -> _since_time_wait (y s') = _since_time_wait (y s) + 1000);
}.

Lemma back_got c d : half fx fy c d -> syned c = true -> got c = next d.
Proof.
  intros Hh Hs. destruct (ok_parts _ _ _ _ (td_ok _ _ _ _ (hf_c _ _ _ _ Hh))) as (_ & _ & Hr & _).
  destruct (rcvd_nonneg _ _ none_ok _ Hr) as [_ H1]. destruct (hf_back _ _ _ _ Hh) as [[? _] | [Hz _]]; [done |]. specialize (H1 Hs). lia.
Qed.

(** Retransmissions are counted from 0 when something was acknowledged. *)
Definition calm (c : TCPConnection.t) : Prop := 0 <= recount c <= 1 /\ (recount c = 0 \/ acked c = next c).

Lemma calm_after f1 f2 c c' :
  evolves f2 cap c c' -> next c' <= total_of f1 + 2 -> 0 <= recount c <= 1 ->
  acked c' = next c -> acked c < next c \/ all_sent f1 (_sender c) -> calm c'.
Proof.
  intros V T Hr HN Hb. pose proof (ev_recount _ _ _ _ V) as Hor. pose proof (ev_next _ _ _ _ V).
  split; [lia |]. destruct (Z.lt_ge_cases (acked c) (next c)) as [Hlt | Hge]; [left; apply (ev_reset _ _ _ _ V); lia |].
  right. destruct Hb as [? | Hb]; [lia |]. unfold all_sent in Hb. lia.
Qed.

(** A turn up to the two ticks, which find [c] and [d]. *)
Record exchanged (s : t) (c d : TCPConnection.t) : Prop := {
  xc_half : half fx fy c d;
  xc_poised : poised fx (room d) (_sender c) /\ poised fy (room c) (_sender d);
  xc_syned : syned c = true /\ syned d = true;
  xc_calm : calm c /\ calm d;
  xc_ended : ByteStream.input_ended (TCPSender.stream_in (_sender d)) = true;
  xc_empty : ByteStream.buffer (inbound_stream d) = [];
  xc_same_x : _cfg c = _cfg (x s) /\ _active c = _active (x s) /\ _since_time_wait c = _since_time_wait (x s);
  xc_same_y : _cfg d = _cfg (y s) /\ _active d = _active (y s) /\ _since_time_wait d = _since_time_wait (y s);
  xc_x : acked (x s) <= next (x s) <= acked c;
  xc_y : acked (y s) <= acked d /\ next (y s) <= next d /\
    (syned (x s) = true -> acked d = next (y s) /\ (next (y s) < next d \/ all_sent fy (_sender d)));
}.

Lemma moved_ended (reorder : bool) c d c' d' :
  half fx fy c d -> move_segments c d reorder = Ret (c', d') ->
  ByteStream.input_ended (TCPSender.stream_in (_sender d')) = ByteStream.input_ended (TCPSender.stream_in (_sender d)).
Proof.
  intros Hh Hm. destruct (move_ok fx fy reorder c d in_x in_y none_ok' data_ok (td_ok _ _ _ _ (hf_c _ _ _ _ Hh)) (td_ok _ _ _ _ (hf_d _ _ _ _ Hh)))
    as (c1 & d1 & Hm' & _ & _ & _ & U). rewrite Hm in Hm'. injection Hm' as <- <-. apply U.
Qed.

Lemma turn_exchanges (reorder : bool) s :
  stage s -> exists c d b cl str, loop reorder s = Ret (mk (tick 1000 c) (tick 1000 d) b cl str) /\ exchanged s c d.
Proof.
  intros Hs. pose proof Hs as [Hb Hh Px Py Hopen [Rx Ry] Hend _ _ _].
  destruct (input_stage s Hs) as (s1 & s2 & Hw1 & Hw2 & Hb2 & Ey & Hpu & Hsup).
  destruct (pushes_any fx fy cap data_ok' none_ok cap_small (room (y s)) _ _ Hpu (hf_c _ _ _ _ Hh)) as (T2 & P2 & K2 & S2 & R2 & C2 & A2 & W2);
    [tauto | done |]. specialize (Hsup T2). pose proof (kp_receiver _ _ _ K2) as Er.
  pose proof (half_keeps_c fx fy data_ok' _ _ _ Hh T2 K2) as H2.
  destruct (exchange reorder (x s2) (y s) H2 P2) as (c & d & Hm1 & Hm2 & H4 & P4 & D1 & D2); [by rewrite Er | done | right; by right | |].
  { destruct Hopen as [[? ?] | (Hsh & Hq & ? & _)]; [left; by rewrite Er | right]. destruct (S2 Hsh) as [_ ->]. done. }
  pose proof (dl_evolves _ _ _ _ _ D1) as V1. pose proof (dl_evolves _ _ _ _ _ D2) as V2.
  destruct (output_stage c (with_segments_out [] d) (bytes_to_send s2) (x_closed s2) (string_received s2) _ H4 eq_refl P4 (dl_sending _ _ _ _ _ D2))
    as (e & str & Hro & H5 & P5 & Es & Eq & Ebuf & Esy & Ce & Ae & We).
  exists c, e, (bytes_to_send s2), (x_closed s2), str. split.
  { unfold loop. rewrite Hw1. cbn [mbind outcome_bind]. rewrite Hw2. cbn [mbind outcome_bind]. rewrite Ey, Hm1.
    cbn [mbind outcome_bind x y with_x with_y]. rewrite Hm2. cbn [mbind outcome_bind]. unfold with_x, with_y.
    cbn [x y bytes_to_send x_closed string_received]. by rewrite Hro. }
  destruct (dl_acked _ _ _ _ _ D2 (dl_got _ _ _ _ _ D1)) as [Ac _]. change (next (with_segments_out [] (x s2))) with (next (x s2)) in Ac.
  assert (Hback : syned (x s) = true -> acked d = next (y s) /\ (next (y s) < next d \/ all_sent fy (_sender d))).
  { intros Hsy. apply (dl_acked _ _ _ _ _ D1). apply back_got; [done |]. by rewrite Er. }
  destruct (ev_rest _ _ _ _ V1) as (Cd & Ad & Wd), (ev_rest _ _ _ _ V2) as (Cc & Acc & Wc). cbn [_cfg _active _since_time_wait with_segments_out] in *.
  pose proof (tidy_next_le _ _ _ none_ok' _ (hf_d _ _ _ _ H5)) as Le. pose proof (tidy_next_le _ _ _ data_ok' _ (hf_c _ _ _ _ H5)) as Lc.
  pose proof (ev_acked _ _ _ _ V1). pose proof (ev_next _ _ _ _ V1).
  constructor; rewrite ?Es; [done | split; [exact P5 | exact P4] | split; [exact (dl_syned _ _ _ _ _ D2) | rewrite Esy; exact (dl_syned _ _ _ _ _ D1)] | | | exact Ebuf
    | split_and!; congruence | split_and!; congruence | | by split_and!].
  - split.
    + eapply (calm_after fx fy (with_segments_out [] (x s2))); [exact V2 | done | by rewrite <- R2 in Rx | done | apply H2].
    + destruct Hopen as [[Hsy _] | (_ & _ & _ & Hz)].
      * unfold calm. rewrite Es. apply (calm_after fy fx (y s) d V1); [by rewrite Es in Le | done | by apply Hback | apply H2].
      * unfold calm. rewrite Es. change (_sender (with_segments_out [] d)) with (_sender d).
        destruct (ev_recount _ _ _ _ V1) as [-> | ->]; rewrite ?Hz; split; (lia || by left).
  - rewrite <- Hend. change (_sender (with_segments_out [] d)) with (_sender d). by eapply moved_ended.
  - rewrite Ac. pose proof (kp_next _ _ _ K2). destruct (tidy_acked_le fx fy (x s) data_ok' (hf_c _ _ _ _ Hh)). lia.
Qed.
Lemma turn (reorder : bool) s : stage s -> exists s', loop reorder s = Ret s' /\ stage s' /\ turned s s'.
Proof.
  intros Hs. pose proof Hs as [Hb Hh _ _ _ _ _ _ [Cx Cy] [Wx Wy]].
  destruct (turn_exchanges reorder s Hs) as (c & d & b & cl & str & Hl & [H5 [P1 P2] [S1 S2] [Q1 Q2] He Hem (C1 & A1 & W1) (C2 & A2 & W2) Xx (Y1 & Y2 & Y3)]).
  destruct (bench_loop_ok data isn_x isn_y in_x in_y size_ok reorder s Hb) as (s' & Hl' & Hb'). rewrite Hl in Hl'. injection Hl' as <-.
  destruct (ticked fx fy c) as (Tc & Kc & Nc & Pc & Rc & Cc & Wc);
    [exact data_ok' | exact none_ok | apply H5 | done | apply Q1 | apply Q1 | congruence | rewrite A1, W1; exact Wx |].
  destruct (ticked fy fx d) as (Td & Kd & Nd & Pd & Rd & Cd & Wd);
    [exact none_ok' | exact data_ok | apply H5 | done | apply Q2 | apply Q2 | congruence | rewrite A2, W2; exact Wy |].
  pose proof (kp_receiver _ _ _ Kc) as Ec. pose proof (kp_receiver _ _ _ Kd) as Ed.
  pose proof (half_keeps_d _ _ _ _ _ (half_keeps_c _ _ data_ok' _ _ _ H5 Tc Kc) Td Kd Nd) as H6.
  eexists. split; [exact Hl |]. split; constructor; cbn [x y]; try done.
  - rewrite Ed. by apply Pc.
  - rewrite Ec. by apply Pd.
  - left. by rewrite Ec, Ed.
  - rewrite <- He. apply (conn_tick fy fx cap none_ok' d 1000). apply H5.
  - unfold inbound_stream in *. by rewrite Ed.
  - split; congruence.
  - split; intros Ha; [destruct (Wc Ha) as (Ha' & ? & _) | destruct (Wd Ha) as (Ha' & ? & _)]; rewrite ?A1, ?A2 in Ha'; [specialize (Wx Ha') | specialize (Wy Ha')]; lia.
  - by rewrite Ec, Ed.
  - rewrite (kp_acked _ _ _ Kc). split; [lia |]. destruct (hf_busy_c _ _ _ _ Hh) as [? | Hal]; [left; lia | right].
    unfold all_sent in Hal. cbn [total_of data_flow] in Hal. pose proof (tidy_acked_le _ _ _ data_ok' (hf_c _ _ _ _ H5)).
    pose proof (tidy_next_le _ _ _ data_ok' _ (hf_c _ _ _ _ H5)) as Hmax. cbn [total_of data_flow] in Hmax. lia.
  - rewrite (kp_acked _ _ _ Kd), Nd. split_and!; [lia | lia |]. intros Hsy. exact (Y3 Hsy).
  - intros Ha. destruct (Wc Ha) as (? & ? & ?). rewrite <- W1, <- A1. split_and!; [done | lia | done].
  - intros Ha. destruct (Wd Ha) as (? & ? & ?). rewrite <- W2, <- A2. split_and!; [done | lia | done].
Qed.

(** ** The loops end *)

(** The turns a connection may still wait in TIME_WAIT. *)
Definition turns (c : TCPConnection.t) : Z := if _active c then (10999 - _since_time_wait c) / 1000 else 0.

(** The turns the transfer may still take; then those of the wait. *)
Definition left_to_do (s : t) : Z :=
  (Zlen data + 2 - acked (x s)) + (if syned (x s) then 0 else 1) + (2 - next (y s)) + (2 - acked (y s)).
Definition measure (s : t) : Z := left_to_do s + turns (x s) + turns (y s).

Lemma stage_bounds s : stage s ->
  acked (x s) <= next (x s) <= Zlen data + 2 /\ acked (y s) <= next (y s) <= 2 /\ 0 <= left_to_do s.
Proof.
  intros Hs. pose proof (hf_c _ _ _ _ (st_half _ Hs)) as Tx. pose proof (hf_d _ _ _ _ (st_half _ Hs)) as Ty.
  pose proof (tidy_acked_le _ _ _ data_ok' Tx). pose proof (tidy_acked_le _ _ _ none_ok' Ty).
  pose proof (tidy_next_le _ _ _ data_ok' _ Tx). pose proof (tidy_next_le _ _ _ none_ok' _ Ty). cbn [total_of data_flow empty_flow] in *.
  unfold left_to_do. destruct (syned (x s)); lia.
Qed.

(** With nothing left to do both streams are over. *)
Lemma nothing_left s : stage s -> left_to_do s = 0 -> over fx fy (x s) /\ over fy fx (y s).
Proof.
  intros Hs Hz. destruct (stage_bounds s Hs) as (H1 & H2 & _). pose proof (st_half _ Hs) as Hh. unfold left_to_do in Hz.
  assert (Hsy : syned (x s) = true /\ acked (x s) = Zlen data + 2 /\ next (y s) = 2 /\ acked (y s) = 2) by (destruct (syned (x s)); lia || done).
  destruct Hsy as (Hsy & E1 & E2 & E3). pose proof (back_got _ _ Hh Hsy) as Hg. pose proof (hf_got _ _ _ _ Hh) as Hg'.
  unfold over, all_sent. cbn [total_of data_flow empty_flow]. split_and!; lia.
Qed.

Lemma turns_range c : (_active c = true -> 0 <= _since_time_wait c < 10000) -> 0 <= turns c <= 10 /\ (_active c = true -> 1 <= turns c).
Proof.
  intros H. unfold turns. destruct (_active c); [| split; [lia | done]]. specialize (H eq_refl).
  pose proof (Z.div_le_mono 1000 (10999 - _since_time_wait c) 1000 ltac:(lia) ltac:(lia)).
  pose proof (Z.div_le_mono (10999 - _since_time_wait c) 10999 1000 ltac:(lia) ltac:(lia)).
  change (1000 / 1000) with 1 in *. change (10999 / 1000) with 10 in *. split; [lia | done].
Qed.

Lemma turns_less c c' :
  (_active c = true -> 0 <= _since_time_wait c < 10000) ->
  (_active c' = true -> _active c = true /\ _since_time_wait c <= _since_time_wait c') ->
  turns c' <= turns c /\ ((_active c' = true -> _since_time_wait c' = _since_time_wait c + 1000) -> _active c = true -> turns c' < turns c).
Proof.
  intros H Hm. destruct (turns_range c H) as [H1 H2]. unfold turns in *. destruct (_active c').
  - destruct (Hm eq_refl) as [Ha Hle]. rewrite Ha in *. split; [apply Z.div_le_mono; lia |]. intros Hs _. rewrite (Hs eq_refl).
    replace (10999 - (_since_time_wait c + 1000)) with (10999 - _since_time_wait c + (-1) * 1000) by lia. rewrite Z.div_add by lia. lia.
  - split; [lia |]. intros _ Ha. specialize (H2 Ha). lia.
Qed.

(** Every turn takes something off the measure, until nothing is left to do
    and both connections have closed. *)
Lemma turn_measure s s' :
  stage s -> stage s' -> turned s s' -> left_to_do s <> 0 \/ active (x s) || active (y s) = true -> measure s' < measure s.
Proof.
  intros Hs Hs' [[Tx Ty] [X1 X2] (Y1 & Y2 & Y3) Wx Wy] Hor. destruct (st_wait _ Hs) as [Vx Vy].
  destruct (stage_bounds s Hs) as (B1 & B2 & B3), (stage_bounds s' Hs') as (B1' & B2' & B3').
  destruct (turns_less (x s) (x s') Vx) as [Lx Lx']; [intros Ha; destruct (Wx Ha) as (? & ? & _); done |].
  destruct (turns_less (y s) (y s') Vy) as [Ly Ly']; [intros Ha; destruct (Wy Ha) as (? & ? & _); done |].
  assert (Hle : left_to_do s' <= left_to_do s /\ (left_to_do s <> 0 -> left_to_do s' < left_to_do s)).
  { unfold left_to_do in *. rewrite Tx in *. destruct (syned (x s)); [| lia]. destruct (Y3 eq_refl) as [? ?]. lia. }
  unfold measure. destruct (Z.eq_dec (left_to_do s) 0) as [Hz | Hz]; [| lia].
  destruct Hor as [? | Hor]; [done |]. destruct (nothing_left s' Hs') as [Ox Oy]; [lia |].
  apply orb_true_iff in Hor as [Ha | Ha].
  - specialize (Lx' ltac:(intros Hb; by destruct (Wx Hb) as (_ & _ & ->)) Ha). lia.
  - specialize (Ly' ltac:(intros Hb; by destruct (Wy Hb) as (_ & _ & ->)) Ha). lia.
Qed.

Lemma measure_range s : stage s -> 0 <= measure s <= Zlen data + 26.
Proof.
  intros Hs. destruct (st_wait _ Hs) as [Vx Vy]. destruct (turns_range _ Vx), (turns_range _ Vy), (stage_bounds s Hs) as (_ & _ & ?).
  pose proof (hf_c _ _ _ _ (st_half _ Hs)) as Tx. pose proof (hf_d _ _ _ _ (st_half _ Hs)) as Ty. pose proof (td_next _ _ _ _ Ty).
  pose proof (tidy_acked_le _ _ _ data_ok' Tx). pose proof (tidy_acked_le _ _ _ none_ok' Ty).
  unfold measure, left_to_do in *. destruct (syned (x s)); lia.
Qed.

(** A loop that goes on only while there is something left to do, or a
    connection is active, returns. *)
Lemma while_ends cond (reorder : bool) fuel s :
  (forall s, stage s -> cond s = true -> left_to_do s <> 0 \/ active (x s) || active (y s) = true) ->
  stage s -> measure s < Z.of_nat fuel -> exists s', while fuel cond reorder s = Ret s' /\ stage s' /\ cond s' = false.
Proof.
  intros Hcond. revert s. induction fuel as [| fuel IH]; intros s Hs Hf; [pose proof (measure_range s Hs); lia |].
  cbn [while]. destruct (cond s) eqn:Hc; [| by exists s].
  destruct (turn reorder s Hs) as (s1 & -> & Hs1 & Ht). cbn [mbind outcome_bind].
  pose proof (turn_measure s s1 Hs Hs1 Ht (Hcond s Hs Hc)). apply IH; [done | lia].
Qed.

(** With nothing left to do the whole stream has been read. *)
Lemma eof_at_end s : stage s -> negb (ByteStream.eof (inbound_stream (y s))) = true -> left_to_do s <> 0.
Proof.
  intros Hs He Hz. destruct (nothing_left s Hs Hz) as [_ (_ & _ & Hg)].
  destruct (ok_parts _ _ _ _ (td_ok _ _ _ _ (hf_d _ _ _ _ (st_half _ Hs)))) as (_ & _ & Hr & _).
  apply (rcvd_end fx cap data_ok _ Hr) in Hg as [_ Hg]. revert He. unfold ByteStream.eof, inbound_stream. rewrite Hg.
  pose proof (st_empty _ Hs) as Hem. unfold inbound_stream in Hem. by rewrite Hem.
Qed.

Lemma start_stage c d :
  connect (make TCPConfig.default_ isn_x) = Ret c -> end_input_stream (make TCPConfig.default_ isn_y) = Ret d ->
  bench_inv data isn_x isn_y (mk c d (Buffer.of_string data) false []) -> stage (mk c d (Buffer.of_string data) false []).
Proof.
  intros Hc Hd Hb. destruct (start_started isn_x) as (c' & _ & Hc' & _ & Sc & _). rewrite Hc in Hc'. injection Hc' as <-.
  destruct (start_started isn_y) as (_ & d' & _ & Hd' & _ & Sd & Hend). rewrite Hd in Hd'. injection Hd' as <-.
  destruct (started_tidy fx fy c data_ok' (bi_x _ _ _ _ Hb) Sc) as (Tc & Gc & Rc & Cc & Hhc & Pc).
  destruct (started_tidy fy fx d none_ok' (bi_y _ _ _ _ Hb) Sd) as (Td & Gd & Rd & Cd & Hhd & Pd).
  pose proof data_ok'. pose proof none_ok'. pose proof Sc as [Nc Ac (W1 & W2 & _) Zc (seg & Qc & _ & Y1 & _) _ _ C1 V1].
  pose proof Sd as [Nd Ad _ Zd (seg' & Qd & _ & Y2 & _) Rcv _ C2 V2].
  constructor; cbn [x y]; [done | | rewrite Rd; apply Pc; lia | rewrite Rc; apply Pd; lia | | lia | done | | done | lia].
  - constructor; rewrite ?Ac, ?Ad, ?Nc, ?Nd; [done | done | done | done | apply Hhd; lia | apply Hhc; lia | right; by split_and! | left; lia | left; lia].
  - right. split_and!; [by split; lia | by exists seg | by exists seg', [] | done].
  - unfold inbound_stream. by rewrite Rcv.
Qed.

(** The two loops of [main_loop] return with the data received and both
    connections closed. *)
Lemma main_loop_returns fuel (reorder : bool) :
  Zlen data + 26 < Z.of_nat fuel ->
  exists s, main_loop fuel data isn_x isn_y reorder = Ret s /\ string_received s = data /\ active (x s) = false /\ active (y s) = false.
Proof.
  intros Hf. destruct (start_ok data isn_x isn_y size_ok) as (c & d & Hc & Hd & Hb). pose proof (start_stage c d Hc Hd Hb) as H0.
  unfold main_loop. rewrite Hc, Hd. cbn [mbind outcome_bind]. pose proof (measure_range _ H0) as M0.
  destruct (while_ends (fun s => negb (ByteStream.eof (inbound_stream (y s)))) reorder fuel _ (fun s Hs He => or_introl (eof_at_end s Hs He)) H0)
    as (s1 & -> & H1 & E1); [lia |]. cbn [mbind outcome_bind]. apply negb_false_iff in E1.
  pose proof (received_all data isn_x isn_y size_ok s1 (st_bench _ H1) E1) as Hr. rewrite bool_decide_true by done. cbn [negb].
  pose proof (measure_range _ H1) as M1.
  destruct (while_ends (fun s => active (x s) || active (y s)) reorder fuel s1 (fun s _ He => or_intror He) H1) as (s2 & Hw & H2 & E2); [lia |].
  exists s2. split; [done |]. split; [| by apply orb_false_iff]. apply while_received in Hw as [more Hw]. rewrite Hr in Hw.
  pose proof (bi_read _ _ _ _ (st_bench _ H2)) as Hl. destruct (inbound_counts fy fx cap data_ok _ (bi_y _ _ _ _ (st_bench _ H2))) as (_ & _ & Ht & _).
  pose proof (Zlen_nonneg (ByteStream.buffer (inbound_stream (y s2)))). cbn [total_of data_flow] in Ht. rewrite Hw, Zlen_app in Hl.
  rewrite Hw. destruct more; [apply app_nil_r |]. rewrite Zlen_cons in Hl. pose proof (Zlen_nonneg more). lia.
Qed.

End Bench.

(** C3: the benchmark succeeds: for any data, any initial sequence numbers,
    segments in order or reversed, no write is cut short, no call throws, both
    loops end after at most as many turns as there are bytes, and 26 more,
    what was received equals what was sent, and both connections close. *)
Theorem benchmark_transfers (fuel : nat) (data : bytes) (random_x random_y : Z) (reorder : bool) :
  in_bits 32 random_x -> in_bits 32 random_y -> Zlen data < 2 ^ 30 -> Zlen data + 26 < Z.of_nat fuel ->
  exists s, main_loop fuel data random_x random_y reorder = Ret s /\ string_received s = data /\
    active (x s) = false /\ active (y s) = false.
Proof. intros Hx Hy Hl Hf. by apply main_loop_returns. Qed.

(** Three segments, received in reverse. *)
Definition sample_data : bytes := map (fun i => byte_of (i * 37 mod 256)) (seqZ 0 2500).

Lemma benchmark_transfers_witness :
  exists s, main_loop 2600 sample_data 17 4294967295 true = Ret s /\ string_received s = sample_data /\
    active (x s) = false /\ active (y s) = false.
Proof.
  apply (benchmark_transfers 2600 sample_data 17 4294967295 true); [split; [discriminate | reflexivity] ..| |]; vm_compute; reflexivity.
Defined.

(** The program exits with status 0. *)
Corollary main_succeeds (fuel : nat) (data1 data2 : bytes) (x1 y1 x2 y2 : Z) :
  in_bits 32 x1 -> in_bits 32 y1 -> in_bits 32 x2 -> in_bits 32 y2 -> Zlen data1 < 2 ^ 30 -> Zlen data2 < 2 ^ 30 ->
  Zlen data1 + 26 < Z.of_nat fuel -> Zlen data2 + 26 < Z.of_nat fuel -> main fuel data1 data2 x1 y1 x2 y2 = Ret 0.
Proof.
  intros X1 Y1 X2 Y2 L1 L2 F1 F2. unfold main.
  destruct (main_loop_returns data1 x1 y1 X1 Y1 L1 fuel false F1) as (s1 & -> & _). cbn [mbind outcome_bind].
  by destruct (main_loop_returns data2 x2 y2 X2 Y2 L2 fuel true F2) as (s2 & -> & _).
Qed.

End BenchmarkLiveness.
