(* ===== verification/format.v ===== *)
(** * What the library prints: headers, addresses and hex dumps

    The [to_string] and [summary] methods of the headers (tcp_helpers), the
    summary of a frame (apps/network_simulator) and [hexdump] (util/util).  A
    [stringstream] is the string written to it; [hex], [setw] and [setfill]
    are applied where the code has them in force. *)

From Stdlib Require Import Ascii.
From S2P Require Import Prelude buffer parser wrapping_integers util codec tcp_segment ethernet ipv4 address network_interface network_interface_proofs resolver.

Module Format.

(** ** Manipulators *)

Definition hex_digit (d : Z) : ascii := ascii_of_N (Z.to_N (if d <? 10 then 48 + d else 87 + d)).

(** The digits of [n] in base 16, before [acc]. *)
Fixpoint hex_go (fuel : nat) (n : Z) (acc : string) : string :=
  match fuel with
  | O => acc
  | S fuel =>
      let acc := String (hex_digit (n mod 16)) acc in
      if n <? 16 then acc else hex_go fuel (n / 16) acc
  end.

(** [hex << n]. *)
Definition hex (n : Z) : string := hex_go (S (Z.to_nat (Z.log2 n))) n EmptyString.

(** [setfill(c) << setw(w) << s]. *)
Fixpoint repeat_char (c : ascii) (n : nat) : string :=
  match n with O => EmptyString | S n => String c (repeat_char c n) end.
Definition setw (fill : ascii) (w : nat) (s : string) : string := repeat_char fill (w - String.length s) +:+ s.

(** [boolalpha << b]. *)
Definition boolalpha (b : bool) : string := if b then "true" else "false".

Definition newline : string := String "010"%char EmptyString.

(** ** Ethernet and ARP *)

(** [to_string(EthernetAddress)]: two digits per byte, colons between. *)
Fixpoint ethernet_address (a : EthernetAddress) : string :=
  match a with
  | [] => EmptyString
  | b :: rest => setw "0" 2 (hex (byte_val b)) +:+ match rest with [] => EmptyString | _ => ":" +:+ ethernet_address rest end
  end.

Definition ethernet_header (h : EthernetHeader.t) : string :=
  "dst=" +:+ ethernet_address (EthernetHeader.dst h) +:+ ", src=" +:+ ethernet_address (EthernetHeader.src h) +:+ ", type=" +:+
  (if EthernetHeader.type h =? EthernetHeader.TYPE_IPv4 then "IPv4"
   else if EthernetHeader.type h =? EthernetHeader.TYPE_ARP then "ARP"
   else "[unknown type " +:+ hex (EthernetHeader.type h) +:+ "!]").

Definition arp_message (m : ARPMessage.t) : string :=
  let opcode_str := "(unknown type)" in
  let opcode_str := if ARPMessage.opcode m =? ARPMessage.OPCODE_REQUEST then "REQUEST" else opcode_str in
  let opcode_str := if ARPMessage.opcode m =? ARPMessage.OPCODE_REPLY then "REPLY" else opcode_str in
  "opcode=" +:+ opcode_str +:+ ", sender=" +:+ ethernet_address (ARPMessage.sender_ethernet_address m) +:+ "/" +:+
  inet_ntoa (ARPMessage.sender_ip_address m) +:+ ", target=" +:+ ethernet_address (ARPMessage.target_ethernet_address m) +:+ "/" +:+
  inet_ntoa (ARPMessage.target_ip_address m).

(** ** IPv4 and TCP *)

Definition ipv4_header (h : IPv4Header.t) : string :=
  "IP version: " +:+ hex (IPv4Header.ver h) +:+ newline +:+ "IP hdr len: " +:+ hex (IPv4Header.hlen h) +:+ newline +:+
  "IP tos: " +:+ hex (IPv4Header.tos h) +:+ newline +:+ "IP dgram len: " +:+ hex (IPv4Header.len h) +:+ newline +:+
  "IP id: " +:+ hex (IPv4Header.id h) +:+ newline +:+
  "Flags: df: " +:+ boolalpha (IPv4Header.df h) +:+ " mf: " +:+ boolalpha (IPv4Header.mf h) +:+ newline +:+
  "Offset: " +:+ hex (IPv4Header.offset h) +:+ newline +:+ "TTL: " +:+ hex (IPv4Header.ttl h) +:+ newline +:+
  "Protocol: " +:+ hex (IPv4Header.proto h) +:+ newline +:+ "Checksum: " +:+ hex (IPv4Header.cksum h) +:+ newline +:+
  "Src addr: " +:+ hex (IPv4Header.src h) +:+ newline +:+ "Dst addr: " +:+ hex (IPv4Header.dst h) +:+ newline.

Definition ipv4_summary (h : IPv4Header.t) : string :=
  "IPv" +:+ hex (IPv4Header.ver h) +:+ ", len=" +:+ hex (IPv4Header.len h) +:+ ", protocol=" +:+ hex (IPv4Header.proto h) +:+ ", " +:+
  (if IPv4Header.ttl h >=? 10 then "" else "ttl=" +:+ to_string (IPv4Header.ttl h) +:+ ", ") +:+
  "src=" +:+ inet_ntoa (IPv4Header.src h) +:+ ", dst=" +:+ inet_ntoa (IPv4Header.dst h).

Definition tcp_header (h : TCPHeader.t) : string :=
  "TCP source port: " +:+ hex (TCPHeader.sport h) +:+ newline +:+ "TCP dest port: " +:+ hex (TCPHeader.dport h) +:+ newline +:+
  "TCP seqno: " +:+ hex (WrappingInt32.raw_value (TCPHeader.seqno h)) +:+ newline +:+
  "TCP ackno: " +:+ hex (WrappingInt32.raw_value (TCPHeader.ackno h)) +:+ newline +:+
  "TCP doff: " +:+ hex (TCPHeader.doff h) +:+ newline +:+
  "Flags: urg: " +:+ boolalpha (TCPHeader.urg h) +:+ " ack: " +:+ boolalpha (TCPHeader.ack h) +:+
  " psh: " +:+ boolalpha (TCPHeader.psh h) +:+ " rst: " +:+ boolalpha (TCPHeader.rst h) +:+
  " syn: " +:+ boolalpha (TCPHeader.syn h) +:+ " fin: " +:+ boolalpha (TCPHeader.fin h) +:+ newline +:+
  "TCP winsize: " +:+ hex (TCPHeader.win h) +:+ newline +:+ "TCP cksum: " +:+ hex (TCPHeader.cksum h) +:+ newline +:+
  "TCP uptr: " +:+ hex (TCPHeader.uptr h) +:+ newline.

(** [b ? s : ""]. *)
Definition flag (b : bool) (s : string) : string := if b then s else EmptyString.

Definition tcp_summary (h : TCPHeader.t) : string :=
  "Header(flags=" +:+ flag (TCPHeader.syn h) "S" +:+ flag (TCPHeader.ack h) "A" +:+ flag (TCPHeader.rst h) "R" +:+
  flag (TCPHeader.fin h) "F" +:+ ",seqno=" +:+ to_string (WrappingInt32.raw_value (TCPHeader.seqno h)) +:+
  ",ack=" +:+ to_string (WrappingInt32.raw_value (TCPHeader.ackno h)) +:+ ",win=" +:+ to_string (TCPHeader.win h) +:+ ")".

(** The bytes of a string and back. *)
Definition string_of_bytes (b : bytes) : string := String.string_of_list_byte b.

(** [summary(frame)] of the network simulator. *)
Definition frame_summary (frame : EthernetFrame.t) : outcome string :=
  let hd := EthernetFrame.header frame in
  let ret := ethernet_header hd in
  if EthernetHeader.type hd =? EthernetHeader.TYPE_IPv4 then
    b ← BufferList.to_buffer (EthernetFrame.payload frame);
    '(res, dgram) ← IPv4Datagram.parse b IPv4Datagram.default_;
    Ret (ret +:+ match res with
                 | NoError => " " +:+ ipv4_summary (IPv4Datagram.header dgram) +:+ " payload=" +:+ String "034"%char EmptyString +:+
                     string_of_bytes (BufferList.concatenate (IPv4Datagram.payload dgram)) +:+ String "034"%char EmptyString
                 | _ => " (bad IPv4)"
                 end)
  else if EthernetHeader.type hd =? EthernetHeader.TYPE_ARP then
    b ← BufferList.to_buffer (EthernetFrame.payload frame);
    '(res, arp) ← ARPMessage.parse b ARPMessage.default_;
    Ret (ret +:+ match res with NoError => " " +:+ arp_message arp | _ => " (bad ARP)" end)
  else Ret ret.

(** ** Hex dumps *)

Definition isprint (b : byte) : bool := (32 <=? byte_val b) && (byte_val b <=? 126).
Definition shown (b : byte) : ascii := if isprint b then ascii_of_byte b else "."%char.

(** [pchars.str()]: the stream starts as one space, which the first character
    overwrites. *)
Definition pchars_str (pchars : string) : string := match pchars with EmptyString => " " | _ => pchars end.

(** What comes before the byte number [printed]. *)
Definition before_byte (indent : nat) (printed : Z) (pchars : string) : string :=
  if Z.land printed 0xf =? 0 then
    (if printed =? 0 then EmptyString else "    " +:+ pchars_str pchars +:+ newline) +:+
    repeat_char " " indent +:+ setw "0" 8 (hex printed) +:+ ":    "
  else if Z.land printed 1 =? 0 then " " else EmptyString.

(** The [for] loop: the text, the number printed and [pchars]. *)
Fixpoint hexdump_loop (indent : nat) (data : bytes) (printed : Z) (pchars : string) : string * Z * string :=
  match data with
  | [] => (EmptyString, printed, pchars)
  | b :: data =>
      let start := before_byte indent printed pchars in
      let pchars := if Z.land printed 0xf =? 0 then EmptyString else pchars in
      let '(rest, printed', pchars') := hexdump_loop indent data (printed + 1) (pchars +:+ String (shown b) EmptyString) in
      (start +:+ setw "0" 2 (hex (byte_val b)) +:+ rest, printed', pchars')
  end.

Definition hexdump (data : bytes) (indent : nat) : string :=
  let '(text, printed, pchars) := hexdump_loop indent data 0 EmptyString in
  let print_rem := (16 - Z.land printed 0xf) mod 16 in
  text +:+ repeat_char " " (Z.to_nat (2 * print_rem + print_rem / 2 + 4)) +:+ pchars_str pchars +:+ newline +:+ newline.

End Format.

Module FormatFacts.
Import Format IPv4Facts EthernetFacts InterfaceFacts.

(** Printing a frame on a link cannot fail: the simulator's debugging output
    never throws. *)
Lemma frame_summary_total hd b :
  Buffer.wf b -> exists s, frame_summary (EthernetFrame.mk hd [b]) = Ret s.
Proof.
  intros Hb. unfold frame_summary. cbn [EthernetFrame.header EthernetFrame._header EthernetFrame.payload EthernetFrame._payload BufferList.to_buffer].
  destruct (_ =? _); cbn [mbind outcome_bind].
  - destruct (datagram_parse_total b IPv4Datagram.default_ Hb) as (r & d & b' & -> & _); [done |]. by eexists.
  - destruct (_ =? _); [| by eexists]. destruct (arp_parse_total b ARPMessage.default_ Hb) as (r & m & -> & _). by eexists.
Qed.

(** ** Reading an Ethernet address back *)

Definition hex_value (c : ascii) : option Z :=
  let v := Z.of_N (N_of_ascii c) in
  if (48 <=? v) && (v <=? 57) then Some (v - 48) else if (97 <=? v) && (v <=? 102) then Some (v - 87) else None.

Fixpoint read_ethernet_address (s : string) : option EthernetAddress :=
  match s with
  | String a (String b rest) =>
      match hex_value a, hex_value b, rest with
      | Some u, Some v, EmptyString => Some [byte_of (16 * u + v)]
      | Some u, Some v, String ":"%char rest => cons (byte_of (16 * u + v)) <$> read_ethernet_address rest
      | _, _, _ => None
      end
  | _ => None
  end.

Definition reads_back (b : byte) : bool :=
  match setw "0" 2 (hex (byte_val b)) with
  | String c (String d EmptyString) =>
      match hex_value c, hex_value d with
      | Some u, Some v => bool_decide (byte_of (16 * u + v) = b)
      | _, _ => false
      end
  | _ => false
  end.

Lemma two_digits b :
  exists c d u v, setw "0" 2 (hex (byte_val b)) = String c (String d EmptyString) /\
    hex_value c = Some u /\ hex_value d = Some v /\ byte_of (16 * u + v) = b.
Proof.
  assert (H : reads_back b = true) by (destruct b; vm_compute; reflexivity). unfold reads_back in H.
  destruct (setw _ _ _) as [| c [| d []]]; try done. destruct (hex_value c) as [u |] eqn:Hu; [| done].
  destruct (hex_value d) as [v |] eqn:Hv; [| done]. apply bool_decide_eq_true in H. by exists c, d, u, v.
Qed.

(** The text of an address determines it. *)
Lemma ethernet_address_roundtrip (a : EthernetAddress) :
  a <> [] -> read_ethernet_address (ethernet_address a) = Some a.
Proof.
  induction a as [| b a IH]; [done |]. intros _. cbn [ethernet_address].
  destruct (two_digits b) as (c & d & u & v & -> & Hu & Hv & Hb).
  destruct a as [| b' a].
  { change (String c (String d EmptyString) +:+ EmptyString)%string with (String c (String d EmptyString)).
    cbn [read_ethernet_address]. by rewrite Hu, Hv, Hb. }
  set (rest := ethernet_address (b' :: a)) in *.
  change (String c (String d EmptyString) +:+ ":" +:+ rest)%string with (String c (String d (String ":" rest))).
  cbn [read_ethernet_address]. by rewrite Hu, Hv, (IH ltac:(done)), Hb.
Qed.

End FormatFacts.
