(* ===== verification/udp_tcpdump.v ===== *)
(** * apps/udp_tcpdump: TCP segments in captured UDP packets

    The program captures packets with libpcap and prints the TCP segments it
    finds in UDP datagrams.  The capture library is outside: a capture is the
    sequence of answers of [pcap_next_ex], and the text of an IPv6 address is
    the argument [inet_ntop6].  Reading a byte the packet does not have is
    undefined behaviour. *)

From Stdlib Require Import Ascii.
From S2P Require Import Prelude buffer parser wrapping_integers util codec tcp_segment ethernet ipv4 address network_interface network_interface_proofs resolver format.

Module UdpTcpdump.

(** ** The command line *)

(** What [main] does with its arguments: leave with a status, or go on with
    the index of the filter expression and the interface. *)
Inductive arguments :=
| Exit (status : Z)
| Capture (exp_start : nat) (dev : option string).

(** [argv] from [curr] on; [strncmp] over one more character than the option
    has is equality. *)
Fixpoint parse_arguments (argv : list string) (curr : nat) (dev : option string) : arguments :=
  match argv with
  | [] => Capture curr dev
  | a :: rest =>
      if bool_decide (a = "-i"%string) then
        match rest with
        | [] => Exit 1
        | d :: rest => parse_arguments rest (2 + curr) (Some d)
        end
      else if bool_decide (a = "-h"%string) || bool_decide (a = "--help"%string) then Exit 0
      else Capture curr dev
  end.

(** The words of the filter, each followed by a space. *)
Definition filter_expression (argv : list string) (exp_start : nat) : string :=
  foldr (fun a s => a +:+ " " +:+ s)%string EmptyString (drop exp_start argv).

(** ** Packets *)

(** [data[i]]. *)
Definition at_ (data : bytes) (i : Z) : outcome Z :=
  match data !! Z.to_nat i with
  | Some b => Ret (byte_val b)
  | None => Raise (undefined_behaviour "read past the end of the packet")
  end.

(** [n] bytes from [data + i]. *)
Definition sub (data : bytes) (i n : Z) : outcome bytes :=
  if i + n <=? Zlen data then Ret (take (Z.to_nat n) (drop (Z.to_nat i) data))
  else Raise (undefined_behaviour "read past the end of the packet").

Section Packets.
Context (inet_ntop6 : bytes -> string).

Definition inet4_addr (data : bytes) (i : Z) : outcome string :=
  a ← sub data i 4; Ret (inet_ntoa (ParserFacts.be_val a)).
Definition inet6_addr (data : bytes) (i : Z) : outcome string :=
  a ← sub data i 16; Ret (inet_ntop6 a).

(** The [while] loop over the IPv6 extension headers; [None] is [return -1]. *)
Fixpoint extensions (fuel : nat) (len : Z) (data : bytes) (nxt data_offset : Z) : outcome (option Z) :=
  match fuel with
  | O => Diverge
  | S fuel =>
      if nxt =? 0x11 then Ret (Some data_offset)
      else if negb (nxt =? 0) && negb (nxt =? 43) && negb (nxt =? 60) then Ret None
      else
        nxt ← at_ data data_offset;
        l ← at_ data (data_offset + 1);
        let data_offset := data_offset + 8 * (1 + l) in
        if len <? data_offset + 2 then Ret None else extensions fuel len data nxt data_offset
  end.

(** Where the UDP payload starts, with the addresses; [None] is a negative
    return value. *)
Definition process_ipv4_ipv6 (len : Z) (data : bytes) : outcome (option (Z * string * string)) :=
  if len <? 1 then Ret None
  else
    first ← at_ data 0;
    let pt := Z.land first 0xf0 in
    if pt =? 0x40 then
      let data_offset := Z.land first 0x0f * 4 in
      if len <? data_offset then Ret None
      else
        proto ← at_ data 9;
        if negb (proto =? 0x11) then Ret None
        else
          src_addr ← inet4_addr data 12;
          dst_addr ← inet4_addr data 16;
          Ret (Some (data_offset + 8, src_addr, dst_addr))
    else if pt =? 0x60 then
      if len <? 42 then Ret None
      else
        nxt ← at_ data 6;
        off ← extensions (S (Z.to_nat len)) len data nxt 40;
        match off with
        | None => Ret None
        | Some data_offset =>
            src_addr ← inet6_addr data 8;
            dst_addr ← inet6_addr data 24;
            Ret (Some (data_offset + 8, src_addr, dst_addr))
        end
    else Ret None.

(** ** The link layer *)

Definition DLT_NULL : Z := 0.
Definition DLT_EN10MB : Z := 1.
Definition DLT_RAW : Z := 12.
Definition DLT_LINUX_SLL : Z := 113.
Definition DLT_LINUX_SLL2 : Z := 276.

Inductive link :=
| Header (hdr_off : Z)
| Skip (why : string)
| GiveUp.

Definition malformed : link := Skip "[INFO] Skipping malformed packet.".
Definition non_ip : link := Skip "[INFO] Skipping non-IP packet.".

(** The 16-bit type at [i]. *)
Definition ether_type (pkt_data : bytes) (i : Z) : outcome Z :=
  hi ← at_ pkt_data i;
  lo ← at_ pkt_data (i + 1);
  Ret (Z.lor (Z.shiftl hi 8) lo).

Definition ip_type (hdr_off caplen i : Z) (pkt_data : bytes) : outcome link :=
  if caplen <? hdr_off then Ret malformed
  else
    pt ← ether_type pkt_data i;
    Ret (if negb (pt =? 0x0800) && negb (pt =? 0x86dd) then non_ip else Header hdr_off).

Definition link_header (dl_type caplen : Z) (pkt_data : bytes) : outcome link :=
  if dl_type =? DLT_NULL then
    if caplen <? 4 then Ret malformed
    else
      pt ← at_ pkt_data 3;
      Ret (if negb (pt =? 2) && negb (pt =? 24) && negb (pt =? 28) && negb (pt =? 30) then non_ip else Header 4)
  else if dl_type =? DLT_EN10MB then ip_type 14 caplen 12 pkt_data
  else if dl_type =? DLT_LINUX_SLL then ip_type 16 caplen 14 pkt_data
  else if dl_type =? DLT_LINUX_SLL2 then ip_type 20 caplen 0 pkt_data
  else if dl_type =? DLT_RAW then Ret (Header 0)
  else Ret GiveUp.

(** ** One packet *)

(** What is found in a packet: nothing to show, the end of the program, or the
    outcome of [TCPSegment::parse] on the UDP payload. *)
Inductive finding :=
| Skipped (why : string)
| Stop
| Found (src dst : string) (res : ParseResult) (seg : TCPSegment.t) (payload : bytes).

(** [caplen] is the number of bytes captured, a [uint32_t]; the length of the
    payload is computed as a [size_t]. *)
Definition examine (dl_type : Z) (pkt_data : bytes) : outcome finding :=
  let caplen := Zlen pkt_data in
  l ← link_header dl_type caplen pkt_data;
  match l with
  | Skip why => Ret (Skipped why)
  | GiveUp => Ret Stop
  | Header hdr_off =>
      p ← process_ipv4_ipv6 (caplen - hdr_off) (drop (Z.to_nat hdr_off) pkt_data);
      match p with
      | None => Ret (Skipped "Error parsing IPv4/IPv6 packet. Skipping.")
      | Some (start_off, src, dst) =>
          let payload_off := hdr_off + start_off in
          let payload_len := u64 (caplen - payload_off) in
          payload ← sub pkt_data payload_off payload_len;
          '(res, seg) ← TCPSegment.parse (Buffer.of_string payload) 0 TCPSegment.default_;
          Ret (Found src dst res seg payload)
      end
  end.

(** The line printed for a segment ([setfill('0')] is in force). *)
Definition describe (src dst : string) (res : ParseResult) (seg : TCPSegment.t) (payload_len : Z) : string :=
  if bool_decide (Parser.to_index BadChecksum < Parser.to_index res)%nat then
    "(did not recognize TCP header) src: " +:+ src +:+ " dst: " +:+ dst +:+ Format.newline
  else
    let tcp_hdr := TCPSegment.header seg in
    let seqlen := u32 (TCPSegment.length_in_sequence_space seg) in
    src +:+ ":" +:+ to_string (TCPHeader.sport tcp_hdr) +:+ " > " +:+ dst +:+ ":" +:+ to_string (TCPHeader.dport tcp_hdr) +:+
    Format.newline +:+ "    Flags [" +:+
    Format.flag (TCPHeader.urg tcp_hdr) "U" +:+ Format.flag (TCPHeader.psh tcp_hdr) "P" +:+ Format.flag (TCPHeader.rst tcp_hdr) "R" +:+
    Format.flag (TCPHeader.syn tcp_hdr) "S" +:+ Format.flag (TCPHeader.fin tcp_hdr) "F" +:+ Format.flag (TCPHeader.ack tcp_hdr) "." +:+
    "] cksum 0x" +:+ Format.setw "0" 4 (Format.hex (TCPHeader.cksum tcp_hdr)) +:+
    (if bool_decide (res = NoError) then " (correct)" else " (incorrect!)") +:+
    " seq " +:+ to_string (WrappingInt32.raw_value (TCPHeader.seqno tcp_hdr)) +:+
    (if seqlen >? 0 then ":" +:+ to_string (WrappingInt32.raw_value (WrappingInt32.add (TCPHeader.seqno tcp_hdr) seqlen)) else "") +:+
    " ack " +:+ to_string (WrappingInt32.raw_value (TCPHeader.ackno tcp_hdr)) +:+ " win " +:+ to_string (TCPHeader.win tcp_hdr) +:+
    " length " +:+ to_string payload_len +:+ Format.newline.

(** ** The capture loop *)

(** An answer of [pcap_next_ex]: a packet, a timeout, or a negative value. *)
Inductive answer :=
| Packet (pkt_data : bytes)
| Timeout
| Ended (next_ret : Z).

(** The text on standard output and the exit status.  The message for the
    error -1 is asked of the handle that [pcap_close] has freed. *)
Fixpoint capture (dl_type : Z) (answers : list answer) : outcome (string * Z) :=
  match answers with
  | [] => Diverge
  | Ended next_ret :: _ =>
      if next_ret =? -1 then Raise (undefined_behaviour "pcap_geterr on a closed handle")
      else Ret (EmptyString, 0)
  | Timeout :: answers => capture dl_type answers
  | Packet pkt_data :: answers =>
      f ← examine dl_type pkt_data;
      match f with
      | Skipped _ => capture dl_type answers
      | Stop => Ret (EmptyString, 1)
      | Found src dst res seg payload =>
          '(out, status) ← capture dl_type answers;
          Ret (describe src dst res seg (Zlen payload) +:+ Format.hexdump payload 8 +:+ out, status)
      end
  end.

(** ** The program *)

(** The capture library: what it says when the interface is opened (an error
    or the link type), of a filter (an error, if any) and of the packets. *)
Record pcap := Pcap {
  open_live : option string -> string + Z;
  description : Z -> string;
  compile : string -> option string;
  setfilter : string -> option string;
  next_ex : list answer;
}.

Definition supported (dlt : Z) : bool :=
  (dlt =? DLT_RAW) || (dlt =? DLT_NULL) || (dlt =? DLT_EN10MB) || (dlt =? DLT_LINUX_SLL) || (dlt =? DLT_LINUX_SLL2).

(** The text printed, without the usage message, and the exit status. *)
Definition main (lib : pcap) (argv : list string) : outcome (string * Z) :=
  match parse_arguments (drop 1 argv) 1 None with
  | Exit status => Ret (EmptyString, status)
  | Capture exp_start dev =>
      let out := match dev with
                 | Some d => "Capturing on interface " +:+ d
                 | None => "Capturing on all interfaces"
                 end in
      match open_live lib dev with
      | inl errbuf => Ret (out +:+ Format.newline +:+ "Error initiating capture: " +:+ errbuf +:+ Format.newline, 1)
      | inr dlt =>
          if negb (supported dlt) then
            Ret (out +:+ Format.newline +:+ "Error: unsupported datalink type " +:+ description lib dlt +:+ Format.newline, 1)
          else
            let out := out +:+ " (type: " +:+ description lib dlt +:+ ")" +:+ Format.newline in
            let expression := filter_expression argv exp_start in
            let out := out +:+ "Using filter expression: " +:+ expression +:+ Format.newline in
            match compile lib expression, setfilter lib expression with
            | Some err, _ => Ret (out +:+ "Error compiling filter expression: " +:+ err +:+ Format.newline, 1)
            | None, Some err => Ret (out +:+ "Error configuring packet filter: " +:+ err +:+ Format.newline, 1)
            | None, None =>
                '(text, status) ← capture dlt (next_ex lib);
                Ret (out +:+ text, status)
            end
      end
  end.

End Packets.

End UdpTcpdump.

Module UdpTcpdumpFacts.
Import UdpTcpdump ParserFacts ChecksumFacts IPv4Facts EthernetFacts TCPSegmentFacts.

(** ** Fields at an offset *)

Lemma at_app a b rest i : Zlen a = i -> at_ (a ++ b :: rest) i = Ret (byte_val b).
Proof. intros <-. unfold at_, Zlen. by rewrite Nat2Z.id, list_lookup_middle. Qed.

Lemma at_ok data i : 0 <= i < Zlen data -> exists v, at_ data i = Ret v /\ in_bits 8 v.
Proof.
  intros Hi. unfold at_. destruct (lookup_lt_is_Some_2 data (Z.to_nat i)) as [b ->]; [unfold Zlen in *; lia |].
  exists (byte_val b). split; [done | apply byte_val_range].
Qed.

Lemma sub_app a b c i n : Zlen a = i -> Zlen b = n -> sub (a ++ b ++ c) i n = Ret b.
Proof.
  intros <- <-. unfold sub. rewrite !Zlen_app. pose proof (Zlen_nonneg c). case_cmp; [| lia].
  unfold Zlen. rewrite !Nat2Z.id, drop_app_length. by rewrite take_app_length.
Qed.

Lemma sub_ok data i n : i + n <= Zlen data -> sub data i n = Ret (take (Z.to_nat n) (drop (Z.to_nat i) data)).
Proof. intros. unfold sub. case_cmp; [done | lia]. Qed.

Section Facts.
Context (inet_ntop6 : bytes -> string).

(** ** Well-formed packets *)

Lemma version_nibble v : 5 <= v < 16 -> Z.land (64 + v) 0xf0 = 0x40.
Proof.
  intros Hv. assert (Hin : v ∈ seqZ 5 11) by (apply elem_of_seqZ; lia). revert v Hin Hv.
  assert (H : forallb (fun v => Z.land (64 + v) 0xf0 =? 0x40) (seqZ 5 11) = true) by done.
  intros v Hin _. rewrite forallb_forall in H. by apply Z.eqb_eq, H, list_elem_of_In.
Qed.

(** The fields of an IPv4 header that the program reads. *)
Lemma wire_fields c h rest (pkt := wire c h ++ rest) :
  at_ pkt 0 = Ret (u8 (64 + IPv4Header.hlen h)) /\ at_ pkt 9 = Ret (u8 (IPv4Header.proto h)) /\
  sub pkt 12 4 = Ret (be_bytes 4 (IPv4Header.src h)) /\ sub pkt 16 4 = Ret (be_bytes 4 (IPv4Header.dst h)).
Proof.
  set (pre := be_bytes 1 (64 + IPv4Header.hlen h) ++ be_bytes 1 (IPv4Header.tos h) ++ be_bytes 2 (IPv4Header.len h) ++
    be_bytes 2 (IPv4Header.id h) ++ be_bytes 2 (fo_val h) ++ be_bytes 1 (IPv4Header.ttl h)).
  set (pad := replicate (Z.to_nat (4 * IPv4Header.hlen h - 20)) Byte.x00 ++ rest).
  assert (Hp : pkt = pre ++ be_bytes 1 (IPv4Header.proto h) ++ be_bytes 2 c ++ be_bytes 4 (IPv4Header.src h) ++
    be_bytes 4 (IPv4Header.dst h) ++ pad).
  { unfold pkt, wire, before_cksum, after_cksum, pre, pad. by rewrite <- !app_assoc. }
  split_and!.
  - rewrite <- byte_val_of. done.
  - rewrite Hp, <- byte_val_of. by apply at_app.
  - rewrite Hp, !app_assoc, <- (app_assoc _ _ pad), <- (app_assoc _ (be_bytes 4 (IPv4Header.src h))). by apply sub_app.
  - rewrite Hp, !app_assoc, <- (app_assoc _ _ pad). by apply sub_app.
Qed.

Lemma process_ipv4 c h rest :
  ip_wf h -> IPv4Header.proto h = 0x11 ->
  process_ipv4_ipv6 inet_ntop6 (Zlen (wire c h ++ rest)) (wire c h ++ rest) =
    Ret (Some (4 * IPv4Header.hlen h + 8, inet_ntoa (IPv4Header.src h), inet_ntoa (IPv4Header.dst h))).
Proof.
  intros Hh Hp. pose proof (Zlen_wire c h Hh) as Hl. pose proof (Zlen_nonneg rest) as Hr.
  destruct Hh as [_ Hlen _ _ _ _ _ _ _ Hs Hd]. destruct (first_byte _ Hlen) as (_ & _ & Hlo).
  destruct (wire_fields c h rest) as (H0 & H9 & H12 & H16).
  unfold process_ipv4_ipv6, inet4_addr. rewrite H0, H9, H12, H16, Zlen_app, Hl, Hp, !u8_small by lia.
  case_cmp; [lia |]. cbn [mbind outcome_bind].
  rewrite !be_val_bytes_small by done. rewrite Hlo, version_nibble by done. cbn [Z.eqb Pos.eqb].
  case_cmp; [lia |]. by rewrite (Z.mul_comm _ 4).
Qed.

(** An Ethernet header of an IPv4 datagram is passed over. *)
Lemma link_ethernet h rest :
  eth_wf h -> EthernetHeader.type h = EthernetHeader.TYPE_IPv4 ->
  link_header DLT_EN10MB (Zlen (EthernetHeader.serialize h ++ rest)) (EthernetHeader.serialize h ++ rest) = Ret (Header 14) /\
  Zlen (EthernetHeader.serialize h) = 14.
Proof.
  intros [Hd Hs _] Ht. rewrite eth_serialize_bytes, Ht, (app_assoc (EthernetHeader.dst h)).
  assert (Hl : Zlen (EthernetHeader.dst h ++ EthernetHeader.src h) = 12) by (rewrite Zlen_app; unfold Zlen; lia).
  pose proof (Zlen_nonneg rest). split; [| by rewrite Zlen_app, Hl].
  unfold link_header, ip_type. cbn [Z.eqb DLT_EN10MB DLT_NULL Pos.eqb]. set (pre := EthernetHeader.dst h ++ _) in *. rewrite !Zlen_app, Hl.
  change (Zlen (be_bytes 2 EthernetHeader.TYPE_IPv4)) with 2. case_cmp; [lia |].
  change (be_bytes 2 EthernetHeader.TYPE_IPv4) with [Byte.x08; Byte.x00]. unfold ether_type.
  rewrite <- app_assoc. cbn [app]. rewrite (at_app _ _ _ 12 Hl). cbn [mbind outcome_bind].
  rewrite (cons_middle Byte.x08), app_assoc, (at_app _ _ _ (12 + 1)); [done |].
  rewrite Zlen_app, Hl. done.
Qed.

(** A frame with a UDP datagram: the segment is parsed from what follows. *)
Lemma examine_ipv4 eth c h udp payload seg' :
  eth_wf eth -> EthernetHeader.type eth = EthernetHeader.TYPE_IPv4 ->
  ip_wf h -> IPv4Header.proto h = 0x11 -> Zlen udp = 8 -> Zlen payload < 2 ^ 32 ->
  TCPSegment.parse (Buffer.of_string payload) 0 TCPSegment.default_ = Ret (NoError, seg') ->
  examine inet_ntop6 DLT_EN10MB (EthernetHeader.serialize eth ++ wire c h ++ udp ++ payload) =
    Ret (Found (inet_ntoa (IPv4Header.src h)) (inet_ntoa (IPv4Header.dst h)) NoError seg' payload).
Proof.
  intros He Het Hh Hp Hudp Hpay Hparse. pose proof (Zlen_wire c h Hh) as Hw. pose proof (wf_hlen _ Hh).
  destruct (link_ethernet eth (wire c h ++ udp ++ payload) He Het) as [Hl He14]. unfold examine. rewrite Hl. cbn [mbind outcome_bind].
  change (Z.to_nat 14) with 14%nat. rewrite drop_app_length' by (unfold Zlen in He14; lia).
  rewrite (Zlen_app (EthernetHeader.serialize eth)), He14, Z.add_simpl_l, process_ipv4 by done. cbn [mbind outcome_bind].
  rewrite !Zlen_app, Hw, Hudp. pose proof (Zlen_nonneg payload).
  rewrite u64_small by lia. rewrite !app_assoc, <- (app_nil_r payload), app_assoc, <- (app_assoc _ payload).
  rewrite (sub_app _ payload).
  - cbn [mbind outcome_bind]. rewrite Hparse. by rewrite app_nil_r.
  - rewrite !Zlen_app. lia.
  - rewrite app_nil_r. lia.
Qed.

(** C25: a TCP segment sent in UDP over IPv4 over Ethernet is shown as it is:
    for every segment that [TCPSegment::serialize] puts after eight bytes of
    UDP header in the payload of a datagram, in a frame, the program finds the
    segment in the captured frame, with no error, the source and destination
    of the datagram, every field of the segment's header with the checksum it
    was sent with, and its payload. *)
Theorem dump_shows_segment (eth : EthernetHeader.t) (h : IPv4Header.t) (udp : bytes) (seg : TCPSegment.t) :
  eth_wf eth -> EthernetHeader.type eth = EthernetHeader.TYPE_IPv4 ->
  ip_wf h -> IPv4Header.proto h = 0x11 -> Zlen udp = 8 ->
  header_wf (TCPSegment.header seg) ->
  IPv4Header.len h = 4 * IPv4Header.hlen h + 8 + 4 * TCPHeader.doff (TCPSegment.header seg) +
    Zlen (Buffer.str (TCPSegment.payload seg)) ->
  exists wire dgram c seg',
    TCPSegment.serialize 0 seg = Ret wire /\
    IPv4Datagram.serialize (IPv4Datagram.mk h (Buffer.of_string udp :: wire)) = Ret dgram /\
    examine inet_ntop6 DLT_EN10MB (BufferList.concatenate (EthernetFrame.serialize (EthernetFrame.mk eth dgram))) =
      Ret (Found (inet_ntoa (IPv4Header.src h)) (inet_ntoa (IPv4Header.dst h)) NoError seg' (BufferList.concatenate wire)) /\
    TCPSegment.header seg' = TCPHeader.set_cksum c (TCPSegment.header seg) /\
    TCPSegment.payload seg' ≡ TCPSegment.payload seg.
Proof.
  destruct seg as [th pay]. cbn [TCPSegment.header TCPSegment.payload TCPSegment._header TCPSegment._payload].
  intros He Het Hh Hp Hudp Hth Hlen. pose proof (wf_len _ Hh) as Hl16. pose proof (wf_hlen _ Hh). pose proof (wf_doff _ Hth).
  destruct (segment_serialize 0 th pay Hth) as (w & c & hs & Hw & Hc & Hhs & Hhsl & Hwb & Hv); [unfold in_bits in *; lia .. |].
  set (d := IPv4Datagram.mk h (Buffer.of_string udp :: w)).
  assert (Hpay : BufferList.concatenate (IPv4Datagram.payload d) = udp ++ BufferList.concatenate w).
  { cbn [d IPv4Datagram.payload IPv4Datagram._payload BufferList.concatenate]. by rewrite Buffer.str_of_string. }
  destruct (datagram_serialize d) as (dgram & Hd & Hdb & _); [done | |].
  { rewrite Hpay, Hwb, !Zlen_app. cbn [d IPv4Datagram.header IPv4Datagram._header]. lia. }
  set (h' := IPv4Header.set_cksum _ (IPv4Datagram.header d)) in Hdb.
  destruct (segment_parse 0 _ hs (Buffer.str pay) (Buffer.of_string (BufferList.concatenate w)) TCPSegment.default_
    (tcp_set_cksum_wf c th Hth Hc) Hhs) as (b & Hparse & _ & Hb); [| by rewrite Buffer.str_of_string | done |].
  { apply Buffer.wf_of_string. rewrite Hwb, Zlen_app. unfold in_bits in *. lia. }
  exists w, dgram, c, (TCPSegment.mk (TCPHeader.set_cksum c th) b). split_and!; [done | done | | done | done].
  rewrite frame_bytes. cbn [EthernetFrame.header EthernetFrame.payload EthernetFrame._header EthernetFrame._payload].
  rewrite Hdb, Hpay. refine (examine_ipv4 eth _ h' udp _ _ He Het _ Hp Hudp _ Hparse).
  - by apply (set_cksum_wf _ _ Hh), value_range.
  - rewrite Hwb, Zlen_app. unfold in_bits in *. lia.
Qed.

(** ** Arbitrary packets *)

Lemma link_header_total dl pkt :
  exists l, link_header dl (Zlen pkt) pkt = Ret l /\ match l with Header off => 0 <= off <= Zlen pkt | _ => True end.
Proof.
  assert (Hip : forall off i, 0 <= i -> i + 2 <= off -> exists l, ip_type off (Zlen pkt) i pkt = Ret l /\
    match l with Header off => 0 <= off <= Zlen pkt | _ => True end).
  { intros off i Hi Ho. unfold ip_type, ether_type. case_cmp; [by eexists |].
    destruct (at_ok pkt i) as (hi & -> & _); [lia |]. destruct (at_ok pkt (i + 1)) as (lo & -> & _); [lia |].
    cbn [mbind outcome_bind]. eexists. split; [reflexivity |]. destruct (_ && _); [done | lia]. }
  unfold link_header. pose proof (Zlen_nonneg pkt).
  destruct (dl =? DLT_NULL).
  { case_cmp; [by eexists |]. destruct (at_ok pkt 3) as (v & -> & _); [lia |]. cbn [mbind outcome_bind].
    eexists. split; [reflexivity |]. destruct (_ && _); [done | lia]. }
  repeat (destruct (dl =? _); [first [apply Hip; lia | by eexists] |]). by eexists.
Qed.

(** The loop over the extension headers stays in the packet and ends. *)
Lemma extensions_total fuel pkt nxt off :
  0 <= off -> off + 2 <= Zlen pkt -> Zlen pkt - off < Z.of_nat fuel ->
  exists r, extensions fuel (Zlen pkt) pkt nxt off = Ret r /\
    match r with Some off => 0 <= off /\ off + 2 <= Zlen pkt | None => True end.
Proof.
  revert nxt off. induction fuel as [| fuel IH]; intros nxt off H0 Hoff Hf; [lia |]. cbn [extensions].
  destruct (nxt =? 0x11); [by eexists |]. destruct (_ && _); [by eexists |].
  destruct (at_ok pkt off) as (n & -> & _); [lia |]. destruct (at_ok pkt (off + 1)) as (l & -> & Hl); [lia |].
  cbn [mbind outcome_bind]. unfold in_bits in Hl. case_cmp; [by eexists |]. apply IH; lia.
Qed.

(** Twenty bytes are enough for an IPv4 header, and the checks of the code are
    enough for IPv6. *)
Lemma process_total pkt :
  20 <= Zlen pkt -> exists r, process_ipv4_ipv6 inet_ntop6 (Zlen pkt) pkt = Ret r.
Proof.
  intros Hl. unfold process_ipv4_ipv6, inet4_addr, inet6_addr. case_cmp; [by eexists |].
  destruct (at_ok pkt 0) as (v & -> & _); [lia |]. cbn [mbind outcome_bind].
  destruct (_ =? 0x40).
  { case_cmp; [by eexists |]. destruct (at_ok pkt 9) as (q & -> & _); [lia |]. cbn [mbind outcome_bind].
    destruct (negb _); [by eexists |]. rewrite !sub_ok by lia. by eexists. }
  destruct (_ =? 0x60); [| by eexists]. case_cmp; [by eexists |].
  destruct (at_ok pkt 6) as (q & -> & _); [lia |]. cbn [mbind outcome_bind].
  destruct (extensions_total (S (Z.to_nat (Zlen pkt))) pkt q 40) as ([off |] & -> & Ho); [lia .. | |]; [| by eexists].
  cbn [mbind outcome_bind]. rewrite !sub_ok by lia. by eexists.
Qed.

(** The payload starts in the packet or in the UDP header after it. *)
Lemma process_start pkt start src dst :
  process_ipv4_ipv6 inet_ntop6 (Zlen pkt) pkt = Ret (Some (start, src, dst)) -> 0 <= start <= Zlen pkt + 8.
Proof.
  unfold process_ipv4_ipv6. case_cmp; [done |]. destruct (at_ok pkt 0) as (v & -> & _); [lia |]. cbn [mbind outcome_bind].
  destruct (_ =? 0x40).
  - case_cmp; [done |]. intros H'. apply bind_Ret in H' as (q & _ & H'). destruct (negb _); [done |].
    apply bind_Ret in H' as (? & _ & H'). apply bind_Ret in H' as (? & _ & [= <- _ _]).
    pose proof (Z.land_nonneg v 0x0f). lia.
  - destruct (_ =? 0x60); [| done]. case_cmp; [done |]. intros H'. apply bind_Ret in H' as (q & _ & H').
    destruct (extensions_total (S (Z.to_nat (Zlen pkt))) pkt q 40) as ([off |] & He & Ho); [lia .. | |];
      rewrite He in H'; cbn [mbind outcome_bind] in H'; [| done].
    apply bind_Ret in H' as (? & _ & H'). apply bind_Ret in H' as (? & _ & [= <- _ _]). lia.
Qed.

(** What the checks of the code do not rule out: fewer bytes of the IP packet
    than a header has, or than the header and the UDP header after it. *)
Definition truncated (dl : Z) (pkt : bytes) : Prop :=
  exists hdr_off, link_header dl (Zlen pkt) pkt = Ret (Header hdr_off) /\
    let ip := drop (Z.to_nat hdr_off) pkt in
    Zlen ip < 20 \/
    exists start_off src dst, process_ipv4_ipv6 inet_ntop6 (Zlen ip) ip = Ret (Some (start_off, src, dst)) /\ Zlen ip < start_off.

(** A result, or a read past the end. *)
Definition reads {A} (m : outcome A) : Prop :=
  match m with Ret _ | Raise (undefined_behaviour _) => True | _ => False end.

Lemma reads_bind {A B} (m : outcome A) (k : A -> outcome B) : reads m -> (forall v, reads (k v)) -> reads (m ≫= k).
Proof. destruct m; cbn; auto. Qed.

Lemma reads_at data i : reads (at_ data i).
Proof. unfold at_. by destruct (_ !! _). Qed.

Lemma reads_sub data i n : reads (sub data i n).
Proof. unfold sub. by destruct (_ <=? _). Qed.

Lemma reads_cases {A} (m : outcome A) : reads m -> (exists v, m = Ret v) \/ exists why, m = Raise (undefined_behaviour why).
Proof. destruct m as [v | [] |]; cbn; eauto; done. Qed.

Lemma reads_process pkt : reads (process_ipv4_ipv6 inet_ntop6 (Zlen pkt) pkt).
Proof.
  destruct (Z.le_gt_cases 20 (Zlen pkt)) as [Hl | Hl]; [by destruct (process_total pkt Hl) as [r ->] |].
  unfold process_ipv4_ipv6, inet4_addr. case_cmp; [done |]. apply reads_bind; [apply reads_at | intros first].
  destruct (_ =? 0x40).
  - case_cmp; [done |]. apply reads_bind; [apply reads_at | intros proto]. destruct (negb _); [done |].
    do 2 (apply reads_bind; [by apply reads_bind; [apply reads_sub |] | intros ?]). done.
  - destruct (_ =? 0x60); [| done]. case_cmp; [done | lia].
Qed.

(** C28: on every packet, of every link type, examining it ends; it either
    gives a result or is undefined behaviour, and the latter only for a packet
    that ends before the UDP payload. *)
Theorem examine_outcomes (dl : Z) (pkt : bytes) :
  Zlen pkt < 2 ^ 31 ->
  (exists f, examine inet_ntop6 dl pkt = Ret f) \/
  (exists why, examine inet_ntop6 dl pkt = Raise (undefined_behaviour why)) /\ truncated dl pkt.
Proof.
  intros Hlen. unfold examine, truncated. destruct (link_header_total dl pkt) as (l & Hlh & Hl). rewrite Hlh. cbn [mbind outcome_bind].
  destruct l as [off | why |]; [| by left; eexists ..].
  set (ip := drop (Z.to_nat off) pkt). assert (Hip : Zlen ip = Zlen pkt - off) by (unfold ip, Zlen in *; rewrite length_drop; lia).
  rewrite <- Hip. destruct (reads_cases _ (reads_process ip)) as [[r Hr] | [why Hr]]; rewrite Hr; cbn [mbind outcome_bind].
  2: { right. split; [by eexists |]. exists off. split; [done |]. left.
       destruct (Z.lt_ge_cases (Zlen ip) 20) as [| H20]; [done |]. destruct (process_total ip H20). congruence. }
  destruct r as [[[start src] dst] |]; [| by left; eexists].
  pose proof (process_start ip _ _ _ Hr) as Hst. pose proof (Zlen_nonneg pkt).
  destruct (Z.le_gt_cases start (Zlen ip)) as [Hs | Hs].
  - left. rewrite u64_small, sub_ok by lia. cbn [mbind outcome_bind].
    edestruct (segment_parse_total) as (pr & seg & -> & _); [| | by eexists]; [| done].
    apply Buffer.wf_of_string. unfold Zlen in *. rewrite length_take. lia.
  - right. split; [| exists off; split; [done |]; right; by exists start, src, dst].
    unfold sub, u64. rewrite <- (Z.mod_add _ 1), (Z.mod_small (_ + _)) by lia. case_cmp; [lia | by eexists].
Qed.

(** A packet that ends in the UDP header: the length of the payload wraps
    around and the view of it reaches past the packet. *)
Lemma short_udp_header c h rest :
  ip_wf h -> IPv4Header.proto h = 0x11 -> Zlen rest < 8 ->
  examine inet_ntop6 DLT_RAW (wire c h ++ rest) = Raise (undefined_behaviour "read past the end of the packet").
Proof.
  intros Hh Hp Hr. pose proof (Zlen_wire c h Hh) as Hw. pose proof (wf_hlen _ Hh). pose proof (Zlen_nonneg rest). unfold examine.
  change (link_header DLT_RAW _ _) with (Ret (Header 0)). cbn [mbind outcome_bind].
  change (drop (Z.to_nat 0) ?l) with l. rewrite Z.sub_0_r, process_ipv4 by done. cbn [mbind outcome_bind].
  rewrite Zlen_app, Hw. unfold sub, u64. rewrite <- (Z.mod_add _ 1), (Z.mod_small (_ + _)) by lia.
  rewrite Zlen_app, Hw. case_cmp; [lia | done].
Qed.

End Facts.

(** ** Witnesses *)

Definition sample_ip : IPv4Header.t :=
  IPv4Header.mk 4 5 0 55 7 true false 0 64 0x11 0 0x0a000001 0x0a000002.

Definition sample_eth : EthernetHeader.t :=
  EthernetHeader.mk ETHERNET_BROADCAST (replicate 6 Byte.x02) EthernetHeader.TYPE_IPv4.

Lemma dump_shows_segment_witness :
  exists wire dgram c seg',
    TCPSegment.serialize 0 sample_segment = Ret wire /\
    IPv4Datagram.serialize (IPv4Datagram.mk sample_ip (Buffer.of_string (replicate 8 Byte.x00) :: wire)) = Ret dgram /\
    examine (fun _ => EmptyString) DLT_EN10MB
      (BufferList.concatenate (EthernetFrame.serialize (EthernetFrame.mk sample_eth dgram))) =
      Ret (Found "10.0.0.1" "10.0.0.2" NoError seg' (BufferList.concatenate wire)) /\
    TCPSegment.header seg' = TCPHeader.set_cksum c sample_header.
Proof.
  destruct (dump_shows_segment (fun _ => EmptyString) sample_eth sample_ip (replicate 8 Byte.x00) sample_segment)
    as (wire & dgram & c & seg' & H1 & H2 & H3 & H4 & _).
  1, 3, 6: constructor; vm_compute; intuition congruence.
  1, 2, 3, 4: vm_compute; reflexivity.
  exists wire, dgram, c, seg'. split_and!; [exact H1 | exact H2 | exact H3 | exact H4].
Defined.

(** A one-byte packet, whose protocol field is read nine bytes on. *)
Lemma examine_outcomes_witness :
  (exists f, examine (fun _ => EmptyString) DLT_RAW [Byte.x40] = Ret f) \/
  (exists why, examine (fun _ => EmptyString) DLT_RAW [Byte.x40] = Raise (undefined_behaviour why)) /\
    truncated (fun _ => EmptyString) DLT_RAW [Byte.x40].
Proof. apply examine_outcomes. vm_compute. reflexivity. Defined.

End UdpTcpdumpFacts.
