(* ===== verification/webget.v ===== *)
(** * apps/webget: fetching a page

    The program is the owner of a [FullStackSocket].  Once connected, the TCP
    thread is part of the kernel of the owner's thread, as the owner is part of
    the kernel of the TCP thread in tcp_sponge_socket.v: the owner writes to
    and reads from its end of the pair of descriptors.  The text printed is
    kept; what was printed before an exception is not. *)

From S2P Require Import Prelude buffer address resolver tcp_sponge_socket kernel file_descriptor socket sim_kernel fd_adapter.

Module Webget.

Definition text (s : string) : bytes := String.list_byte_of_string s.
Definition crlf : bytes := [Byte.x0d; Byte.x0a].
Definition endl : bytes := [Byte.x0a].

(** [mesg]. *)
Definition request (host path : string) : bytes :=
  let mesg := text "GET " ++ text path ++ text " HTTP/1.1" ++ crlf in
  let mesg := mesg ++ text "Host: " ++ text host ++ crlf in
  mesg ++ text "Connection: close" ++ crlf ++ crlf.

(** What [printf] with the format %s prints of [s.c_str()]: up to the first NUL. *)
Fixpoint printed (s : bytes) : bytes :=
  match s with
  | [] => []
  | b :: s => if bool_decide (b = Byte.x00) then [] else b :: printed s
  end.

Section Webget.
Context {K : Type} `{Kernel K} `{SocketKernel K} `{OwnerThread K} {RsI : Resolver}.
#[local] Existing Instance ResolverFacts.resolver_netdb | 0.

(** The [while] loop: until the end of the file. *)
Fixpoint fetch (fuel : nat) (ts : FDWrapper.t) (k : K) : outcome (bytes * FDWrapper.t * K) :=
  match fuel with
  | O => Diverge
  | S fuel =>
      if FileDescriptor.eof ts then Ret ([], ts, k)
      else
        '(s, ts, k) ← FileDescriptor.read (2 ^ 64 - 1) ts k;
        '(out, ts, k) ← fetch fuel ts k;
        Ret (printed s ++ out, ts, k)
  end.

(** The request and the answer, on a connected socket. *)
Definition exchange (fuel : nat) (host path : string) (ts : FDWrapper.t) (k : K) : outcome (bytes * FDWrapper.t * K) :=
  let mesg := request host path in
  '(size, ts, k) ← FileDescriptor.write (BufferViewList.of_string mesg) true ts k;
  if size <? Zlen mesg then Raise (runtime_error "write fewer bytes than needed")
  else
    '(out, ts, k) ← fetch fuel ts k;
    Ret (mesg ++ endl ++ out, ts, k).

(** [wait_until_closed] shuts the socket down; the thread then ends by itself. *)
Definition get_URL (fuel : nat) (random_device : nat -> Z) (random_port random_isn : Z) (host path : string) (k : K) :
    outcome (bytes * K) :=
  s ← FullStackSocket_make random_device k;
  ad ← Names.of_host host "http";
  '(_, s) ← FullStackSocket_connect fuel ad random_port random_isn [] s;
  '(out, ts, k) ← exchange fuel host path (TCPSpongeSocket.main s) (TCPSpongeSocket.kernel s);
  '(_, k) ← Socket.shutdown Socket.SHUT_RDWR ts k;
  Ret (out, k).

(** The exit status; [None] is [abort()]. *)
Definition main (fuel : nat) (random_device : nat -> Z) (random_port random_isn : Z) (argv : list string) (k : K) :
    outcome (option Z) :=
  match argv with
  | [] => Ret None
  | [_; host; path] =>
      match get_URL fuel random_device random_port random_isn host path k with
      | Ret _ => Ret (Some 0)
      | Raise (undefined_behaviour why) => Raise (undefined_behaviour why)
      | Raise _ => Ret (Some 1)
      | Diverge => Diverge
      end
  | _ => Ret (Some 1)
  end.

End Webget.

End Webget.

Module WebgetFacts.
Import Webget FileDescriptor FileDescriptorFacts.

Section Facts.
Context {K : Type} `{KernelLaws K}.

(** A peer that sends a finite stream: [left] bounds the reads that will
    return bytes, whatever is written meanwhile. *)
Class Finite (fd : Z) (left : K -> nat) : Prop := {
  finite_read n k d k' : sys_read fd n k = (SysOk d, k') -> d <> [] -> (left k' < left k)%nat;
  finite_write iov k n k' : sys_writev fd iov k = (SysOk n, k') -> (left k' <= left k)%nat;
}.

Lemma fetch_ok left ts k fuel :
  Finite (fd_num ts) left -> (S (left k) < fuel)%nat ->
  ends (fun '(out, ts', k') => exists chunks, out = concat (map printed chunks) /\
    kin (fd_num ts) k' = kin (fd_num ts) k ++ concat chunks /\ kout (fd_num ts) k' = kout (fd_num ts) k /\ eof ts' = true)
    (fetch fuel ts k).
Proof.
  revert ts k. induction fuel as [| fuel IH]; intros ts k Hfin Hf; [lia |]. cbn [fetch].
  destruct (eof ts) eqn:He. { apply ends_Ret. exists []. by rewrite app_nil_r. }
  eapply ends_bind; [apply fd_read_ok |]. intros [[s ts1] k1] (Hs & Hlen & Hin & Hout & _ & [Hfd _] & _ & _ & Heof).
  eapply (ends_bind (fun '(out, ts', k') => exists chunks, out = concat (map printed chunks) /\
    kin (fd_num ts) k' = kin (fd_num ts) k1 ++ concat chunks /\ kout (fd_num ts) k' = kout (fd_num ts) k1 /\ eof ts' = true)).
  - destruct (decide (s = [])) as [-> | Hne].
    + destruct fuel as [| fuel]; [lia |]. rewrite He in Heof. cbn [fetch]. rewrite Heof.
      apply ends_Ret. exists []. by rewrite app_nil_r.
    + rewrite <- Hfd. apply IH; [by rewrite Hfd |]. pose proof (finite_read _ _ _ _ Hs Hne). lia.
  - intros [[out ts2] k2] (chunks & -> & Hin2 & Hout2 & Heof2). apply ends_Ret. exists (s :: chunks).
    split_and!; [done | | congruence | done]. cbn [concat]. by rewrite Hin2, Hin, app_assoc.
Qed.

(** Text without a NUL is printed whole. *)
Lemma printed_text s : Byte.x00 ∉ s -> printed s = s.
Proof.
  induction s as [| b s IH]; [done |]. intros Hn. apply not_elem_of_cons in Hn as [Hb Hn]. cbn [printed].
  rewrite bool_decide_false by congruence. by rewrite IH.
Qed.

Lemma printed_chunks chunks : Byte.x00 ∉ concat chunks -> concat (map printed chunks) = concat chunks.
Proof.
  induction chunks as [| c chunks IH]; [done |]. cbn. rewrite elem_of_app. intros Hn.
  rewrite printed_text, IH by tauto. done.
Qed.

End Facts.

(** C26: on a connected socket whose peer sends a finite stream, the exchange
    ends: the kernel has taken the whole request, everything up to the end of
    the file has been read, in order, and what is printed is the request, a
    newline and, if the answer has no NUL, the answer; of each chunk that was
    read with a NUL in it, the rest is not printed. *)
Theorem webget_prints_answer {K} `{KernelLaws K} (left : K -> nat) (host path : string) (ts : FDWrapper.t) (k : K) (fuel : nat) :
  Finite (fd_num ts) left -> Zlen (request host path) < 2 ^ 64 ->
  (S (left k) < fuel)%nat ->
  ends (fun '(out, ts', k') => exists chunks,
    let answer := concat chunks in
    kout (fd_num ts) k' = kout (fd_num ts) k ++ request host path /\
    kin (fd_num ts) k' = kin (fd_num ts) k ++ answer /\ eof ts' = true /\
    out = request host path ++ endl ++ concat (map printed chunks) /\
    (Byte.x00 ∉ answer -> out = request host path ++ endl ++ answer)) (exchange fuel host path ts k).
Proof.
  intros Hfin Hlen Hf. unfold exchange. set (mesg := request host path) in *.
  assert (Hc : concat (BufferViewList.of_string mesg) = mesg) by apply app_nil_r.
  eapply ends_bind; [eapply (ends_and _ (fun '(_, _, k') => (left k' <= left k)%nat)); [unfold write; rewrite size_concat by (by rewrite Hc); apply write_loop_ok; rewrite ?Hc; lia |] |].
  { intros [[n w'] k'] Hr.
    exact (write_loop_keeps (fun k' => (left k' <= left k)%nat) _ _ _ _ _ _ _ _ _
      (fun iov k1 n k2 Hle Hs => Nat.le_trans _ _ _ (finite_write _ _ _ _ Hs) Hle) (le_n _) Hr). }
  cbv beta iota. rewrite Hc. intros [[n w'] k'] [[-> (Hout & Hin & _ & [Hfd _] & Heof & _)] Hle].
  case_cmp; [lia |]. eapply ends_bind; [apply (fetch_ok left); [by rewrite Hfd | lia] |].
  intros [[out w2] k2] (chunks & -> & Hin2 & Hout2 & He2). apply ends_Ret. rewrite Hfd in *. exists chunks.
  split_and!; [congruence | congruence | done | done |]. intros Hn. by rewrite printed_chunks.
Qed.

(** ** On the simulated kernel *)

(** The chunks that wait bound the reads. *)
Definition waiting (fd : Z) (k : SimKernel.t) : nat := length (concat (SimKernel.d_chunks (SimKernel.at_ fd k))).

#[global] Instance sim_finite fd : Finite fd (waiting fd).
Proof.
  split.
  - intros n k d k'. cbn. unfold SimKernel.read, waiting. destruct (SimKernel.d_chunks (SimKernel.at_ fd k)) as [| c cs].
    + destruct (SimKernel.d_hung _); by intros [= <- <-].
    + intros [= <- <-] Hne. rewrite SimKernel.at_update. rewrite decide_True by done. cbn [SimKernel.d_chunks concat].
      rewrite <- (take_drop (Z.to_nat n) c) at 2. rewrite !length_app.
      assert (length (take (Z.to_nat n) c) <> 0)%nat by (by destruct (take _ _)).
      destruct (drop (Z.to_nat n) c) as [| x rest]; cbn; [lia |]. rewrite length_app. lia.
  - intros iov k n k'. cbn. unfold SimKernel.writev, waiting. intros [= <- <-]. rewrite SimKernel.at_update.
    by rewrite decide_True.
Qed.

(** A server that answers in two chunks, the second with a NUL in it. *)
Definition sample_kernel : SimKernel.t :=
  SimKernel.Sim {[ 3 := SimKernel.Desc [text "HTTP/1.1 200 OK"; text "ab" ++ Byte.x00 :: text "c"] true 7 [] [] [] [] ]} 0 0 false.

Lemma webget_prints_answer_witness :
  ends (fun '(out, ts', k') => exists chunks,
    out = request "cs144.keithw.org" "/hello" ++ endl ++ concat (map printed chunks) /\
    kin 3 k' = concat chunks) (exchange 99 "cs144.keithw.org" "/hello" (FDWrapper.mk 3 false false 0 0) sample_kernel) /\
  match exchange 99 "cs144.keithw.org" "/hello" (FDWrapper.mk 3 false false 0 0) sample_kernel with
  | Ret (out, _, _) => out = request "cs144.keithw.org" "/hello" ++ endl ++ text "HTTP/1.1 200 OKab"
  | _ => False
  end.
Proof.
  split; [| vm_compute; reflexivity].
  eapply ends_impl; [apply (webget_prints_answer (waiting 3)); [apply sim_finite | vm_compute; reflexivity | vm_compute; lia] |].
  intros [[out ts'] k'] (chunks & _ & Hin & _ & Hout & _). exists chunks. split; [exact Hout | exact Hin].
Defined.

End WebgetFacts.
