(* ===== verification/cli.v ===== *)
(** * Numbers on the command line

    [strtol] with base 0 and [strtof], as the programs of apps/ call them on
    their arguments (no [endptr]), and the conversion of a rate of loss to the
    [uint16_t] of the configuration.  A [float] is a binary32 number of the
    Standard Library's SpecFloat: 24 bits of precision, exponents up to 128. *)

From Stdlib Require Import Ascii SpecFloat.
From stdpp Require Import pretty.
From S2P Require Import Prelude resolver.

Module Cli.

(** ** Digits *)

(** The value of a digit, letters included. *)
Definition alnum (c : ascii) : option Z :=
  let v := Z.of_N (N_of_ascii c) in
  if (48 <=? v) && (v <=? 57) then Some (v - 48)
  else if (97 <=? v) && (v <=? 122) then Some (v - 87)
  else if (65 <=? v) && (v <=? 90) then Some (v - 55)
  else None.
Definition digit_in (base : Z) (c : ascii) : option Z :=
  match alnum c with Some d => if d <? base then Some d else None | None => None end.

(** The digits at the front of [s]: their value after [acc], their number
    after [n], and what follows. *)
Fixpoint scan (base : Z) (s : string) (acc n : Z) : Z * Z * string :=
  match s with
  | EmptyString => (acc, n, s)
  | String c s' =>
      match digit_in base c with
      | Some d => scan base s' (base * acc + d) (n + 1)
      | None => (acc, n, s)
      end
  end.

Definition starts_hex (s : string) : bool :=
  match s with
  | String "0" (String x (String c _)) =>
      (bool_decide (x = "x"%char) || bool_decide (x = "X"%char)) && bool_decide (is_Some (digit_in 16 c))
  | _ => false
  end.

Definition LONG_MAX : Z := 2 ^ 63 - 1.
Definition LONG_MIN : Z := - 2 ^ 63.

(** [strtol(s, nullptr, 0)]. *)
Definition strtol (s : string) : Z :=
  let '(sg, s) := sign (skip_spaces s) in
  let v := if starts_hex s then fst (fst (scan 16 (String.substring 2 (String.length s) s) 0 0))
           else match s with
                | String "0" _ => fst (fst (scan 8 s 0 0))
                | _ => fst (fst (scan 10 s 0 0))
                end in
  Z.max LONG_MIN (Z.min LONG_MAX (sg * v)).

(** ** Floating point *)

Definition float := spec_float.
Definition prec : Z := 24.
Definition emax : Z := 128.

(** The nearest [float] of [n / d], ties to even. *)
Definition of_ratio (negative : bool) (n d : positive) : float :=
  let '(q, e, l) := SFdiv_core_binary prec emax (Zpos n) 0 (Zpos d) 0 in
  binary_round_aux prec emax negative q e l.

(** The nearest [float] of [m * base ^ e]. *)
Definition scale (negative : bool) (base m e : Z) : float :=
  match m with
  | Zpos p =>
      if 0 <=? e then of_ratio negative (p * Z.to_pos (base ^ e)) 1
      else of_ratio negative p (Z.to_pos (base ^ (- e)))
  | _ => S754_zero negative
  end.

(** Digits with an optional point: the digits as an integer, how many there
    are after the point and in all, and what follows. *)
Definition mantissa (base : Z) (s : string) : Z * Z * Z * string :=
  let '(m, n, s) := scan base s 0 0 in
  match s with
  | String "." s' => let '(m, f, s') := scan base s' m 0 in (m, f, n + f, s')
  | _ => (m, 0, n, s)
  end.

(** An exponent after its letter; without digits there is none. *)
Definition exponent (letter : ascii) (s : string) : Z :=
  match s with
  | String c s => if bool_decide (alnum c = alnum letter) then let '(sg, s) := sign s in sg * fst (fst (scan 10 s 0 0)) else 0
  | EmptyString => 0
  end.

(** [s] starts with the letters of [word], in either case. *)
Fixpoint starts (word s : string) : bool :=
  match word, s with
  | EmptyString, _ => true
  | String a word, String b s => bool_decide (alnum a = alnum b) && starts word s
  | _, _ => false
  end.

(** [strtof(s, nullptr)]. *)
Definition strtof (s : string) : float :=
  let '(sg, s) := sign (skip_spaces s) in
  let negative := sg <? 0 in
  if starts "inf" s then S754_infinity negative
  else if starts "nan" s then S754_nan
  else if starts "0x" s then
    let '(m, f, n, rest) := mantissa 16 (String.substring 2 (String.length s) s) in
    if n =? 0 then S754_zero negative else scale negative 2 m (exponent "p" rest - 4 * f)
  else
    let '(m, f, n, rest) := mantissa 10 s in
    if n =? 0 then S754_zero negative else scale negative 10 m (exponent "e" rest - f).

(** [static_cast<uint16_t>(x)]: the fraction is dropped; a value that does
    not fit is undefined behaviour. *)
Definition to_uint16 (x : float) : outcome Z :=
  let ub := Raise (undefined_behaviour "float does not fit uint16_t") in
  match x with
  | S754_zero _ => Ret 0
  | S754_finite negative m e =>
      let v := Z.shiftl (Zpos m) e in
      let v := if negative then - v else v in
      if (0 <=? v) && (v <? 2 ^ 16) then Ret v else ub
  | _ => ub
  end.

(** [static_cast<T>(static_cast<float>(numeric_limits<T>::max()) * lossrate)]
    for a [uint16_t]. *)
Definition loss_rate (arg : string) : outcome Z :=
  let lossrate := strtof arg in
  to_uint16 (SFmul prec emax (of_ratio false 65535 1) lossrate).

End Cli.

Module CliFacts.
Import Cli ResolverFacts.

Lemma digit_in_10 c : digit_in 10 c = digit c.
Proof. destruct c as [[] [] [] [] [] [] [] []]; vm_compute; reflexivity. Qed.

Lemma scan_digits s acc n : fst (fst (scan 10 s acc n)) = fst (digits s acc).
Proof.
  revert acc n. induction s as [| c s IH]; intros acc n; [done |]. cbn [scan digits]. rewrite digit_in_10.
  by destruct (digit c).
Qed.

(** The decimal text of a positive number does not start with a zero. *)
Lemma to_string_leading (n : Z) : 0 < n -> exists c s, to_string n = String c s /\ c <> "0"%char.
Proof.
  intros Hn. unfold to_string, pretty, pretty_N. rewrite decide_False by lia.
  assert (Hx : (0 < Z.to_N n)%N) by lia. revert Hx. generalize EmptyString. generalize (Z.to_N n). clear n Hn.
  intros x. induction x as [x IH] using (well_founded_induction N.lt_wf_0). intros t Hx.
  rewrite pretty_N_go_step by done.
  destruct (decide (0 < x `div` 10)%N) as [Hd | Hd].
  - apply IH; [by apply N.div_lt | done].
  - assert (Hz : (x `div` 10 = 0)%N) by (by apply N.nlt_ge, N.le_0_r in Hd). rewrite Hz, pretty_N_go_0. eexists _, _. split; [done |].
    assert (Hm : (x `mod` 10 = x)%N) by (apply N.mod_small; apply N.div_small_iff in Hz; lia). rewrite Hm.
    apply N.div_small_iff in Hz; [| lia]. intros Hc. pose proof (digit_char x Hz) as He. rewrite Hc in He.
    change (digit "0") with (Some 0) in He. injection He as He. lia.
Qed.

(** [strtol] reads a decimal number back. *)
Lemma strtol_to_string (n : Z) : 0 <= n < 2 ^ 63 -> strtol (to_string n) = n.
Proof.
  intros Hn. destruct (Z.eq_dec n 0) as [-> | Hz]; [done |].
  pose proof (digits_to_string n "" (proj1 Hn)) as Hd. rewrite string_app_nil in Hd.
  destruct (to_string_leading n) as (c & s & Hs & Hc); [lia |].
  destruct (to_string_digit n) as (c' & s' & d & Hs' & Hdig). rewrite Hs in Hs'. injection Hs' as <- <-. rewrite Hs in *.
  unfold strtol. cbn [skip_spaces]. destruct (digit_plain c d s Hdig) as [-> ->].
  assert (Hh : starts_hex (String c s) = false) by (by destruct c as [[] [] [] [] [] [] [] []]). rewrite Hh.
  assert (H10 : match String c s with String "0" _ => fst (fst (scan 8 (String c s) 0 0)) | _ => fst (fst (scan 10 (String c s) 0 0)) end
    = fst (fst (scan 10 (String c s) 0 0))) by (by destruct c as [[] [] [] [] [] [] [] []]). rewrite H10.
  rewrite scan_digits, Hd. cbn [fst digits]. unfold LONG_MAX, LONG_MIN. lia.
Qed.

(** Whatever the argument, the configuration gets a [long]. *)
Lemma strtol_range s : LONG_MIN <= strtol s <= LONG_MAX.
Proof. unfold strtol. destruct (sign _). unfold LONG_MIN, LONG_MAX. lia. Qed.

End CliFacts.
