(* ===== verification/tcp_apps.v ===== *)
(** * apps/tcp_ipv4, tcp_udp, tcp_ip_ethernet, tcp_native and tun

    The programs that connect standard input and output to a TCP connection,
    with their command lines, and the one that shows what arrives on a TUN
    device.  An [exit] in the middle of the options is a value; the usage
    message is left out.  A program is the owner of its socket: once connected,
    the TCP thread belongs to the kernel of the owner's thread, and
    [wait_until_closed] is the owner's [shutdown]. *)

From Stdlib Require Import Ascii.
From S2P Require Import Prelude byte_stream buffer parser util tcp_segment tcp_config ethernet ipv4 address network_interface resolver fd_adapter kernel file_descriptor socket eventloop tcp_sponge_socket bidirectional_stream_copy format cli.

(** The options were read, or the program has ended. *)
Inductive parsed (A : Type) :=
| Exit (status : Z)
| Config (a : A).
Arguments Exit {A} status.
Arguments Config {A} a.

(** [catch (const exception &e)] around [main]. *)
Definition exit_status (m : outcome Z) : outcome Z :=
  match m with
  | Raise (undefined_behaviour why) => Raise (undefined_behaviour why)
  | Raise _ => Ret 1
  | _ => m
  end.

(** [strncmp(option, arg, 3) == 0] for an option of two characters. *)
Definition same (name arg : string) : bool := bool_decide (arg = name).

(** [check_argc]: nothing but the operands would be left after the argument
    of the option at the front of [argv]. *)
Definition check_argc (argv : list string) : bool := Zlen argv <=? 3.

(** The setters of the fields the options change. *)
Definition set_recv_capacity (n : Z) (c : TCPConfig.t) : TCPConfig.t :=
  TCPConfig.mk (TCPConfig.rt_timeout c) n (TCPConfig.send_capacity c) (TCPConfig.fixed_isn c).
Definition set_rt_timeout (n : Z) (c : TCPConfig.t) : TCPConfig.t :=
  TCPConfig.mk n (TCPConfig.recv_capacity c) (TCPConfig.send_capacity c) (TCPConfig.fixed_isn c).
Definition set_loss_up (n : Z) (c : FdAdapterConfig.t) : FdAdapterConfig.t :=
  FdAdapterConfig.mk (FdAdapterConfig.source c) (FdAdapterConfig.destination c) (FdAdapterConfig.loss_rate_dn c) n.
Definition set_loss_dn (n : Z) (c : FdAdapterConfig.t) : FdAdapterConfig.t :=
  FdAdapterConfig.mk (FdAdapterConfig.source c) (FdAdapterConfig.destination c) n (FdAdapterConfig.loss_rate_up c).
Definition set_source (a : Address.t) (c : FdAdapterConfig.t) : FdAdapterConfig.t :=
  FdAdapterConfig.mk a (FdAdapterConfig.destination c) (FdAdapterConfig.loss_rate_dn c) (FdAdapterConfig.loss_rate_up c).
Definition set_destination (a : Address.t) (c : FdAdapterConfig.t) : FdAdapterConfig.t :=
  FdAdapterConfig.mk (FdAdapterConfig.source c) a (FdAdapterConfig.loss_rate_dn c) (FdAdapterConfig.loss_rate_up c).

(** [bidirectional_stream_copy(tcp_socket); tcp_socket.wait_until_closed();] *)
Definition serve {A K} `{Kernel K} (fuel : nat) (tcp_socket : TCPSpongeSocket.t A K) : outcome Z :=
  '(w, k) ← StreamCopy.bidirectional_stream_copy fuel (TCPSpongeSocket.main tcp_socket) (TCPSpongeSocket.kernel tcp_socket);
  '(_, k) ← Socket.shutdown Socket.SHUT_RDWR w k;
  Ret 0.

Module TcpIpv4.

Definition TUN_DFLT : string := "tun144".
Definition LOCAL_ADDRESS_DFLT : string := "169.254.144.9".

(** The local variables of [get_config]. *)
Record t := mk {
  c_fsm : TCPConfig.t;
  c_filt : FdAdapterConfig.t;
  tundev : option string;
  listen : bool;
  source_address : string;
  source_port : string;
}.

Definition with_fsm (c : TCPConfig.t) (s : t) : t := mk c (c_filt s) (tundev s) (listen s) (source_address s) (source_port s).
Definition with_filt (c : FdAdapterConfig.t) (s : t) : t := mk (c_fsm s) c (tundev s) (listen s) (source_address s) (source_port s).
Definition with_tundev (d : string) (s : t) : t := mk (c_fsm s) (c_filt s) (Some d) (listen s) (source_address s) (source_port s).
Definition with_listen (s : t) : t := mk (c_fsm s) (c_filt s) (tundev s) true (source_address s) (source_port s).
Definition with_address (a : string) (s : t) : t := mk (c_fsm s) (c_filt s) (tundev s) (listen s) a (source_port s).
Definition with_port (p : string) (s : t) : t := mk (c_fsm s) (c_filt s) (tundev s) (listen s) (source_address s) p.

(** The [while] loop over what is left of [argv]; an option with an argument
    ends the program if nothing but the two operands can be left after it
    ([check_argc]). *)
Fixpoint options (argv : list string) (s : t) : outcome (parsed (t * list string)) :=
  match argv with
  | arg :: rest =>
      if Zlen argv <=? 2 then Ret (Config (s, argv))
      else
        let one_argument (set : string -> outcome t) : outcome (parsed (t * list string)) :=
          match rest with
          | value :: rest' => if check_argc argv then Ret (Exit 1) else s ← set value; options rest' s
          | [] => Ret (Exit 1)
          end in
        if same "-l" arg then options rest (with_listen s)
        else if same "-a" arg then one_argument (fun v => Ret (with_address v s))
        else if same "-s" arg then one_argument (fun v => Ret (with_port v s))
        else if same "-w" arg then one_argument (fun v => Ret (with_fsm (set_recv_capacity (u64 (Cli.strtol v)) (c_fsm s)) s))
        else if same "-t" arg then one_argument (fun v => Ret (with_fsm (set_rt_timeout (u16 (Cli.strtol v)) (c_fsm s)) s))
        else if same "-d" arg then one_argument (fun v => Ret (with_tundev v s))
        else if String.prefix "-Lu" arg then
          one_argument (fun v => r ← Cli.loss_rate v; Ret (with_filt (set_loss_up r (c_filt s)) s))
        else if String.prefix "-Ld" arg then
          one_argument (fun v => r ← Cli.loss_rate v; Ret (with_filt (set_loss_dn r (c_filt s)) s))
        else if same "-h" arg then Ret (Exit 0)
        else Ret (Exit 1)
  | [] => Ret (Config (s, argv))
  end.

Section Program.
Context {RsI : Resolver}.
#[local] Existing Instance ResolverFacts.resolver_netdb | 0.

(** [argv] from the second argument on; an operand that is not there would be
    read past the end. *)
Definition get_config (random_port : Z) (argv : list string) : outcome (parsed (TCPConfig.t * FdAdapterConfig.t * bool * option string)) :=
  c_filt0 ← FdAdapterConfig.default_;
  p ← options argv (mk TCPConfig.default_ c_filt0 None false LOCAL_ADDRESS_DFLT (to_string (u16 random_port)));
  match p with
  | Exit status => Ret (Exit status)
  | Config (s, [host; port]) =>
      if listen s then
        source ← Names.of_host "0" port;
        p ← Names.port source;
        if p =? 0 then Ret (Exit 1)
        else Ret (Config (c_fsm s, set_source source (c_filt s), true, tundev s))
      else
        destination ← Names.of_host host port;
        source ← Names.of_host (source_address s) (source_port s);
        Ret (Config (c_fsm s, set_source source (set_destination destination (c_filt s)), false, tundev s))
  | Config _ => Raise (undefined_behaviour "argv past its end")
  end.

Context {K : Type} `{Kernel K} `{SocketKernel K} `{OwnerThread K} {Rng : Type} (draw : Rng -> Z * Rng).

#[local] Instance lossy : FdAdapter (LossyFdAdapter.t (A := FdAdapterBase.t) (Rng := Rng)) bytes BufferList.t :=
  LossyFdAdapter.lossy_adapter (H := tun_adapter) draw.

Definition run (fuel : nat) (random_isn : Z) (rand : Rng) (c_fsm : TCPConfig.t) (c_filt : FdAdapterConfig.t) (listen : bool)
    (tun_dev_name : option string) (k : K) : outcome Z :=
  '(tun, k) ← TunTapFD.make (String.list_byte_of_string (default TUN_DFLT tun_dev_name)) true k;
  c ← FdAdapterConfig.default_;
  s ← TCPSpongeSocket.make (LossyFdAdapter.mk rand (FdAdapterBase.make c)) tun k;
  '(_, s) ← (if listen then TCPSpongeSocket.listen_and_accept fuel c_fsm c_filt random_isn [] s
             else TCPSpongeSocket.connect fuel c_fsm c_filt random_isn [] s);
  serve fuel s.

Definition main (fuel : nat) (random_port random_isn : Z) (rand : Rng) (argv : list string) (k : K) : outcome Z :=
  exit_status (
    if Zlen argv <? 3 then Ret 1
    else
      p ← get_config random_port (drop 1 argv);
      match p with
      | Exit status => Ret status
      | Config (c_fsm, c_filt, listen, tun_dev_name) => run fuel random_isn rand c_fsm c_filt listen tun_dev_name k
      end).

End Program.

End TcpIpv4.

Module TcpUdp.

(** The local variables of [get_config]. *)
Record t := mk {
  c_fsm : TCPConfig.t;
  c_filt : FdAdapterConfig.t;
  listen : bool;
}.

Definition with_fsm (c : TCPConfig.t) (s : t) : t := mk c (c_filt s) (listen s).
Definition with_filt (c : FdAdapterConfig.t) (s : t) : t := mk (c_fsm s) c (listen s).

Fixpoint options (argv : list string) (s : t) : outcome (parsed (t * list string)) :=
  match argv with
  | arg :: rest =>
      if Zlen argv <=? 2 then Ret (Config (s, argv))
      else
        let one_argument (set : string -> outcome t) : outcome (parsed (t * list string)) :=
          match rest with
          | value :: rest' => if check_argc argv then Ret (Exit 1) else s ← set value; options rest' s
          | [] => Ret (Exit 1)
          end in
        if same "-l" arg then options rest (mk (c_fsm s) (c_filt s) true)
        else if same "-w" arg then one_argument (fun v => Ret (with_fsm (set_recv_capacity (u64 (Cli.strtol v)) (c_fsm s)) s))
        else if same "-t" arg then one_argument (fun v => Ret (with_fsm (set_rt_timeout (u16 (Cli.strtol v)) (c_fsm s)) s))
        else if String.prefix "-Lu" arg then
          one_argument (fun v => r ← Cli.loss_rate v; Ret (with_filt (set_loss_up r (c_filt s)) s))
        else if String.prefix "-Ld" arg then
          one_argument (fun v => r ← Cli.loss_rate v; Ret (with_filt (set_loss_dn r (c_filt s)) s))
        else if same "-h" arg then Ret (Exit 0)
        else Ret (Exit 1)
  | [] => Ret (Config (s, argv))
  end.

Section Program.
Context {RsI : Resolver}.
#[local] Existing Instance ResolverFacts.resolver_netdb | 0.

(** The operands are the last two arguments. *)
Definition get_config (argv : list string) : outcome (parsed (TCPConfig.t * FdAdapterConfig.t * bool)) :=
  c_filt0 ← FdAdapterConfig.default_;
  p ← options argv (mk TCPConfig.default_ c_filt0 false);
  match p with
  | Exit status => Ret (Exit status)
  | Config (s, [host; port]) =>
      if listen s then
        source ← Names.of_host "0" port;
        Ret (Config (c_fsm s, set_source source (c_filt s), true))
      else
        destination ← Names.of_host host port;
        Ret (Config (c_fsm s, set_destination destination (c_filt s), false))
  | Config _ => Raise (undefined_behaviour "argv past its end")
  end.

Context {K : Type} `{Kernel K} `{SocketKernel K} `{OwnerThread K} {Rng : Type} (draw : Rng -> Z * Rng).

#[local] Instance lossy : FdAdapter (LossyFdAdapter.t (A := FdAdapterBase.t) (Rng := Rng)) (Address.t * bytes) (Address.t * BufferList.t) :=
  LossyFdAdapter.lossy_adapter (H := udp_adapter) draw.

Definition run (fuel : nat) (random_isn : Z) (rand : Rng) (c_fsm : TCPConfig.t) (c_filt : FdAdapterConfig.t) (listen : bool) (k : K) :
    outcome Z :=
  '(udp_sock, k) ← UDPSocket.make k;
  k ← (if listen then Socket.bind (FdAdapterConfig.source c_filt) udp_sock k else Ret k);
  c ← FdAdapterConfig.default_;
  s ← TCPSpongeSocket.make (LossyFdAdapter.mk rand (FdAdapterBase.make c)) udp_sock k;
  '(_, s) ← (if listen then TCPSpongeSocket.listen_and_accept fuel c_fsm c_filt random_isn [] s
             else TCPSpongeSocket.connect fuel c_fsm c_filt random_isn [] s);
  serve fuel s.

Definition main (fuel : nat) (random_isn : Z) (rand : Rng) (argv : list string) (k : K) : outcome Z :=
  exit_status (
    if Zlen argv <? 3 then Ret 1
    else
      p ← get_config (drop 1 argv);
      match p with
      | Exit status => Ret status
      | Config (c_fsm, c_filt, listen) => run fuel random_isn rand c_fsm c_filt listen k
      end).

End Program.

End TcpUdp.

Module TcpIpEthernet.

Definition TAP_DFLT : string := "tap10".
Definition LOCAL_ADDRESS_DFLT : string := "169.254.10.9".
Definition GATEWAY_DFLT : string := "169.254.10.1".

(** The local variables of [get_config] that the options change. *)
Record t := mk {
  c_fsm : TCPConfig.t;
  tapdev : string;
  source_address : string;
  source_port : string;
  next_hop_address : string;
}.

Definition with_fsm (c : TCPConfig.t) (s : t) : t := mk c (tapdev s) (source_address s) (source_port s) (next_hop_address s).
Definition with_tapdev (d : string) (s : t) : t := mk (c_fsm s) d (source_address s) (source_port s) (next_hop_address s).
Definition with_address (a : string) (s : t) : t := mk (c_fsm s) (tapdev s) a (source_port s) (next_hop_address s).
Definition with_port (p : string) (s : t) : t := mk (c_fsm s) (tapdev s) (source_address s) p (next_hop_address s).
Definition with_next_hop (a : string) (s : t) : t := mk (c_fsm s) (tapdev s) (source_address s) (source_port s) a.

Fixpoint options (argv : list string) (s : t) : outcome (parsed (t * list string)) :=
  match argv with
  | arg :: rest =>
      if Zlen argv <=? 2 then Ret (Config (s, argv))
      else
        let one_argument (set : string -> outcome t) : outcome (parsed (t * list string)) :=
          match rest with
          | value :: rest' => if check_argc argv then Ret (Exit 1) else s ← set value; options rest' s
          | [] => Ret (Exit 1)
          end in
        if same "-a" arg then one_argument (fun v => Ret (with_address v s))
        else if same "-s" arg then one_argument (fun v => Ret (with_port v s))
        else if same "-n" arg then one_argument (fun v => Ret (with_next_hop v s))
        else if same "-w" arg then one_argument (fun v => Ret (with_fsm (set_recv_capacity (u64 (Cli.strtol v)) (c_fsm s)) s))
        else if same "-t" arg then one_argument (fun v => Ret (with_fsm (set_rt_timeout (u16 (Cli.strtol v)) (c_fsm s)) s))
        else if same "-d" arg then one_argument (fun v => Ret (with_tapdev v s))
        else if same "-h" arg then Ret (Exit 0)
        else Ret (Exit 1)
  | [] => Ret (Config (s, argv))
  end.

Section Program.
Context {RsI : Resolver}.
#[local] Existing Instance ResolverFacts.resolver_netdb | 0.

Definition get_config (random_port : Z) (argv : list string) : outcome (parsed (TCPConfig.t * FdAdapterConfig.t * Address.t * string)) :=
  c_filt ← FdAdapterConfig.default_;
  p ← options argv (mk TCPConfig.default_ TAP_DFLT LOCAL_ADDRESS_DFLT (to_string (u16 random_port)) GATEWAY_DFLT);
  match p with
  | Exit status => Ret (Exit status)
  | Config (s, [host; port]) =>
      destination ← Names.of_host host port;
      source ← Names.of_host (source_address s) (source_port s);
      next_hop ← Names.of_host (next_hop_address s) "0";
      Ret (Config (c_fsm s, FdAdapterConfig.set_peers source destination c_filt, next_hop, tapdev s))
  | Config _ => Raise (undefined_behaviour "argv past its end")
  end.

Context {K : Type} `{Kernel K} `{SocketKernel K} `{OwnerThread K}.

(** The adapter's constructor writes its first frames to the device. *)
Definition run (fuel : nat) (random_isn : Z) (local_ethernet_address : EthernetAddress) (c_fsm : TCPConfig.t)
    (c_filt : FdAdapterConfig.t) (next_hop : Address.t) (tap_dev_name : string) (k : K) : outcome Z :=
  '(tap, k) ← TunTapFD.make (String.list_byte_of_string tap_dev_name) false k;
  c ← FdAdapterConfig.default_;
  let '(a, out) := TCPOverIPv4OverEthernetAdapter.make c local_ethernet_address (FdAdapterConfig.source c_filt) next_hop in
  '(tap, k) ← dev_writes out tap k;
  s ← TCPSpongeSocket.make a tap k;
  '(_, s) ← TCPSpongeSocket.connect fuel c_fsm c_filt random_isn [] s;
  serve fuel s.

(** The local address is drawn before the options are read. *)
Definition main (fuel : nat) (random_device : nat -> Z) (random_port random_isn : Z) (argv : list string) (k : K) : outcome Z :=
  exit_status (
    if Zlen argv <? 3 then Ret 1
    else
      let local_ethernet_address := random_private_ethernet_address random_device in
      p ← get_config random_port (drop 1 argv);
      match p with
      | Exit status => Ret status
      | Config (c_fsm, c_filt, next_hop, tap_dev_name) =>
          run fuel random_isn local_ethernet_address c_fsm c_filt next_hop tap_dev_name k
      end).

End Program.

End TcpIpEthernet.

Module TcpNative.

Section Program.
Context {RsI : Resolver} {K : Type} `{Kernel K} `{SocketKernel K}.

(** Accept one connection; the listening socket is closed when the lambda
    returns. *)
Definition server (host port : string) (k : K) : outcome (FDWrapper.t * K) :=
  '(listening_socket, k) ← TCPSocket.make k;
  k ← Socket.set_reuseaddr listening_socket k;
  address ← Names.of_host host port;
  k ← Socket.bind address listening_socket k;
  k ← TCPSocket.listen 16 listening_socket k;
  '(listening_socket, socket, k) ← TCPSocket.accept listening_socket k;
  Ret (socket, FDWrapper.destruct_ listening_socket k).

Definition client (host port : string) (k : K) : outcome (FDWrapper.t * K) :=
  '(connecting_socket, k) ← TCPSocket.make k;
  address ← Names.of_host host port;
  k ← Socket.connect address connecting_socket k;
  Ret (connecting_socket, k).

Definition main (fuel : nat) (argv : list string) (k : K) : outcome Z :=
  exit_status (
    match drop 1 argv with
    | a :: b :: rest =>
        let server_mode := same "-l" a in
        if server_mode && (Zlen argv <? 4) then Ret 1
        else
          '(socket, k) ← (if server_mode then
                            match rest with
                            | c :: _ => server b c k
                            | [] => Raise (undefined_behaviour "argv past its end")
                            end
                          else client a b k);
          '(_, _) ← StreamCopy.bidirectional_stream_copy fuel socket k;
          Ret 0
    | _ => Ret 1
    end).

End Program.

End TcpNative.

Module Tun.
Import Format.

(** What is printed for a packet. *)
Definition report (buffer : bytes) : outcome string :=
  let out := newline +:+ newline +:+ "***" +:+ newline +:+ "*** Got packet:" +:+ newline +:+ "***" +:+ newline +:+
             hexdump buffer 0 +:+ "attempting to parse as ipv4 datagram... " in
  '(res, ip_dgram) ← IPv4Datagram.parse (Buffer.of_string buffer) IPv4Datagram.default_;
  if negb (bool_decide (res = NoError)) then Ret (out +:+ "failed." +:+ newline)
  else
    let h := IPv4Datagram.header ip_dgram in
    let out := out +:+ "success! totlen=" +:+ to_string (IPv4Header.len h) +:+ ", IPv4 header contents:" +:+ newline +:+ ipv4_header h in
    if negb (IPv4Header.proto h =? IPv4Header.PROTO_TCP) then Ret (out +:+ newline +:+ "Not TCP, skipping." +:+ newline)
    else
      let out := out +:+ newline +:+ "Attempting to parse as a TCP segment... " in
      payload ← BufferList.to_buffer (IPv4Datagram.payload ip_dgram);
      '(res, tcp_seg) ← TCPSegment.parse payload (IPv4Header.pseudo_cksum h) TCPSegment.default_;
      if negb (bool_decide (res = NoError)) then Ret (out +:+ "failed." +:+ newline)
      else Ret (out +:+ "success! payload len=" +:+ to_string (Buffer.size (TCPSegment.payload tcp_seg)) +:+
                ", TCP header contents:" +:+ newline +:+ tcp_header (TCPSegment.header tcp_seg) +:+ newline).

Section Program.
Context {K : Type} `{Kernel K} `{SocketKernel K}.

(** [while (true)]: it ends with an exception; [fuel] bounds the packets that
    are followed, [shown] is what was printed. *)
Fixpoint loop (fuel : nat) (tun : FDWrapper.t) (k : K) (shown : list string) : list string * outcome Z :=
  match fuel with
  | O => (shown, Diverge)
  | S fuel =>
      match ('(buffer, tun, k) ← FileDescriptor.read (2 ^ 64 - 1) tun k;
             text ← report buffer; Ret (text, tun, k)) with
      | Ret (text, tun, k) => loop fuel tun k (shown ++ [text])
      | Raise e => (shown, Raise e)
      | Diverge => (shown, Diverge)
      end
  end.

Definition main (fuel : nat) (k : K) : list string * outcome Z :=
  match TunTapFD.make (String.list_byte_of_string "tun144") true k with
  | Ret (tun, k) => let '(shown, r) := loop fuel tun k [] in (shown, exit_status r)
  | Raise e => ([], exit_status (Raise e))
  | Diverge => ([], Diverge)
  end.

End Program.

End Tun.

(** ** Command lines *)

Module TcpAppsFacts.

(** What the options leave are the last two arguments. *)
Definition last_two {A} (argv : list string) (m : outcome (parsed (A * list string))) : Prop :=
  match m with Ret (Config (_, rest)) => rest = drop (length argv - 2) argv | _ => True end.

Lemma last_two_cons {A} arg argv (m : outcome (parsed (A * list string))) :
  (2 <= length argv)%nat -> last_two argv m -> last_two (arg :: argv) m.
Proof.
  intros Hl. destruct m as [[| [s rest]] | |]; [done | | done | done]. cbn [last_two length].
  by replace (S (length argv) - 2)%nat with (S (length argv - 2)) by lia.
Qed.

(** By induction on the length of what is left: an option takes one or two
    arguments, and two more must remain. *)
Ltac last_two_options f :=
  let IH := fresh "IH" in
  intros argv; induction argv as [argv IH] using (induction_ltof1 _ (@length string)); unfold ltof in IH;
  intros s Hl; destruct argv as [| arg rest]; [cbn in Hl; lia |]; cbn [f]; unfold check_argc, Zlen; cbn [length] in *;
  repeat first
  [ done
  | match goal with
    | |- context [if ?a <=? ?b then _ else _] => destruct (Z.leb_spec a b)
    | |- context [if ?b then _ else _] => destruct b
    | |- context [match ?r with [] => _ | _ :: _ => _ end] => is_var r; destruct r; cbn [length] in *
    | |- context [Cli.loss_rate ?v] => destruct (Cli.loss_rate v); cbn [mbind outcome_bind]
    end
  | progress cbn [mbind outcome_bind]
  | solve [repeat (apply last_two_cons; [cbn [length]; lia |]); apply IH; cbn [length]; lia]
  | solve [cbn [last_two length]; by replace (S (length rest) - 2)%nat with 0%nat by lia] ].

Lemma ipv4_last_two argv : forall s, (2 <= length argv)%nat -> last_two argv (TcpIpv4.options argv s).
Proof. revert argv. last_two_options TcpIpv4.options. Qed.
Lemma udp_last_two argv : forall s, (2 <= length argv)%nat -> last_two argv (TcpUdp.options argv s).
Proof. revert argv. last_two_options TcpUdp.options. Qed.
Lemma ethernet_last_two argv : forall s, (2 <= length argv)%nat -> last_two argv (TcpIpEthernet.options argv s).
Proof. revert argv. last_two_options TcpIpEthernet.options. Qed.

Lemma last_two_list {A} argv (m : outcome (parsed (A * list string))) s rest :
  (2 <= length argv)%nat -> last_two argv m -> m = Ret (Config (s, rest)) ->
  exists host port, rest = [host; port] /\ rest = drop (length argv - 2) argv.
Proof.
  intros Hl H ->. cbn in H. assert (Hn : length rest = 2%nat) by (rewrite H, length_drop; lia).
  destruct rest as [| host [| port []]]; try done. by eexists _, _.
Qed.

(** ** Options, printed and read *)

(** The options of tcp_ipv4. *)
Inductive opt :=
| Listen
| SourceAddress (a : string)
| SourcePort (p : string)
| Window (n : Z)
| Timeout (n : Z)
| TunDev (d : string)
| LossUp (arg : string) (rate : Z)
| LossDown (arg : string) (rate : Z).

Definition render (o : opt) : list string :=
  match o with
  | Listen => ["-l"]
  | SourceAddress a => ["-a"; a]
  | SourcePort p => ["-s"; p]
  | Window n => ["-w"; to_string n]
  | Timeout n => ["-t"; to_string n]
  | TunDev d => ["-d"; d]
  | LossUp arg _ => ["-Lu"; arg]
  | LossDown arg _ => ["-Ld"; arg]
  end%string.

(** What an option asks for. *)
Definition asked (s : TcpIpv4.t) (o : opt) : TcpIpv4.t :=
  let 'TcpIpv4.mk (TCPConfig.mk rt recv send isn) (FdAdapterConfig.mk src dst dn up) dev listen a p := s in
  match o with
  | Listen => TcpIpv4.mk (TCPConfig.mk rt recv send isn) (FdAdapterConfig.mk src dst dn up) dev true a p
  | SourceAddress a => TcpIpv4.mk (TCPConfig.mk rt recv send isn) (FdAdapterConfig.mk src dst dn up) dev listen a p
  | SourcePort p => TcpIpv4.mk (TCPConfig.mk rt recv send isn) (FdAdapterConfig.mk src dst dn up) dev listen a p
  | Window n => TcpIpv4.mk (TCPConfig.mk rt n send isn) (FdAdapterConfig.mk src dst dn up) dev listen a p
  | Timeout n => TcpIpv4.mk (TCPConfig.mk n recv send isn) (FdAdapterConfig.mk src dst dn up) dev listen a p
  | TunDev d => TcpIpv4.mk (TCPConfig.mk rt recv send isn) (FdAdapterConfig.mk src dst dn up) (Some d) listen a p
  | LossUp _ r => TcpIpv4.mk (TCPConfig.mk rt recv send isn) (FdAdapterConfig.mk src dst dn r) dev listen a p
  | LossDown _ r => TcpIpv4.mk (TCPConfig.mk rt recv send isn) (FdAdapterConfig.mk src dst r up) dev listen a p
  end.

Definition opt_ok (o : opt) : Prop :=
  match o with
  | Window n => 0 <= n < 2 ^ 63
  | Timeout n => 0 <= n < 2 ^ 16
  | LossUp arg r | LossDown arg r => Cli.loss_rate arg = Ret r
  | _ => True
  end.

Ltac compare_names :=
  repeat match goal with
  | |- context [same ?a ?b] => let v := eval vm_compute in (same a b) in change (same a b) with v
  | |- context [String.prefix ?a ?b] => let v := eval vm_compute in (String.prefix a b) in change (String.prefix a b) with v
  end; cbv iota.

(** One option in front of the others. *)
Lemma options_render o rest s :
  opt_ok o -> (2 <= length rest)%nat -> TcpIpv4.options (render o ++ rest) s = TcpIpv4.options rest (asked s o).
Proof.
  intros Ho Hl. assert (Hz : 2 <= Zlen rest) by (unfold Zlen; lia).
  assert (H1 : forall x, (Zlen (x :: rest) <=? 2) = false) by (intros; rewrite Zlen_cons; lia).
  assert (H2 : forall x y, (Zlen (x :: y :: rest) <=? 2) = false) by (intros; rewrite !Zlen_cons; lia).
  assert (H3 : forall x y, check_argc (x :: y :: rest) = false) by (intros; unfold check_argc; rewrite !Zlen_cons; lia).
  destruct o; cbn [render app opt_ok] in *.
  1: { cbn [TcpIpv4.options]. rewrite H1. compare_names. by destruct s as [[] []]. }
  all: match goal with |- TcpIpv4.options (_ :: ?l) _ = _ => remember l as tl eqn:Htl end.
  all: cbn [TcpIpv4.options]; compare_names; subst tl; rewrite H2, H3; cbn [mbind outcome_bind].
  all: destruct s as [[] []]; try done.
  - cbn. rewrite CliFacts.strtol_to_string by lia. unfold set_recv_capacity, TcpIpv4.with_fsm. cbn. rewrite u64_small by lia. done.
  - cbn. rewrite CliFacts.strtol_to_string by lia. unfold set_rt_timeout, TcpIpv4.with_fsm. cbn. rewrite u16_small by lia. done.
  - rewrite Ho. done.
  - rewrite Ho. done.
Qed.

Lemma options_roundtrip opts host port s :
  Forall opt_ok opts ->
  TcpIpv4.options (concat (map render opts) ++ [host; port]) s = Ret (Config (foldl asked s opts, [host; port])).
Proof.
  revert s. induction opts as [| o opts IH]; intros s Ho; [done |].
  apply Forall_cons in Ho as [Ho Hos]. cbn [map concat foldl]. rewrite <- app_assoc, options_render; [by apply IH | done |].
  rewrite length_app. cbn. lia.
Qed.

Lemma asked_destination opts s :
  FdAdapterConfig.destination (TcpIpv4.c_filt (foldl asked s opts)) = FdAdapterConfig.destination (TcpIpv4.c_filt s).
Proof.
  revert s. induction opts as [| o opts IH]; intros s; [done |]. cbn [foldl]. rewrite IH. by destruct s as [[] []], o.
Qed.


(** Every kind of option, and operands that look like options' arguments. *)
Definition sample_options : list opt :=
  [SourceAddress "10.0.0.9"; SourcePort "4000"; Window 1460; LossUp "0.25" 16383; Timeout 250; LossDown "1" 65535;
   TunDev "tun145"; Window 2920].


(** None of the three programs reads its arguments past their end: with
    two arguments or more after the program's name, if the options do not end
    the program they leave exactly the two operands that the configuration
    takes. *)
Lemma operands_in_bounds (argv rest : list string) (s4 s4' : TcpIpv4.t) (su su' : TcpUdp.t) (se se' : TcpIpEthernet.t) :
  (2 <= length argv)%nat ->
  (TcpIpv4.options argv s4 = Ret (Config (s4', rest)) \/ TcpUdp.options argv su = Ret (Config (su', rest)) \/
   TcpIpEthernet.options argv se = Ret (Config (se', rest))) ->
  exists host port, rest = [host; port] /\ rest = drop (length argv - 2) argv.
Proof.
  intros Hl [H | [H | H]]; (eapply last_two_list; [done | | exact H]).
  - by apply ipv4_last_two.
  - by apply udp_last_two.
  - by apply ethernet_last_two.
Qed.

End TcpAppsFacts.

Module TunFacts.
Import Tun IPv4Facts TCPSegmentFacts FileDescriptor FileDescriptorFacts.

(** Every packet is shown. *)
Lemma report_total buffer : Zlen buffer < 2 ^ 64 -> exists text, report buffer = Ret text.
Proof.
  intros Hl. unfold report.
  destruct (datagram_parse_total (Buffer.of_string buffer) IPv4Datagram.default_) as (r & d & b & -> & Hp & Hb & _);
    [by apply Buffer.wf_of_string | done |]. cbn [mbind outcome_bind].
  destruct (negb _); [by eexists |]. destruct (negb _); [by eexists |].
  rewrite Hp. cbn [BufferList.to_buffer mbind outcome_bind].
  destruct (segment_parse_total b (IPv4Header.pseudo_cksum (IPv4Datagram.header d)) TCPSegment.default_ Hb) as (r' & seg & -> & _); [done |].
  cbn [mbind outcome_bind]. destruct (negb _); by eexists.
Qed.

(** The packets that successive reads return. *)
Fixpoint arrive {K} `{Kernel K} (tun : FDWrapper.t) (k : K) (packets : list bytes) : Prop :=
  match packets with
  | [] => True
  | p :: packets => exists tun' k', read (2 ^ 64 - 1) tun k = Ret (p, tun', k') /\ arrive tun' k' packets
  end.

(** The TUN monitor shows every packet that arrives, whatever is in it,
    one report each and in order; it goes on until a system call fails. *)
Theorem tun_shows_packets {K} `{KernelLaws K} (fuel : nat) (tun : FDWrapper.t) (k : K) (shown : list string) :
  exists packets texts r, loop fuel tun k shown = (shown ++ texts, r) /\
    arrive tun k packets /\ Forall2 (fun p text => report p = Ret text) packets texts /\
    match r with
    | Diverge => length packets = fuel
    | Raise e => kernel_fault e
    | Ret _ => False
    end.
Proof.
  revert tun k shown. induction fuel as [| fuel IH]; intros tun k shown.
  { exists [], [], Diverge. rewrite app_nil_r. by split_and!. }
  cbn [loop]. pose proof (fd_read_ok (2 ^ 64 - 1) tun k) as Hr. destruct (read (2 ^ 64 - 1) tun k) as [[[p tun'] k'] | e |] eqn:Hread.
  - destruct Hr as [(_ & Hlen & _) _]. destruct (report_total p) as [text Ht]; [unfold BUFFER_SIZE in Hlen; lia |].
    cbn [mbind outcome_bind]. rewrite Ht. cbn [mbind outcome_bind].
    destruct (IH tun' k' (shown ++ [text])) as (packets & texts & r & -> & Ha & Hf & He).
    exists (p :: packets), (text :: texts), r. rewrite <- app_assoc. split_and!; [done | by exists tun', k' | by constructor |].
    destruct r; [done | done | by cbn; f_equal].
  - exists [], [], (Raise e). rewrite app_nil_r. destruct Hr as [Hr _]. by split_and!.
  - by destruct Hr.
Qed.

End TunFacts.
