(* ===== verification/test_map.v ===== *)
(** * MyTests/testMap: the prototype of the reassembler's insertion

    The program tries on constants the algorithm that AddTempCash uses: an
    ordered map from the last index of a piece of text to the piece, with
    [int] indices.  The [printf] of a [size_t] with the format %d, which is
    undefined, is left out. *)

From Stdlib Require Import Ascii.
From S2P Require Import Prelude byte_stream stream_reassembler resolver format.

Module TestMap.
Import StreamReassembler (lower_bound, map_set).

Definition entry : Type := Z * bytes.

(** Decimal text of an [int]. *)
Definition int_text (n : Z) : string := if n <? 0 then "-" +:+ to_string (- n) else to_string n.

Definition printme (m : list entry) : string :=
  foldr (fun '(k, v) s => int_text k +:+ "," +:+ Format.string_of_bytes v +:+ "  " +:+ s)%string EmptyString m.

(** The indices are converted to [int]. *)
Definition combine (s1 s2 : bytes) (index1 index2 : Z) : outcome bytes :=
  let '(left_, right_, in1, in2) :=
    if index1 <? index2 then (s1, s2, i32 index1, i32 index2) else (s2, s1, i32 index2, i32 index1) in
  if u64 (in2 + Zlen right_) <=? u64 (in1 + Zlen left_) then Ret left_
  else
    tail ← substr right_ (u64 (in1 + Zlen left_ - in2)) (Zlen right_);
    Ret (left_ ++ tail).

(** [it->first-(int)it->second.size()+1] and, as a [size_t],
    [it->first-it->second.size()+1]. *)
Definition int_start (e : entry) : Z := i32 (fst e - Zlen (snd e) + 1).
Definition start (e : entry) : Z := u64 (fst e - Zlen (snd e) + 1).

(** The [while] loop; [rb] is compared as a [size_t]. *)
Fixpoint covered (rb : Z) (it : list entry) (ecount : Z) (eit : entry) : Z * entry * list entry :=
  match it with
  | [] => (ecount, eit, [])
  | e :: it' =>
      if start e <=? u64 rb then covered rb it' (i32 (ecount + Zlen (snd e))) e else (ecount, eit, it)
  end.

(** From [m.lower_bound(lb)] to the end of [main]: [icount], [ecount] and the
    map.  The iterator is used before it is compared with [m.end()]. *)
Definition insert (m : list entry) (s : bytes) (lb rb : Z) : outcome (Z * Z * list entry) :=
  let '(before, it) := lower_bound lb m in
  match it with
  | [] => Raise (undefined_behaviour "dereferencing end()")
  | fit :: _ =>
      if int_start fit >? rb then Ret (i32 (rb - lb + 1), 0, map_set rb s m)
      else
        let '(ecount, eit, it) := covered rb it 0 fit in
        let icount := i32 (Z.max rb (fst eit) - Z.min lb (int_start fit) + 1) in
        ins ← combine (snd fit) s (start fit) (u64 lb);
        ins ← combine (snd eit) ins (start eit) (u64 (Z.min lb (int_start fit)));
        Ret (icount, ecount, map_set (Z.max rb (fst eit)) ins (before ++ it))
  end.

(** The rest of the output. *)
Definition main : outcome string :=
  let text := String.list_byte_of_string in
  let m := map_set 0 (text "0") (map_set 3 (text "23") (map_set 4 (text "4") (map_set 9 (text "789") []))) in
  let out := printme m +:+ Format.newline +:+ "haha" +:+ Format.newline in
  let s := text "!@#" in
  let lb := -3 in
  let rb := -1 in
  first ← match snd (lower_bound lb m) with
          | [] => Raise (undefined_behaviour "dereferencing end()")
          | e :: _ => Ret (to_string (start e))
          end;
  '(icount, ecount, m) ← insert m s lb rb;
  Ret (out +:+ first +:+ Format.newline +:+ int_text icount +:+ "," +:+ int_text ecount +:+ Format.newline +:+ printme m).

End TestMap.

Module TestMapFacts.
Import TestMap.

(** A piece whose indices are far from the limits of [int]. *)
Definition small (e : entry) : Prop := 0 <= fst e - Zlen (snd e) + 1 /\ fst e < 2 ^ 30.

Lemma small_start e : small e ->
  int_start e = StreamReassembler.start e /\ start e = StreamReassembler.start e /\ 0 <= StreamReassembler.start e < 2 ^ 31 /\
  Zlen (snd e) < 2 ^ 31.
Proof.
  intros [H1 H2]. pose proof (Zlen_nonneg (snd e)). unfold int_start, start, StreamReassembler.start.
  rewrite i32_small, u64_small by lia. lia.
Qed.

Lemma combine_same s1 s2 i1 i2 :
  0 <= i1 < 2 ^ 31 -> 0 <= i2 < 2 ^ 31 -> combine s1 s2 i1 i2 = StreamReassembler.combine s1 s2 i1 i2.
Proof. intros H1 H2. unfold combine, StreamReassembler.combine. by rewrite !i32_small by lia. Qed.

Definition total (m : list entry) : Z := Zlen (concat (map snd m)).

Lemma covered_same rb l ecount eit :
  Forall small l -> small eit -> 0 <= rb < 2 ^ 30 -> 0 <= ecount -> ecount + total l < 2 ^ 31 ->
  covered rb l ecount eit = StreamReassembler.overlap rb l ecount eit /\ small (snd (fst (covered rb l ecount eit))) /\
  0 <= fst (fst (covered rb l ecount eit)) < 2 ^ 31.
Proof.
  revert ecount eit. induction l as [| e l IH]; intros ecount eit Hl He Hrb Hc Ht; unfold total in *; cbn [map concat] in Ht.
  { change (Zlen []) with 0 in Ht. cbn. split_and!; [done | done | lia | lia]. }
  apply Forall_cons in Hl as [Hse Hl]. rewrite Zlen_app in Ht. pose proof (Zlen_nonneg (concat (map snd l))). pose proof (Zlen_nonneg (snd e)).
  destruct (small_start e Hse) as (_ & Hs & _ & Hlen). cbn [covered StreamReassembler.overlap]. rewrite Hs, (u64_small rb) by lia.
  destruct (_ <=? rb); [| cbn; split_and!; [done | done | lia | lia]].
  rewrite i32_small, u64_small by lia. apply IH; [done | done | done | lia | lia].
Qed.

Lemma lower_bound_app lb (m : list entry) : m = fst (StreamReassembler.lower_bound lb m) ++ snd (StreamReassembler.lower_bound lb m).
Proof.
  induction m as [| e m IH]; [done |]. cbn [StreamReassembler.lower_bound]. destruct (_ <? _); [| done].
  destruct (StreamReassembler.lower_bound lb m) as [a b]. cbn in *. by f_equal.
Qed.

(** The prototype computes what the reassembler does: on pieces with
    indices below 2^30 and a map with a piece that ends at [lb] or later, the
    new map is the one [AddTempCash] stores, and [icount - ecount] is the
    change of its count of unassembled bytes. *)
Theorem prototype_agrees (m : list entry) (s : bytes) (lb rb unassembled : Z) :
  Forall small m -> total m < 2 ^ 31 -> 0 <= lb <= rb -> rb < 2 ^ 30 -> snd (StreamReassembler.lower_bound lb m) <> [] ->
  StreamReassembler.store s lb rb m unassembled =
    ('(icount, ecount, m') ← insert m s lb rb; Ret (m', u64 (unassembled + icount - ecount))).
Proof.
  intros Hm Ht Hlb Hrb Hne. unfold StreamReassembler.store, insert. pose proof (lower_bound_app lb m) as Happ.
  destruct (StreamReassembler.lower_bound lb m) as [before [| fit after]]; [done |]. cbn [fst snd] in Happ.
  assert (Hafter : Forall small (fit :: after)) by (rewrite Happ in Hm; by apply Forall_app in Hm as [_ ?]).
  assert (Hta : total (fit :: after) < 2 ^ 31).
  { revert Ht. rewrite Happ. unfold total. rewrite map_app, concat_app, Zlen_app.
    pose proof (Zlen_nonneg (concat (map snd before))). lia. }
  pose proof (Forall_inv Hafter) as Hfit. destruct (small_start fit Hfit) as (Hi & Hs & Hr & _). rewrite Hi, Hs.
  destruct (_ >? rb). { cbn [mbind outcome_bind]. rewrite i32_small, (u64_small (rb - lb + 1)) by lia. do 2 f_equal. f_equal. lia. }
  destruct (covered_same rb (fit :: after) 0 fit) as (Hc & Heit & Hec); [done | done | lia | lia | lia |]. rewrite <- Hc.
  destruct (covered rb (fit :: after) 0 fit) as [[ecount eit] rest]. cbn [fst snd] in *.
  destruct (small_start eit Heit) as (_ & Hse & Hre & _). rewrite Hse. destruct Heit as [_ Hk].
  rewrite (u64_small lb), (u64_small (Z.min _ _)), combine_same by lia.
  destruct (StreamReassembler.combine _ s _ lb) as [ins | |]; [| done | done]. cbn [mbind outcome_bind].
  rewrite combine_same by lia. destruct (StreamReassembler.combine _ ins _ _) as [ins' | |]; [| done | done]. cbn [mbind outcome_bind].
  rewrite i32_small, (u64_small (Z.max _ _ - _ + 1)) by lia. done.
Qed.

Lemma prototype_agrees_witness :
  let m := [(3, [Byte.x62; Byte.x63]); (9, [Byte.x67; Byte.x68; Byte.x69])] in
  StreamReassembler.store [Byte.x64; Byte.x65; Byte.x66; Byte.x67] 4 7 m 5 = Ret ([(3, [Byte.x62; Byte.x63]);
    (9, [Byte.x64; Byte.x65; Byte.x66; Byte.x67; Byte.x68; Byte.x69])], 8).
Proof.
  intros m. rewrite (prototype_agrees m); [vm_compute; reflexivity | | vm_compute; reflexivity | lia | lia | done].
  repeat constructor; vm_compute; congruence.
Defined.

(** The program's output. *)
Lemma main_output :
  main = Ret ("0,0  3,23  4,4  9,789  " +:+ Format.newline +:+ "haha" +:+ Format.newline +:+ "0" +:+ Format.newline +:+
              "3,0" +:+ Format.newline +:+ "-1,!@#  0,0  3,23  4,4  9,789  ")%string.
Proof. vm_compute. reflexivity. Qed.

End TestMapFacts.
