(* ===== verification/doctests.v ===== *)
(** * doctests: the examples of the documentation, as programs

    Each example ends with a check that throws; the theorems say that the
    checks pass.  The socket examples are run on a kernel with sockets that are
    connected inside one machine. *)

From S2P Require Import Prelude buffer parser codec address resolver kernel file_descriptor socket.

Module Doctests.

Definition text (s : string) : bytes := String.list_byte_of_string s.

(** parser_example.cc, for any values. *)
Definition parser_example (val1 val2 val3 val4 : Z) : outcome unit :=
  let buffer := [byte_of 0x32] in
  let buffer := NetUnparser.u32 buffer val1 in
  let buffer := NetUnparser.u16 buffer val2 in
  let buffer := NetUnparser.u8 buffer val3 in
  let buffer := NetUnparser.u32 buffer val4 in
  let p := NetParser.make (Buffer.of_string buffer) in
  '(out0, p) ← NetParser.u8 p;
  '(out1, p) ← NetParser.u32 p;
  '(out2, p) ← NetParser.u16 p;
  '(out3, p) ← NetParser.u8 p;
  '(out4, p) ← NetParser.u32 p;
  if negb (out0 =? 0x32) || negb (out1 =? val1) || negb (out2 =? val2) || negb (out3 =? val3) || negb (out4 =? val4)
  then Raise (runtime_error "bad parse") else Ret ().

Definition val1 : Z := 0xdeadbeef.
Definition val2 : Z := 0xc0c0.
Definition val3 : Z := 0xff.
Definition val4 : Z := 0x0c05fefe.

(** [main] of parser_dt.cc: the exit status. *)
Definition parser_dt : outcome Z :=
  match parser_example val1 val2 val3 val4 with
  | Ret _ => Ret 0
  | Raise _ => Ret 1
  | Diverge => Diverge
  end.

Section Address.
Context {RsI : Resolver}.

(** The body of [main] in address_dt.cc. *)
Definition address_dt : outcome unit :=
  google_webserver ← Names.of_host "www.google.com" "https";
  a_dns_server ← Names.of_ip "18.71.0.151" 53;
  a_dns_server_numeric ← Address.ipv4_numeric a_dns_server;
  port ← Names.port google_webserver;
  if negb (port =? 443) || negb (a_dns_server_numeric =? 0x12470097) then Raise (runtime_error "unexpected value") else Ret ().

End Address.

Section Sockets.
Context {K : Type} `{Kernel K} `{SocketKernel K} {RsI : Resolver}.

Definition portnum (random_device : Z) : Z := u16 (random_device mod 50000 + 1025).

Definition check (recvd recvd2 : bytes) (k : K) : outcome K :=
  if negb (bool_decide (recvd = text "hi there")) || negb (bool_decide (recvd2 = text "hi yourself"))
  then Raise (runtime_error "wrong data received") else Ret k.

(** The sockets are closed at the end of the block, the last one first. *)
Definition socket_example_1 (random_device : Z) (k : K) : outcome K :=
  let portnum := portnum random_device in
  '(sock1, k) ← UDPSocket.make k;
  a ← Names.of_ip "127.0.0.1" portnum;
  k ← Socket.bind a sock1 k;
  '(sock2, k) ← UDPSocket.make k;
  a ← Names.of_ip "127.0.0.1" portnum;
  '(sock2, k) ← UDPSocket.sendto a (BufferViewList.of_string (text "hi there")) sock2 k;
  '(source_address, recvd, sock1, k) ← UDPSocket.recv 65536 sock1 k;
  k ← Socket.connect source_address sock1 k;
  '(sock1, k) ← UDPSocket.send (BufferViewList.of_string (text "hi yourself")) sock1 k;
  '(_, recvd2, sock2, k) ← UDPSocket.recv 65536 sock2 k;
  k ← check recvd recvd2 k;
  Ret (FDWrapper.destruct_ sock1 (FDWrapper.destruct_ sock2 k)).

Definition socket_example_2 (random_device : Z) (k : K) : outcome K :=
  let portnum := portnum random_device in
  '(sock1, k) ← TCPSocket.make k;
  a ← Names.of_ip "127.0.0.1" portnum;
  k ← Socket.bind a sock1 k;
  k ← TCPSocket.listen 1 sock1 k;
  '(sock2, k) ← TCPSocket.make k;
  a ← Names.of_ip "127.0.0.1" portnum;
  k ← Socket.connect a sock2 k;
  '(sock1, sock3, k) ← TCPSocket.accept sock1 k;
  '(_, sock3, k) ← FileDescriptor.write (BufferViewList.of_string (text "hi there")) true sock3 k;
  '(recvd, sock2, k) ← FileDescriptor.read (2 ^ 64 - 1) sock2 k;
  '(_, sock2, k) ← FileDescriptor.write (BufferViewList.of_string (text "hi yourself")) true sock2 k;
  '(recvd2, sock3, k) ← FileDescriptor.read (2 ^ 64 - 1) sock3 k;
  '(sock1, k) ← FileDescriptor.close sock1 k;
  '(sock2, k) ← FileDescriptor.close sock2 k;
  '(sock3, k) ← Socket.shutdown Socket.SHUT_RDWR sock3 k;
  k ← check recvd recvd2 k;
  Ret (FDWrapper.destruct_ sock1 (FDWrapper.destruct_ sock2 (FDWrapper.destruct_ sock3 k))).

Definition socket_example_3 (k : K) : outcome K :=
  '((fd0, fd1), k) ← SystemCall "socketpair" (sys_socketpair Socket.AF_UNIX Socket.SOCK_STREAM k);
  pipe1 ← FDWrapper.make (Z.of_N fd0);
  k ← Socket.of_fd pipe1 Socket.AF_UNIX Socket.SOCK_STREAM k;
  pipe2 ← FDWrapper.make (Z.of_N fd1);
  k ← Socket.of_fd pipe2 Socket.AF_UNIX Socket.SOCK_STREAM k;
  '(_, pipe1, k) ← FileDescriptor.write (BufferViewList.of_string (text "hi there")) true pipe1 k;
  '(recvd, pipe2, k) ← FileDescriptor.read (2 ^ 64 - 1) pipe2 k;
  '(_, pipe2, k) ← FileDescriptor.write (BufferViewList.of_string (text "hi yourself")) true pipe2 k;
  '(recvd2, pipe1, k) ← FileDescriptor.read (2 ^ 64 - 1) pipe1 k;
  k ← check recvd recvd2 k;
  Ret (FDWrapper.destruct_ pipe1 (FDWrapper.destruct_ pipe2 k)).

(** The body of [main] in socket_dt.cc. *)
Definition socket_dt (random1 random2 : Z) (k : K) : outcome K :=
  k ← socket_example_1 random1 k;
  k ← socket_example_2 random2 k;
  socket_example_3 k.

End Sockets.

End Doctests.

(** ** A machine with sockets *)

Module LoopKernel.

Record sock := Sock {
  s_domain : Z;
  s_type : Z;
  s_local : bytes;                   (* its own address *)
  s_remote : bytes;                  (* the address it is connected to *)
  s_packets : list (bytes * bytes);  (* datagrams that arrived, with their sources *)
  s_pending : list N;                (* connections to accept *)
  s_peer : Z;                        (* the other end of a stream *)
  s_data : bytes;                    (* bytes that arrived *)
}.

Record t := Loop {
  socks : gmap Z sock;
  next : N;
}.

Definition EBADF : Z := 9.
Definition ECONNREFUSED : Z := 111.

(** Every new socket gets an address of its own. *)
Definition own_address (fd : N) : bytes := Address.sockaddr_in (40000 + Z.of_N fd) 0x7f000001.
Definition update (fd : Z) (s : sock) (k : t) : t := Loop (<[fd := s]> (socks k)) (next k).
Definition bound_to (addr : bytes) (k : t) : option (Z * sock) :=
  List.find (fun p => bool_decide (s_local (snd p) = addr)) (map_to_list (socks k)).

Definition socket (domain type : Z) (k : t) : sysret N * t :=
  (SysOk (next k), Loop (<[Z.of_N (next k) := Sock domain type (own_address (next k)) [] [] [] (-1) []]> (socks k)) (next k + 1)).

(** Two stream sockets, connected. *)
Definition socketpair (domain type : Z) (k : t) : sysret (N * N) * t :=
  let a := next k in
  let b := (next k + 1)%N in
  let k := snd (socket domain type (snd (socket domain type k))) in
  (SysOk (a, b), update (Z.of_N a) (Sock domain type [] [] [] [] (Z.of_N b) [])
                   (update (Z.of_N b) (Sock domain type [] [] [] [] (Z.of_N a) []) k)).

Definition on {A} (fd : Z) (f : sock -> sysret A * t) (k : t) : sysret A * t :=
  match socks k !! fd with Some s => f s | None => (SysErr EBADF, k) end.

Definition bind (fd : Z) (addr : bytes) (len : Z) (k : t) : sysret unit * t :=
  on fd (fun s => (SysOk (), update fd (Sock (s_domain s) (s_type s) (take (Z.to_nat len) addr) (s_remote s) (s_packets s) (s_pending s) (s_peer s) (s_data s)) k)) k.

(** A datagram socket remembers its peer; a stream socket is paired with a
    new one, which waits to be accepted. *)
Definition connect (fd : Z) (addr : bytes) (len : Z) (k : t) : sysret unit * t :=
  let addr := take (Z.to_nat len) addr in
  on fd (fun s =>
    if s_type s =? Socket.SOCK_DGRAM then
      (SysOk (), update fd (Sock (s_domain s) (s_type s) (s_local s) addr (s_packets s) (s_pending s) (s_peer s) (s_data s)) k)
    else match bound_to addr k with
         | None => (SysErr ECONNREFUSED, k)
         | Some (lfd, l) =>
             let new := next k in
             let k := snd (socket (s_domain s) (s_type s) k) in
             let k := update (Z.of_N new) (Sock (s_domain s) (s_type s) (s_local l) (s_local s) [] [] fd []) k in
             let k := update fd (Sock (s_domain s) (s_type s) (s_local s) addr [] [] (Z.of_N new) []) k in
             (SysOk (), update lfd (Sock (s_domain l) (s_type l) (s_local l) (s_remote l) (s_packets l) (s_pending l ++ [new]) (s_peer l) (s_data l)) k)
         end) k.

Definition accept (fd : Z) (k : t) : sysret N * t :=
  on fd (fun s => match s_pending s with
                  | [] => (SysErr EBADF, k)
                  | n :: rest => (SysOk n, update fd (Sock (s_domain s) (s_type s) (s_local s) (s_remote s) (s_packets s) rest (s_peer s) (s_data s)) k)
                  end) k.

Definition sendmsg (fd : Z) (dst : option (bytes * Z)) (iov : list (bytes * Z)) (k : t) : sysret N * t :=
  on fd (fun s =>
    let addr := match dst with Some (a, len) => take (Z.to_nat len) a | None => s_remote s end in
    let data := concat (map fst iov) in
    (SysOk (N.of_nat (length data)),
     match bound_to addr k with
     | None => k
     | Some (rfd, r) => update rfd (Sock (s_domain r) (s_type r) (s_local r) (s_remote r) (s_packets r ++ [(s_local s, data)]) (s_pending r) (s_peer r) (s_data r)) k
     end)) k.

Definition recvfrom (fd n : Z) (k : t) : sysret (N * bytes * bytes * Z) * t :=
  on fd (fun s => match s_packets s with
                  | [] => (SysErr EBADF, k)
                  | (from, data) :: rest =>
                      (SysOk (N.of_nat (length data), take (Z.to_nat n) data, from, Zlen from),
                       update fd (Sock (s_domain s) (s_type s) (s_local s) (s_remote s) rest (s_pending s) (s_peer s) (s_data s)) k)
                  end) k.

Definition writev (fd : Z) (iov : list (bytes * Z)) (k : t) : sysret N * t :=
  on fd (fun s => on (s_peer s) (fun r =>
    let data := concat (map fst iov) in
    (SysOk (N.of_nat (length data)),
     update (s_peer s) (Sock (s_domain r) (s_type r) (s_local r) (s_remote r) (s_packets r) (s_pending r) (s_peer r) (s_data r ++ data)) k)) k) k.

Definition read (fd n : Z) (k : t) : sysret bytes * t :=
  on fd (fun s => (SysOk (take (Z.to_nat n) (s_data s)),
    update fd (Sock (s_domain s) (s_type s) (s_local s) (s_remote s) (s_packets s) (s_pending s) (s_peer s) (drop (Z.to_nat n) (s_data s))) k)) k.

#[global] Instance loop_kernel : Kernel t := {|
  sys_read := read;
  sys_writev := writev;
  sys_close fd k := on fd (fun _ => (SysOk (), Loop (delete fd (socks k)) (next k))) k;
  sys_shutdown fd how k := on fd (fun _ => (SysOk (), k)) k;
  sys_getfl fd k := (SysOk 0, k);
  sys_setfl fd flags k := (SysOk (), k);
  sys_poll fds ms k := (SysOk (0%N, map (fun _ => 0) fds), k);
  sys_recvfrom := recvfrom;
  sys_sendmsg := sendmsg;
  sys_now k := (0, k);
|}.

#[global] Instance loop_sockets : SocketKernel t := {|
  sys_socket := socket;
  sys_socketpair := socketpair;
  sys_getsockopt fd level option k :=
    on fd (fun s => (SysOk (if option =? Socket.SO_DOMAIN then s_domain s else s_type s, 4), k)) k;
  sys_setsockopt fd level option value k := on fd (fun _ => (SysOk (), k)) k;
  sys_getsockname fd size k := on fd (fun s => (SysOk (s_local s, Zlen (s_local s)), k)) k;
  sys_getpeername fd size k := on fd (fun s => (SysOk (s_remote s, Zlen (s_remote s)), k)) k;
  sys_bind := bind;
  sys_connect := connect;
  sys_listen fd backlog k := on fd (fun _ => (SysOk (), k)) k;
  sys_accept := accept;
  sys_open path flags k := (SysErr EBADF, k);
  sys_tunsetiff fd name flags k := (SysErr EBADF, k);
|}.

End LoopKernel.

Module DoctestFacts.
Import Doctests ParserFacts CodecFacts.

(** The three socket examples run on that machine, and close what they
    opened. *)
Lemma socket_dt_passes :
  match socket_dt (RsI := NumericResolver.numeric_resolver) 7 8 (LoopKernel.Loop ∅ 3) with
  | Ret k => LoopKernel.socks k = ∅
  | _ => False
  end.
Proof. vm_compute. reflexivity. Qed.

(** The parser's example passes for all values of the fields. *)
Lemma parser_example_passes a b c d :
  in_bits 32 a -> in_bits 16 b -> in_bits 8 c -> in_bits 32 d -> parser_example a b c d = Ret ().
Proof.
  intros Ha Hb Hc Hd. unfold parser_example, NetUnparser.u32, NetUnparser.u16, NetUnparser.u8.
  rewrite !unparse_int_app. rewrite <- !app_assoc. change [byte_of 0x32] with (be_bytes 1 0x32).
  rewrite <- (app_nil_r (be_bytes 4 d)). set (s := be_bytes 1 0x32 ++ _).
  assert (Hs : ahead (NetParser.make (Buffer.of_string s)) s).
  { rewrite <- (Buffer.str_of_string s) at 2. apply ahead_make, Buffer.wf_of_string. unfold s. rewrite !Zlen_app, !Zlen_be_bytes. done. }
  unfold s in Hs at 2. clearbody s. unfold NetParser.u8, NetParser.u16, NetParser.u32. do 5 parse_field.
  by rewrite !Z.eqb_refl.
Qed.

Lemma parser_dt_passes : parser_dt = Ret 0.
Proof. unfold parser_dt. rewrite parser_example_passes; [done | unfold in_bits; vm_compute; intuition congruence ..]. Qed.

(** The address example passes where the name of the web server resolves to
    port 443. *)
Lemma address_dt_passes {RsI : Resolver} {RsL : ResolverLaws} google :
  Names.of_host "www.google.com" "https" = Ret google -> Names.port google = Ret 443 -> address_dt = Ret ().
Proof.
  intros Hg Hp. unfold address_dt. rewrite Hg. cbn [mbind outcome_bind].
  change "18.71.0.151"%string with (inet_ntoa 0x12470097).
  rewrite (ResolverFacts.of_ip_inet 0x12470097 53) by (unfold in_bits; lia). cbn [mbind outcome_bind].
  rewrite AddressFacts.inet_numeric by (unfold in_bits; lia). cbn [mbind outcome_bind]. by rewrite Hp.
Qed.

End DoctestFacts.
