(* ===== verification/random.v ===== *)
(** * util/util: get_random_generator

    The library seeds one [std::mt19937] from [random_device].  The engine and
    [std::seed_seq] are those of the C++ standard: the engine is the window of
    its last 624 values, [random_device] a list of draws. *)

From S2P Require Import Prelude.

Module Mt19937.

Definition state_size : Z := 624.
Definition shift_size : Z := 397.

(** X_{i-n} .. X_{i-1}. *)
Definition t := list Z.

(** The transition: the next value of the sequence. *)
Definition next_value (x : t) : Z :=
  let y := Z.lor (Z.land (nth 0 x 0) 0x80000000) (Z.land (nth 1 x 0) 0x7fffffff) in
  let a := if Z.testbit y 0 then 0x9908b0df else 0 in
  Z.lxor (nth (Z.to_nat shift_size) x 0) (Z.lxor (Z.shiftr y 1) a).

Definition temper (z : Z) : Z :=
  let z := Z.lxor z (Z.shiftr z 11) in
  let z := Z.lxor z (Z.land (Z.shiftl z 7) 0x9d2c5680) in
  let z := Z.lxor z (Z.land (Z.shiftl z 15) 0xefc60000) in
  Z.lxor z (Z.shiftr z 18).

(** [operator()]. *)
Definition draw (x : t) : Z * t :=
  let v := next_value x in (temper v, tail x ++ [v]).

(** The constructor from a value, with [n] more elements to make. *)
Fixpoint seed_loop (n : nat) (i last : Z) : t :=
  match n with
  | O => []
  | S n =>
      let v := u32 (1812433253 * Z.lxor last (Z.shiftr last 30) + i) in
      v :: seed_loop n (i + 1) v
  end.
Definition make (value : Z) : t := u32 value :: seed_loop (Z.to_nat (state_size - 1)) 1 (u32 value).

(** The constructor from a seed sequence: zeros are avoided. *)
Definition of_sequence (a : list Z) : t :=
  match a with
  | [] => []
  | a0 :: rest => if (Z.shiftr a0 31 =? 0) && forallb (Z.eqb 0) rest then 0x80000000 :: rest else a
  end.

End Mt19937.

Module SeedSeq.

Definition T (x : Z) : Z := Z.lxor x (Z.shiftr x 27).

Definition at_ (b : list Z) (k : Z) : Z := nth (Z.to_nat (k mod Zlen b)) b 0.
Definition set_at (b : list Z) (k v : Z) : list Z := <[Z.to_nat (k mod Zlen b) := u32 v]> b.

Definition p (n : Z) : Z := (n - 11) / 2.
Definition q (n : Z) : Z := p n + 11.

(** The two loops of [generate], on a range of at least 623 elements. *)
Definition step1 (n : Z) (v : list Z) (b : list Z) (k : Z) : list Z :=
  let s := Zlen v in
  let r1 := u32 (1664525 * T (Z.lxor (Z.lxor (at_ b k) (at_ b (k + p n))) (at_ b (k - 1)))) in
  let r2 := u32 (r1 + if k =? 0 then s else if k <=? s then k mod n + nth (Z.to_nat (k - 1)) v 0 else k mod n) in
  let b := set_at b (k + p n) (at_ b (k + p n) + r1) in
  let b := set_at b (k + q n) (at_ b (k + q n) + r2) in
  set_at b k r2.

Definition step2 (n : Z) (b : list Z) (k : Z) : list Z :=
  let r3 := u32 (1566083941 * T (u32 (at_ b k + at_ b (k + p n) + at_ b (k - 1)))) in
  let r4 := u32 (r3 - k mod n) in
  let b := set_at b (k + p n) (Z.lxor (at_ b (k + p n)) r3) in
  let b := set_at b (k + q n) (Z.lxor (at_ b (k + q n)) r4) in
  set_at b k r4.

Definition generate (n : Z) (v : list Z) : list Z :=
  let m := Z.max (Zlen v + 1) n in
  let b := replicate (Z.to_nat n) 0x8b8b8b8b in
  let b := foldl (step1 n v) b (seqZ 0 m) in
  foldl (step2 n) b (seqZ m n).

End SeedSeq.

(** [random_device] gives the 624 words of [seed_data]. *)
Definition get_random_generator (random_device : nat -> Z) : Mt19937.t :=
  let seed_data := map (fun i => u32 (random_device i)) (seq 0 (Z.to_nat Mt19937.state_size)) in
  Mt19937.of_sequence (SeedSeq.generate Mt19937.state_size seed_data).

Module RandomFacts.
Import Mt19937.

(** The value that the C++ standard requires of a default-constructed engine:
    its ten thousandth draw. *)
Lemma standard_check : fst (draw (Nat.iter (Z.to_nat 9999) (fun x => snd (draw x)) (make 5489))) = 4123659995.
Proof. vm_compute. reflexivity. Qed.

(** A state: 624 words. *)
Definition wf (x : t) : Prop := Zlen x = state_size /\ Forall (in_bits 32) x.

Lemma lxor_bits a b : in_bits 32 a -> in_bits 32 b -> in_bits 32 (Z.lxor a b).
Proof.
  unfold in_bits. intros Ha Hb. split; [apply Z.lxor_nonneg; lia |].
  destruct (Z.eq_dec (Z.lxor a b) 0) as [-> | Hn]; [lia |]. apply Z.log2_lt_pow2; [pose proof (Z.lxor_nonneg a b); lia |].
  pose proof (Z.log2_lxor a b). assert (Hl : forall z, 0 <= z < 2 ^ 32 -> Z.log2 z < 32).
  { intros z Hz. destruct (Z.eq_dec z 0) as [-> | ?]; [done |]. apply Z.log2_lt_pow2; lia. }
  pose proof (Hl a Ha). pose proof (Hl b Hb). lia.
Qed.

Lemma land_bits a m : in_bits 32 m -> in_bits 32 (Z.land a m).
Proof.
  unfold in_bits. intros Hm. rewrite <- (Z.mod_small m (2 ^ 32)) by lia. rewrite <- Z.land_ones by lia.
  rewrite Z.land_assoc, Z.land_ones by lia. apply Z.mod_pos_bound. lia.
Qed.

Lemma shiftr_bits a n : 0 <= n -> in_bits 32 a -> in_bits 32 (Z.shiftr a n).
Proof.
  unfold in_bits. intros Hn Ha. rewrite Z.shiftr_div_pow2 by lia. pose proof (Z.pow_pos_nonneg 2 n). split; [apply Z.div_pos; lia |].
  apply Z.div_lt_upper_bound; nia.
Qed.

Lemma nth_bits x i : Forall (in_bits 32) x -> in_bits 32 (nth i x 0).
Proof.
  intros Hx. revert i. induction Hx as [| a x Ha Hx IH]; intros [| i]; cbn; try done. all: unfold in_bits; lia.
Qed.

Lemma next_value_bits x : Forall (in_bits 32) x -> in_bits 32 (next_value x).
Proof.
  intros Hx. unfold next_value. apply lxor_bits; [by apply nth_bits |]. apply lxor_bits.
  - apply shiftr_bits; [lia |]. unfold in_bits. split; [apply Z.lor_nonneg; split; apply land_bits; unfold in_bits; lia |].
    set (hi := Z.land _ 0x80000000). set (lo := Z.land _ 0x7fffffff).
    assert (Hh : in_bits 32 hi) by (apply land_bits; unfold in_bits; lia).
    assert (Hl : in_bits 32 lo) by (apply land_bits; unfold in_bits; lia).
    rewrite <- (Z.mod_small hi (2 ^ 32)), <- (Z.mod_small lo (2 ^ 32)) by assumption.
    rewrite <- !Z.land_ones, <- Z.land_lor_distr_l, Z.land_ones by lia. apply Z.mod_pos_bound. lia.
  - destruct (Z.testbit _ 0); unfold in_bits; lia.
Qed.

Lemma temper_bits z : in_bits 32 z -> in_bits 32 (temper z).
Proof.
  intros Hz. unfold temper. repeat (apply lxor_bits || (apply shiftr_bits; [lia |]) || done || (apply land_bits; unfold in_bits; lia)).
Qed.

(** A draw is a [uint32_t] and leaves a state. *)
Lemma draw_ok x : wf x -> in_bits 32 (fst (draw x)) /\ wf (snd (draw x)).
Proof.
  intros [Hl Hx]. pose proof (next_value_bits x Hx) as Hv. cbn [draw fst snd]. split; [by apply temper_bits |].
  destruct x as [| a x]; [done |]. apply Forall_cons in Hx as [_ Hx]. split; cbn [tail].
  - rewrite Zlen_app. rewrite Zlen_cons in Hl. change (Zlen [next_value (a :: x)]) with 1. lia.
  - apply Forall_app. by split; [| constructor].
Qed.

Lemma set_at_ok b k v : wf b -> wf (SeedSeq.set_at b k v).
Proof.
  intros [Hl Hb]. unfold SeedSeq.set_at. split; [unfold Zlen in *; by rewrite length_insert |].
  apply Forall_insert; [done | apply u32_range].
Qed.

Lemma foldl_ok {B} (f : t -> B -> t) l x : (forall x y, wf x -> wf (f x y)) -> wf x -> wf (foldl f x l).
Proof. intros Hf. revert x. induction l as [| y l IH]; intros x Hx; [done |]. apply IH. by apply Hf. Qed.

(** Whatever [random_device] gives, the generator is in a state, and not in
    the one it could not leave: some bit of the sequence is set. *)
Lemma generator_ok random_device (g := get_random_generator random_device) :
  wf g /\ ~ (Z.shiftr (nth 0 g 0) 31 = 0 /\ Forall (eq 0) (tail g)).
Proof.
  unfold get_random_generator in g. set (b := SeedSeq.generate _ _) in g.
  assert (Hb : wf b).
  { apply foldl_ok; [intros x k Hx; by repeat apply set_at_ok |]. apply foldl_ok; [intros x k Hx; by repeat apply set_at_ok |].
    split; [unfold Zlen; by rewrite length_replicate |]. apply Forall_replicate. unfold in_bits. lia. }
  unfold of_sequence in g. clearbody b. destruct b as [| a0 rest]; [by destruct Hb |]. subst g.
  destruct Hb as [Hl [Ha Hr]%Forall_cons].
  destruct ((Z.shiftr a0 31 =? 0) && forallb (Z.eqb 0) rest) eqn:E.
  - split; [split; [by rewrite !Zlen_cons in * | constructor; [unfold in_bits; lia | done]] |]. by intros [? _].
  - split; [by split; [| constructor] |]. cbn [nth tail]. intros [H1 H2]. apply Z.eqb_eq in H1. rewrite H1 in E. cbn [andb] in E.
    apply not_true_iff_false in E. apply E, forallb_forall. intros x Hx%list_elem_of_In.
    rewrite Forall_forall in H2. by rewrite <- (H2 x Hx).
Qed.

End RandomFacts.
