(* ===== verification/network_delivery.v ===== *)
(** * apps/network_simulator: datagrams on a link

    The thirteen interfaces of the simulated network and who hears whom.
    When every interface is at rest (nothing queued, nothing waiting, the
    learnt addresses true), a datagram one of them sends to a neighbour is
    handed up there after one transmission, or after three if the address
    must be resolved first, and every interface is at rest again. *)

From stdpp Require Import functions.
From S2P Require Import Prelude buffer parser util codec ethernet ipv4 address network_interface network_interface_proofs router router_proofs resolver network_simulator network_simulator_proofs.

Module LinkFacts.
Import ParserFacts CodecFacts EthernetFacts IPv4Facts AddressFacts InterfaceFacts RouterFacts SimulatorFacts.
Import AsyncNetworkInterface(base, _datagrams_out).
Import NetworkInterface(cache, since_last_sent, datagrams, _ethernet_address, _ip_address).

Abbreviation iface := AsyncNetworkInterface.t.

(** ** The interfaces *)

(** Those of the router, then those of the hosts. *)
Inductive slot :=
| Default0 | Eth0 | Eth1 | Eth2 | Uun3 | Hs4 | Mit5
| Applesauce | DefaultRouter | Cherrypie | HsRouter | Dm42 | Dm43.

#[global] Instance slot_eq_decision : EqDecision slot.
Proof. solve_decision. Defined.

Definition ip_of (j : slot) : Z :=
  match j with
  | Default0 => 0xab434c2e | Eth0 => 0x0a000001 | Eth1 => 0xac100001 | Eth2 => 0xc0a80001
  | Uun3 => 0xc6b2e501 | Hs4 => 0x8fc30002 | Mit5 => 0x801e4cff
  | Applesauce => 0x0a000002 | DefaultRouter => 0xab434c01 | Cherrypie => 0xc0a80002
  | HsRouter => 0x8fc30001 | Dm42 => 0xc6b2e52a | Dm43 => 0xc6b2e52b
  end.

(** The interfaces that hear what one sends. *)
Definition neighbours (j : slot) : list slot :=
  match j with
  | Default0 => [DefaultRouter] | DefaultRouter => [Default0]
  | Eth0 => [Applesauce] | Applesauce => [Eth0]
  | Eth2 => [Cherrypie] | Cherrypie => [Eth2]
  | Hs4 => [HsRouter] | HsRouter => [Hs4]
  | Uun3 => [Dm42; Dm43] | Dm42 => [Uun3; Dm43] | Dm43 => [Uun3; Dm42]
  | Eth1 => [] | Mit5 => []
  end.

Lemma ip_of_bits j : in_bits 32 (ip_of j).
Proof. unfold in_bits. by destruct j. Qed.

Lemma ip_of_inj j l : ip_of j = ip_of l -> j = l.
Proof. by destruct j, l. Qed.

Lemma neighbours_sym k l : l ∈ neighbours k -> k ∈ neighbours l.
Proof. intros H%(bool_decide_eq_true_2 _). apply (bool_decide_eq_true_1 _). by destruct k, l. Qed.

Lemma neighbours_irrefl k l : l ∈ neighbours k -> l <> k.
Proof. intros H%(bool_decide_eq_true_2 _) ->. by destruct k. Qed.

(** ** What an interface knows *)

Section Lan.
(** The Ethernet addresses: none is the broadcast address, and no two that
    hear the same sender are equal. *)
Context (mac : slot -> EthernetAddress).
Context (mac_length : forall j, length (mac j) = 6%nat).
Context (mac_unicast : forall j, mac j <> ETHERNET_BROADCAST).
Context (mac_distinct : forall k l l', l ∈ neighbours k -> l' ∈ neighbours k -> mac l = mac l' -> l = l').

Record knows (j : slot) (i : iface) : Prop := {
  kn_good : good i;
  kn_ip : Address.ipv4_numeric (_ip_address (base i)) = Ret (ip_of j);
  kn_mac : _ethernet_address (base i) = mac j;
  (** what it has learnt is true *)
  kn_cache : forall a m, cache (base i) !! a = Some m -> exists l, l ∈ neighbours j /\ a = ip_of l /\ m = mac l;
  (** it asks only for what it then learns *)
  kn_asked : forall a, is_Some (since_last_sent (base i) !! a) ->
    is_Some (cache (base i) !! a) \/ is_Some (datagrams (base i) !! a);
}.

Record idle (j : slot) (i : iface) : Prop := {
  id_knows : knows j i;
  id_frames : Network.frames_out i = [];
  id_waiting : datagrams (base i) = ∅;
}.

(** The frames handed to the link. *)
Definition cleared (i : iface) : iface :=
  AsyncNetworkInterface.with_base (NetworkInterface.with_frames_out [] (base i)) i.

Lemma cleared_idle i : Network.frames_out i = [] -> cleared i = i.
Proof. destruct i as [[] q]. unfold cleared, Network.frames_out. cbn. by intros ->. Qed.

Lemma knows_cleared j i : knows j i -> knows j (cleared i).
Proof. intros [[[] Hq] ? ? ? ?]. by split. Qed.

(** ** Hearing a frame *)

Definition hear (fs : list EthernetFrame.t) (i : iface) : iface :=
  match Network.deliver fs i with Ret i' => i' | _ => i end.

(** A frame for someone else. *)
Lemma deliver_other f i dst :
  EthernetHeader.dst (EthernetFrame.header f) = dst -> dst <> ETHERNET_BROADCAST -> dst <> _ethernet_address (base i) ->
  Network.deliver [f] i = Ret i.
Proof.
  intros Hd Hb Hm. cbn [Network.deliver]. unfold AsyncNetworkInterface.recv_frame, NetworkInterface.recv_frame.
  cbn [EthernetFrame.header EthernetFrame._header]. change (EthernetFrame._header f) with (EthernetFrame.header f).
  rewrite Hd, !bool_decide_eq_false_2 by done. by destruct i.
Qed.

(** A datagram for this interface. *)
Lemma deliver_ip j i src d f :
  knows j i -> carries_ip (mac j) src d f -> sendable d ->
  exists d', Network.deliver [f] i = Ret (AsyncNetworkInterface.mk (base i) (_datagrams_out i ++ [d'])) /\ arrives d d'.
Proof.
  intros Hi Hc Hd. pose proof (carries_ip_small _ _ _ _ Hc Hd) as Hl. cbn [Network.deliver]. unfold AsyncNetworkInterface.recv_frame.
  set (b := Buffer.of_string (BufferList.concatenate (EthernetFrame.payload f))). change (BufferList.of_string _) with [b].
  destruct (recv_ip_buffer (mac j) src d f b (base i) Hc Hd) as (d' & -> & Ha).
  - right. by rewrite (kn_mac j i Hi).
  - apply Buffer.wf_of_string. lia.
  - apply Buffer.str_of_string.
  - by exists d'.
Qed.

(** An ARP message for this interface, from a neighbour that tells the truth. *)
Lemma deliver_arp j l i dst src m f :
  knows j i -> carries_arp dst src m f -> arp_wf m -> dst = ETHERNET_BROADCAST \/ dst = mac j ->
  l ∈ neighbours j -> ARPMessage.sender_ip_address m = ip_of l -> ARPMessage.sender_ethernet_address m = mac l ->
  exists fs reply, let i' := AsyncNetworkInterface.mk (learn m (fs ++ reply) (base i)) (_datagrams_out i) in
    Network.deliver [f] i = Ret i' /\ knows j i' /\
    Forall2 (carries_ip (mac l) (mac j)) (default [] (datagrams (base i) !! ip_of l)) fs /\
    (if asks_me m (ip_of j)
     then exists r, reply = [r] /\ carries_arp (mac l) (mac j)
            (NetworkInterface.arp_message ARPMessage.OPCODE_REPLY (mac j) (ip_of j) (mac l) (ip_of l)) r
     else reply = []).
Proof.
  intros [[Hn Hq] Hip Hmac Hcache Hasked] Hc Hm Hdst Hl Hsip Hsmac.
  destruct (recv_arp_ok m (base i) (ip_of j) Hn Hm Hip (ip_of_bits j)) as (fs & reply & Hr & Hfs & Hrep).
  destruct (recv_arp_inv m (base i) Hn Hm) as (n' & Hr' & Hn'). rewrite Hr in Hr'. apply (inj Ret) in Hr' as <-.
  rewrite Hsip, Hsmac, Hmac in *. exists fs, reply. cbv zeta. split_and!; [| | done | done].
  - cbn [Network.deliver]. unfold AsyncNetworkInterface.recv_frame. set (b := Buffer.of_string (BufferList.concatenate (EthernetFrame.payload f))). change (BufferList.of_string _) with [b].
    rewrite (recv_arp_buffer dst src m f b (base i) Hc Hm); [by rewrite Hr | by rewrite Hmac | |].
    + apply Buffer.wf_of_string. by rewrite (Zlen_arp m _ Hm (proj2 Hc)).
    + apply Buffer.str_of_string.
  - split; cbn; try done.
    + intros a x. rewrite Hsip, Hsmac, lookup_insert_Some. intros [[<- <-] | [_ Ha]]; [by exists l | by apply Hcache].
    + intros a Ha. rewrite Hsip. destruct (decide (a = ip_of l)) as [-> | Hne]; [left; by rewrite lookup_insert_eq |].
      rewrite lookup_insert_ne, lookup_delete_ne by done. by apply Hasked.
Qed.

(** ** A transmission *)

Abbreviation state := (slot -> iface).

Definition at_rest (s : state) : Prop := forall j, idle j (s j).

(** Only [k] has something to send. *)
Definition only (k : slot) (s : state) : Prop := forall j, j <> k -> Network.frames_out (s j) = [].

(** [k] sends what it has queued. *)
Definition after (k : slot) (s : state) : state := fun j =>
  if decide (j = k) then cleared (s k)
  else if decide (j ∈ neighbours k) then hear (Network.frames_out (s k)) (s j) else s j.

(** The neighbours accept it. *)
Definition heard (k : slot) (s : state) : Prop :=
  forall j, j ∈ neighbours k -> Network.deliver (Network.frames_out (s k)) (s j) = Ret (hear (Network.frames_out (s k)) (s j)).

(** [m + 1] transmissions; only the last may hand anything up. *)
Inductive transmits : nat -> state -> state -> Prop :=
| transmits_last k s : neighbours k <> [] -> only k s -> heard k s -> transmits 0 s (after k s)
| transmits_next k m s s' :
    neighbours k <> [] -> only k s -> heard k s -> (forall j, _datagrams_out (after k s j) = _datagrams_out (s j)) ->
    transmits m (after k s) s' -> transmits (S m) s s'.

Lemma after_self k s : after k s k = cleared (s k).
Proof. unfold after. by rewrite decide_True. Qed.

Lemma after_hears k s j i : j ∈ neighbours k -> Network.deliver (Network.frames_out (s k)) (s j) = Ret i -> after k s j = i.
Proof.
  intros Hj Hd. unfold after, hear. rewrite decide_False by (by apply neighbours_irrefl). by rewrite decide_True, Hd.
Qed.

Lemma after_far k s j : j <> k -> j ∉ neighbours k -> after k s j = s j.
Proof. intros Hk Hj. unfold after. by rewrite !decide_False. Qed.

Lemma heard_intro k s : (forall j, j ∈ neighbours k -> exists i, Network.deliver (Network.frames_out (s k)) (s j) = Ret i) -> heard k s.
Proof. intros H j Hj. unfold hear. by destruct (H j Hj) as [i ->]. Qed.

(** A frame for one neighbour. *)
Lemma unicast k l s f i :
  (forall j, _ethernet_address (base (s j)) = mac j) -> l ∈ neighbours k ->
  Network.frames_out (s k) = [f] -> EthernetHeader.dst (EthernetFrame.header f) = mac l ->
  Network.deliver [f] (s l) = Ret i ->
  heard k s /\ after k s l = i /\ after k s k = cleared (s k) /\ (forall j, j <> k -> j <> l -> after k s j = s j).
Proof.
  intros Hmac Hl Hf Hdst Hd. assert (Ho : forall j, j ∈ neighbours k -> j <> l -> Network.deliver [f] (s j) = Ret (s j)).
  { intros j Hj Hne. apply (deliver_other f (s j) (mac l)); [done | done |]. rewrite Hmac. intros E. by apply Hne, (mac_distinct k). }
  split_and!.
  - apply heard_intro. intros j Hj. rewrite Hf. destruct (decide (j = l)) as [-> | Hne]; [by exists i | exists (s j); by apply Ho].
  - apply after_hears; [done |]. by rewrite Hf.
  - apply after_self.
  - intros j Hk Hne. destruct (decide (j ∈ neighbours k)); [| by apply after_far]. apply after_hears; [done |]. rewrite Hf. by apply Ho.
Qed.

(** ** A datagram on its way to a neighbour *)

(** [d'] was handed up at [l], nothing elsewhere. *)
Definition handed (l : slot) (d' : InternetDatagram) (s s' : state) : Prop :=
  _datagrams_out (s' l) = _datagrams_out (s l) ++ [d'] /\ forall j, j <> l -> _datagrams_out (s' j) = _datagrams_out (s j).

(** [k] is about to send the datagram in the frame [f]. *)
Record sending (k l : slot) (d : InternetDatagram) (f : EthernetFrame.t) (s : state) : Prop := {
  sg_knows : knows k (s k);
  sg_frames : Network.frames_out (s k) = [f];
  sg_carries : carries_ip (mac l) (mac k) d f;
  sg_waiting : datagrams (base (s k)) = ∅;
  sg_others : forall j, j <> k -> idle j (s j);
}.

(** The broadcast request for the address of [l]. *)
Definition request (k l : slot) : ARPMessage.t :=
  NetworkInterface.arp_message ARPMessage.OPCODE_REQUEST (mac k) (ip_of k) (replicate 6 Byte.x00) (ip_of l).

(** [k] is about to ask for the address of [l] in the frame [f]. *)
Record asking (k l : slot) (d : InternetDatagram) (f : EthernetFrame.t) (i : iface) : Prop := {
  as_knows : knows k i;
  as_frames : Network.frames_out i = [f];
  as_carries : carries_arp ETHERNET_BROADCAST (mac k) (request k l) f;
  as_waiting : datagrams (base i) = {[ip_of l := [d]]};
}.

(** The datagram waits at [k] for the answer [f] of [l]. *)
Record waiting (k l : slot) (d : InternetDatagram) (f : EthernetFrame.t) (s : state) : Prop := {
  wa_knows : knows k (s k);
  wa_frames : Network.frames_out (s k) = [];
  wa_waiting : datagrams (base (s k)) = {[ip_of l := [d]]};
  wa_answers : knows l (s l);
  wa_answer : Network.frames_out (s l) = [f];
  wa_carries : carries_arp (mac k) (mac l)
    (NetworkInterface.arp_message ARPMessage.OPCODE_REPLY (mac l) (ip_of l) (mac k) (ip_of k)) f;
  wa_none : datagrams (base (s l)) = ∅;
  wa_others : forall j, j <> k -> j <> l -> idle j (s j);
}.

Lemma idle_cleared j i : knows j i -> datagrams (base i) = ∅ -> idle j (cleared i).
Proof. intros Hk Hd. split; [by apply knows_cleared | done | done]. Qed.

Lemma idle_hands_up j i d : idle j i -> sendable d -> idle j (AsyncNetworkInterface.mk (base i) (_datagrams_out i ++ [d])).
Proof.
  intros [[[Hn Hq] ? ? ? ?] Hf Hw] Hd. split; [| done | done]. split; try done. split; [done |]. cbn. apply Forall_app. by auto.
Qed.

Lemma reply_wf k l : arp_wf (NetworkInterface.arp_message ARPMessage.OPCODE_REPLY (mac l) (ip_of l) (mac k) (ip_of k)).
Proof. apply arp_message_wf; [by right | done | apply ip_of_bits | done | apply ip_of_bits]. Qed.

(** The last transmission. *)
Lemma sending_arrives k l d f s :
  sending k l d f s -> l ∈ neighbours k -> sendable d ->
  only k s /\ heard k s /\ at_rest (after k s) /\ exists d', arrives d d' /\ handed l d' s (after k s).
Proof.
  intros [Hk Hf Hc Hw Ho] Hl Hd. pose proof (neighbours_irrefl k l Hl) as Hlk.
  destruct (deliver_ip l (s l) (mac k) d f (id_knows _ _ (Ho l Hlk)) Hc Hd) as (d' & Hdel & Ha).
  assert (Hmac : forall j, _ethernet_address (base (s j)) = mac j).
  { intros j. destruct (decide (j = k)) as [-> | Hj]; [apply Hk | apply (Ho j Hj)]. }
  assert (Hdst : EthernetHeader.dst (EthernetFrame.header f) = mac l) by (by rewrite (proj1 Hc)).
  destruct (unicast k l s f _ Hmac Hl Hf Hdst Hdel) as (Hh & El & Ek & Ej).
  split_and!; [intros j Hj; apply (Ho j Hj) | done | |].
  - intros j. destruct (decide (j = k)) as [-> | Hjk]; [rewrite Ek; by apply idle_cleared |].
    destruct (decide (j = l)) as [-> | Hjl]; [| rewrite Ej by done; by apply Ho].
    rewrite El. apply idle_hands_up; [by apply Ho | by eapply arrives_sendable].
  - exists d'. split; [done |]. split; [by rewrite El |]. intros j Hj.
    destruct (decide (j = k)) as [-> | Hjk]; [by rewrite Ek | by rewrite Ej].
Qed.

(** The answer makes [k] send the datagram. *)
Lemma waiting_sends k l d f s :
  waiting k l d f s -> l ∈ neighbours k ->
  only l s /\ heard l s /\ (forall j, _datagrams_out (after l s j) = _datagrams_out (s j)) /\
  exists f', sending k l d f' (after l s).
Proof.
  intros [Hk Hkf Hkw Hl Hlf Hc Hlw Ho] Hnb. pose proof (neighbours_irrefl k l Hnb) as Hlk. pose proof (neighbours_sym k l Hnb) as Hnb'.
  destruct (deliver_arp k l (s k) _ _ _ f Hk Hc (reply_wf k l) (or_intror eq_refl) Hnb eq_refl eq_refl) as (fs & reply & Hdel & Hk' & Hfs & Hrep).
  change (reply = []) in Hrep. subst reply. rewrite Hkw, lookup_singleton_eq in Hfs. cbn [default] in Hfs.
  apply Forall2_cons_inv_l in Hfs as (f' & [|] & Hf' & Hnil & ->); [| by inversion Hnil].
  assert (Hmac : forall j, _ethernet_address (base (s j)) = mac j).
  { intros j. destruct (decide (j = k)) as [-> | Hjk]; [apply Hk |]. destruct (decide (j = l)) as [-> | Hjl]; [apply Hl |]. by apply (Ho j). }
  assert (Hdst : EthernetHeader.dst (EthernetFrame.header f) = mac k) by (by rewrite (proj1 Hc)).
  destruct (unicast l k s f _ Hmac Hnb' Hlf Hdst Hdel) as (Hh & Ek & El & Ej).
  split_and!; [| done | |].
  - intros j Hj. destruct (decide (j = k)) as [-> | Hjk]; [done |]. by apply (Ho j).
  - intros j. destruct (decide (j = k)) as [-> | Hjk]; [by rewrite Ek |]. destruct (decide (j = l)) as [-> | Hjl]; [by rewrite El | by rewrite Ej].
  - exists f'. split; rewrite ?Ek; [done | | done | |].
    + unfold Network.frames_out, NetworkInterface.frames_out in *. cbn. by rewrite Hkf.
    + cbn. rewrite Hkw. apply delete_singleton_eq.
    + intros j Hjk. destruct (decide (j = l)) as [-> | Hjl]; [rewrite El; by apply idle_cleared |]. rewrite Ej by done. by apply Ho.
Qed.

Lemma request_heard k l j i f :
  idle j i -> j ∈ neighbours k -> carries_arp ETHERNET_BROADCAST (mac k) (request k l) f ->
  exists reply, let i' := AsyncNetworkInterface.mk (learn (request k l) reply (base i)) (_datagrams_out i) in
    Network.deliver [f] i = Ret i' /\ knows j i' /\ datagrams (base i') = ∅ /\ Network.frames_out i' = reply /\
    (if decide (j = l)
     then exists r, reply = [r] /\ carries_arp (mac k) (mac j)
            (NetworkInterface.arp_message ARPMessage.OPCODE_REPLY (mac j) (ip_of j) (mac k) (ip_of k)) r
     else reply = []).
Proof.
  intros [Hi Hf Hw] Hj Hc. assert (Hm : arp_wf (request k l)).
  { apply arp_message_wf; [by left | done | apply ip_of_bits | done | apply ip_of_bits]. }
  destruct (deliver_arp j k i _ _ _ f Hi Hc Hm (or_introl eq_refl) (neighbours_sym _ _ Hj) eq_refl eq_refl)
    as (fs & reply & Hdel & Hk & Hfs & Hrep). rewrite Hw, lookup_empty in Hfs. apply Forall2_nil_inv_l in Hfs as ->.
  exists reply. cbv zeta. split_and!; [done | done | cbn; by rewrite Hw, delete_empty | |].
  - unfold Network.frames_out, NetworkInterface.frames_out in *. cbn. by rewrite Hf.
  - change (asks_me (request k l) (ip_of j)) with (ip_of l =? ip_of j) in Hrep. case_decide as Hjl.
    + subst j. by rewrite Z.eqb_refl in Hrep.
    + replace (ip_of l =? ip_of j) with false in Hrep; [done |]. symmetry. apply Z.eqb_neq. intros E. by apply Hjl, ip_of_inj.
Qed.

(** An address that is not known is asked for. *)
Lemma unknown_asks k l d hop i :
  idle k i -> sendable d -> Address.ipv4_numeric hop = Ret (ip_of l) -> cache (base i) !! ip_of l = None ->
  exists i' f, AsyncNetworkInterface.send_datagram d hop i = Ret i' /\ _datagrams_out i' = _datagrams_out i /\
    asking k l d f i'.
Proof.
  intros [[[Hn Hq] Hip Hmac Hcache Hasked] Hf Hw] Hd Hhop Hc. pose proof (ip_of_bits l) as Hb.
  pose proof (send_datagram_ok d hop (ip_of l) _ Hn Hd Hhop Hb) as Hsend. rewrite Hc in Hsend.
  destruct (send_datagram_inv d hop (ip_of l) _ Hn Hd Hhop Hb) as (n' & Hn1 & Hn').
  assert (Hreq : NetworkInterface.may_request (ip_of l) (base i) = true).
  { unfold NetworkInterface.may_request. destruct (since_last_sent (base i) !! ip_of l) eqn:E; [| done].
    destruct (Hasked (ip_of l)) as [[? ?] | [? H]]; [by eexists | congruence |]. by rewrite Hw, lookup_empty in H. }
  rewrite Hreq in Hsend. destruct Hsend as (req & my_ip & Hmy & _ & Hs1 & Hcar). rewrite Hip in Hmy. apply (inj Ret) in Hmy as <-.
  rewrite Hn1 in Hs1. apply (inj Ret) in Hs1. rewrite Hmac in Hcar. fold (request k l) in Hcar. rewrite Hw, lookup_empty in Hs1. cbn [default] in Hs1.
  exists (AsyncNetworkInterface.with_base n' i), req. split_and!; [unfold AsyncNetworkInterface.send_datagram; by rewrite Hn1 | done |].
  subst n'. split; cbn; [| | done | done].
  - split; cbn; try done. intros a. rewrite lookup_insert_is_Some'. intros [<- | Ha].
    + right. rewrite lookup_insert_eq. by eexists.
    + left. destruct (Hasked a Ha) as [? | [? H]]; [done |]. by rewrite Hw, lookup_empty in H.
  - unfold Network.frames_out, NetworkInterface.frames_out in *. cbn. by rewrite Hf.
Qed.

Lemma asking_waits k l d f s :
  asking k l d f (s k) -> (forall j, j <> k -> idle j (s j)) -> l ∈ neighbours k ->
  only k s /\ heard k s /\ (forall j, _datagrams_out (after k s j) = _datagrams_out (s j)) /\
  exists f', waiting k l d f' (after k s).
Proof.
  intros [Hk Hf Hc Hw] Ho Hl. pose proof (neighbours_irrefl k) as Hirr.
  assert (Hh : forall j, j ∈ neighbours k -> exists reply,
    let i := AsyncNetworkInterface.mk (learn (request k l) reply (base (s j))) (_datagrams_out (s j)) in
    Network.deliver (Network.frames_out (s k)) (s j) = Ret i /\ knows j i /\ datagrams (base i) = ∅ /\ Network.frames_out i = reply /\
    (if decide (j = l)
     then exists r, reply = [r] /\ carries_arp (mac k) (mac j)
            (NetworkInterface.arp_message ARPMessage.OPCODE_REPLY (mac j) (ip_of j) (mac k) (ip_of k)) r
     else reply = [])).
  { intros j Hj. rewrite Hf. apply request_heard; [apply Ho, Hirr, Hj | done | done]. }
  split_and!.
  - intros j Hj. apply (Ho j Hj).
  - apply heard_intro. intros j Hj. destruct (Hh j Hj) as (reply & Hd & _). by eexists.
  - intros j. destruct (decide (j = k)) as [-> | Hjk]; [by rewrite after_self |].
    destruct (decide (j ∈ neighbours k)) as [Hj |]; [| by rewrite after_far]. destruct (Hh j Hj) as (reply & Hd & _).
    by rewrite (after_hears k s j _ Hj Hd).
  - destruct (Hh l Hl) as (reply & Hd & Hkl & Hdl & Hfl & Hrep). rewrite decide_True in Hrep by done. destruct Hrep as (f' & -> & Hcar).
    exists f'. split; rewrite ?after_self, ?(after_hears k s l _ Hl Hd); try done; [by apply knows_cleared |].
    intros j Hjk Hjl. destruct (decide (j ∈ neighbours k)) as [Hj |]; [| rewrite after_far by done; by apply Ho].
    destruct (Hh j Hj) as (reply & Hdj & Hkj & Hwj & Hfj & Hrj). rewrite decide_False in Hrj by done. subst reply.
    by rewrite (after_hears k s j _ Hj Hdj).
Qed.

(** An address that is known is used. *)
Lemma known_sends k l d hop i m :
  idle k i -> sendable d -> Address.ipv4_numeric hop = Ret (ip_of l) -> cache (base i) !! ip_of l = Some m ->
  exists i' f, AsyncNetworkInterface.send_datagram d hop i = Ret i' /\ _datagrams_out i' = _datagrams_out i /\
    knows k i' /\ Network.frames_out i' = [f] /\ carries_ip (mac l) (mac k) d f /\ datagrams (base i') = ∅.
Proof.
  intros [[[Hn Hq] Hip Hmac Hcache Hasked] Hf Hw] Hd Hhop Hc. pose proof (ip_of_bits l) as Hb.
  pose proof (send_datagram_ok d hop (ip_of l) _ Hn Hd Hhop Hb) as Hsend. rewrite Hc in Hsend.
  destruct (send_datagram_inv d hop (ip_of l) _ Hn Hd Hhop Hb) as (n' & Hn1 & Hn').
  destruct Hsend as (f & Hs1 & Hcar). rewrite Hn1 in Hs1. apply (inj Ret) in Hs1.
  destruct (Hcache _ _ Hc) as (l' & _ & <-%ip_of_inj & ->). rewrite Hmac in Hcar.
  exists (AsyncNetworkInterface.with_base n' i), f. split_and!; [unfold AsyncNetworkInterface.send_datagram; by rewrite Hn1 | done | | | done |];
    subst n'; [by split | | done].
  unfold Network.frames_out, NetworkInterface.frames_out in *. cbn. by rewrite Hf.
Qed.

(** A datagram sent to a neighbour gets there, and the network is at rest
    again. *)
Lemma lan_delivers k l d hop s :
  at_rest s -> l ∈ neighbours k -> sendable d -> Address.ipv4_numeric hop = Ret (ip_of l) ->
  exists i m s' d', AsyncNetworkInterface.send_datagram d hop (s k) = Ret i /\ (m <= 2)%nat /\
    transmits m (<[k := i]> s) s' /\ at_rest s' /\ arrives d d' /\ handed l d' s s'.
Proof.
  intros Hs Hl Hd Hhop. assert (Ho : forall i j, j <> k -> idle j (<[k := i]> s j)).
  { intros i j Hj. rewrite fn_lookup_insert_ne by done. apply Hs. }
  assert (Hq : forall i d' s', _datagrams_out i = _datagrams_out (s k) -> handed l d' (<[k := i]> s) s' -> handed l d' s s').
  { intros i d' s' Hi [H1 H2]. rewrite fn_lookup_insert_ne in H1 by (by apply not_eq_sym, neighbours_irrefl). split; [done |].
    intros j Hj. rewrite (H2 j Hj). destruct (decide (j = k)) as [-> |]; [by rewrite fn_lookup_insert | by rewrite fn_lookup_insert_ne]. }
  assert (Hnk : neighbours k <> []) by (intros H; rewrite H in Hl; by apply not_elem_of_nil in Hl).
  assert (Hnl : neighbours l <> []) by (intros H; apply neighbours_sym in Hl; rewrite H in Hl; by apply not_elem_of_nil in Hl).
  destruct (cache (base (s k)) !! ip_of l) as [m|] eqn:Hc.
  - destruct (known_sends k l d hop (s k) m (Hs k) Hd Hhop Hc) as (i & f & Hsend & Hqi & Hk & Hf & Hcar & Hw).
    destruct (sending_arrives k l d f (<[k := i]> s)) as (H1 & H2 & H3 & d' & Ha & Hh); [| done | done |].
    { split; rewrite ?fn_lookup_insert; try done. apply Ho. }
    exists i, 0%nat, (after k (<[k := i]> s)), d'. split_and!; [done | lia | by constructor | done | done | by apply (Hq i)].
  - destruct (unknown_asks k l d hop (s k) (Hs k) Hd Hhop Hc) as (i & f & Hsend & Hqi & Hask).
    set (s1 := <[k := i]> s) in *. destruct (asking_waits k l d f s1) as (A1 & A2 & A3 & f1 & Hwait); [| apply Ho | done |].
    { unfold s1. by rewrite fn_lookup_insert. }
    destruct (waiting_sends k l d f1 _ Hwait Hl) as (B1 & B2 & B3 & f2 & Hsg).
    destruct (sending_arrives k l d f2 _ Hsg Hl Hd) as (C1 & C2 & C3 & d' & Ha & Hh).
    exists i, 2%nat, (after k (after l (after k s1))), d'. split_and!; [done | lia | | done | done |].
    + apply (transmits_next k); try done. apply (transmits_next l); try done. by apply transmits_last.
    + apply (Hq i); [done |]. destruct Hh as [H1 H2]. split; [by rewrite H1, B3, A3 |]. intros j Hj. by rewrite (H2 j Hj), B3, A3.
Qed.

End Lan.

End LinkFacts.
