(* ===== verification/network_simulation.v ===== *)
(** * apps/network_simulator: every run of the program succeeds

    The network the program builds, as a function of the states of its
    thirteen interfaces.  A datagram crosses it in at most six of the 256
    rounds: it reaches the router over the sender's link, the router forwards
    it by the longest matching route, and it reaches the next hop over that
    link.  Whatever the iteration order of the hash map and the result of an
    out-of-range shift, and whatever the random numbers as long as the three
    interfaces on the link of dm42 and dm43 draw different Ethernet addresses,
    the ten tests of the program therefore pass. *)

From stdpp Require Import functions pretty.
From S2P Require Import Prelude buffer parser util codec ethernet ipv4 address network_interface network_interface_proofs router router_proofs resolver network_simulator network_simulator_proofs network_delivery random.

Module NetworkFacts.
Import ParserFacts CodecFacts EthernetFacts IPv4Facts AddressFacts InterfaceFacts RouterFacts SimulatorFacts LinkFacts.
Import AsyncNetworkInterface(base, _datagrams_out).

(** ** The network *)

Definition router_slots : list slot := [Default0; Eth0; Eth1; Eth2; Uun3; Hs4; Mit5].
Definition host_slots : list slot := [Applesauce; DefaultRouter; Cherrypie; HsRouter; Dm42; Dm43].

Definition name_of (j : slot) : string :=
  match j with
  | Applesauce => "applesauce" | DefaultRouter => "default_router" | Cherrypie => "cherrypie"
  | HsRouter => "hs_router" | Dm42 => "dm42" | Dm43 => "dm43" | _ => ""
  end.

(** The next hop of a host. *)
Definition next_hop (j : slot) : Z :=
  match j with
  | Applesauce => ip_of Eth0 | Cherrypie => ip_of Eth2 | Dm42 | Dm43 => ip_of Uun3 | _ => 0
  end.

(** Prefix, length, gateway and interface of the routes. *)
Definition routes : list (Z * Z * option Z * Z) :=
  [(0, 0, Some (ip_of DefaultRouter), 0); (0x0a000000, 8, None, 1); (0xac100000, 16, None, 2); (0xc0a80000, 24, None, 3);
   (0xc6b2e500, 24, None, 4); (0x8fc30000, 17, Some (ip_of HsRouter), 5); (0x8fc38000, 18, Some (ip_of HsRouter), 5);
   (0x8fc3c000, 19, Some (ip_of HsRouter), 5); (0x801e4cff, 16, Some 0x801e0001, 6)].
Definition lens : gmap Z Z := foldl (fun m '(p, len, _, _) => <[p := len]> m) ∅ routes.
Definition gws : gmap Z Z := foldl (fun m '(p, _, gw, _) => match gw with Some ip => <[p := ip]> m | None => m end) ∅ routes.
Definition itfs : gmap Z Z := foldl (fun m '(p, _, _, itf) => <[p := itf]> m) ∅ routes.

Section Net.
Context (s : slot -> iface) (E : slot -> list InternetDatagram).

(** The host [j], expecting the datagrams [E j]. *)
Definition host_at (j : slot) : Host.t := Host.mk (name_of j) (inet 0 (ip_of j)) (s j) (inet 0 (next_hop j)) (E j).
Definition router_of : Router.t := Router.mk (map s router_slots) lens gws itfs.
Definition net : Network.t := Network.mk router_of 0 1 2 3 4 5 6 (map (fun j => (name_of j, host_at j)) host_slots).

End Net.

Lemma net_ext s s' E E' : (forall j, s j = s' j) -> (forall j, E j = E' j) -> net s E = net s' E'.
Proof. intros Hs HE. unfold net, router_of, host_at. cbn [map router_slots host_slots]. by rewrite !Hs, !HE. Qed.

Lemma host_net s E j : j ∈ host_slots -> Network.host (name_of j) (net s E) = Ret (host_at s E j).
Proof. intros H%(bool_decide_eq_true_2 _). by destruct j. Qed.

Lemma set_host_interface_net s E j i :
  j ∈ host_slots -> Network.set_host_interface (name_of j) i (host_at s E j) (net s E) = net (<[j := i]> s) E.
Proof. intros H%(bool_decide_eq_true_2 _). by destruct j. Qed.

Lemma expect_net s E j d :
  j ∈ host_slots -> Network.set_host (name_of j) (Host.expect d (host_at s E j)) (net s E) = net s (<[j := E j ++ [d]]> E).
Proof. intros H%(bool_decide_eq_true_2 _). by destruct j. Qed.

(** ** The links *)

Lemma clear_all {A} (q : list A) : clear q q = Ret [].
Proof. rewrite <- (app_nil_r q) at 2. apply clear_app. Qed.

Lemma clear_frames_all i : Network.clear_frames (Network.frames_out i) i = Ret (cleared i).
Proof. unfold Network.clear_frames. by rewrite clear_all. Qed.

Lemma clear_frames_none i : Network.clear_frames [] i = Ret i.
Proof. by destruct i as [[] ?]. Qed.

Lemma exchange_sends x y y' :
  Network.frames_out y = [] -> Network.deliver (Network.frames_out x) y = Ret y' -> Network.exchange_frames x y = Ret (cleared x, y').
Proof.
  intros Hy Hd. unfold Network.exchange_frames. cbv zeta. rewrite Hd, Hy. cbn [mbind outcome_bind Network.deliver].
  rewrite clear_frames_all. cbn [mbind outcome_bind]. by rewrite clear_frames_none.
Qed.

Lemma exchange_receives x y x' :
  Network.frames_out x = [] -> Network.deliver (Network.frames_out y) x = Ret x' -> Network.exchange_frames x y = Ret (x', cleared y).
Proof.
  intros Hx Hd. unfold Network.exchange_frames. cbv zeta. rewrite Hx, Hd. cbn [mbind outcome_bind Network.deliver].
  rewrite clear_frames_none. cbn [mbind outcome_bind]. by rewrite clear_frames_all.
Qed.

(** The links with one host: the router's interface and the host's. *)
Inductive link : Z -> slot -> slot -> Prop :=
| link_default : link 0 Default0 DefaultRouter
| link_eth0 : link 1 Eth0 Applesauce
| link_eth2 : link 3 Eth2 Cherrypie
| link_hs4 : link 5 Hs4 HsRouter.

Lemma connect_net id a b s E :
  link id a b ->
  Network.connect id (name_of b) (net s E) =
  '(x, y) ← Network.exchange_frames (s a) (s b); Ret (net (<[b := y]> (<[a := x]> s)) E).
Proof.
  intros Hl. unfold Network.connect. assert (Router.interface id (Network._router (net s E)) = Ret (s a)) as -> by (by destruct Hl).
  cbn [mbind outcome_bind]. rewrite host_net by (destruct Hl; by apply (bool_decide_eq_true_1 _)). cbn [mbind outcome_bind].
  change (Host.interface (host_at s E b)) with (s b). destruct (Network.exchange_frames _ _) as [[x y] | |]; [| done | done].
  cbn [mbind outcome_bind]. f_equal. by destruct Hl.
Qed.

Lemma connect_idle id a b s E :
  link id a b -> Network.frames_out (s a) = [] -> Network.frames_out (s b) = [] ->
  Network.connect id (name_of b) (net s E) = Ret (net s E).
Proof.
  intros Hl Ha Hb. rewrite (connect_net id a b) by done. rewrite (exchange_sends _ _ (s b)) by (by rewrite ?Ha).
  cbn [mbind outcome_bind]. f_equal. apply net_ext; [| done]. intros j. rewrite cleared_idle by done.
  unfold insert, fn_insert. repeat case_decide; by subst.
Qed.

Lemma connect_sends id a b k s E :
  link id a b -> k = a \/ k = b -> only k s -> heard k s -> Network.connect id (name_of b) (net s E) = Ret (net (after k s) E).
Proof.
  intros Hl Hk Ho Hh. rewrite (connect_net id a b) by done. destruct Hk as [-> | ->].
  - rewrite (exchange_sends _ _ (after a s b)).
    + cbn [mbind outcome_bind]. f_equal. apply net_ext; [| done]. intros j. destruct Hl, j; reflexivity.
    + by destruct Hl; apply Ho.
    + destruct Hl; apply (Hh _ (list_elem_of_here _ _)).
  - rewrite (exchange_receives _ _ (after b s a)).
    + cbn [mbind outcome_bind]. f_equal. apply net_ext; [| done]. intros j. destruct Hl, j; reflexivity.
    + by destruct Hl; apply Ho.
    + destruct Hl; apply (Hh _ (list_elem_of_here _ _)).
Qed.

(** The link with two hosts. *)
Definition hub (n : Network.t) : outcome Network.t :=
  x ← Router.interface (Network.uun3_id n) (Network._router n);
  h42 ← Network.host (name_of Dm42) n;
  h43 ← Network.host (name_of Dm43) n;
  '(x, y, z) ← Network.exchange_frames3 x (Host.interface h42) (Host.interface h43);
  Ret (Network.set_host_interface (name_of Dm43) z h43
    (Network.set_host_interface (name_of Dm42) y h42 (Network.set_interface (Network.uun3_id n) x n))).

Lemma physical_links n :
  Network.simulate_physical_connections n =
  (n ← Network.connect (Network.default_id n) (name_of DefaultRouter) n;
   n ← Network.connect (Network.eth0_id n) (name_of Applesauce) n;
   n ← Network.connect (Network.eth2_id n) (name_of Cherrypie) n;
   n ← Network.connect (Network.hs4_id n) (name_of HsRouter) n;
   hub n).
Proof. reflexivity. Qed.

Lemma hub_net s E x y z :
  Network.exchange_frames3 (s Uun3) (s Dm42) (s Dm43) = Ret (x, y, z) ->
  hub (net s E) = Ret (net (<[Dm43 := z]> (<[Dm42 := y]> (<[Uun3 := x]> s))) E).
Proof.
  intros Hx. unfold hub. assert (Router.interface (Network.uun3_id (net s E)) (Network._router (net s E)) = Ret (s Uun3)) as -> by done.
  cbn [mbind outcome_bind]. rewrite !host_net by (by apply (bool_decide_eq_true_1 _)). cbn [mbind outcome_bind].
  change (Host.interface (host_at s E Dm42)) with (s Dm42). change (Host.interface (host_at s E Dm43)) with (s Dm43). by rewrite Hx.
Qed.

Section Exchange3.
Context (x y z : iface).

Lemma exchange3_first y' z' :
  Network.frames_out y = [] -> Network.frames_out z = [] ->
  Network.deliver (Network.frames_out x) y = Ret y' -> Network.deliver (Network.frames_out x) z = Ret z' ->
  Network.exchange_frames3 x y z = Ret (cleared x, y', z').
Proof.
  intros Hy Hz Hdy Hdz. unfold Network.exchange_frames3. cbv zeta. rewrite Hdy, Hy, Hz. cbn [mbind outcome_bind Network.deliver].
  rewrite Hdz. cbn [mbind outcome_bind Network.deliver]. rewrite clear_frames_all. cbn [mbind outcome_bind].
  rewrite clear_frames_none. cbn [mbind outcome_bind]. by rewrite clear_frames_none.
Qed.

Lemma exchange3_second x' z' :
  Network.frames_out x = [] -> Network.frames_out z = [] ->
  Network.deliver (Network.frames_out y) x = Ret x' -> Network.deliver (Network.frames_out y) z = Ret z' ->
  Network.exchange_frames3 x y z = Ret (x', cleared y, z').
Proof.
  intros Hx Hz Hdx Hdz. unfold Network.exchange_frames3. cbv zeta. rewrite Hx, Hz. cbn [mbind outcome_bind Network.deliver].
  rewrite Hdx. cbn [mbind outcome_bind]. rewrite Hdz. cbn [mbind outcome_bind Network.deliver].
  rewrite clear_frames_none. cbn [mbind outcome_bind]. rewrite clear_frames_all. cbn [mbind outcome_bind]. by rewrite clear_frames_none.
Qed.

Lemma exchange3_third x' y' :
  Network.frames_out x = [] -> Network.frames_out y = [] ->
  Network.deliver (Network.frames_out z) x = Ret x' -> Network.deliver (Network.frames_out z) y = Ret y' ->
  Network.exchange_frames3 x y z = Ret (x', y', cleared z).
Proof.
  intros Hx Hy Hdx Hdy. unfold Network.exchange_frames3. cbv zeta. rewrite Hx, Hy. cbn [mbind outcome_bind Network.deliver].
  rewrite Hdx. cbn [mbind outcome_bind]. rewrite Hdy. cbn [mbind outcome_bind].
  rewrite !clear_frames_none. cbn [mbind outcome_bind]. by rewrite clear_frames_all.
Qed.

End Exchange3.

Lemma hub_idle s E :
  Network.frames_out (s Uun3) = [] -> Network.frames_out (s Dm42) = [] -> Network.frames_out (s Dm43) = [] -> hub (net s E) = Ret (net s E).
Proof.
  intros Hx Hy Hz. erewrite hub_net by (apply exchange3_first; [done | done | by rewrite Hx | by rewrite Hx]).
  f_equal. apply net_ext; [| done]. intros j. rewrite cleared_idle by done. by destruct j.
Qed.

Lemma hub_sends k s E :
  k = Uun3 \/ k = Dm42 \/ k = Dm43 -> only k s -> heard k s -> hub (net s E) = Ret (net (after k s) E).
Proof.
  intros Hk Ho Hh. assert (Hj : forall j, bool_decide (j ∈ neighbours k) = true ->
    Network.deliver (Network.frames_out (s k)) (s j) = Ret (hear (Network.frames_out (s k)) (s j))).
  { intros j Hj. by apply Hh, (bool_decide_eq_true_1 _). }
  destruct Hk as [-> | [-> | ->]].
  - by erewrite hub_net by (apply exchange3_first; (by apply Ho) || (by apply Hj)).
  - by erewrite hub_net by (apply exchange3_second; (by apply Ho) || (by apply Hj)).
  - by erewrite hub_net by (apply exchange3_third; (by apply Ho) || (by apply Hj)).
Qed.

(** One pass over the links, when only [k] has something to send. *)
Lemma physical_ok k s E :
  neighbours k <> [] -> only k s -> heard k s -> Network.simulate_physical_connections (net s E) = Ret (net (after k s) E).
Proof.
  intros Hk Ho Hh. rewrite physical_links. destruct k; try done.
  all: first [rewrite (connect_idle 0 Default0 DefaultRouter) by (constructor || by apply Ho)
             | erewrite (connect_sends 0 Default0 DefaultRouter) by (eassumption || constructor; by auto)]; cbn [mbind outcome_bind].
  all: first [rewrite (connect_idle 1 Eth0 Applesauce) by (constructor || by apply Ho)
             | erewrite (connect_sends 1 Eth0 Applesauce) by (eassumption || constructor; by auto)]; cbn [mbind outcome_bind].
  all: first [rewrite (connect_idle 3 Eth2 Cherrypie) by (constructor || by apply Ho)
             | erewrite (connect_sends 3 Eth2 Cherrypie) by (eassumption || constructor; by auto)]; cbn [mbind outcome_bind].
  all: first [rewrite (connect_idle 5 Hs4 HsRouter) by (constructor || by apply Ho)
             | erewrite (connect_sends 5 Hs4 HsRouter) by (eassumption || constructor; by auto)]; cbn [mbind outcome_bind].
  all: first [apply hub_idle; by apply Ho | apply hub_sends; by auto].
Qed.

Lemma physical_idle s E :
  (forall j, Network.frames_out (s j) = []) -> Network.simulate_physical_connections (net s E) = Ret (net s E).
Proof.
  intros Hf. rewrite (physical_ok Eth0); [| done | by intros j _ |].
  - f_equal. apply net_ext; [| done]. intros j. unfold after. repeat case_decide; subst; [by apply cleared_idle | by rewrite Hf | done].
  - intros j _. by rewrite Hf.
Qed.

(** ** Rounds *)

Lemma router_slots_nodup : NoDup router_slots.
Proof. by apply (bool_decide_eq_true_1 _). Qed.

(** Nothing waits at the router. *)
Definition quiet (s : slot -> iface) : Prop := forall j, j ∈ router_slots -> _datagrams_out (s j) = [].

Section Rounds.
Context (wild_shift : Z -> Z -> Z) (order : gmap Z Z -> list (Z * Z)).
Context (order_ok : forall m, order m ≡ₚ map_to_list m).

Abbreviation route := (Network.route wild_shift order).
Abbreviation rounds := (Network.rounds wild_shift order).

Lemma route_idle s E : quiet s -> route (net s E) = Ret (net s E).
Proof.
  intros Hq. unfold Network.route, Router.route. rewrite route_from_idle; [done |].
  intros j i _ Hi. cbn [Router._interfaces Network._router net router_of] in Hi. rewrite list_lookup_fmap in Hi.
  apply fmap_Some in Hi as (g & Hg & ->). by eapply Hq, list_elem_of_lookup_2.
Qed.

Lemma rounds_app a b n : rounds (a + b) n = (n ← rounds a n; rounds b n).
Proof.
  revert n. induction a as [|a IH]; intros n; cbn [Network.rounds Nat.add]; [done |].
  destruct (route n); cbn [mbind outcome_bind]; try done.
  destruct (Network.simulate_physical_connections _); cbn [mbind outcome_bind]; try done.
Qed.

Lemma rounds_idle c s E : quiet s -> (forall j, Network.frames_out (s j) = []) -> rounds c (net s E) = Ret (net s E).
Proof.
  intros Hq Hf. induction c as [|c IH]; cbn [Network.rounds]; [done |].
  rewrite route_idle by done. cbn [mbind outcome_bind]. rewrite physical_idle by done. exact IH.
Qed.

(** The transmissions, one per round; the first comes after the routing. *)
Lemma transmits_rounds m s s' E :
  transmits m s s' -> quiet s -> (n ← Network.simulate_physical_connections (net s E); rounds m n) = Ret (net s' E).
Proof.
  induction 1 as [k s Hk Ho Hh | k m s s' Hk Ho Hh Hq' _ IH]; intros Hq; rewrite (physical_ok k) by done; cbn [mbind outcome_bind]; [done |].
  assert (Hq1 : quiet (after k s)) by (intros j Hj; rewrite Hq'; by apply Hq).
  cbn [Network.rounds]. rewrite route_idle by done. cbn [mbind outcome_bind]. by apply IH.
Qed.

End Rounds.

(** ** The routing decision *)

(** Where the tables send an address. *)
Definition decision (addr itf hop : Z) : Prop := forall s i h, forwards (router_of s) addr i h -> i = itf /\ h = hop.

Lemma decision_route addr p len itf :
  lens !! p = Some len -> 0 < len -> matches addr p len ->
  map_Forall (fun p' len' => p' <> p -> matches addr p' len' -> len' < len) lens -> itfs !! p = Some itf ->
  decision addr itf (default addr (gws !! p)).
Proof.
  intros Hp Hl Hm Hmax Hi s i h [p' len' i' Hp' Hl' Hm' Hmax' Hi' | Hd].
  - cbn [Router.len_map Router.itf_map Router.gw_map router_of] in *. destruct (decide (p' = p)) as [-> | Hne]; [by simplify_eq |].
    pose proof (Hmax p' len' Hp' Hne Hm'). pose proof (Hmax' p len Hp Hm). lia.
  - by destruct (Hd p len Hp Hl).
Qed.

Lemma decision_default addr :
  map_Forall (fun p len => 0 < len -> ~ matches addr p len) lens -> decision addr 0 Router.default_router.
Proof. intros Hno s i h [p len i' Hp Hl Hm _ _ | _]; [by destruct (Hno p len Hp Hl) | done]. Qed.

(** ** Through the router *)

Lemma send_keeps_queue d hop i i' : AsyncNetworkInterface.send_datagram d hop i = Ret i' -> _datagrams_out i' = _datagrams_out i.
Proof.
  unfold AsyncNetworkInterface.send_datagram. destruct (NetworkInterface.send_datagram d hop (base i)); [| done | done].
  cbn [mbind outcome_bind]. by intros [= <-].
Qed.

Lemma map_slots_insert k g (x : iface) (s : slot -> iface) : router_slots !! k = Some g -> <[k := x]> (map s router_slots) = map (<[g := x]> s) router_slots.
Proof.
  intros Hk. pose proof router_slots_nodup as Hnd. apply list_eq. intros j. destruct (decide (j = k)) as [-> | Hne].
  - rewrite list_lookup_insert_eq by (rewrite length_fmap; by eapply lookup_lt_Some).
    rewrite list_lookup_fmap, Hk. cbn. by rewrite fn_lookup_insert.
  - rewrite list_lookup_insert_ne, !list_lookup_fmap by done. destruct (router_slots !! j) as [g'|] eqn:Hj; [| done]. cbn.
    rewrite fn_lookup_insert_ne; [done |]. intros <-. apply Hne. by eapply NoDup_lookup.
Qed.

Lemma map_slots_alter k g f (s : slot -> iface) : router_slots !! k = Some g -> alter f k (map s router_slots) = map (<[g := f (s g)]> s) router_slots.
Proof.
  intros Hk. rewrite <- (map_slots_insert k g (f (s g)) s Hk). apply list_eq. intros j. destruct (decide (j = k)) as [-> | Hne].
  - rewrite list_lookup_alter_eq, list_lookup_insert_eq by (rewrite length_fmap; by eapply lookup_lt_Some).
    by rewrite list_lookup_fmap, Hk.
  - by rewrite list_lookup_alter_ne, list_lookup_insert_ne.
Qed.

Lemma with_router_net g x s s1 E :
  g ∈ router_slots -> (forall j, j ∈ host_slots -> s1 j = s j) ->
  Network.with_router (router_of (<[g := x]> s1)) (net s E) = net (<[g := x]> s1) E.
Proof.
  intros Hg%(bool_decide_eq_true_2 _) Hs. unfold net, Network.with_router. f_equal. cbn [Network._hosts]. apply map_ext_Forall.
  apply Forall_forall. intros j Hj. unfold host_at. rewrite fn_lookup_insert_ne; [by rewrite (Hs j Hj) |].
  apply (bool_decide_eq_true_2 _) in Hj. intros <-. by destruct g.
Qed.

Lemma queues_net s : queues (router_of s) = map (fun j => _datagrams_out (s j)) router_slots.
Proof. reflexivity. Qed.

Section Crossing.
Context (mac : slot -> EthernetAddress).
Context (mac_length : forall j, length (mac j) = 6%nat).
Context (mac_unicast : forall j, mac j <> ETHERNET_BROADCAST).
Context (mac_distinct : forall k l l', l ∈ neighbours k -> l' ∈ neighbours k -> mac l = mac l' -> l = l').
Context (wild_shift : Z -> Z -> Z) (order : gmap Z Z -> list (Z * Z)).
Context (order_ok : forall m, order m ≡ₚ map_to_list m).

Abbreviation route := (Network.route wild_shift order).
Abbreviation rounds := (Network.rounds wild_shift order).

Lemma router_inv_net s : at_rest mac s -> router_inv (router_of s).
Proof.
  intros Hs. split; cbn [Router.len_map Router.gw_map Router.itf_map Router._interfaces router_of].
  - unfold in_bits. apply (bool_decide_eq_true_1 _). vm_compute. reflexivity.
  - vm_compute. reflexivity.
  - change (Zlen (map s router_slots)) with 7. apply (bool_decide_eq_true_1 _). vm_compute. reflexivity.
  - unfold in_bits. apply (bool_decide_eq_true_1 _). vm_compute. reflexivity.
  - done.
  - apply Forall_fmap, Forall_forall. intros j _. apply (kn_good _ _ _ (id_knows _ _ _ (Hs j))).
Qed.

(** What was received there taken out of the queue of [g]. *)
Definition taken (g : slot) (s : slot -> iface) : slot -> iface := <[g := AsyncNetworkInterface.with_datagrams_out [] (s g)]> s.

Lemma taken_rest g s : at_rest mac s -> at_rest mac (taken g s).
Proof.
  intros Hs j. unfold taken. destruct (decide (j = g)) as [-> | Hne]; [rewrite fn_lookup_insert | by rewrite fn_lookup_insert_ne].
  destruct (Hs g) as [[[Hn Hq] ? ? ? ?] ? ?]. split; [| done | done]. split; try done.
Qed.

(** One datagram [d] waits at the router, at [g]. *)
Definition received_at (k : nat) (g : slot) (d : InternetDatagram) (s : slot -> iface) : Prop :=
  router_slots !! k = Some g /\ _datagrams_out (s g) = [d] /\ forall j, j <> g -> _datagrams_out (s j) = [].

Lemma route_received k g d s E r1 :
  at_rest mac s -> received_at k g d s -> sendable d ->
  Router.route_one_datagram wild_shift (order lens) d (router_of s) = Ret r1 ->
  route (net s E) = Ret (Network.with_router (popped k r1) (net s E)).
Proof.
  intros Hs (Hk & Hd & Hq) Hsd Hone. unfold Network.route. cbn [Network._router Router.len_map net router_of].
  fold (router_of s). rewrite (route_single wild_shift (order lens) k d (router_of s) r1); try done.
  - by apply router_inv_net.
  - by rewrite queues_net, list_lookup_fmap, Hk; cbn; rewrite Hd.
  - intros j q Hj. rewrite queues_net, list_lookup_fmap. intros (g' & Hg' & ->)%fmap_Some. apply Hq. intros ->. apply Hj.
    by eapply NoDup_lookup; [apply router_slots_nodup | ..].
Qed.

(** Its time to live is over. *)
Lemma route_expires k g d s E :
  at_rest mac s -> received_at k g d s -> sendable d -> IPv4Header.ttl (IPv4Datagram.header d) <= 1 ->
  route (net s E) = Ret (net (taken g s) E).
Proof.
  intros Hs Hg Hsd Httl. destruct (route_one_ok wild_shift (order lens) d (router_of s)) as (r1 & Hone & _ & Hr1);
    [by apply router_inv_net | apply order_ok | done |]. rewrite (proj2 (Z.leb_le _ _) Httl) in Hr1. subst r1.
  rewrite (route_received k g d s E _ Hs Hg Hsd Hone). destruct Hg as (Hk & Hd & _). f_equal.
  unfold popped. cbn [Router._interfaces router_of]. rewrite (map_slots_alter k g) by done. rewrite Hd.
  apply with_router_net; [by eapply list_elem_of_lookup_2 | done].
Qed.

(** It is sent on. *)
Lemma route_forwards k g d itf g2 l s E :
  at_rest mac s -> received_at k g d s -> sendable d -> 1 < IPv4Header.ttl (IPv4Datagram.header d) ->
  decision (IPv4Header.dst (IPv4Datagram.header d)) itf (ip_of l) -> router_slots !! Z.to_nat itf = Some g2 ->
  exists i, AsyncNetworkInterface.send_datagram (hop_on d) (inet 0 (ip_of l)) (taken g s g2) = Ret i /\
    route (net s E) = Ret (net (<[g2 := i]> (taken g s)) E).
Proof.
  intros Hs Hg Hsd Httl Hdec Hg2. destruct (route_one_ok wild_shift (order lens) d (router_of s)) as (r1 & Hone & _ & Hr1);
    [by apply router_inv_net | apply order_ok | done |]. rewrite (proj2 (Z.leb_gt _ _) Httl) in Hr1.
  destruct Hr1 as (itf' & hop & i & n' & Hf & Hi & Hsend & Hr1). destruct (Hdec s itf' hop Hf) as [-> ->].
  cbn [Router._interfaces router_of] in Hi. rewrite list_lookup_fmap, Hg2 in Hi. apply (inj Some) in Hi as <-.
  exists (AsyncNetworkInterface.with_base n' (taken g s g2)). split.
  { unfold AsyncNetworkInterface.send_datagram. assert (base (taken g s g2) = base (s g2)) as ->; [| by rewrite Hsend].
    unfold taken. destruct (decide (g2 = g)) as [-> |]; [by rewrite fn_lookup_insert | by rewrite fn_lookup_insert_ne]. }
  rewrite (route_received k g d s E _ Hs Hg Hsd Hone). destruct Hg as (Hk & Hd & _). f_equal. subst r1.
  assert (Hin : g ∈ router_slots) by (by eapply list_elem_of_lookup_2). assert (Hin2 : g2 ∈ router_slots) by (by eapply list_elem_of_lookup_2).
  unfold popped. cbn [Router._interfaces Router.with_interfaces router_of Router.len_map Router.gw_map Router.itf_map].
  rewrite (map_slots_insert _ g2), (map_slots_alter k g) by done.
  match goal with |- Network.with_router ?r _ = _ => change r with (router_of (<[g := AsyncNetworkInterface.with_datagrams_out
    (tail (_datagrams_out (<[g2 := AsyncNetworkInterface.with_base n' (s g2)]> s g))) (<[g2 := AsyncNetworkInterface.with_base n' (s g2)]> s g)]>
    (<[g2 := AsyncNetworkInterface.with_base n' (s g2)]> s))) end.
  rewrite with_router_net; [| done |].
  - apply net_ext; [| done]. intros j. unfold taken, insert, fn_insert. repeat case_decide; subst; try done.
    + unfold AsyncNetworkInterface.with_datagrams_out, AsyncNetworkInterface.with_base. cbn. by rewrite Hd.
    + by rewrite Hd.
  - intros j Hj. rewrite fn_lookup_insert_ne; [done |]. intros <-. apply (bool_decide_eq_true_2 _) in Hj, Hin2. by destruct g2.
Qed.

(** The empty queues. *)
Definition empty_queues (s : slot -> iface) : Prop := forall j, _datagrams_out (s j) = [].

Lemma taken_empty k g d s : received_at k g d s -> empty_queues (taken g s).
Proof.
  intros (_ & _ & Hq) j. unfold taken. destruct (decide (j = g)) as [-> | Hne]; [by rewrite fn_lookup_insert |].
  rewrite fn_lookup_insert_ne by done. by apply Hq.
Qed.

Lemma handed_only l d s s' :
  empty_queues s -> handed l d s s' -> _datagrams_out (s' l) = [d] /\ forall j, j <> l -> _datagrams_out (s' j) = [].
Proof. intros He [H1 H2]. split; [by rewrite H1, He | intros j Hj; by rewrite H2]. Qed.

(** The first half: from a host to the router. *)
Lemma reaches_router h k g d s E :
  at_rest mac s -> empty_queues s -> h ∈ host_slots -> g ∈ neighbours h -> router_slots !! k = Some g -> sendable d ->
  exists i m s1 d1, AsyncNetworkInterface.send_datagram d (inet 0 (ip_of g)) (s h) = Ret i /\ (m <= 3)%nat /\
    rounds m (net (<[h := i]> s) E) = Ret (net s1 E) /\ at_rest mac s1 /\ arrives d d1 /\ received_at k g d1 s1.
Proof.
  intros Hs He Hh Hg Hk Hd.
  destruct (lan_delivers mac mac_length mac_unicast mac_distinct h g d (inet 0 (ip_of g)) s Hs Hg Hd (inet_numeric 0 _ (ip_of_bits g)))
    as (i & m & s1 & d1 & Hsend & Hm & Ht & Hs1 & Ha & Hhand).
  destruct (handed_only g d1 s s1 He Hhand) as [H1 H2].
  assert (Hq : quiet (<[h := i]> s)).
  { intros j _. destruct (decide (j = h)) as [-> |]; [| by rewrite fn_lookup_insert_ne].
    rewrite fn_lookup_insert, (send_keeps_queue _ _ _ _ Hsend). apply He. }
  exists i, (S m), s1, d1. split_and!; [done | lia | | done | done | done]. cbn [Network.rounds].
  rewrite route_idle by done. cbn [mbind outcome_bind]. by apply transmits_rounds.
Qed.

(** The second half: from the router to the next hop. *)
Lemma leaves_router k g d itf g2 l s E :
  at_rest mac s -> received_at k g d s -> sendable d -> 1 < IPv4Header.ttl (IPv4Datagram.header d) ->
  decision (IPv4Header.dst (IPv4Datagram.header d)) itf (ip_of l) -> router_slots !! Z.to_nat itf = Some g2 -> l ∈ neighbours g2 ->
  exists m s2 d2, (m <= 3)%nat /\ rounds m (net s E) = Ret (net s2 E) /\ at_rest mac s2 /\ arrives (hop_on d) d2 /\
    _datagrams_out (s2 l) = [d2] /\ forall j, j <> l -> _datagrams_out (s2 j) = [].
Proof.
  intros Hs Hg Hd Httl Hdec Hg2 Hl. pose proof (taken_rest g s Hs) as Ht. pose proof (taken_empty k g d s Hg) as He.
  destruct (route_forwards k g d itf g2 l s E Hs Hg Hd Httl Hdec Hg2) as (i & Hsend & Hroute).
  destruct (lan_delivers mac mac_length mac_unicast mac_distinct g2 l (hop_on d) (inet 0 (ip_of l)) (taken g s) Ht Hl
    (hop_on_sendable d Hd) (inet_numeric 0 _ (ip_of_bits l))) as (i' & m & s2 & d2 & Hsend' & Hm & Htr & Hs2 & Ha & Hhand).
  rewrite Hsend in Hsend'. apply (inj Ret) in Hsend' as <-. destruct (handed_only l d2 _ s2 He Hhand) as [H1 H2].
  exists (S m), s2, d2. split_and!; [lia | | done | done | done | done]. cbn [Network.rounds]. rewrite Hroute. cbn [mbind outcome_bind].
  apply transmits_rounds; [done |]. intros j _. destruct (decide (j = g2)) as [-> |]; [| by rewrite fn_lookup_insert_ne].
  rewrite fn_lookup_insert, (send_keeps_queue _ _ _ _ Hsend). apply He.
Qed.

(** ** From host to host *)

(** What the bytes of a datagram depend on. *)
Lemma image_cksum d d' c :
  sendable d -> sendable d' -> IPv4Datagram.header d' = IPv4Header.set_cksum c (IPv4Datagram.header d) ->
  BufferList.concatenate (IPv4Datagram.payload d') = BufferList.concatenate (IPv4Datagram.payload d) -> image d' = image d.
Proof.
  intros [Hw Hl] [Hw' Hl'] Hh Hp. unfold image. destruct (datagram_serialize d Hw Hl) as (l & -> & E & _).
  destruct (datagram_serialize d' Hw' Hl') as (l' & -> & E' & _). rewrite E, E', Hp, Hh. reflexivity.
Qed.

Lemma arrives_payload d d' : arrives d d' -> BufferList.concatenate (IPv4Datagram.payload d') = BufferList.concatenate (IPv4Datagram.payload d).
Proof. intros [_ (b & -> & _ & Hb)]. cbn. by rewrite Hb, app_nil_r. Qed.

(** Host [h] sends [d] through interface [g] of the router; its next hop
    after the router is the host [l]. *)
Lemma crosses h k g itf g2 l d s E :
  at_rest mac s -> empty_queues s -> h ∈ host_slots -> g ∈ neighbours h -> router_slots !! k = Some g -> sendable d ->
  1 < IPv4Header.ttl (IPv4Datagram.header d) -> decision (IPv4Header.dst (IPv4Datagram.header d)) itf (ip_of l) ->
  router_slots !! Z.to_nat itf = Some g2 -> l ∈ neighbours g2 -> l ∈ host_slots ->
  exists i s' d', AsyncNetworkInterface.send_datagram d (inet 0 (ip_of g)) (s h) = Ret i /\
    rounds 256 (net (<[h := i]> s) E) = Ret (net s' E) /\ at_rest mac s' /\ sendable d' /\ image d' = image (hop_on d) /\
    _datagrams_out (s' l) = [d'] /\ forall j, j <> l -> _datagrams_out (s' j) = [].
Proof.
  intros Hs He Hh Hg Hk Hd Httl Hdec Hg2 Hl Hlh.
  destruct (reaches_router h k g d s E Hs He Hh Hg Hk Hd) as (i & m1 & s1 & d1 & Hsend & Hm1 & Hr1 & Hs1 & Ha1 & Hrec).
  pose proof (arrives_sendable d d1 Hd Ha1) as Hd1. pose proof Ha1 as [(c & _ & Hc) _].
  destruct (leaves_router k g d1 itf g2 l s1 E Hs1 Hrec Hd1) as (m2 & s2 & d2 & Hm2 & Hr2 & Hs2 & Ha2 & Hq2 & Hq2');
    [by rewrite Hc | by rewrite Hc | done | done |].
  pose proof (arrives_sendable _ d2 (hop_on_sendable d1 Hd1) Ha2) as Hd2. pose proof Ha2 as [(c2 & _ & Hc2) _].
  exists i, s2, d2. split_and!; try done.
  - replace 256%nat with (m1 + (m2 + (256 - m1 - m2)))%nat by lia. rewrite rounds_app, Hr1. cbn [mbind outcome_bind].
    rewrite rounds_app, Hr2. cbn [mbind outcome_bind]. apply rounds_idle; [| intros j; apply (Hs2 j)].
    intros j Hj. apply Hq2'. intros ->. apply (bool_decide_eq_true_2 _) in Hj, Hlh. by destruct l.
  - apply (image_cksum _ _ c2); [by apply hop_on_sendable | done | |].
    + rewrite Hc2. unfold hop_on. cbn [IPv4Datagram.header IPv4Datagram._header]. fold (IPv4Datagram.header d1). by rewrite Hc.
    + rewrite (arrives_payload _ _ Ha2). exact (arrives_payload _ _ Ha1).
Qed.

(** A datagram whose time to live is over at the router. *)
Lemma expires h k g d s E :
  at_rest mac s -> empty_queues s -> h ∈ host_slots -> g ∈ neighbours h -> router_slots !! k = Some g -> sendable d ->
  IPv4Header.ttl (IPv4Datagram.header d) <= 1 ->
  exists i s', AsyncNetworkInterface.send_datagram d (inet 0 (ip_of g)) (s h) = Ret i /\
    rounds 256 (net (<[h := i]> s) E) = Ret (net s' E) /\ at_rest mac s' /\ empty_queues s'.
Proof.
  intros Hs He Hh Hg Hk Hd Httl.
  destruct (reaches_router h k g d s E Hs He Hh Hg Hk Hd) as (i & m & s1 & d1 & Hsend & Hm & Hr & Hs1 & Ha & Hrec).
  pose proof (taken_rest g s1 Hs1) as Hs2. pose proof (taken_empty k g d1 s1 Hrec) as He2. pose proof Ha as [(c & _ & Hc) _].
  assert (Hroute : route (net s1 E) = Ret (net (taken g s1) E)).
  { apply (route_expires k g d1); [done | done | by eapply arrives_sendable | by rewrite Hc]. }
  exists i, (taken g s1). split_and!; [done | | done | done].
  replace 256%nat with (m + S (255 - m))%nat by lia. rewrite rounds_app, Hr. cbn [mbind outcome_bind Network.rounds].
  rewrite Hroute. cbn [mbind outcome_bind]. rewrite physical_idle by (intros j; apply (Hs2 j)). cbn [mbind outcome_bind].
  apply rounds_idle; [by intros j _ | intros j; apply (Hs2 j)].
Qed.

(** ** The hosts' checks *)

Definition none (j : slot) : list InternetDatagram := [].
Definition drained (s : slot -> iface) (j : slot) : iface := AsyncNetworkInterface.with_datagrams_out [] (s j).

(** What a host received is what it expected. *)
Definition as_expected (s : slot -> iface) (E : slot -> list InternetDatagram) (j : slot) : Prop :=
  Forall sendable (E j) /\ map image (_datagrams_out (s j)) ≡ₚ map image (E j).

Lemma check_hosts_ok s E l :
  at_rest mac s -> Forall (as_expected s E) l ->
  Network.check_hosts (map (fun j => (name_of j, host_at s E j)) l) = Ret (map (fun j => (name_of j, host_at (drained s) none j)) l).
Proof.
  intros Hs Hl. induction Hl as [| j l [He Hp] _ IH]; cbn [map Network.check_hosts]; [done |].
  rewrite (proj1 (check_correct (host_at s E j) (proj2 (kn_good _ _ _ (id_knows _ _ _ (Hs j)))) He) Hp). cbn [mbind outcome_bind].
  rewrite IH. reflexivity.
Qed.

Lemma drained_rest s : at_rest mac s -> at_rest mac (drained s).
Proof. intros Hs j. destruct (Hs j) as [[[Hn Hq] ? ? ? ?] ? ?]. split; [| done | done]. by split. Qed.

Lemma simulate_ok s s' E :
  rounds 256 (net s E) = Ret (net s' E) -> at_rest mac s' -> quiet s' -> Forall (as_expected s' E) host_slots ->
  Network.simulate wild_shift order (net s E) = Ret (net (drained s') none).
Proof.
  intros Hr Hs Hq He. unfold Network.simulate. rewrite Hr. cbn [mbind outcome_bind Network._hosts net].
  rewrite check_hosts_ok by done. cbn [mbind outcome_bind]. f_equal. unfold Network.with_hosts, net. f_equal.
  cbn [Network._router]. unfold router_of. f_equal. apply map_ext_Forall, Forall_forall. intros j Hj. unfold drained.
  pose proof (Hq j Hj) as Hj'. destruct (s' j). cbn in *. by rewrite Hj'.
Qed.

End Crossing.

(** ** The datagrams of the tests *)

Lemma pretty_go_length (k : nat) (x : N) (t : string) :
  (x < 10 ^ N.of_nat k)%N -> (String.length (pretty_N_go x t) <= k + String.length t)%nat.
Proof.
  revert x t. induction k as [|k IH]; intros x t Hx.
  { assert (x = 0)%N as -> by (cbn in Hx; lia). by rewrite pretty_N_go_0. }
  destruct (decide (x = 0)%N) as [-> | Hne]; [rewrite pretty_N_go_0; lia |]. rewrite pretty_N_go_step by lia.
  etrans; [apply IH | cbn [String.length]; lia]. apply N.Div0.div_lt_upper_bound. rewrite Nat2N.inj_succ, N.pow_succ_r' in Hx. lia.
Qed.

Lemma to_string_length v : in_bits 32 v -> (String.length (to_string v) <= 10)%nat.
Proof.
  intros Hv. unfold in_bits in Hv. unfold to_string, pretty, pretty_N. case_decide; [cbn; lia |].
  etrans; [apply (pretty_go_length 10) | cbn; lia]. change (10 ^ N.of_nat 10)%N with 10000000000%N. lia.
Qed.

Lemma Zlen_bytes_of t : Zlen (bytes_of t) = Z.of_nat (String.length t).
Proof.
  unfold bytes_of, String.list_byte_of_string, Zlen. f_equal. rewrite List.length_map. induction t as [| c t IH]; [done |]. cbn. by rewrite IH.
Qed.

Lemma string_app_length (a b : string) : String.length (a +:+ b) = (String.length a + String.length b)%nat.
Proof. induction a as [| c a IH]; [done |]. change (S (String.length (a +:+ b)) = S (String.length a + String.length b)). by rewrite IH. Qed.

(** The datagram [send_to] builds, with the random number [v]. *)
Definition message (h : slot) (dst ttl v : Z) : InternetDatagram :=
  let payload := BufferList.of_string (bytes_of ("random payload: {" +:+ to_string v +:+ "}")) in
  let hd := IPv4Header.default_ in
  IPv4Datagram.mk (IPv4Header.set_ttl ttl
    (IPv4Header.set_addresses (ip_of h) dst (u16 (IPv4Header.hlen hd * 4 + BufferList.size payload)) hd)) payload.

Lemma message_sendable h dst ttl v : in_bits 32 dst -> in_bits 8 ttl -> in_bits 32 v -> sendable (message h dst ttl v).
Proof.
  intros Hdst Httl Hv. pose proof (to_string_length v Hv) as Hl.
  unfold message. set (str := bytes_of _). assert (Hstr : 0 <= Zlen str <= 28).
  { unfold str. rewrite Zlen_bytes_of, !string_app_length. cbn [String.length]. lia. }
  assert (Hc : BufferList.concatenate (BufferList.of_string str) = str).
  { cbn [BufferList.of_string BufferList.concatenate]. by rewrite Buffer.str_of_string, app_nil_r. }
  cbv zeta. rewrite BufferList.size_concatenate by (rewrite Hc; lia). rewrite Hc.
  change (IPv4Header.hlen IPv4Header.default_ * 4) with 20. rewrite u16_small by lia.
  split; cbn [IPv4Datagram.header IPv4Datagram._header IPv4Datagram.payload IPv4Datagram._payload]; [| by rewrite Hc].
  pose proof (ip_of_bits h). split; cbn; unfold in_bits in *; try done; lia.
Qed.

(** ** The program *)

(** The interfaces as they are made, with the Ethernet addresses [m]. *)
Definition plugged (m : slot -> EthernetAddress) (j : slot) : iface :=
  AsyncNetworkInterface.of_interface (NetworkInterface.make (m j) (inet 0 (ip_of j))).

Lemma plugged_rest m : (forall j, length (m j) = 6%nat) -> at_rest m (plugged m).
Proof.
  intros Hm j. pose proof (ip_of_bits j) as Hip. split; [| done | done]. split; cbn; try done.
  - split; [by apply ni_inv_make | constructor].
  - by apply inet_numeric.
  - intros a [? H]. by rewrite lookup_empty in H.
Qed.

Section Program.
Context {R : Type} (rd : R -> Z * R) (ok : R -> Prop).
Context (rd_ok : forall g, ok g -> in_bits 32 (fst (rd g)) /\ ok (snd (rd g))).
Context {RsI : Resolver} {RsL : ResolverLaws}.

Lemma address_str str v : inet_ntoa v = str -> in_bits 32 v -> address_of str = Ret (inet 0 v).
Proof. intros <- Hv. apply ResolverFacts.of_ip_inet; [done | unfold in_bits; lia]. Qed.

Lemma ip_str str v : inet_ntoa v = str -> in_bits 32 v -> ip str = Ret v.
Proof. intros Hs Hv. unfold ip. rewrite (address_str str v Hs Hv). by apply inet_numeric. Qed.

Lemma random_bytes_ok n g : ok g -> length (fst (random_bytes rd n g)) = n /\ ok (snd (random_bytes rd n g)).
Proof.
  revert g. induction n as [|n IH]; intros g Hg; [done |]. cbn [random_bytes]. destruct (rd_ok g Hg) as [_ Hg1].
  destruct (rd g) as [v g1]. destruct (IH g1 Hg1) as [Hl Hg2]. destruct (random_bytes rd n g1) as [l g2]. cbn in *. by rewrite Hl.
Qed.

(** An Ethernet address that is not the broadcast address. *)
Definition unicast_address (m : EthernetAddress) : Prop := length m = 6%nat /\ m <> ETHERNET_BROADCAST.

Lemma host_address_ok g :
  ok g -> unicast_address (fst (random_host_ethernet_address rd g)) /\ ok (snd (random_host_ethernet_address rd g)).
Proof.
  intros Hg. unfold random_host_ethernet_address. destruct (random_bytes_ok 6 g Hg) as [Hl Hg'].
  destruct (random_bytes rd 6 g) as [[| b l] g']; [done |]. cbn [fst snd] in *. split; [| done]. split; [by cbn; rewrite length_map; cbn in Hl; lia |].
  intros H. injection H as Hb _. apply (f_equal (fun x => Z.testbit (byte_val x) 0)) in Hb. cbv beta in Hb.
  rewrite byte_val_of in Hb. unfold u8 in Hb. change 256 with (2 ^ 8) in Hb. rewrite Z.mod_pow2_bits_low, Z.land_spec, andb_false_r in Hb by lia. done.
Qed.

Lemma router_address_ok g :
  ok g -> unicast_address (fst (random_router_ethernet_address rd g)) /\ ok (snd (random_router_ethernet_address rd g)).
Proof.
  intros Hg. unfold random_router_ethernet_address. destruct (random_bytes_ok 6 g Hg) as [Hl Hg'].
  destruct (random_bytes rd 6 g) as [l g']. cbn [fst snd] in *. split; [| done]. split; [| done].
  cbn [map length]. by rewrite length_map, length_drop, Hl.
Qed.

Definition made (m : EthernetAddress) (v : Z) : iface := AsyncNetworkInterface.of_interface (NetworkInterface.make m (inet 0 v)).

(** One more interface of the router. *)
Lemma add_interface_ok str v l k g :
  inet_ntoa v = str -> in_bits 32 v -> Zlen l = k -> 0 <= k < 2 ^ 32 -> ok g ->
  exists m g', Network.add_interface rd str (Router.mk l ∅ ∅ ∅) g = Ret (k, Router.mk (l ++ [made m v]) ∅ ∅ ∅, g') /\
    unicast_address m /\ ok g'.
Proof.
  intros Hs Hv Hl Hk Hg. unfold Network.add_interface. destruct (router_address_ok g Hg) as [Hm Hg'].
  destruct (random_router_ethernet_address rd g) as [m g']. rewrite (address_str str v Hs Hv). exists m, g'. split; [| done].
  cbn [mbind outcome_bind]. unfold Router.add_interface, Router.with_interfaces. cbn [Router._interfaces Router.len_map Router.gw_map Router.itf_map].
  rewrite Zlen_app, Hl. change (Zlen [_]) with 1. by rewrite u64_small by lia; replace (k + 1 - 1) with k by lia.
Qed.

(** One more host. *)
Lemma add_host_ok name str v hop w r i0 i1 i2 i3 i4 i5 i6 hs g :
  inet_ntoa v = str -> in_bits 32 v -> address_of hop = Ret (inet 0 w) -> Network.find name hs = None -> ok g ->
  exists m g', Network.add_host rd name str hop (Network.mk r i0 i1 i2 i3 i4 i5 i6 hs) g =
      Ret (Network.mk r i0 i1 i2 i3 i4 i5 i6 (hs ++ [(name, Host.mk name (inet 0 v) (made m v) (inet 0 w) [])]), g') /\
    unicast_address m /\ ok g'.
Proof.
  intros Hs Hv Hw Hf Hg. unfold Network.add_host, Host.make. destruct (host_address_ok g Hg) as [Hm Hg'].
  destruct (random_host_ethernet_address rd g) as [m g']. rewrite (address_str str v Hs Hv). cbn [mbind outcome_bind].
  rewrite Hw. exists m, g'. split; [| done]. cbn [mbind outcome_bind Network._hosts]. unfold Network.insert. by rewrite Hf.
Qed.

(** The network with the routes of these tables. *)
Definition tabled (lm gm im : gmap Z Z) (s : slot -> iface) : Network.t :=
  Network.mk (Router.mk (map s router_slots) lm gm im) 0 1 2 3 4 5 6 (map (fun j => (name_of j, host_at s none j)) host_slots).

Lemma host_tabled lm gm im s j : j ∈ host_slots -> Network.host (name_of j) (tabled lm gm im s) = Ret (host_at s none j).
Proof. intros H%(bool_decide_eq_true_2 _). by destruct j. Qed.

(** One more route. *)
Lemma add_route_tabled str p len gw id lm gm im s :
  inet_ntoa p = str -> in_bits 32 p -> (forall ip, gw = Some ip -> in_bits 32 ip) ->
  Network.add_route str len (inet 0 <$> gw) id (tabled lm gm im s) =
  Ret (tabled (<[p := len]> lm) (match gw with Some ip => <[p := ip]> gm | None => gm end) (<[p := id]> im) s).
Proof.
  intros Hs Hp Hgw. unfold Network.add_route. rewrite (ip_str str p Hs Hp). cbn [mbind outcome_bind].
  unfold Router.add_route. destruct gw as [ip|]; [| done]. cbn [fmap option_fmap option_map].
  by rewrite inet_numeric by (by apply Hgw).
Qed.

(** The addresses as they are written. *)
Definition dotted (j : slot) : string :=
  match j with
  | Default0 => "171.67.76.46" | Eth0 => "10.0.0.1" | Eth1 => "172.16.0.1" | Eth2 => "192.168.0.1"
  | Uun3 => "198.178.229.1" | Hs4 => "143.195.0.2" | Mit5 => "128.30.76.255"
  | Applesauce => "10.0.0.2" | DefaultRouter => "171.67.76.1" | Cherrypie => "192.168.0.2"
  | HsRouter => "143.195.0.1" | Dm42 => "198.178.229.42" | Dm43 => "198.178.229.43"
  end.

Lemma dotted_ok j : inet_ntoa (ip_of j) = dotted j.
Proof. destruct j; vm_compute; reflexivity. Qed.

Lemma dotted_address j : address_of (dotted j) = Ret (inet 0 (ip_of j)).
Proof. apply address_str; [apply dotted_ok | apply ip_of_bits]. Qed.

Lemma zero_address : address_of "0" = Ret (inet 0 0).
Proof. apply ResolverFacts.of_zero. unfold in_bits. lia. Qed.

Ltac plug_interface j k :=
  match goal with
  | Hg : ok ?g |- context [Network.add_interface rd ?str (Router.mk ?l _ _ _) ?g] =>
      let m := fresh "m" in let g' := fresh "g" in let Hm := fresh "Hm" in let Hg' := fresh "Hg" in let E := fresh in
      destruct (add_interface_ok str (ip_of j) l k g (dotted_ok j) (ip_of_bits j)) as (m & g' & E & Hm & Hg'); [done | lia | exact Hg |];
      rewrite E; clear E; cbn [mbind outcome_bind app]
  end.

Ltac plug_host j hop :=
  match goal with
  | Hg : ok ?g |- context [Network.add_host rd ?name ?str ?h (Network.mk ?r ?i0 ?i1 ?i2 ?i3 ?i4 ?i5 ?i6 ?hs) ?g] =>
      let m := fresh "m" in let g' := fresh "g" in let Hm := fresh "Hm" in let Hg' := fresh "Hg" in let E := fresh in
      destruct (add_host_ok name str (ip_of j) h (next_hop j) r i0 i1 i2 i3 i4 i5 i6 hs g (dotted_ok j) (ip_of_bits j) hop)
        as (m & g' & E & Hm & Hg'); [done | exact Hg |];
      rewrite E; clear E; cbn [mbind outcome_bind app]
  end.

Ltac add_route p gw :=
  match goal with
  | |- context [Network.add_route ?str ?len _ ?id (tabled ?lm ?gm ?im ?s)] =>
      let E := fresh in
      pose proof (add_route_tabled str p len gw id lm gm im s) as E; cbn [fmap option_fmap option_map] in E;
      rewrite E; clear E;
      [cbn [mbind outcome_bind] | vm_compute; reflexivity | unfold in_bits; lia | intros ? [= <-]; (apply ip_of_bits || (unfold in_bits; lia))]
  end.

Lemma make_ok g :
  ok g -> exists m g', Network.make rd g = Ret (net (plugged m) none, g') /\ (forall j, unicast_address (m j)) /\ ok g'.
Proof.
  intros Hg. unfold Network.make, Router.make. plug_interface Default0 0. plug_interface Eth0 1. plug_interface Eth1 2.
  plug_interface Eth2 3. plug_interface Uun3 4. plug_interface Hs4 5. plug_interface Mit5 6.
  plug_host Applesauce (dotted_address Eth0). plug_host DefaultRouter zero_address. plug_host Cherrypie (dotted_address Eth2).
  plug_host HsRouter zero_address. plug_host Dm42 (dotted_address Uun3). plug_host Dm43 (dotted_address Uun3).
  set (mac := fun j => match j with
    | Default0 => m | Eth0 => m0 | Eth1 => m1 | Eth2 => m2 | Uun3 => m3 | Hs4 => m4 | Mit5 => m5
    | Applesauce => m6 | DefaultRouter => m7 | Cherrypie => m8 | HsRouter => m9 | Dm42 => m10 | Dm43 => m11 end).
  exists mac. eexists. split; [| split; [by intros [] | eassumption]].
  match goal with |- context [Network.host _ ?n] => change n with (tabled ∅ ∅ ∅ (plugged mac)) end.
  assert (Hd : DefaultRouter ∈ host_slots) by (by apply (bool_decide_eq_true_1 _)).
  assert (Hh : HsRouter ∈ host_slots) by (by apply (bool_decide_eq_true_1 _)).
  change "default_router"%string with (name_of DefaultRouter). rewrite host_tabled by done. cbn [mbind outcome_bind].
  change (Host.address (host_at (plugged mac) none DefaultRouter)) with (inet 0 (ip_of DefaultRouter)).
  add_route 0 (Some (ip_of DefaultRouter)). add_route 0x0a000000 (@None Z). add_route 0xac100000 (@None Z).
  add_route 0xc0a80000 (@None Z). add_route 0xc6b2e500 (@None Z).
  change "hs_router"%string with (name_of HsRouter). rewrite host_tabled by done. cbn [mbind outcome_bind].
  change (Host.address (host_at (plugged mac) none HsRouter)) with (inet 0 (ip_of HsRouter)).
  add_route 0x8fc30000 (Some (ip_of HsRouter)). add_route 0x8fc38000 (Some (ip_of HsRouter)). add_route 0x8fc3c000 (Some (ip_of HsRouter)).
  rewrite (address_str "128.30.0.1" 0x801e0001) by (vm_compute; (reflexivity || intuition congruence)). cbn [mbind outcome_bind].
  add_route 0x801e4cff (Some 0x801e0001). reflexivity.
Qed.

End Program.

(** ** The tests *)

(** Datagrams of host [h] go to interface [g] of the router. *)
Record uplink (h : slot) (k : nat) (g : slot) : Prop := {
  up_host : h ∈ host_slots;
  up_link : g ∈ neighbours h;
  up_slot : router_slots !! k = Some g;
  up_hop : next_hop h = ip_of g;
}.

(** The router sends datagrams for [dst] to host [l]. *)
Record downlink (dst : Z) (l : slot) : Prop := {
  dn_host : l ∈ host_slots;
  dn_dst : in_bits 32 dst;
  dn_route : exists itf g, decision dst itf (ip_of l) /\ router_slots !! Z.to_nat itf = Some g /\ l ∈ neighbours g;
}.

Section Tests.
Context {R : Type} (rd : R -> Z * R) (ok : R -> Prop).
Context (rd_ok : forall g, ok g -> in_bits 32 (fst (rd g)) /\ ok (snd (rd g))).
Context {RsI : Resolver} {RsL : ResolverLaws}.
Context (mac : slot -> EthernetAddress).
Context (mac_length : forall j, length (mac j) = 6%nat).
Context (mac_unicast : forall j, mac j <> ETHERNET_BROADCAST).
Context (mac_distinct : forall k l l', l ∈ neighbours k -> l' ∈ neighbours k -> mac l = mac l' -> l = l').
Context (wild_shift : Z -> Z -> Z) (order : gmap Z Z -> list (Z * Z)).
Context (order_ok : forall m, order m ≡ₚ map_to_list m).

(** Between two tests. *)
Definition ready (s : slot -> iface) : Prop := at_rest mac s /\ empty_queues s.

(** A test, or several. *)
Definition succeeds (test : outcome (Network.t * R)) : Prop :=
  exists s x, test = Ret (net s none, x) /\ ready s /\ ok x.

Lemma succeeds_bind test rest :
  succeeds test -> (forall s x, ready s -> ok x -> succeeds (rest (net s none, x))) -> succeeds (x ← test; rest x).
Proof. intros (s & x & -> & Hs & Hx) Hrest. by apply Hrest. Qed.

Lemma send_net h k g a dst ttl s E x i :
  uplink h k g -> Address.ipv4_numeric a = Ret dst ->
  AsyncNetworkInterface.send_datagram (message h dst ttl (fst (rd x))) (inet 0 (ip_of g)) (s h) = Ret i ->
  send rd (name_of h) a ttl (net s E) x = Ret (message h dst ttl (fst (rd x)), net (<[h := i]> s) E, snd (rd x)).
Proof.
  intros [Hh _ _ Hhop] Ha Hsend. unfold send. rewrite host_net by done. cbn [mbind outcome_bind]. unfold Host.send_to.
  change (Host._my_address (host_at s E h)) with (inet 0 (ip_of h)). rewrite inet_numeric by apply ip_of_bits. cbn [mbind outcome_bind].
  rewrite Ha. cbn [mbind outcome_bind]. destruct (rd x) as [v x']. cbv zeta.
  change (Host._next_hop (host_at s E h)) with (inet 0 (next_hop h)). rewrite Hhop.
  change (Host._interface (host_at s E h)) with (s h). cbn [fst] in Hsend. unfold message in Hsend at 1. cbv zeta in Hsend. rewrite Hsend.
  cbn [mbind outcome_bind]. fold (Network.set_host_interface (name_of h) i (host_at s E h) (net s E)).
  by rewrite set_host_interface_net.
Qed.

(** Only host [l] received something, and only it expects something. *)
Lemma expected_one s l d d' :
  l ∈ host_slots -> sendable d -> _datagrams_out (s l) = [d'] -> (forall j, j <> l -> _datagrams_out (s j) = []) -> image d' = image d ->
  Forall (as_expected s (<[l := none l ++ [d]]> none)) host_slots.
Proof.
  intros Hl Hd H1 H2 Himg. apply Forall_forall. intros j _. destruct (decide (j = l)) as [-> | Hne]; unfold as_expected.
  - rewrite fn_lookup_insert, H1. cbn. rewrite Himg. split; [by constructor | done].
  - by rewrite fn_lookup_insert_ne, H2.
Qed.

Lemma test_delivery_ok h k g l a dst s x :
  ready s -> ok x -> uplink h k g -> downlink dst l -> Address.ipv4_numeric a = Ret dst ->
  succeeds (test_delivery rd wild_shift order (name_of h) a (name_of l) (net s none) x).
Proof.
  intros [Hs He] Hx Hup [Hl Hdst (itf & g2 & Hdec & Hg2 & Hnb)] Ha. destruct (rd_ok x Hx) as [Hv Hx']. pose proof Hup as [Hh Hg Hk _].
  set (d := message h dst 64 (fst (rd x))). assert (Hd : sendable d) by (apply message_sendable; [done | unfold in_bits; lia | done]).
  destruct (crosses mac mac_length mac_unicast mac_distinct wild_shift order order_ok h k g itf g2 l d s
    (<[l := none l ++ [hop_on d]]> none) Hs He Hh Hg Hk Hd) as (i & s' & d' & Hsend & Hr & Hs' & Hd' & Himg & Hq & Hq'); try done.
  exists (drained s'), (snd (rd x)). split; [| split; [split; [by apply drained_rest | done] | done]].
  unfold test_delivery. rewrite (send_net h k g a dst 64 s none x i Hup Ha Hsend). cbn [mbind outcome_bind]. cbv zeta.
  rewrite host_net by done. cbn [mbind outcome_bind]. rewrite expect_net by done. change (decrement_ttl (message _ _ _ _)) with (hop_on d).
  rewrite (simulate_ok mac wild_shift order _ s'); try done.
  - intros j Hj. apply Hq'. intros ->. apply (bool_decide_eq_true_2 _) in Hj, Hl. by destruct l.
  - by eapply expected_one; [| apply hop_on_sendable | ..].
Qed.

Lemma test_expiry_ok h k g a dst ttl s x :
  ready s -> ok x -> uplink h k g -> in_bits 32 dst -> Address.ipv4_numeric a = Ret dst -> 0 <= ttl <= 1 ->
  succeeds (test_expiry rd wild_shift order (name_of h) a ttl (net s none) x).
Proof.
  intros [Hs He] Hx Hup Hdst Ha Httl. destruct (rd_ok x Hx) as [Hv Hx']. pose proof Hup as [Hh Hg Hk _].
  set (d := message h dst ttl (fst (rd x))). assert (Hd : sendable d) by (apply message_sendable; [done | unfold in_bits; lia | done]).
  destruct (expires mac mac_length mac_unicast mac_distinct wild_shift order order_ok h k g d s none Hs He Hh Hg Hk Hd)
    as (i & s' & Hsend & Hr & Hs' & He'); [cbn; lia |].
  exists (drained s'), (snd (rd x)). split; [| split; [split; [by apply drained_rest | done] | done]].
  unfold test_expiry. rewrite (send_net h k g a dst ttl s none x i Hup Ha Hsend). cbn [mbind outcome_bind].
  rewrite (simulate_ok mac wild_shift order _ s'); try done; [by intros j _ |].
  apply Forall_forall. intros j _. unfold as_expected. by rewrite He'.
Qed.

(** The two ways the program names a destination. *)
Lemma test_between_ok h k g l s x :
  ready s -> ok x -> uplink h k g -> downlink (ip_of l) l ->
  succeeds (test_between rd wild_shift order (name_of h) (name_of l) (net s none) x).
Proof.
  intros Hs Hx Hup Hdn. unfold test_between. rewrite host_net by apply Hdn. cbn [mbind outcome_bind].
  by apply (test_delivery_ok h k g l _ (ip_of l)); [.. | apply inet_numeric, ip_of_bits].
Qed.

Lemma test_to_ok h k g l str dst s x :
  ready s -> ok x -> uplink h k g -> downlink dst l -> inet_ntoa dst = str ->
  succeeds (test_to rd wild_shift order (name_of h) str (name_of l) (net s none) x).
Proof.
  intros Hs Hx Hup Hdn Hstr. unfold test_to. rewrite (address_str str dst) by (done || apply Hdn). cbn [mbind outcome_bind].
  by apply (test_delivery_ok h k g l _ dst); [.. | apply inet_numeric, Hdn].
Qed.

End Tests.

(** ** The routes the tests take *)

Ltac uplink := split; [by apply (bool_decide_eq_true_1 _) | by apply (bool_decide_eq_true_1 _) | done | done].

Lemma up_applesauce : uplink Applesauce 1 Eth0.
Proof. uplink. Qed.
Lemma up_cherrypie : uplink Cherrypie 3 Eth2.
Proof. uplink. Qed.
Lemma up_dm42 : uplink Dm42 4 Uun3.
Proof. uplink. Qed.

(** Directly, through a gateway, and to the built-in router. *)
Lemma downlink_route dst p len itf g l :
  bool_decide (l ∈ host_slots) && bool_decide (l ∈ neighbours g) && bool_decide (0 <= dst < 2 ^ 32) &&
  bool_decide (lens !! p = Some len) && bool_decide (0 < len) && bool_decide (matches dst p len) &&
  bool_decide (map_Forall (fun p' len' => p' <> p -> matches dst p' len' -> len' < len) lens) &&
  bool_decide (itfs !! p = Some itf) && bool_decide (default dst (gws !! p) = ip_of l) &&
  bool_decide (router_slots !! Z.to_nat itf = Some g) = true -> downlink dst l.
Proof.
  rewrite !andb_true_iff, !bool_decide_eq_true. intros (((((((((Hl & Hn) & Hd) & Hp) & Hlen) & Hm) & Hmax) & Hi) & Hgw) & Hg).
  split; [done | done |]. exists itf, g. split_and!; [| done | done]. rewrite <- Hgw. by apply (decision_route dst p len).
Qed.

Lemma downlink_default dst :
  bool_decide (0 <= dst < 2 ^ 32) && bool_decide (map_Forall (fun p len => 0 < len -> ~ matches dst p len) lens) = true ->
  downlink dst DefaultRouter.
Proof.
  rewrite andb_true_iff, !bool_decide_eq_true. intros [Hd Hno]. split; [by apply (bool_decide_eq_true_1 _) | done |].
  exists 0, Default0. split_and!; [by apply decision_default | done | by apply (bool_decide_eq_true_1 _)].
Qed.

(** ** Every run succeeds *)

(** The Ethernet addresses on the link with two hosts. *)
Definition hub_addresses (n : Network.t) : list EthernetAddress :=
  match Router.interface (Network.uun3_id n) (Network._router n), Network.host "dm42" n, Network.host "dm43" n with
  | Ret x, Ret y, Ret z => map (fun i => NetworkInterface._ethernet_address (base i)) [x; Host.interface y; Host.interface z]
  | _, _, _ => []
  end.

Lemma hub_distinct m k l l' :
  NoDup (hub_addresses (net (plugged m) none)) -> l ∈ neighbours k -> l' ∈ neighbours k -> m l = m l' -> l = l'.
Proof.
  change (hub_addresses (net (plugged m) none)) with [m Uun3; m Dm42; m Dm43].
  rewrite !NoDup_cons, !not_elem_of_cons. intros ((H1 & H2 & _) & (H3 & _) & _) Hl Hl' Hm.
  apply (bool_decide_eq_true_2 _) in Hl, Hl'. destruct k, l; try done; destruct l'; try done; congruence.
Qed.

Section Run.
Context {R : Type} (rd : R -> Z * R) (ok : R -> Prop).
Context (rd_ok : forall g, ok g -> in_bits 32 (fst (rd g)) /\ ok (snd (rd g))).
Context {RsI : Resolver} {RsL : ResolverLaws}.
Context (wild_shift : Z -> Z -> Z) (order : gmap Z Z -> list (Z * Z)).
Context (order_ok : forall m, order m ≡ₚ map_to_list m).

Lemma run_ok g :
  ok g -> (forall n g', Network.make rd g = Ret (n, g') -> NoDup (hub_addresses n)) ->
  exists mac, succeeds ok mac (network_simulator rd wild_shift order g).
Proof.
  intros Hg Hhub. destruct (make_ok rd ok rd_ok g Hg) as (mac & g0 & Hmake & Hmac & Hg0). specialize (Hhub _ _ Hmake).
  pose proof (fun j => proj1 (Hmac j)) as Hlen. pose proof (fun j => proj2 (Hmac j)) as Huni.
  pose proof (fun k l l' => hub_distinct mac k l l' Hhub) as Hdis. exists mac.
  pose proof (test_between_ok rd ok rd_ok mac Hlen Huni Hdis wild_shift order order_ok) as Hbetween.
  pose proof (test_to_ok rd ok rd_ok mac Hlen Huni Hdis wild_shift order order_ok) as Hto.
  pose proof (test_expiry_ok rd ok rd_ok mac Hlen Huni Hdis wild_shift order order_ok) as Hexpiry.
  pose proof up_applesauce as Hua. pose proof up_cherrypie as Huc. pose proof up_dm42 as Hud. unfold network_simulator.
  apply succeeds_bind; [exists (plugged mac), g0; split_and!; [done | split; [by apply plugged_rest | done] | done] | intros].
  apply succeeds_bind; [apply (Hbetween Applesauce 1%nat Eth0 Cherrypie); try done; by apply (downlink_route _ 0xc0a80000 24 3 Eth2) | intros].
  apply succeeds_bind; [apply (Hbetween Cherrypie 3%nat Eth2 Applesauce); try done; by apply (downlink_route _ 0x0a000000 8 1 Eth0) | intros].
  apply succeeds_bind; [apply (Hto Applesauce 1%nat Eth0 DefaultRouter _ 0x01020304); try done; by apply downlink_default | intros].
  apply succeeds_bind; [apply (Hto Applesauce 1%nat Eth0 HsRouter _ 0x8fc38311); try done; by apply (downlink_route _ 0x8fc38000 18 5 Hs4) | intros].
  apply succeeds_bind; [apply (Hto Cherrypie 3%nat Eth2 HsRouter _ 0x8fc3c134); try done; by apply (downlink_route _ 0x8fc3c000 19 5 Hs4) | intros].
  apply succeeds_bind; [apply (Hto Cherrypie 3%nat Eth2 HsRouter _ 0x8fc3dfff); try done; by apply (downlink_route _ 0x8fc3c000 19 5 Hs4) | intros].
  apply succeeds_bind; [apply (Hto Cherrypie 3%nat Eth2 DefaultRouter _ 0x8fc3e000); try done; by apply downlink_default | intros].
  apply succeeds_bind; [apply (Hbetween Dm42 4%nat Uun3 Dm43); try done; by apply (downlink_route _ 0xc6b2e500 24 4 Uun3) | intros].
  assert (Hip : in_bits 32 0x01020304) by (unfold in_bits; lia). rewrite (address_str "1.2.3.4" 0x01020304) by (done || by vm_compute). cbn [mbind outcome_bind].
  apply succeeds_bind; [apply (Hexpiry Applesauce 1%nat Eth0 _ 0x01020304); (done || lia || by apply inet_numeric) | intros].
  apply (Hexpiry Applesauce 1%nat Eth0 _ 0x01020304); (done || lia || by apply inet_numeric).
Qed.

End Run.

(** C8: the acceptance test that the program is always passes.  Whatever
    seed [random_device] gives, whatever the iteration order of the hash map
    and the result of an out-of-range shift: unless two interfaces on the
    link of dm42 and dm43 draw the same Ethernet address, every datagram the
    hosts send is carried by links, ARP and the router to the host that
    expects it, once and with one hop less to live, those whose time to live
    runs out arrive nowhere, and the program ends with nothing expected and
    nothing received left over. *)
Theorem network_simulation_succeeds {RsI : Resolver} {RsL : ResolverLaws} (random_device : nat -> Z)
    (wild_shift : Z -> Z -> Z) (order : gmap Z Z -> list (Z * Z)) :
  (forall m, order m ≡ₚ map_to_list m) ->
  (forall n g, Network.make Mt19937.draw (get_random_generator random_device) = Ret (n, g) -> NoDup (hub_addresses n)) ->
  exists network g, network_simulator Mt19937.draw wild_shift order (get_random_generator random_device) = Ret (network, g) /\
    Forall (fun e => Host._expecting_to_receive e.2 = [] /\ AsyncNetworkInterface.datagrams_out (Host._interface e.2) = [])
      (Network._hosts network).
Proof.
  intros Hord Hhub. destruct (run_ok Mt19937.draw RandomFacts.wf RandomFacts.draw_ok wild_shift order Hord _
    (proj1 (RandomFacts.generator_ok random_device)) Hhub) as (mac & s & g & Hrun & [_ He] & _).
  exists (net s none), g. split; [done |]. repeat (constructor; [split; [done | apply He] |]). constructor.
Qed.

(** With the shift of the x86 instruction and a seed of consecutive numbers. *)
Definition x86_shift (x n : Z) : Z := Z.shiftr x (n mod 32).

Lemma network_simulation_succeeds_witness :
  exists network g, network_simulator (RsI := NumericResolver.numeric_resolver) Mt19937.draw x86_shift map_to_list (get_random_generator Z.of_nat) = Ret (network, g) /\
    Forall (fun e => Host._expecting_to_receive e.2 = [] /\ AsyncNetworkInterface.datagrams_out (Host._interface e.2) = [])
      (Network._hosts network).
Proof.
  apply (network_simulation_succeeds (RsI := NumericResolver.numeric_resolver) (RsL := NumericResolverFacts.numeric_resolver_laws)); [done |]. intros n g Hn.
  assert (H : match Network.make (RsI := NumericResolver.numeric_resolver) Mt19937.draw (get_random_generator Z.of_nat) with
              | Ret (n, _) => bool_decide (NoDup (hub_addresses n)) | _ => false end = true) by (vm_compute; reflexivity).
  rewrite Hn in H. by apply bool_decide_eq_true in H.
Defined.

End NetworkFacts.
